(* ===== verification/_CoqProject ===== *)
-Q . S2P
prelude.v
effects.v
std_algorithms.v
std_strings.v
wrapping_integers.v
buffer.v
parser.v
checksum.v
ethernet.v
ipv4.v
tcp_segment.v
text.v
byte_stream.v
stream_reassembler.v
reassembly.v
tcp_receiver.v
tcp_sender.v
sending.v
in_order.v
transfer.v
tcp_connection.v
connection.v
progress.v
tcp_state.v
address.v
network_interface.v
arp_cache.v
router.v
routing.v
network_simulator.v
ethernet_link.v
provenance.v
simulated_network.v
simulation.v
file_descriptor.v
socket.v
eventloop.v
fd_adapter.v
adapters.v
typing.v
bidirectional_stream_copy.v
tcp_sponge_socket.v
sockets.v
command_line.v
programs.v
packet_dump.v
tcp_benchmark.v
benchmark_run.v
lab7.v
lab7_network.v
lab7_world.v
tcp_programs.v
mains.v
