(* ===== verification/prelude.v ===== *)
(** * A verification development for the Sponge TCP/IP stack

    Sponge is a user-space TCP/IP stack in C++: a TCP implementation over byte
    streams ([libsponge/]), network interfaces and a router, adapters and sockets
    that run TCP over UDP, TUN and TAP devices ([libsponge/tcp_helpers/]), the
    operating-system layer below ([libsponge/util/]), and programs on top
    ([apps/]). This development translates that code into executable Rocq
    definitions and proves what makes it correct.

    ** How the program is put together

    The owner of a TCP connection writes bytes into a [ByteStream]. The
    [TCPSender] cuts them into segments and repeats what is not acknowledged. The
    [TCPReceiver] of the peer hands payloads to its [StreamReassembler], which
    puts them in order into another [ByteStream], from which the peer's owner
    reads. A [TCPConnection] joins a sender and a receiver. A [TCPSpongeSocket]
    runs a connection in a thread of its own: an [EventLoop] watches the owner's
    end of a socket pair and the device of an adapter. The adapter puts segments
    into UDP or IPv4 datagrams, the latter into Ethernet frames by a
    [NetworkInterface]; a [Router] moves datagrams between interfaces.

    ** How it is modelled

    A class is a [Module] with a [Record] of its private members and one
    definition per method, of the same name. A method that can throw returns the
    state that it leaves and a [result]; longer ones are written in the monad of
    effects.v. Unsigned integers are in [Z], with the wrap-around of their width
    written out ([u8], [u16], [u32], [u64]). Undefined behaviour that the code can
    reach is an outcome of its own in the command lines, the packet dump and the
    checked reassembler of reassembly.v, which agrees with the plain one for every
    capacity but 0 ([push_substring_in_bounds]) and divides by zero for that one
    ([zero_capacity_undefined]); elsewhere a comment at the definition
    says what is undefined. What is outside the program is a parameter
    or an unconstrained argument: the answers of the kernel to system calls (type
    [answer]), of [poll], of the clock and of the random generators, name
    resolution (class [Address.Resolver], with the documented behaviour for
    numeric addresses as its law), [strtof] and [inet_ntop] for IPv6. Fields
    named [h_...] and [sent] are history variables: they record what a component
    has read, written or sent, and nothing depends on them. Reads and writes of
    descriptors and devices can fail at any call; a device that takes a part of a
    datagram is not excluded either, except in the theorems about the last lab and
    the full stack, which say so ([PacketDevice.whole], [PacketDevice.accepting]).

    ** The files

    - prelude.v, effects.v: integers, lists, results, the record notation, the
      hint database [sponge], the monad. std_algorithms.v, std_strings.v: what the
      source uses of the C++ and C libraries.
    - wrapping_integers.v ([wrapping_integers.{hh,cc}]): sequence numbers.
    - buffer.v, parser.v, checksum.v ([util/buffer], [util/parser],
      [InternetChecksum] of [util/util]); ethernet.v, ipv4.v, tcp_segment.v (headers,
      frames, ARP messages, datagrams and segments of [tcp_helpers/]); text.v (their
      texts, and [hexdump]).
    - byte_stream.v; stream_reassembler.v with reassembly.v; tcp_receiver.v;
      tcp_sender.v with sending.v; transfer.v; tcp_connection.v with connection.v;
      tcp_state.v; typing.v (classes of the same names; the second file of a pair
      holds the theorems). in_order.v and progress.v: receivers and connections
      whose segments arrive in order and are not lost.
    - address.v ([util/address]); network_interface.v with arp_cache.v; router.v
      with routing.v; ethernet_link.v and provenance.v (what interfaces on a link
      and chains of interfaces and routers do with datagrams).
    - file_descriptor.v and socket.v ([util/file_descriptor], [util/socket],
      [util/tun], [SystemCall]); eventloop.v ([util/eventloop]); fd_adapter.v with
      adapters.v (the adapters of [tcp_helpers/]; the template parameter is the type
      class [FdAdapter]); tcp_sponge_socket.v with sockets.v.
    - network_simulator.v with simulated_network.v and simulation.v
      ([apps/network_simulator.cc]); bidirectional_stream_copy.v; lab7.v with
      lab7_network.v and lab7_world.v ([apps/lab7.cc]); tcp_benchmark.v with
      benchmark_run.v; command_line.v (usage texts and [get_config] of
      [apps/tcp_udp.cc], [tcp_ipv4.cc], [tcp_ip_ethernet.cc]) and tcp_programs.v
      (their [main]); programs.v ([webget.cc], [tcp_native.cc]); packet_dump.v
      ([udp_tcpdump.cc], [tun.cc]); mains.v ([program_body] of [lab7.cc] and [main] of
      the other programs).

    ** What the theorems show

    - End to end. What one of the TCP programs prints is a prefix of what the
      other one has read, whatever their command lines
      ([programs_deliver_prefix]). Two endpoints of the last lab, each with its
      host, network interface, router and threads and with the Internet between
      them, deliver to the reader on one side a prefix of what was written on the
      other ([lab7_delivers_prefix]; [lab7_starts] shows that the program sets up
      such an endpoint); so do two TCP sockets over any adapter
      ([sockets_deliver_prefix]), two connections over any network
      ([endpoints_deliver_prefix]) and the two of the benchmark. The network loses,
      repeats, delays and reorders; the stream fits the receiver's capacity,
      because beyond it the reassembler can corrupt the stream (see the findings in
      reassembly.v).
    - Progress. When segments arrive in order, a stream of any length, far beyond
      the windows and capacities, arrives completely, and both connections end:
      the benchmark without reordering succeeds ([benchmark_succeeds]).
    - TCP. What the reassembler and the receiver deliver, for every order of
      arrival; that a sender only emits what belongs to the stream, and how it
      fills the window, handles acknowledgments and backs off; handshake, giving
      up, reset; that every segment fits its fields and an IPv4 datagram.
    - The network. Address resolution and, over every history of frames and ticks,
      the life of mappings; longest-prefix
      routing; that [route] ends; that the network simulator's own tests succeed
      for all random numbers; that the network thread passes on only what it was
      given.
    - Data. Round trips of parsing and serialization, of addresses and text and of
      command lines; the checksum against RFC 1071; the dump of bytes against its
      description line by line.
    - The operating system. [read], [write] and the event loop for every answer of
      the kernel; that no descriptor is lost; that copying loops copy.
    - Deviations. Theorems that are not of this kind show where the code does
      something else than it says, with a concrete input or in general
      ([overlapping_wrap_corrupts], [early_fin_ends_stream],
      [foreign_frame_learned], [webget_never_succeeds] and others).

    Most client theorems are proved against an interface: adapters are used through
    [FdAdapter] and [FdAdapterLaw], addresses through [AddressText] and
    [AddressTextLaw], which [resolver_text_law] derives from the law of name
    resolution.

    ** Fuel and bounds

    A loop that is not structural has fuel that is shown to be enough:
    [TCPSender.fill_loop] as many turns as bytes are buffered,
    [FileDescriptor.write_loop] and [PacketDevice.write_loop] one more than there
    are bytes ([write_fuel], [packet_write_fuel]), the
    folding of the checksum two ([fold_loop_fuel]), the options of a command line
    as many as arguments, the IPv6 headers of a packet one more than bytes
    ([dump_in_bounds]), the input of the benchmark as many as bytes
    ([write_input_keeps]), the benchmark's loops as many as bytes and 14
    ([benchmark_succeeds]); [hex_width] has 15, enough for 64 bits. The simulator's
    loop of 256 rounds is the code's. A loop that waits for the world (event
    loops, network threads, the benchmark) takes the list of its rounds, or their
    number, as an argument; its result says whether it has ended, and the theorems
    hold for every such list. Lengths that the theorems bound by 2^62 or 2^63 are
    lengths of data in memory.

    ** What is not modelled

    Debugging output; the text of exceptions; the clock ([timestamp_ms]) and the
    seeding of random generators ([get_random_generator]), which are arguments;
    threads as such, which appear as interleavings of their steps; the closing of
    descriptors by destructors when [main] returns; what the functions of the
    packet capture library do; [libsponge/BST.hh], a draft of the trie of
    [router.hh] that does not compile and that nothing includes; the documentation
    examples and the tests. Headers are modelled as far as they hold code or data:
    their declarations are those of the modelled definitions. *)

From stdpp Require Export base tactics numbers list list_numbers gmap strings.
From Stdlib Require Export ZArith Lia.
From Stdlib Require Export Strings.Byte.

#[global] Open Scope Z_scope.
#[export] Set Default Goal Selector "!".

(** ** Machine integers

    A [w]-bit unsigned integer is a [Z]; the wrap-around of the C++ type is
    written where the source computes in that type. *)

Definition u8 (x : Z) : Z := x mod 2 ^ 8.
Definition u16 (x : Z) : Z := x mod 2 ^ 16.
Definition u32 (x : Z) : Z := x mod 2 ^ 32.
Definition u64 (x : Z) : Z := x mod 2 ^ 64.

(** Conversion of an unsigned 32-bit value to [int32_t] (two's complement). *)
Definition i32 (x : Z) : Z := (x + 2 ^ 31) mod 2 ^ 32 - 2 ^ 31.

Abbreviation is_u8 x := (0 <= x < 2 ^ 8).
Abbreviation is_u16 x := (0 <= x < 2 ^ 16).
Abbreviation is_u32 x := (0 <= x < 2 ^ 32).
Abbreviation is_u64 x := (0 <= x < 2 ^ 64).

Declare Scope sponge_scope.
Delimit Scope sponge_scope with sponge.
#[global] Open Scope sponge_scope.

(** [size()] of a container, as the [size_t] the source compares with. *)
Abbreviation zlen l := (Z.of_nat (length l)).

(** ** Records with named-field update *)

Class Setter {R T : Type} (proj : R -> T) := setter : (T -> T) -> R -> R.
Notation "s <| f := v |>" := (@setter _ _ f _ (fun _ => v) s)
  (at level 1, left associativity, f at level 200, v at level 200, format "s  <| f  :=  v |>")
  : sponge_scope.

(** ** Exceptions

    Where the source throws, the model returns [Throw] with the exception. *)

Inductive exn :=
  | out_of_range
  | length_error
  | bad_optional_access
  | runtime_error
  | invalid_argument
  | unix_error (errno : Z)
  | gai_error (code : Z).

Inductive result (A : Type) :=
  | Ok (a : A)
  | Throw (e : exn).
Arguments Ok {A} _.
Arguments Throw {A} _.

Lemma Ok_inj {A} (a b : A) : Ok a = Ok b -> a = b.
Proof. by injection 1. Qed.

Definition result_bind {A B} (m : result A) (f : A -> result B) : result B :=
  match m with Ok a => f a | Throw e => Throw e end.
Notation "'let*' x ':=' m 'in' k" := (result_bind m (fun x => k))
  (at level 10, x name, m at level 100, k at level 200) : sponge_scope.
Notation "'let*' ' p ':=' m 'in' k" := (result_bind m (fun x => match x with p => k end))
  (at level 10, p strict pattern, m at level 100, k at level 200) : sponge_scope.

(** ** Tactics *)

Create HintDb sponge.
Create HintDb sponge_len.

(** Reduce [u8] ... [u64] and [i32] to [mod] and let [lia] see the bounds. *)
Ltac unfold_ints := unfold u8, u16, u32, u64, i32 in *.
Ltac dlia := unfold_ints; Z.div_mod_to_equations; lia.

(** Case analysis on the boolean tests of the source. *)
Ltac destr_bool b :=
  lazymatch b with
  | (?x <? ?y)%Z => destruct (Z.ltb_spec x y)
  | (?x <=? ?y)%Z => destruct (Z.leb_spec x y)
  | (?x =? ?y)%Z => destruct (Z.eqb_spec x y)
  | (?x && ?y) => destr_bool x
  | (?x || ?y) => destr_bool x
  | negb ?x => destr_bool x
  | ?x => let E := fresh "E" in destruct x eqn:E
  end.
Ltac case_if :=
  match goal with
  | |- context [if ?b then _ else _] =>
      lazymatch b with
      | context [if _ then _ else _] => fail
      | _ => destr_bool b; cbn [andb orb negb]
      end
  end.
Ltac case_if_in H :=
  match type of H with
  | context [if ?b then _ else _] => destr_bool b; cbn [andb orb negb] in H
  end.

(** ** Lemmas on machine integers *)

Lemma u64_id x : is_u64 x -> u64 x = x.
Proof. intros. by apply Z.mod_small. Qed.
Lemma u32_id x : is_u32 x -> u32 x = x.
Proof. intros. by apply Z.mod_small. Qed.
Lemma u16_id x : is_u16 x -> u16 x = x.
Proof. intros. by apply Z.mod_small. Qed.
Lemma u8_id x : is_u8 x -> u8 x = x.
Proof. intros. by apply Z.mod_small. Qed.

Lemma u64_range x : is_u64 (u64 x).
Proof. by apply Z.mod_pos_bound. Qed.
Lemma u32_range x : is_u32 (u32 x).
Proof. by apply Z.mod_pos_bound. Qed.
Lemma u16_range x : is_u16 (u16 x).
Proof. by apply Z.mod_pos_bound. Qed.
Lemma u8_range x : is_u8 (u8 x).
Proof. by apply Z.mod_pos_bound. Qed.

(** Truncating to 32 bits after a 64-bit wrap is truncating directly. *)
Lemma u32_u64 x : u32 (u64 x) = u32 x.
Proof. unfold u32, u64. apply Z.mod_mod_divide. by exists (2 ^ 32). Qed.

Lemma u32_add_l x y : u32 (u32 x + y) = u32 (x + y).
Proof. unfold u32. by rewrite Zplus_mod_idemp_l. Qed.
Lemma u32_add_r x y : u32 (x + u32 y) = u32 (x + y).
Proof. unfold u32. by rewrite Zplus_mod_idemp_r. Qed.

Lemma u64_add_l x y : u64 (u64 x + y) = u64 (x + y).
Proof. unfold u64. by rewrite Zplus_mod_idemp_l. Qed.

#[export] Hint Resolve u64_range u32_range u16_range u8_range : sponge.

(** ** Bytes *)

#[global] Instance byte_eq_dec : EqDecision byte := Byte.byte_eq_dec.

(** The unsigned value of a [char] and the truncation of an integer to one. *)
Definition byte_to_Z (b : byte) : Z := Z.of_N (Byte.to_N b).
Definition byte_of_Z (z : Z) : byte :=
  match Byte.of_N (Z.to_N (u8 z)) with Some b => b | None => x00 end.

Lemma byte_to_Z_range b : is_u8 (byte_to_Z b).
Proof. unfold byte_to_Z. pose proof (Byte.to_N_bounded b). lia. Qed.
#[export] Hint Resolve byte_to_Z_range : sponge.

Lemma byte_of_to_Z b : byte_of_Z (byte_to_Z b) = b.
Proof.
  unfold byte_of_Z. rewrite u8_id by auto with sponge. unfold byte_to_Z.
  by rewrite N2Z.id, Byte.of_to_N.
Qed.

Lemma byte_to_of_Z z : byte_to_Z (byte_of_Z z) = u8 z.
Proof.
  unfold byte_of_Z, byte_to_Z. pose proof (u8_range z).
  destruct (Byte.of_N (Z.to_N (u8 z))) as [b|] eqn:E.
  - apply Byte.to_of_N in E. rewrite E. lia.
  - apply Byte.of_N_None_iff in E. lia.
Qed.

(** Big-endian ("network order") numbers. *)
Definition be_combine (l : list byte) : Z := foldl (fun acc b => acc * 256 + byte_to_Z b) 0 l.
Definition be_split (n : nat) (v : Z) : list byte :=
  map (fun i => byte_of_Z (v / 2 ^ (8 * Z.of_nat (n - i - 1)))) (seq 0 n).

Lemma length_be_split n v : length (be_split n v) = n.
Proof. unfold be_split. by rewrite length_map, length_seq. Qed.

Lemma be_combine_snoc l b : be_combine (l ++ [b]) = be_combine l * 256 + byte_to_Z b.
Proof. unfold be_combine. by rewrite foldl_snoc. Qed.

Lemma be_split_snoc n v : be_split (S n) v = be_split n (v / 256) ++ [byte_of_Z v].
Proof.
  unfold be_split. rewrite seq_S, map_app. cbn. f_equal.
  - apply map_ext_in. intros i Hi%in_seq. f_equal.
    replace (8 * Z.of_nat (S n - i - 1)) with (8 + 8 * Z.of_nat (n - i - 1)) by lia.
    rewrite Z.pow_add_r by lia. change (2 ^ 8) with 256. by rewrite Z.div_div by lia.
  - do 2 f_equal. replace (S n - n - 1)%nat with 0%nat by lia. by rewrite Z.div_1_r.
Qed.

Lemma be_combine_range l : 0 <= be_combine l < 2 ^ (8 * zlen l).
Proof.
  induction l as [|b l IH] using rev_ind; [done|].
  rewrite be_combine_snoc, length_app. pose proof (byte_to_Z_range b).
  replace (8 * Z.of_nat (length l + length [b])) with (8 * zlen l + 8) by (cbn; lia).
  rewrite Z.pow_add_r by lia. lia.
Qed.

Lemma be_combine_split n v : be_combine (be_split n v) = v mod 2 ^ (8 * Z.of_nat n).
Proof.
  revert v. induction n as [|n IH]; intros v; [by rewrite Z.mod_1_r|].
  rewrite be_split_snoc, be_combine_snoc, IH, byte_to_of_Z. unfold u8. change (2 ^ 8) with 256.
  replace (8 * Z.of_nat (S n)) with (8 + 8 * Z.of_nat n) by lia.
  rewrite Z.pow_add_r by lia. change (2 ^ 8) with 256.
  rewrite Z.rem_mul_r by lia. lia.
Qed.

Lemma be_split_combine l : be_split (length l) (be_combine l) = l.
Proof.
  induction l as [|b l IH] using rev_ind; [done|].
  rewrite length_app, Nat.add_1_r, be_split_snoc, be_combine_snoc.
  pose proof (byte_to_Z_range b). rewrite Z.div_add_l by lia. rewrite (Z.div_small (byte_to_Z b)) by lia.
  rewrite Z.add_0_r, IH. f_equal. f_equal. rewrite <- (byte_of_to_Z b) at 2. unfold byte_of_Z.
  do 2 f_equal. unfold u8. rewrite Z.add_comm. change (2 ^ 8) with 256. by rewrite Z.mod_add by lia.
Qed.

(** ** Sublists *)

Lemma Forall_sublist {A} (P : A -> Prop) l k : l `sublist_of` k -> Forall P k -> Forall P l.
Proof.
  induction 1 as [|x l k _ IH|x l k _ IH]; intros Hk; [done| |]; apply Forall_cons_1 in Hk as [? ?].
  - apply Forall_cons_2; auto.
  - auto.
Qed.

(** ** Bit fields *)

Lemma flag_bit x n : 0 <= n -> negb (Z.land x (2 ^ n) =? 0) = Z.testbit x n.
Proof.
  intros Hn. destruct (Z.testbit x n) eqn:E.
  - destruct (Z.eqb_spec (Z.land x (2 ^ n)) 0) as [H|]; [|done]. exfalso.
    apply (f_equal (fun y => Z.testbit y n)) in H.
    rewrite Z.land_spec, Z.pow2_bits_true, E, Z.bits_0 in H by done. done.
  - destruct (Z.eqb_spec (Z.land x (2 ^ n)) 0) as [|H]; [done|]. exfalso. apply H.
    apply Z.bits_inj'. intros m Hm. rewrite Z.land_spec, Z.bits_0.
    destruct (decide (n = m)) as [->|]; [by rewrite E|].
    rewrite Z.pow2_bits_false by done. apply andb_false_r.
Qed.

Lemma lor_range a b n : 0 <= n -> 0 <= a < 2 ^ n -> 0 <= b < 2 ^ n -> 0 <= Z.lor a b < 2 ^ n.
Proof.
  intros Hn Ha Hb. split; [apply Z.lor_nonneg; lia|].
  assert (Z.lor a b = Z.lor a b mod 2 ^ n) as ->; [|apply Z.mod_pos_bound; lia].
  rewrite <- Z.land_ones, Z.land_lor_distr_l, !Z.land_ones, !Z.mod_small by lia. done.
Qed.

(** Two bit fields put together and taken apart. *)
Lemma field_high a b n :
  0 <= n -> 0 <= b < 2 ^ n -> Z.shiftr (Z.lor (Z.shiftl a n) b) n = a.
Proof.
  intros Hn Hb. rewrite Z.shiftr_lor, Z.shiftr_shiftl_l, Z.sub_diag, Z.shiftl_0_r by lia.
  rewrite (Z.shiftr_div_pow2 b), Z.div_small by lia. apply Z.lor_0_r.
Qed.

Lemma field_low a b n :
  0 <= n -> 0 <= b < 2 ^ n -> Z.land (Z.lor (Z.shiftl a n) b) (Z.ones n) = b.
Proof.
  intros Hn Hb. rewrite Z.land_lor_distr_l, !Z.land_ones, Z.shiftl_mul_pow2 by lia.
  rewrite Z.mod_mul by lia. rewrite Z.lor_0_l. by apply Z.mod_small.
Qed.
