(* ===== verification/effects.v ===== *)
(** State and exceptions: the monad of the handlers that thread an object's
    state through many calls that can throw. An exception keeps the state
    reached so far, as a C++ object does. *)

From S2P Require Import prelude.

Definition M (S A : Type) : Type := S -> S * result A.

Definition ret {S A} (a : A) : M S A := fun s => (s, Ok a).
Definition bind {S A B} (m : M S A) (k : A -> M S B) : M S B := fun s =>
  let '(s, r) := m s in match r with Ok a => k a s | Throw e => (s, Throw e) end.
Definition get {S} : M S S := fun s => (s, Ok s).
Definition modify {S} (f : S -> S) : M S unit := fun s => (f s, Ok tt).
Definition throw {S A} (e : exn) : M S A := fun s => (s, Throw e).
(** A computation that does not touch the state. *)
Definition lift {S A} (r : result A) : M S A := fun s => (s, r).
(** A computation on a component of the state. *)
Definition zoom {S T A} (proj : S -> T) (put : T -> S -> S) (m : M T A) : M S A := fun s =>
  let '(t, r) := m (proj s) in (put t s, r).

Declare Scope effect_scope.
Delimit Scope effect_scope with effect.
Notation "x <- m ;; k" := (bind m (fun x => k)) (at level 100, m at next level, right associativity) : effect_scope.
Notation "m ;; k" := (bind m (fun _ => k)) (at level 100, right associativity) : effect_scope.
Notation "'when' b 'do' m" := (if b then m else ret tt) (at level 99, b at level 50, m at level 99) : effect_scope.
#[global] Open Scope effect_scope.

Section Laws.
Context {S : Type}.

Lemma bind_ret {A B} (a : A) (k : A -> M S B) s : bind (ret a) k s = k a s.
Proof. done. Qed.

Lemma bind_lift {A B} (r : result A) (k : A -> M S B) s :
  bind (lift r) k s = match r with Ok a => k a s | Throw e => (s, Throw e) end.
Proof. by destruct r. Qed.

Lemma bind_step {A B} (m : M S A) (k : A -> M S B) s s' a : m s = (s', Ok a) -> bind m k s = k a s'.
Proof. intros E. unfold bind. by rewrite E. Qed.

Lemma bind_throw {A B} (m : M S A) (k : A -> M S B) s s' e : m s = (s', Throw e) -> bind m k s = (s', Throw e).
Proof. intros E. unfold bind. by rewrite E. Qed.

(** A computation that returns normally did so at every step. *)
Lemma bind_ok {A B} (m : M S A) (k : A -> M S B) s s' b :
  bind m k s = (s', Ok b) -> exists a s1, m s = (s1, Ok a) /\ k a s1 = (s', Ok b).
Proof. unfold bind. destruct (m s) as [s1 [a|e]]; intros H; [by exists a, s1|done]. Qed.

Lemma bind_ext {A B} (m : M S A) (k k' : A -> M S B) s :
  (forall a s', m s = (s', Ok a) -> k a s' = k' a s') -> bind m k s = bind m k' s.
Proof. unfold bind. destruct (m s) as [s1 [a|e]]; [|done]. intros H. by apply H. Qed.
End Laws.
