(* ===== verification/std_algorithms.v ===== *)
(** The pieces of the C++ standard library the sources use on strings and
    [vector<bool>]: [std::string::substr] and [replace], and the algorithms
    [std::fill], [std::accumulate] and [std::find] on an iterator range.

    Positions are natural numbers. [substr] and [replace] throw when the
    position is past the end; that the positions passed by the callers are in
    range is proved where they are used. *)

From S2P Require Import prelude.

Section Ranges.
Context {A : Type}.
Implicit Types (l : list A) (a b i n : nat).

(** [s.substr(pos, n)] *)
Definition substr l (pos n : nat) : list A := take n (drop pos l).

(** [s.replace(pos, n, r)] *)
Definition str_replace l (pos n : nat) (r : list A) : list A :=
  take pos l ++ r ++ drop (pos + n) l.

(** [fill(begin + a, begin + b, v)] *)
Definition fill l a b (v : A) : list A := take a l ++ replicate (b - a) v ++ drop b l.

Lemma length_substr l pos n : length (substr l pos n) = Nat.min n (length l - pos).
Proof. unfold substr. by rewrite length_take, length_drop. Qed.

Lemma lookup_substr l pos n i :
  (i < n)%nat -> substr l pos n !! i = l !! (pos + i)%nat.
Proof. intros. unfold substr. by rewrite lookup_take_lt, lookup_drop by lia. Qed.

Lemma take_substr l pos n m : (m <= n)%nat -> take m (substr l pos n) = substr l pos m.
Proof. intros. unfold substr. rewrite take_take. f_equal. lia. Qed.

Lemma length_str_replace l pos n r :
  (pos + n <= length l)%nat -> length r = n -> length (str_replace l pos n r) = length l.
Proof.
  intros. unfold str_replace. rewrite !length_app, length_take, length_drop. lia.
Qed.

Lemma lookup_str_replace l pos n r i :
  (pos + n <= length l)%nat -> length r = n ->
  str_replace l pos n r !! i =
    if decide (pos <= i < pos + n)%nat then r !! (i - pos)%nat else l !! i.
Proof.
  intros Hle Hr. unfold str_replace. case_decide as Hi.
  - rewrite lookup_app_r; rewrite length_take; [|lia].
    rewrite lookup_app_l by lia. f_equal. lia.
  - destruct (decide (i < pos)%nat).
    + rewrite lookup_app_l by (rewrite length_take; lia). by rewrite lookup_take_lt.
    + rewrite lookup_app_r; rewrite length_take; [|lia].
      rewrite lookup_app_r by lia. rewrite lookup_drop. f_equal. lia.
Qed.

Lemma fill_replace l a b v :
  (a <= b)%nat -> fill l a b v = str_replace l a (b - a) (replicate (b - a) v).
Proof. intros. unfold fill, str_replace. do 3 f_equal. lia. Qed.

Lemma length_fill l a b v : (a <= b <= length l)%nat -> length (fill l a b v) = length l.
Proof.
  intros. rewrite fill_replace by lia.
  apply length_str_replace; [lia|]. by rewrite length_replicate.
Qed.

Lemma lookup_fill l a b v i :
  (a <= b <= length l)%nat ->
  fill l a b v !! i = if decide (a <= i < b)%nat then Some v else l !! i.
Proof.
  intros. rewrite fill_replace by lia.
  rewrite lookup_str_replace by (rewrite ?length_replicate; lia).
  destruct (decide (a <= i < b)%nat), (decide (a <= i < a + (b - a))%nat); try lia; [|done].
  by rewrite lookup_replicate_2 by lia.
Qed.

Lemma fill_nil_range l a v : (a <= length l)%nat -> fill l a a v = l.
Proof. intros. unfold fill. rewrite Nat.sub_diag. cbn. by rewrite take_drop. Qed.

Lemma substr_split l a b :
  (a <= b <= length l)%nat -> l = take a l ++ substr l a (b - a) ++ drop b l.
Proof.
  intros. unfold substr. rewrite <- (take_drop a l) at 1. f_equal.
  rewrite <- (take_drop (b - a) (drop a l)) at 1. f_equal.
  rewrite drop_drop. f_equal. lia.
Qed.
End Ranges.

(** [accumulate(first, last, 0)] over booleans: how many are [true]. *)
Definition count_true (l : list bool) : Z :=
  foldr (fun b acc => Z.b2z b + acc) 0 l.

(** [find(first, last, true) - first]: position of the first [true], or the
    length of the range when there is none. *)
Fixpoint find_true (l : list bool) : nat :=
  match l with
  | [] => 0
  | true :: _ => 0
  | false :: l' => S (find_true l')
  end.

Lemma count_true_app l k : count_true (l ++ k) = count_true l + count_true k.
Proof. induction l as [|b l IH]; cbn -[Z.add]; [done|]. unfold count_true in *. lia. Qed.

Lemma count_true_replicate n b : count_true (replicate n b) = if b then Z.of_nat n else 0.
Proof.
  induction n as [|n IH]; [by destruct b|]. cbn -[Z.add Z.of_nat]. fold (count_true (replicate n b)).
  rewrite IH. destruct b; cbn -[Z.add Z.of_nat]; lia.
Qed.

Lemma count_true_bound l : 0 <= count_true l <= zlen l.
Proof.
  induction l as [|b l IH]; [by cbn|]. cbn -[Z.add Z.of_nat]. fold (count_true l).
  destruct b; cbn -[Z.add Z.of_nat]; lia.
Qed.

(** Filling a range changes the count by what the range held. *)
Lemma count_true_fill l a b v :
  (a <= b <= length l)%nat ->
  count_true (fill l a b v) =
    count_true l - count_true (substr l a (b - a)) + (if v then Z.of_nat (b - a) else 0).
Proof.
  intros H. rewrite (substr_split l a b H) at 2. unfold fill.
  rewrite !count_true_app, count_true_replicate. lia.
Qed.

Lemma find_true_le l : (find_true l <= length l)%nat.
Proof. induction l as [|[] l IH]; cbn; lia. Qed.

Lemma find_true_before l i : (i < find_true l)%nat -> l !! i = Some false.
Proof.
  revert i. induction l as [|b l IH]; intros i Hi; cbn in Hi; [lia|].
  destruct b; [lia|]. destruct i as [|i]; [done|]. cbn. apply IH. lia.
Qed.

Lemma find_true_at l : (find_true l < length l)%nat -> l !! find_true l = Some true.
Proof. induction l as [|[] l IH]; cbn; intros; [lia|done|]. apply IH. lia. Qed.

Lemma count_true_all l : count_true l = zlen l <-> Forall (fun b => b = true) l.
Proof.
  induction l as [|b l IH]; [done|]. rewrite Forall_cons, <- IH.
  cbn -[Z.add Z.of_nat]. fold (count_true l). pose proof (count_true_bound l).
  destruct b; cbn -[Z.add Z.of_nat]; split; intros; destruct_and?; try split; try lia; done.
Qed.

Lemma count_true_none l : (forall i, (i < length l)%nat -> l !! i = Some false) -> count_true l = 0.
Proof.
  induction l as [|b l IH]; intros H; [done|].
  assert (b = false) as -> by (specialize (H 0%nat); cbn in H; injection H; [done|lia]).
  cbn. apply IH. intros i Hi. apply (H (S i)). cbn. lia.
Qed.

Lemma count_true_cons b l : count_true (b :: l) = Z.b2z b + count_true l.
Proof. done. Qed.

Lemma count_true_negb {A} (f : A -> bool) l :
  count_true (map (fun x => negb (f x)) l) = zlen l - count_true (map f l).
Proof.
  induction l as [|x l IH]; [done|]. cbn [map length]. rewrite !count_true_cons, IH.
  destruct (f x); cbn; lia.
Qed.

Lemma count_true_map_false {A} (f : A -> bool) l :
  (forall x, In x l -> f x = false) -> count_true (map f l) = 0.
Proof.
  induction l as [|x l IH]; intros H; [done|]. cbn [map]. rewrite count_true_cons, IH, H; [done|by left|].
  intros. apply H. by right.
Qed.

#[global] Arguments count_true : simpl never.
#[global] Arguments substr : simpl never.
#[global] Arguments str_replace : simpl never.
#[global] Arguments fill : simpl never.

(** [ret.resize(n)] on a string: truncation, or padding with null characters. *)
Definition str_resize (s : list byte) (n : Z) : list byte :=
  take (Z.to_nat n) s ++ replicate (Z.to_nat n - length s) x00.

Lemma str_resize_pad s n :
  zlen s <= n -> str_resize s n = s ++ replicate (Z.to_nat n - length s) x00.
Proof. intros. unfold str_resize. by rewrite take_ge by lia. Qed.
