(* ===== verification/std_strings.v ===== *)
(** What the source uses of the text functions of the standard library: numbers
    to text ([to_string], [hex] with [setw] and [setfill('0')], [inet_ntoa]),
    text to numbers ([strtol], [stoi]) and the comparison of C strings. *)

From stdpp Require Import pretty.
From Stdlib Require Import Ascii.
From S2P Require Import prelude.

(** ** Text to numbers *)

Definition isspace (c : ascii) : bool := let n := N_of_ascii c in ((n =? 32) || (9 <=? n) && (n <=? 13))%N.

(** The value of a digit, up to base 36. *)
Definition digit_value (c : ascii) : Z :=
  let n := Z.of_N (N_of_ascii c) in
  if (48 <=? n) && (n <=? 57) then n - 48
  else if (97 <=? n) && (n <=? 122) then n - 87
  else if (65 <=? n) && (n <=? 90) then n - 55
  else 36.

(** The longest run of digits: its value, from [acc] on, and what follows it. *)
Fixpoint read_digits (base : Z) (s : string) (acc : Z) : Z * string :=
  match s with
  | EmptyString => (acc, s)
  | String c s' => if digit_value c <? base then read_digits base s' (acc * base + digit_value c) else (acc, s)
  end.

Fixpoint skip_space (s : string) : string :=
  match s with String c s' => if isspace c then skip_space s' else s | EmptyString => s end.

(** An optional sign. *)
Definition read_sign (s : string) : bool * string :=
  match s with
  | String c s' => if Ascii.eqb c "-" then (true, s') else if Ascii.eqb c "+" then (false, s') else (false, s)
  | EmptyString => (false, s)
  end.

(** The prefix of a hexadecimal number, which counts only before a digit. *)
Definition hex_prefix (s : string) : option string :=
  match s with
  | String c (String x (String d _ as s')) =>
      if Ascii.eqb c "0" && (Ascii.eqb x "x" || Ascii.eqb x "X") && (digit_value d <? 16) then Some s' else None
  | _ => None
  end.

(** With base 0 the prefix of the number decides. *)
Definition read_base (base : Z) (s : string) : Z * string :=
  if (base =? 0) || (base =? 16) then
    match hex_prefix s with
    | Some s' => (16, s')
    | None => (if base =? 16 then 16 else match s with String c _ => if Ascii.eqb c "0" then 8 else 10 | EmptyString => 10 end, s)
    end
  else (base, s).

(** The number at the start of a text, or that there is none. *)
Definition read_number (base : Z) (s : string) : option Z :=
  let '(negative, s) := read_sign (skip_space s) in
  let '(base, s) := read_base base s in
  let '(n, rest) := read_digits base s 0 in
  if String.eqb rest s then None else Some (if negative then - n else n).

(** [strtol(s, nullptr, base)] returns a [long]; without a number it returns 0. *)
Definition strtol (s : string) (base : Z) : Z :=
  match read_number base s with
  | None => 0
  | Some n => Z.max (- 2 ^ 63) (Z.min (2 ^ 63 - 1) n)
  end.

(** [std::stoi] *)
Definition stoi (s : string) : result Z :=
  match read_number 10 s with
  | None => Throw invalid_argument
  | Some n => if (n <? - 2 ^ 31) || (2 ^ 31 - 1 <? n) then Throw out_of_range else Ok n
  end.

(** The characters of a C string that [strncmp] compares, the terminator included. *)
Fixpoint c_chars (n : nat) (s : string) : list ascii :=
  match n, s with
  | O, _ => []
  | S _, EmptyString => [Ascii.zero]
  | S n, String c s => c :: c_chars n s
  end.
(** [strncmp(a, b, n) == 0] *)
Definition strncmp_eq (a b : string) (n : nat) : bool := bool_decide (c_chars n a = c_chars n b).

(** ** Numbers to text *)

(** [to_string] of an unsigned number. *)
Definition to_string (n : Z) : string := pretty (Z.to_N n).

Definition hex_digit (n : Z) : ascii := ascii_of_N (Z.to_N (if n <? 10 then 48 + n else 87 + n)).

(** The last [width] hexadecimal digits of a number. *)
Fixpoint hex_fixed (width : nat) (n : Z) : string :=
  match width with O => EmptyString | S w => hex_fixed w (n / 16) +:+ String (hex_digit (n mod 16)) EmptyString end.

(** The hexadecimal digits a number needs: [fuel] is their number at most. *)
Fixpoint hex_width (fuel : nat) (n : Z) : nat :=
  match fuel with O => 1 | S f => if n <? 16 then 1 else S (hex_width f (n / 16)) end.
(** [hex << setw(width) << setfill('0') << n], for a number of up to 64 bits. *)
Definition hex (width : nat) (n : Z) : string := hex_fixed (Nat.max width (hex_width 15 n)) n.

(** [inet_ntoa({htobe32(ip)})] *)
Definition inet_ntoa (ip : Z) : string :=
  to_string (ip / 2 ^ 24) +:+ "." +:+ to_string (ip / 2 ^ 16 mod 2 ^ 8) +:+ "." +:+
  to_string (ip / 2 ^ 8 mod 2 ^ 8) +:+ "." +:+ to_string (ip mod 2 ^ 8).

(** ** Reading back what was written *)

Lemma digit_value_char x : (x < 10)%N -> digit_value (pretty_N_char x) = Z.of_N x.
Proof.
  intros Hx. assert (H : exists k : nat, x = N.of_nat k /\ (k < 10)%nat) by (exists (N.to_nat x); lia).
  destruct H as (k & -> & Hk). do 10 (destruct k as [|k]; [reflexivity|]). lia.
Qed.

Lemma read_digits_go x s : read_digits 10 (pretty_N_go x s) 0 = read_digits 10 s (Z.of_N x).
Proof.
  revert s. induction (N.lt_wf_0 x) as [x _ IH]; intros s. destruct (N.eq_0_gt_0_cases x) as [->|Hx]; [done|].
  rewrite pretty_N_go_step, IH by (done || by apply N.div_lt). cbn [read_digits].
  pose proof (N.mod_lt x 10 ltac:(done)) as Hm. rewrite digit_value_char by done.
  destruct (Z.ltb_spec (Z.of_N (x mod 10)) 10); [|lia].
  f_equal. rewrite (N.div_mod x 10) at 3 by done. lia.
Qed.

Lemma string_app_assoc (s1 s2 s3 : string) : (s1 +:+ s2) +:+ s3 = s1 +:+ (s2 +:+ s3).
Proof. induction s1 as [|c s1 IH]; [done|]. exact (f_equal (String c) IH). Qed.

Lemma pretty_N_go_app x s t : pretty_N_go x s +:+ t = pretty_N_go x (s +:+ t).
Proof.
  revert s. induction (N.lt_wf_0 x) as [x _ IH]; intros s. destruct (N.eq_0_gt_0_cases x) as [->|Hx]; [done|].
  rewrite !(pretty_N_go_step x) by done. by rewrite IH by (by apply N.div_lt).
Qed.

(** Text that does not go on with a digit. *)
Definition ends_number (s : string) : Prop :=
  match s with EmptyString => True | String c _ => 10 <= digit_value c end.

Lemma read_digits_stop s acc : ends_number s -> read_digits 10 s acc = (acc, s).
Proof. destruct s as [|c s]; [done|]. cbn. intros H. by destruct (Z.ltb_spec (digit_value c) 10); [lia|]. Qed.

Lemma read_to_string n s : 0 <= n -> ends_number s -> read_digits 10 (to_string n +:+ s) 0 = (n, s).
Proof.
  intros Hn Hs. unfold to_string, pretty, pretty_N. case_decide as E.
  - assert (n = 0) as -> by lia. exact (read_digits_stop s 0 Hs).
  - rewrite pretty_N_go_app, read_digits_go, read_digits_stop by done. by rewrite Z2N.id.
Qed.

(** The first character of a number. *)
Lemma pretty_N_go_head x s : (0 < x)%N -> exists d s', pretty_N_go x s = String (pretty_N_char d) s' /\ (0 < d < 10)%N.
Proof.
  revert s. induction (N.lt_wf_0 x) as [x _ IH]; intros s Hx. rewrite pretty_N_go_step by done.
  destruct (N.eq_0_gt_0_cases (x / 10)) as [E|H1]; [|by apply IH; [apply N.div_lt|]].
  rewrite E. eexists _, _. split; [done|]. pose proof (N.div_mod x 10 ltac:(done)) as Hd. pose proof (N.mod_lt x 10 ltac:(done)). lia.
Qed.

Lemma to_string_head n s : 0 <= n -> exists d s', to_string n +:+ s = String (pretty_N_char d) s' /\ (d < 10)%N.
Proof.
  intros Hn. unfold to_string, pretty, pretty_N. case_decide as E; [by exists 0%N, s|].
  destruct (pretty_N_go_head (Z.to_N n) "") as (d & s' & -> & Hd); [lia|]. exists d, (s' +:+ s). split; [done|lia].
Qed.

Lemma char_plain d : (d < 10)%N ->
  isspace (pretty_N_char d) = false /\ Ascii.eqb (pretty_N_char d) "-" = false /\ Ascii.eqb (pretty_N_char d) "+" = false.
Proof.
  intros Hd. assert (H : exists k : nat, d = N.of_nat k /\ (k < 10)%nat) by (exists (N.to_nat d); lia).
  destruct H as (k & -> & Hk). do 10 (destruct k as [|k]; [done|]). lia.
Qed.

Lemma read_number_to_string n s : 0 <= n -> ends_number s -> read_number 10 (to_string n +:+ s) = Some n.
Proof.
  intros Hn Hs. unfold read_number. destruct (to_string_head n s Hn) as (d & s' & E & Hd).
  destruct (char_plain d Hd) as (E1 & E2 & E3).
  assert (E4 : read_sign (skip_space (to_string n +:+ s)) = (false, to_string n +:+ s)).
  { rewrite E. cbn [skip_space read_sign]. rewrite E1. cbn [read_sign]. by rewrite E2, E3. }
  rewrite E4. cbn [read_base Z.eqb orb Pos.eqb]. rewrite read_to_string by done.
  destruct (String.eqb_spec s (to_string n +:+ s)) as [Es|]; [|done]. exfalso.
  rewrite E in Es. rewrite Es in Hs. cbn in Hs. rewrite digit_value_char in Hs by done. lia.
Qed.

Lemma string_app_nil_r (s : string) : s +:+ "" = s.
Proof. induction s as [|c s IH]; [done|]. exact (f_equal (String c) IH). Qed.

(** [stoi] reads what [to_string] writes. *)
Lemma stoi_to_string n : 0 <= n < 2 ^ 31 -> stoi (to_string n) = Ok n.
Proof.
  intros Hn. unfold stoi. rewrite <- (string_app_nil_r (to_string n)), read_number_to_string by (done || lia).
  destruct (Z.ltb_spec n (- 2 ^ 31)), (Z.ltb_spec (2 ^ 31 - 1) n); done || lia.
Qed.

(** The same for hexadecimal digits. *)

Lemma digit_value_hex n : 0 <= n < 16 -> digit_value (hex_digit n) = n.
Proof.
  intros Hn. assert (H : exists k : nat, n = Z.of_nat k /\ (k < 16)%nat) by (exists (Z.to_nat n); lia).
  destruct H as (k & -> & Hk). do 16 (destruct k as [|k]; [reflexivity|]). lia.
Qed.

Lemma read_hex_fixed w n s acc :
  0 <= n -> read_digits 16 (hex_fixed w n +:+ s) acc = read_digits 16 s (acc * 16 ^ Z.of_nat w + n mod 16 ^ Z.of_nat w).
Proof.
  revert n s. induction w as [|w IH]; intros n s Hn; cbn [hex_fixed].
  - f_equal. change (16 ^ Z.of_nat 0) with 1. rewrite Z.mod_1_r. lia.
  - rewrite string_app_assoc, IH by (apply Z.div_pos; lia). change (String (hex_digit (n mod 16)) "" +:+ s) with (String (hex_digit (n mod 16)) s).
    cbn [read_digits]. pose proof (Z.mod_pos_bound n 16 ltac:(lia)) as Hm. rewrite digit_value_hex by done.
    destruct (Z.ltb_spec (n mod 16) 16); [|lia]. f_equal. rewrite Nat2Z.inj_succ, Z.pow_succ_r by lia.
    rewrite (Z.rem_mul_r n 16 (16 ^ Z.of_nat w)) by lia. lia.
Qed.

Lemma hex_width_enough f n : 0 <= n < 16 ^ Z.of_nat (S f) -> n < 16 ^ Z.of_nat (hex_width f n).
Proof.
  revert n. induction f as [|f IH]; intros n Hn; cbn [hex_width]; [lia|]. destruct (Z.ltb_spec n 16) as [H|H]; [lia|].
  rewrite Nat2Z.inj_succ, Z.pow_succ_r in Hn by lia. rewrite Nat2Z.inj_succ, Z.pow_succ_r by lia. assert (H1 : n / 16 < 16 ^ Z.of_nat (hex_width f (n / 16))).
  { apply IH. split; [apply Z.div_pos; lia|]. apply Z.div_lt_upper_bound; lia. }
  pose proof (Z.mul_succ_div_gt n 16 ltac:(lia)) as H2. nia.
Qed.

(** Text that does not go on with a hexadecimal digit. *)
Definition ends_hex (s : string) : Prop :=
  match s with EmptyString => True | String c _ => 16 <= digit_value c end.

Lemma read_hex w n s : 0 <= n < 2 ^ 64 -> ends_hex s -> read_digits 16 (hex w n +:+ s) 0 = (n, s).
Proof.
  intros Hn Hs. unfold hex. rewrite read_hex_fixed by lia. rewrite Z.mod_small.
  - destruct s as [|c s]; [done|]. cbn in Hs |- *. by destruct (Z.ltb_spec (digit_value c) 16); [lia|].
  - split; [lia|]. apply Z.lt_le_trans with (16 ^ Z.of_nat (hex_width 15 n)); [by apply hex_width_enough|].
    apply Z.pow_le_mono_r; lia.
Qed.

(** Numbers in front of two equal texts are equal. *)
Lemma hex_cancel w n m s t :
  hex w n +:+ s = hex w m +:+ t -> is_u64 n -> is_u64 m -> ends_hex s -> ends_hex t -> n = m /\ s = t.
Proof.
  intros E Hn Hm Hs Ht. pose proof (read_hex w n s Hn Hs) as H. rewrite E, read_hex in H by done. by injection H as -> ->.
Qed.

Lemma string_app_cancel (s t1 t2 : string) : s +:+ t1 = s +:+ t2 -> t1 = t2.
Proof. induction s as [|c s IH]; [done|]. intros E. apply IH. by injection E. Qed.

(** [strtol] with base 0 does, too: only the number 0 begins with the digit 0. *)
Lemma strtol_to_string n : 0 <= n < 2 ^ 63 -> strtol (to_string n) 0 = n.
Proof.
  intros Hn. destruct (decide (n = 0)) as [->|H0]; [by vm_compute|].
  assert (E : read_number 0 (to_string n) = read_number 10 (to_string n +:+ "")).
  { rewrite string_app_nil_r. unfold read_number, to_string, pretty, pretty_N. case_decide; [lia|].
    destruct (pretty_N_go_head (Z.to_N n) "") as (d & s' & -> & Hd); [lia|]. destruct (char_plain d ltac:(lia)) as (E1 & E2 & E3).
    cbn [skip_space]. rewrite E1. cbn [read_sign]. rewrite E2, E3. unfold read_base. cbn [Z.eqb orb Pos.eqb].
    assert (E4 : Ascii.eqb (pretty_N_char d) "0" = false).
    { assert (Hk : exists k : nat, d = N.of_nat k /\ (0 < k < 10)%nat) by (exists (N.to_nat d); lia).
      destruct Hk as (k & -> & Hk). do 10 (destruct k as [|k]; [done || lia|]). lia. }
    unfold hex_prefix. rewrite E4. by destruct s' as [|x [|y s'']]. }
  unfold strtol. rewrite E, read_number_to_string by (done || lia). lia.
Qed.
