(* ===== verification/wrapping_integers.v ===== *)
(** 32-bit sequence numbers ([libsponge/wrapping_integers.{hh,cc}]).

    [WrappingInt32] is the class of the same name; [wrap] and [unwrap] are the
    two free functions of [wrapping_integers.cc], with every [uint64_t]
    operation reduced modulo [2^64]; [wi_*] are the operators of the header. *)

From S2P Require Import prelude.

(** A 32-bit integer relative to an initial sequence number. *)
Record WrappingInt32 := mkWrappingInt32 { raw_value : Z }.

#[export] Instance WrappingInt32_eq_dec : EqDecision WrappingInt32.
Proof. solve_decision. Defined.

(** The stored value is a [uint32_t]. *)
Abbreviation wi_ok w := (is_u32 (raw_value w)).

(** [wrap] of wrapping_integers.cc. *)
Definition wrap (n : Z) (isn : WrappingInt32) : WrappingInt32 :=
  let mod_ := Z.shiftl 1 32 in
  mkWrappingInt32 (u32 (u64 (n + raw_value isn) mod mod_)).

(** [unwrap] of wrapping_integers.cc. *)
Definition unwrap (n isn : WrappingInt32) (checkpoint : Z) : Z :=
  let e31 := Z.shiftl 1 31 in
  let e32 := Z.shiftl 1 32 in
  let mid := u64 (checkpoint + raw_value isn) in
  let '(low, high) :=
    if mid <=? e31 then (0, u64 (e32 - 2))
    else (u64 (u64 (mid - e31) - 1), u64 (u64 (mid + e31) - 1)) in
  let num_cycle := mid / e32 in
  let cand := u64 (raw_value n + u64 (num_cycle * e32)) in
  if low <? cand then
    if u64 (high + 1) <? cand then
      let cand := u64 (cand - e32) in
      u64 (cand - raw_value isn)
    else if cand <? raw_value isn then u64 (u64 (cand + e32) - raw_value isn)
    else u64 (cand - raw_value isn)
  else u64 (u64 (cand + e32) - raw_value isn).

(** [operator-(WrappingInt32, WrappingInt32)], an [int32_t]. *)
Definition wi_diff (a b : WrappingInt32) : Z := i32 (u32 (raw_value a - raw_value b)).

(** [operator==] and [operator!=]. *)
Definition wi_eq (a b : WrappingInt32) : bool := raw_value a =? raw_value b.
Definition wi_neq (a b : WrappingInt32) : bool := negb (wi_eq a b).

(** [operator+(WrappingInt32, uint32_t)]. *)
Definition wi_add (a : WrappingInt32) (b : Z) : WrappingInt32 :=
  mkWrappingInt32 (u32 (raw_value a + b)).

(** [operator-(WrappingInt32, uint32_t)]: [a + -b]. *)
Definition wi_sub (a : WrappingInt32) (b : Z) : WrappingInt32 := wi_add a (u32 (- b)).

(** ** Lemmas *)

Lemma wi_eq_spec a b : wi_eq a b = true <-> a = b.
Proof.
  unfold wi_eq. rewrite Z.eqb_eq. destruct a, b; cbn. split; [by intros -> | by intros [= ->]].
Qed.

Lemma wrap_eq n isn : wrap n isn = mkWrappingInt32 (u32 (n + raw_value isn)).
Proof.
  unfold wrap. change (Z.shiftl 1 32) with (2 ^ 32). fold (u32 (u64 (n + raw_value isn))).
  by rewrite u32_u64, u32_id by auto with sponge.
Qed.

Lemma wrap_ok n isn : wi_ok (wrap n isn).
Proof. rewrite wrap_eq. cbn. auto with sponge. Qed.
#[export] Hint Resolve wrap_ok : sponge.

Lemma wrap_0 isn : wi_ok isn -> wrap 0 isn = isn.
Proof. intros H. rewrite wrap_eq, Z.add_0_l. destruct isn; cbn in *. by rewrite u32_id. Qed.

Lemma wi_sub_wrap n isn k : wi_sub (wrap n isn) k = wrap (n - k) isn.
Proof.
  unfold wi_sub, wi_add. rewrite !wrap_eq. cbn. f_equal.
  rewrite u32_add_l, u32_add_r. f_equal. lia.
Qed.

Lemma wi_add_wrap n isn k : wi_add (wrap n isn) k = wrap (n + k) isn.
Proof. unfold wi_add. rewrite !wrap_eq. cbn. f_equal. rewrite u32_add_l. f_equal. lia. Qed.

(** Two absolute numbers have the same relative number exactly when they
    differ by a multiple of [2^32]. *)
Lemma wrap_inj_iff a b isn : wrap a isn = wrap b isn <-> (a - b) mod 2 ^ 32 = 0.
Proof.
  rewrite !wrap_eq. split.
  - intros [= H]. unfold u32 in H. dlia.
  - intros H. f_equal. dlia.
Qed.

(** In every branch the result is [n - isn] up to a multiple of [2^32]. *)
Lemma unwrap_congr n isn c :
  u32 (unwrap n isn c) = u32 (raw_value n - raw_value isn).
Proof.
  unfold unwrap. change (Z.shiftl 1 31) with (2 ^ 31). change (Z.shiftl 1 32) with (2 ^ 32).
  repeat case_if; rewrite !u32_u64; dlia.
Qed.

Lemma unwrap_u64 n isn c : is_u64 (unwrap n isn c).
Proof. unfold unwrap. repeat case_if; apply u64_range. Qed.

(** The branches of [unwrap], with the 64-bit wrap-arounds resolved. *)
Lemma unwrap_branches n isn c :
  wi_ok n -> wi_ok isn -> 0 <= c < 2 ^ 64 - 2 ^ 34 ->
  let mid := c + raw_value isn in
  let cand := raw_value n + mid / 2 ^ 32 * 2 ^ 32 in
  unwrap n isn c =
    if (if mid <=? 2 ^ 31 then 0 else mid - 2 ^ 31 - 1) <? cand then
      if (if mid <=? 2 ^ 31 then 2 ^ 32 - 1 else mid + 2 ^ 31) <? cand
      then u64 (cand - 2 ^ 32 - raw_value isn)
      else if cand <? raw_value isn then cand + 2 ^ 32 - raw_value isn
      else cand - raw_value isn
    else cand + 2 ^ 32 - raw_value isn.
Proof.
  intros Hn Hi Hc mid cand. unfold unwrap.
  change (Z.shiftl 1 31) with (2 ^ 31). change (Z.shiftl 1 32) with (2 ^ 32).
  assert (Hmid : u64 (c + raw_value isn) = mid) by (apply u64_id; lia).
  rewrite Hmid. rewrite (u64_id (mid / 2 ^ 32 * 2 ^ 32)) by (subst mid; dlia).
  rewrite (u64_id (raw_value n + _)) by (subst mid; dlia). fold cand.
  assert (Hcand : 0 <= cand < 2 ^ 64 - 2 ^ 33) by (subst cand mid; dlia).
  destruct (Z.leb_spec mid (2 ^ 31)).
  - rewrite (u64_id (2 ^ 32 - 2)), (u64_id (2 ^ 32 - 2 + 1)) by lia.
    replace (2 ^ 32 - 2 + 1) with (2 ^ 32 - 1) by lia.
    repeat case_if; rewrite ?(u64_id (cand + 2 ^ 32)) by lia;
      rewrite ?(u64_id (cand - 2 ^ 32)) by lia; try reflexivity; apply u64_id; lia.
  - rewrite (u64_id (mid - 2 ^ 31)), (u64_id (mid + 2 ^ 31)) by lia.
    rewrite !u64_id with (x := mid - _ - _) by lia.
    rewrite (u64_id (mid + 2 ^ 31 - 1)) by lia.
    replace (mid + 2 ^ 31 - 1 + 1) with (mid + 2 ^ 31) by lia.
    rewrite (u64_id (mid + 2 ^ 31)) by lia.
    repeat case_if; rewrite ?(u64_id (cand + 2 ^ 32)) by lia;
      rewrite ?(u64_id (cand - 2 ^ 32)) by lia; try reflexivity; apply u64_id; lia.
Qed.

(** The result is nonnegative and never wraps unless the first branch takes the
    candidate below the ISN. *)
Definition unwrap_in_range (n isn : WrappingInt32) (c : Z) : Prop :=
  raw_value isn <= raw_value n \/ c + raw_value isn < 2 ^ 32
  \/ raw_value n <= c + raw_value isn - 2 ^ 31.

(** Up to the number exactly [2^31] ahead, as long as nothing that far behind
    competes with it. *)
Lemma unwrap_ahead a isn checkpoint :
  wi_ok isn -> 0 <= a -> 0 <= checkpoint < 2 ^ 64 - 2 ^ 34 ->
  checkpoint - 2 ^ 31 < a <= checkpoint + 2 ^ 31 -> (a = checkpoint + 2 ^ 31 -> checkpoint < 2 ^ 31) ->
  (a = 0 -> raw_value isn <> 0) ->
  unwrap (wrap a isn) isn checkpoint = a.
Proof.
  intros Hi Ha Hc Hnear Htie H0.
  rewrite unwrap_branches by auto with sponge. rewrite wrap_eq; cbn.
  destruct isn as [i]; cbn in *.
  assert (Hq : exists q, a + i = u32 (a + i) + 2 ^ 32 * q /\ 0 <= u32 (a + i) < 2 ^ 32).
  { exists ((a + i) / 2 ^ 32). dlia. }
  destruct Hq as (q & Hq & Hr). revert Hq Hr. generalize (u32 (a + i)). intros r Hq Hr.
  pose proof (Z.div_mod (checkpoint + i) (2 ^ 32) ltac:(lia)) as Hd.
  pose proof (Z.mod_pos_bound (checkpoint + i) (2 ^ 32) ltac:(lia)) as Hmd.
  revert Hd Hmd. generalize ((checkpoint + i) / 2 ^ 32), ((checkpoint + i) mod 2 ^ 32).
  intros p s Hd Hmd. repeat case_if; rewrite ?u64_id by lia; lia.
Qed.

Lemma unwrap_near a isn checkpoint :
  wi_ok isn -> 0 <= a -> 0 <= checkpoint < 2 ^ 64 - 2 ^ 34 ->
  checkpoint - 2 ^ 31 < a < checkpoint + 2 ^ 31 ->
  (a = 0 -> raw_value isn <> 0) ->
  unwrap (wrap a isn) isn checkpoint = a.
Proof. intros. apply unwrap_ahead; lia || done. Qed.

(** ** Properties *)

(** Unwrapping never changes the relative number it was given: for every
    32-bit [n] and [isn] and every checkpoint, wrapping the result of
    [unwrap n isn checkpoint] gives [n] back. *)
Theorem wrap_unwrap n isn checkpoint :
  wi_ok n -> wrap (unwrap n isn checkpoint) isn = n.
Proof.
  intros Hn. rewrite wrap_eq. destruct n as [n]; cbn in *. f_equal.
  rewrite <- u32_add_l, unwrap_congr, u32_add_l; cbn.
  replace (n - raw_value isn + raw_value isn) with n by lia. by apply u32_id.
Qed.

(** The absolute number a sender wrapped is recovered by a receiver whose
    checkpoint is less than [2^31] away from it, for every ISN, except for the pair
    "absolute number 0, ISN 0". *)
Theorem unwrap_wrap a isn checkpoint :
  wi_ok isn -> 0 <= a -> 0 <= checkpoint < 2 ^ 64 - 2 ^ 34 ->
  checkpoint - 2 ^ 31 < a < checkpoint + 2 ^ 31 ->
  (a = 0 -> raw_value isn <> 0) ->
  unwrap (wrap a isn) isn checkpoint = a.
Proof. apply unwrap_near. Qed.

(** C27. [unwrap] returns the absolute number its documentation promises: a
    64-bit number that wraps to [n] and, among all absolute numbers that do,
    one closest to the checkpoint. Three kinds of input are left out: [n = isn = 0]
    ([unwrap_zero_isn]); those where the closest candidate lies below the ISN
    ([unwrap_in_range] fails, see [unwrap_below_isn]); and checkpoints within
    [2^34] of [2^64], where the 64-bit sums in the code can wrap. *)
Theorem unwrap_closest n isn checkpoint :
  wi_ok n -> wi_ok isn -> 0 <= checkpoint < 2 ^ 64 - 2 ^ 34 ->
  (raw_value n = 0 -> raw_value isn <> 0) -> unwrap_in_range n isn checkpoint ->
  is_u64 (unwrap n isn checkpoint) /\
  wrap (unwrap n isn checkpoint) isn = n /\
  forall a, 0 <= a -> wrap a isn = n ->
    Z.abs (unwrap n isn checkpoint - checkpoint) <= Z.abs (a - checkpoint).
Proof.
  intros Hn Hi Hc H0 Hr. split; [apply unwrap_u64|]. split; [by apply wrap_unwrap|].
  intros a Ha Hw. unfold unwrap_in_range in Hr.
  rewrite unwrap_branches by done. rewrite wrap_eq in Hw.
  destruct n as [n], isn as [i]; cbn in *. injection Hw as Hw.
  assert (Hq : exists q, a + i = n + 2 ^ 32 * q) by (exists ((a + i) / 2 ^ 32); dlia).
  destruct Hq as [q Hq]. clear Hw.
  pose proof (Z.div_mod (checkpoint + i) (2 ^ 32) ltac:(lia)) as Hd.
  pose proof (Z.mod_pos_bound (checkpoint + i) (2 ^ 32) ltac:(lia)) as Hmd.
  revert Hd Hmd. generalize ((checkpoint + i) / 2 ^ 32), ((checkpoint + i) mod 2 ^ 32).
  intros p s Hd Hmd. repeat case_if; rewrite ?u64_id by lia; lia.
Qed.

(** The difference of two sequence numbers is the signed number of steps
    from [b] to [a]: it lies in the [int32_t] range and [b] plus it is [a]. *)
Theorem wi_diff_spec a b :
  wi_ok a -> wi_ok b ->
  - 2 ^ 31 <= wi_diff a b < 2 ^ 31 /\ wi_add b (u32 (wi_diff a b)) = a.
Proof.
  destruct a as [a], b as [b]; unfold wi_diff, wi_add; cbn. intros Ha Hb.
  split; [dlia|]. f_equal. rewrite u32_add_r. dlia.
Qed.

(** ** The exceptional inputs of [unwrap] *)

(** With ISN 0 the sequence number of the SYN itself unwraps to [2^32] instead
    of 0: the test [cand > low] is false for [cand = low = 0]. *)
Theorem unwrap_zero_isn :
  unwrap (mkWrappingInt32 0) (mkWrappingInt32 0) 0 = 2 ^ 32 /\
  wrap 0 (mkWrappingInt32 0) = mkWrappingInt32 0.
Proof. by vm_compute. Qed.

(** The first branch returns [cand - isn] without testing that [cand] is at
    least the ISN: a number one below an ISN of [2^32 - 1] unwraps, near
    checkpoint 1, to [2^64 - 1] although [2^32 - 1] wraps to it. *)
Theorem unwrap_below_isn :
  let isn := mkWrappingInt32 (2 ^ 32 - 1) in
  let n := mkWrappingInt32 (2 ^ 32 - 2) in
  unwrap n isn 1 = 2 ^ 64 - 1 /\ wrap (2 ^ 32 - 1) isn = n.
Proof. by vm_compute. Qed.

(** ** Witnesses *)

Lemma wrap_unwrap_witness :
  wrap (unwrap (mkWrappingInt32 15) (mkWrappingInt32 16) 0) (mkWrappingInt32 16)
  = mkWrappingInt32 15.
Proof. apply wrap_unwrap. cbn. lia. Defined.

Lemma unwrap_wrap_witness :
  unwrap (wrap (3 * 2 ^ 32 - 2) (mkWrappingInt32 10)) (mkWrappingInt32 10) (3 * 2 ^ 32)
  = 3 * 2 ^ 32 - 2.
Proof. apply unwrap_wrap; cbn; lia. Defined.

Lemma unwrap_closest_witness :
  let n := mkWrappingInt32 15 in let isn := mkWrappingInt32 16 in
  is_u64 (unwrap n isn 7) /\ wrap (unwrap n isn 7) isn = n /\
  forall a, 0 <= a -> wrap a isn = n -> Z.abs (unwrap n isn 7 - 7) <= Z.abs (a - 7).
Proof.
  apply unwrap_closest; cbn; try lia. unfold unwrap_in_range; cbn; lia.
Defined.

Lemma wi_diff_spec_witness :
  - 2 ^ 31 <= wi_diff (mkWrappingInt32 3) (mkWrappingInt32 (2 ^ 32 - 2)) < 2 ^ 31 /\
  wi_add (mkWrappingInt32 (2 ^ 32 - 2))
    (u32 (wi_diff (mkWrappingInt32 3) (mkWrappingInt32 (2 ^ 32 - 2)))) = mkWrappingInt32 3.
Proof. apply wi_diff_spec; cbn; lia. Defined.
