(* ===== verification/buffer.v ===== *)
(** Reference-counted strings ([libsponge/util/buffer.{hh,cc}]).

    A [Buffer] is a shared read-only string and an offset into it; sharing is
    not observable because the string is never modified, so the storage is
    modelled by its value. [BufferList] and [BufferViewList] are lists of such
    pieces. The operations that throw return [Throw out_of_range]. *)

From S2P Require Import prelude.

Module Buffer.

Record t := mk {
  _storage : option (list byte);
  _starting_offset : Z
}.

(** [Buffer()] and [Buffer(std::string &&)]. *)
Definition empty : t := mk None 0.
Definition of_string (s : list byte) : t := mk (Some s) 0.

Definition str (b : t) : list byte :=
  match _storage b with
  | None => []
  | Some s => drop (Z.to_nat (_starting_offset b)) s
  end.

Definition size (b : t) : Z := zlen (str b).
Definition copy (b : t) : list byte := str b.

(** [at]: throws past the end. *)
Definition at_ (b : t) (n : Z) : result Z :=
  match str b !! Z.to_nat n with
  | Some c => Ok (byte_to_Z c)
  | None => Throw out_of_range
  end.

Definition remove_prefix (b : t) (n : Z) : result t :=
  if zlen (str b) <? n then Throw out_of_range
  else
    let off := u64 (_starting_offset b + n) in
    match _storage b with
    | Some s => if off =? zlen s then Ok (mk None off) else Ok (mk (Some s) off)
    | None => Ok (mk None off)
    end.

(** The offset never passes the end of the storage. *)
Definition wf (b : t) : Prop :=
  0 <= _starting_offset b < 2 ^ 63 /\
  match _storage b with Some s => _starting_offset b <= zlen s < 2 ^ 63 | None => True end.

Lemma of_string_wf s : zlen s < 2 ^ 63 -> wf (of_string s).
Proof. intros. split; cbn; lia. Qed.

Lemma str_of_string s : str (of_string s) = s.
Proof. done. Qed.

(** Removing a prefix drops it from the contents, and throws exactly when the
    contents are shorter. *)
Lemma remove_prefix_str b n :
  wf b -> 0 <= n ->
  match remove_prefix b n with
  | Ok b' => n <= size b /\ wf b' /\ str b' = drop (Z.to_nat n) (str b)
  | Throw e => e = out_of_range /\ size b < n
  end.
Proof.
  intros [Ho Hs] Hn. unfold remove_prefix, size.
  destruct (Z.ltb_spec (zlen (str b)) n); [done|].
  unfold str in *. destruct (_storage b) as [s|] eqn:E.
  - rewrite length_drop in *. rewrite u64_id by lia.
    case_if; (split; [done|]); unfold wf; cbn; (split; [lia|]); unfold str; cbn;
      rewrite drop_drop; [rewrite drop_ge; [done|lia]|]. f_equal. lia.
  - cbn in *. split; [done|]. assert (n = 0) as -> by lia. rewrite Z.add_0_r, u64_id by lia.
    split; [split; cbn; [lia|done]|]. done.
Qed.

End Buffer.

Module BufferList.

Definition t := list Buffer.t.

Definition of_buffer (b : Buffer.t) : t := [b].
(** [append]: the loop pushes the other list's buffers. *)
Definition append (l other : t) : t := l ++ other.

(** [BufferList(std::string &&)] appends the one buffer. *)
Definition of_string (s : list byte) : t := append [] (of_buffer (Buffer.of_string s)).

(** The conversion to a single [Buffer]. *)
Definition to_buffer (l : t) : result Buffer.t :=
  match l with
  | [] => Ok Buffer.empty
  | [b] => Ok b
  | _ => Throw runtime_error
  end.

Definition concatenate (l : t) : list byte :=
  foldl (fun ret buf => ret ++ Buffer.str buf) [] l.

Definition size (l : t) : Z := foldl (fun ret buf => u64 (ret + Buffer.size buf)) 0 l.

(** The loop of [remove_prefix], one turn per buffer. *)
Fixpoint remove_prefix (l : t) (n : Z) : result t :=
  if 0 <? n then
    match l with
    | [] => Throw out_of_range
    | b :: l' =>
        if n <? zlen (Buffer.str b)
        then let* b' := Buffer.remove_prefix b n in Ok (b' :: l')
        else remove_prefix l' (n - zlen (Buffer.str b))
    end
  else Ok l.

Definition wf (l : t) : Prop := Forall Buffer.wf l.

Lemma concatenate_cons b l : concatenate (b :: l) = Buffer.str b ++ concatenate l.
Proof.
  unfold concatenate. cbn. generalize (Buffer.str b). induction l as [|c l IH]; intros acc; cbn.
  - by rewrite app_nil_r.
  - rewrite IH, (IH (Buffer.str c)). by rewrite app_assoc.
Qed.

Lemma concatenate_app l k : concatenate (l ++ k) = concatenate l ++ concatenate k.
Proof.
  induction l as [|b l IH]; [done|]. cbn [app]. by rewrite !concatenate_cons, IH, app_assoc.
Qed.

Lemma concatenate_of_string s : concatenate (of_string s) = s.
Proof. done. Qed.

Lemma size_concatenate l : size l = u64 (zlen (concatenate l)).
Proof.
  unfold size. assert (forall a, foldl (fun ret buf => u64 (ret + Buffer.size buf)) (u64 a) l
    = u64 (a + zlen (concatenate l))) as H.
  { induction l as [|b l IH]; intros a; cbn [foldl]; [by rewrite Z.add_0_r|].
    replace (u64 (u64 a + Buffer.size b)) with (u64 (a + Buffer.size b))
      by (unfold u64; by rewrite Zplus_mod_idemp_l).
    rewrite IH, concatenate_cons, length_app. unfold Buffer.size. f_equal. lia. }
  apply (H 0).
Qed.

(** Discarding a prefix of a discontiguous string discards exactly that
    many bytes of its contents, across buffer boundaries, and throws
    [out_of_range] exactly when there are not enough bytes. *)
Theorem remove_prefix_concatenate l n :
  wf l -> 0 <= n ->
  match remove_prefix l n with
  | Ok l' => n <= zlen (concatenate l) /\ wf l' /\
             concatenate l' = drop (Z.to_nat n) (concatenate l)
  | Throw e => e = out_of_range /\ zlen (concatenate l) < n
  end.
Proof.
  intros Hwf. revert n. induction Hwf as [|b l Hb Hl IH]; intros n Hn; cbn [remove_prefix].
  - case_if; cbn; [split; [done|lia]|]. assert (n = 0) as -> by lia. split_and!; [done|constructor|done].
  - rewrite concatenate_cons, length_app. destruct (Z.ltb_spec 0 n).
    + destruct (Z.ltb_spec n (zlen (Buffer.str b))).
      * pose proof (Buffer.remove_prefix_str b n Hb Hn) as Hr.
        destruct (Buffer.remove_prefix b n) as [b'|e]; cbn [result_bind]; [|unfold Buffer.size in Hr; lia].
        destruct Hr as (_ & Hwf' & Hs). split_and!; [lia|by constructor|].
        rewrite concatenate_cons, Hs, drop_app_le by lia. done.
      * specialize (IH (n - zlen (Buffer.str b)) ltac:(lia)).
        destruct (remove_prefix l _); [|destruct IH; split; [done|lia]].
        destruct IH as (? & ? & ->). split_and!; [lia|done|].
        rewrite drop_app_ge by lia. f_equal. lia.
    + assert (n = 0) as -> by lia. rewrite drop_0, concatenate_cons. split_and!; [lia|by constructor|done].
Qed.

Lemma remove_prefix_concatenate_witness :
  let l := append (of_string [x61; x62]) (of_string [x63; x64; x65]) in
  match remove_prefix l 3 with
  | Ok l' => 3 <= zlen (concatenate l) /\ wf l' /\ concatenate l' = drop (Z.to_nat 3) (concatenate l)
  | Throw e => e = out_of_range /\ zlen (concatenate l) < 3
  end.
Proof.
  apply remove_prefix_concatenate; [|lia].
  repeat (apply Forall_cons_2 || apply Forall_nil_2); apply Buffer.of_string_wf; cbn; lia.
Defined.

End BufferList.

(** Views of strings, used for the [writev] system call. *)
Module BufferViewList.

Definition t := list (list byte).

Definition of_string (s : list byte) : t := [s].
Definition of_buffer_list (l : BufferList.t) : t := map Buffer.str l.

Definition size (l : t) : Z := foldl (fun ret buf => u64 (ret + zlen buf)) 0 l.

Fixpoint remove_prefix (l : t) (n : Z) : result t :=
  if 0 <? n then
    match l with
    | [] => Throw out_of_range
    | v :: l' =>
        if n <? zlen v then Ok (drop (Z.to_nat n) v :: l')
        else remove_prefix l' (n - zlen v)
    end
  else Ok l.

Lemma concat_views l : concat (of_buffer_list l) = BufferList.concatenate l.
Proof. induction l as [|b l IH]; [done|]. by rewrite BufferList.concatenate_cons, <- IH. Qed.

(** The lengths handed to the system call. *)
Definition as_iovecs (l : t) : list (list byte * Z) := map (fun v => (v, zlen v)) l.

(** Removing a prefix of the views agrees with removing it from the buffers
    they were made from. *)
Lemma remove_prefix_views l n :
  BufferList.wf l -> 0 <= n ->
  remove_prefix (of_buffer_list l) n =
    match BufferList.remove_prefix l n with
    | Ok l' => Ok (of_buffer_list l')
    | Throw e => Throw e
    end.
Proof.
  intros Hwf. revert n. induction Hwf as [|b l Hb Hl IH]; intros n Hn; cbn.
  - by case_if.
  - destruct (Z.ltb_spec 0 n); [|done]. destruct (Z.ltb_spec n (zlen (Buffer.str b))).
    + pose proof (Buffer.remove_prefix_str b n Hb Hn) as Hr.
      destruct (Buffer.remove_prefix b n) as [b'|e]; cbn; [|unfold Buffer.size in Hr; lia].
      destruct Hr as (_ & _ & ->). done.
    + apply IH. lia.
Qed.

End BufferViewList.
