(* ===== verification/parser.v ===== *)
(** Parsing and unparsing of network-order integers
    ([libsponge/util/parser.{hh,cc}]). *)

From S2P Require Import prelude buffer.

(** [enum class ParseResult] *)
Inductive ParseResult :=
  | NoError
  | BadChecksum
  | PacketTooShort
  | WrongIPVersion
  | HeaderTooShort
  | TruncatedPacket
  | Unsupported.

#[export] Instance ParseResult_eq_dec : EqDecision ParseResult.
Proof. solve_decision. Defined.

(** [as_string]: the table of names ends before [Unsupported], for which the
    lookup is out of bounds. *)
Definition as_string (r : ParseResult) : option string :=
  match r with
  | NoError => Some "NoError"
  | BadChecksum => Some "BadChecksum"
  | PacketTooShort => Some "PacketTooShort"
  | WrongIPVersion => Some "WrongIPVersion"
  | HeaderTooShort => Some "HeaderTooShort"
  | TruncatedPacket => Some "TruncatedPacket"
  | Unsupported => None
  end%string.

Module NetParser.

Record t := mk {
  _buffer : Buffer.t;
  _error : ParseResult
}.

#[global] Instance set_buffer : Setter _buffer := fun f p => mk (f (_buffer p)) (_error p).
#[global] Instance set_err : Setter _error := fun f p => mk (_buffer p) (f (_error p)).

Definition make (b : Buffer.t) : t := mk b NoError.
Definition buffer (p : t) : Buffer.t := _buffer p.
Definition get_error (p : t) : ParseResult := _error p.
Definition set_error (p : t) (r : ParseResult) : t := p <| _error := r |>.
Definition error (p : t) : bool := negb (bool_decide (get_error p = NoError)).

Definition _check_size (p : t) (size : Z) : t :=
  if Buffer.size (_buffer p) <? size then set_error p PacketTooShort else p.

(** [_buffer.remove_prefix(n)] after the size check; the check rules the
    exception out ([drop_prefix_str]). *)
Definition drop_prefix (b : Buffer.t) (n : Z) : Buffer.t :=
  match Buffer.remove_prefix b n with Ok b' => b' | Throw _ => b end.

(** [uint8_t(_buffer.at(i))], in range after the size check. *)
Definition byte_at (b : Buffer.t) (i : nat) : Z :=
  match Buffer.at_ b (Z.of_nat i) with Ok c => c | Throw _ => 0 end.

(** [_parse_int<T>] for a [T] of [len] bytes. *)
Definition _parse_int (len : nat) (p : t) : Z * t :=
  let p := _check_size p (Z.of_nat len) in
  if error p then (0, p)
  else
    let trunc x := x mod 2 ^ (8 * Z.of_nat len) in
    let ret := foldl (fun ret i => trunc (trunc (Z.shiftl ret 8) + byte_at (_buffer p) i)) 0 (seq 0 len) in
    (ret, p <| _buffer := drop_prefix (_buffer p) (Z.of_nat len) |>).

Definition u32 (p : t) : Z * t := _parse_int 4 p.
Definition u16 (p : t) : Z * t := _parse_int 2 p.
Definition u8 (p : t) : Z * t := _parse_int 1 p.

Definition remove_prefix (p : t) (n : Z) : t :=
  let p := _check_size p n in
  if error p then p else p <| _buffer := drop_prefix (_buffer p) n |>.

(** [for (auto &byte : addr) byte = p.u8();] over an array of [k] bytes. *)
Fixpoint bytes (k : nat) (p : t) : list byte * t :=
  match k with
  | O => ([], p)
  | S k => let '(b, p) := u8 p in let '(bs, p) := bytes k p in (byte_of_Z b :: bs, p)
  end.

(** ** What parsing does *)

(** The parser is error free and has exactly [l] left. *)
Definition ready (p : t) (l : list byte) : Prop :=
  _error p = NoError /\ Buffer.wf (_buffer p) /\ Buffer.str (_buffer p) = l.

Lemma ready_make s : zlen s < 2 ^ 63 -> ready (make (Buffer.of_string s)) s.
Proof. intros. split_and!; [done|by apply Buffer.of_string_wf|done]. Qed.

Lemma error_false p : _error p = NoError -> error p = false.
Proof. intros H. unfold error, get_error. by rewrite H. Qed.

Lemma drop_prefix_str b n :
  Buffer.wf b -> 0 <= n <= Buffer.size b ->
  Buffer.wf (drop_prefix b n) /\ Buffer.str (drop_prefix b n) = drop (Z.to_nat n) (Buffer.str b).
Proof.
  intros Hwf Hn. unfold drop_prefix. pose proof (Buffer.remove_prefix_str b n Hwf ltac:(lia)) as H.
  destruct (Buffer.remove_prefix b n); [by destruct H as (_ & ? & ?)|lia].
Qed.

Lemma check_size_enough p size :
  size <= Buffer.size (_buffer p) -> _check_size p size = p.
Proof. intros. unfold _check_size. destruct (Z.ltb_spec (Buffer.size (_buffer p)) size); [lia|done]. Qed.

(** The loop of [_parse_int] reads a big-endian number. *)
Lemma parse_loop b bs l :
  Buffer.str b = bs ++ l -> forall len, (length bs <= len)%nat ->
  foldl (fun ret i => (Z.shiftl ret 8 mod 2 ^ (8 * Z.of_nat len) + byte_at b i)
                        mod 2 ^ (8 * Z.of_nat len)) 0 (seq 0 (length bs)) = be_combine bs.
Proof.
  revert l. induction bs as [|c bs IH] using rev_ind; intros l Hs len Hlen; [done|].
  rewrite length_app in *. cbn [length] in *. rewrite Nat.add_1_r, seq_S, foldl_snoc.
  rewrite (IH (c :: l)); [|by rewrite Hs, <- app_assoc|lia].
  rewrite be_combine_snoc. assert (byte_at b (0 + length bs) = byte_to_Z c) as ->.
  { unfold byte_at, Buffer.at_. rewrite Hs, Nat2Z.id, <- app_assoc.
    rewrite lookup_app_r by lia. by replace (0 + length bs - length bs)%nat with 0%nat by lia. }
  pose proof (be_combine_range bs) as Hr. pose proof (byte_to_Z_range c).
  rewrite Z.shiftl_mul_pow2 by lia. change (2 ^ 8) with 256 in *.
  assert (2 ^ (8 * zlen bs) * 256 <= 2 ^ (8 * Z.of_nat len)).
  { change 256 with (2 ^ 8). rewrite <- Z.pow_add_r by lia. apply Z.pow_le_mono_r; lia. }
  rewrite (Z.mod_small (be_combine bs * 256)) by nia. apply Z.mod_small. nia.
Qed.

Lemma parse_int_ready n p bs l :
  length bs = n -> ready p (bs ++ l) ->
  exists p', _parse_int n p = (be_combine bs, p') /\ ready p' l.
Proof.
  intros <- (He & Hwf & Hs). unfold _parse_int.
  assert (Hsize : Buffer.size (_buffer p) = zlen bs + zlen l)
    by (unfold Buffer.size; rewrite Hs, length_app; lia).
  rewrite check_size_enough by lia. rewrite error_false by done.
  destruct (drop_prefix_str (_buffer p) (zlen bs) Hwf ltac:(lia)) as [Hwf' Hs'].
  eexists. split; [by rewrite (parse_loop _ bs l Hs (length bs)) by lia|].
  split_and!; [done|done|]. cbn. rewrite Hs', Hs, Nat2Z.id. by rewrite drop_app_length.
Qed.

(** A number written by [NetUnparser] is read back. *)
Lemma parse_split_ready n v p l :
  0 <= v < 2 ^ (8 * Z.of_nat n) -> ready p (be_split n v ++ l) ->
  exists p', _parse_int n p = (v, p') /\ ready p' l.
Proof.
  intros Hv H. destruct (parse_int_ready n p (be_split n v) l) as (p' & E & R);
    [apply length_be_split|done|]. exists p'. split; [|done].
  by rewrite E, be_combine_split, Z.mod_small.
Qed.

Lemma remove_prefix_ready p bs l n :
  n = zlen bs -> ready p (bs ++ l) -> exists p', remove_prefix p n = p' /\ ready p' l.
Proof.
  intros -> (He & Hwf & Hs). eexists. split; [done|]. unfold remove_prefix.
  assert (Hsize : Buffer.size (_buffer p) = zlen bs + zlen l)
    by (unfold Buffer.size; rewrite Hs, length_app; lia).
  rewrite check_size_enough by lia. rewrite error_false by done.
  destruct (drop_prefix_str (_buffer p) (zlen bs) Hwf ltac:(lia)) as [Hwf' Hs'].
  split_and!; [done|done|]. cbn. rewrite Hs', Hs, Nat2Z.id. by rewrite drop_app_length.
Qed.

(** With too few bytes left the parser records [PacketTooShort], and it stays
    in error from then on. *)
Lemma parse_int_short n p l :
  ready p l -> (length l < n)%nat ->
  _parse_int n p = (0, set_error p PacketTooShort).
Proof.
  intros (He & Hwf & Hs) Hn. unfold _parse_int, _check_size, Buffer.size. rewrite Hs.
  destruct (Z.ltb_spec (zlen l) (Z.of_nat n)); [done|lia].
Qed.

(** A parsed integer has the width of its type, also after an error. *)
Lemma parse_int_range n p : 0 <= (_parse_int n p).1 < 2 ^ (8 * Z.of_nat n).
Proof.
  unfold _parse_int. destruct (error _); [cbn [fst]; lia|]. cbn [fst].
  destruct n as [|n]; [done|]. rewrite seq_S, foldl_snoc. apply Z.mod_pos_bound. lia.
Qed.

Lemma parse_int_error n p : error p = true -> error (_parse_int n p).2 = true /\ (_parse_int n p).1 = 0.
Proof.
  intros He. unfold _parse_int. assert (error (_check_size p (Z.of_nat n)) = true) as ->; [|].
  - unfold _check_size. by case_if.
  - cbn. split; [|done]. unfold _check_size. by case_if.
Qed.

Lemma bytes_ready n bs p l :
  length bs = n -> ready p (bs ++ l) -> exists p', bytes n p = (bs, p') /\ ready p' l.
Proof.
  intros <-. revert p. induction bs as [|b bs IH]; intros p H; cbn [bytes length].
  - by exists p.
  - destruct (parse_int_ready 1 p [b] (bs ++ l)) as (p1 & E1 & R1); [done|done|].
    unfold u8. rewrite E1. destruct (IH p1 R1) as (p2 & E2 & R2). rewrite E2.
    exists p2. split; [|done]. do 2 f_equal. apply byte_of_to_Z.
Qed.

End NetParser.

Module NetUnparser.

(** [_unparse_int<T>] for a [T] of [len] bytes. *)
Definition _unparse_int (s : list byte) (len : nat) (val : Z) : list byte :=
  foldl (fun s i =>
    let the_byte := Z.land (Z.shiftr val (Z.of_nat (len - i - 1) * 8)) 255 in
    s ++ [byte_of_Z the_byte]) s (seq 0 len).

Definition u32 (s : list byte) (val : Z) : list byte := _unparse_int s 4 val.
Definition u16 (s : list byte) (val : Z) : list byte := _unparse_int s 2 val.
Definition u8 (s : list byte) (val : Z) : list byte := _unparse_int s 1 val.

(** [for (auto &byte : addr) NetUnparser::u8(ret, byte);] *)
Definition bytes (s l : list byte) : list byte := foldl (fun s b => u8 s (byte_to_Z b)) s l.

Lemma unparse_int_split s len val : _unparse_int s len val = s ++ be_split len val.
Proof.
  unfold _unparse_int, be_split.
  assert (forall l acc, foldl (fun s i => s ++ [byte_of_Z (Z.land (Z.shiftr val (Z.of_nat (len - i - 1) * 8)) 255)]) acc l
    = acc ++ map (fun i => byte_of_Z (val / 2 ^ (8 * Z.of_nat (len - i - 1)))) l) as H; [|apply H].
  induction l as [|i l IH]; intros acc; cbn; [by rewrite app_nil_r|].
  rewrite IH, <- app_assoc. cbn. do 2 f_equal.
  change 255 with (Z.ones 8). rewrite Z.land_ones, Z.shiftr_div_pow2 by lia.
  rewrite (Z.mul_comm (Z.of_nat _)). unfold byte_of_Z, prelude.u8. by rewrite Z.mod_mod by lia.
Qed.

Lemma bytes_split s l : bytes s l = s ++ l.
Proof.
  revert s. induction l as [|b l IH]; intros s; [by cbn; rewrite app_nil_r|].
  change (bytes s (b :: l)) with (bytes (u8 s (byte_to_Z b)) l). rewrite IH. unfold u8.
  rewrite unparse_int_split, <- app_assoc. cbn. by rewrite Z.div_1_r, byte_of_to_Z.
Qed.

End NetUnparser.

(** ** Stepping a parser over serialized fields

    [parse_step] reduces the next read of the goal, given what the parser has
    left; [unparse_simpl] turns serialization code into a concatenation. *)

Ltac unparse_simpl :=
  unfold NetUnparser.u32, NetUnparser.u16, NetUnparser.u8;
  rewrite ?NetUnparser.unparse_int_split, ?NetUnparser.bytes_split, <- ?app_assoc; cbn [app].

Ltac parse_step :=
  match goal with
  | R : NetParser.ready ?p (be_split ?n ?v ++ ?l) |- context [NetParser._parse_int ?n ?p] =>
      let p' := fresh "p" in let E := fresh "E" in let R' := fresh "R" in
      destruct (NetParser.parse_split_ready n v p l ltac:(cbn; lia) R) as (p' & E & R');
      rewrite E; clear E R; rename R' into R; cbv beta iota
  | R : NetParser.ready ?p (?bs ++ ?l) |- context [NetParser.bytes ?n ?p] =>
      let p' := fresh "p" in let E := fresh "E" in let R' := fresh "R" in
      destruct (NetParser.bytes_ready n bs p l ltac:(assumption) R) as (p' & E & R');
      rewrite E; clear E R; rename R' into R; cbv beta iota
  end.
