(* ===== verification/checksum.v ===== *)
(** The Internet checksum ([InternetChecksum] of [libsponge/util/util.{hh,cc}]).

    [add] and [value] are the methods. The loop of [value] is run with fuel;
    [fold_loop_fuel] shows that two turns are enough for every [uint32_t]. *)

From S2P Require Import prelude.

Module InternetChecksum.

Record t := mk {
  _sum : Z;
  _parity : bool
}.

(** The constructor. *)
Definition make (initial_sum : Z) : t := mk initial_sum false.

(** One turn of the loop of [add]. *)
Definition add_byte (c : t) (b : byte) : t :=
  let val := byte_to_Z b in
  let val := if negb (_parity c) then u16 (Z.shiftl val 8) else val in
  mk (u32 (_sum c + val)) (negb (_parity c)).

Definition add (c : t) (data : list byte) : t := foldl add_byte c data.

(** [while (ret > 0xffff) ret = (ret >> 16) + (ret & 0xffff);] *)
Fixpoint fold_loop (fuel : nat) (ret : Z) : Z :=
  match fuel with
  | O => ret
  | S fuel =>
      if 65535 <? ret then fold_loop fuel (u32 (Z.shiftr ret 16 + Z.land ret 65535)) else ret
  end.

(** [return ~ret;] as a [uint16_t]. *)
Definition value (c : t) : Z := u16 (Z.lnot (fold_loop 2 (_sum c))).

(** ** The end-around-carry sum *)

Lemma fold_step ret : Z.shiftr ret 16 + Z.land ret 65535 = ret / 65536 + ret mod 65536.
Proof. change 65535 with (Z.ones 16). by rewrite Z.shiftr_div_pow2, Z.land_ones by lia. Qed.

(** The folded value is the representative of the sum modulo [65535] in
    [1 .. 65535], or 0 for the sum 0. *)
Definition folded (s : Z) : Z := if s =? 0 then 0 else (s - 1) mod 65535 + 1.

Lemma fold_loop_folded fuel ret :
  0 <= ret < 2 ^ 32 ->
  (ret <= 65535 \/ (ret <= 131070 /\ (1 <= fuel)%nat) \/ (2 <= fuel)%nat) ->
  fold_loop fuel ret = folded ret.
Proof.
  revert ret. induction fuel as [|fuel IH]; intros ret Hr Hf; cbn [fold_loop].
  - unfold folded. case_if; dlia.
  - destruct (Z.ltb_spec 65535 ret).
    + rewrite fold_step, u32_id by dlia. rewrite IH.
      * unfold folded. repeat case_if; dlia.
      * dlia.
      * dlia.
    + unfold folded. case_if; dlia.
Qed.

(** The loop ends for every [uint32_t]: after two turns the value fits 16 bits. *)
Lemma fold_loop_fuel ret :
  0 <= ret < 2 ^ 32 -> fold_loop 2 ret = folded ret /\ 0 <= fold_loop 2 ret <= 65535.
Proof.
  intros H. rewrite fold_loop_folded by lia. split; [done|]. unfold folded. case_if; dlia.
Qed.

Lemma value_eq c : 0 <= _sum c < 2 ^ 32 -> value c = 65535 - folded (_sum c).
Proof.
  intros H. unfold value. destruct (fold_loop_fuel (_sum c) H) as [E Hb]. rewrite E in *.
  unfold Z.lnot. dlia.
Qed.

(** ** The sum as a function of the data *)

(** The sum of [data] as 16-bit big-endian words; [parity] is [true] when the
    first byte is the low half of a word. *)
Fixpoint word_sum (parity : bool) (data : list byte) : Z :=
  match data with
  | [] => 0
  | b :: data => (if parity then byte_to_Z b else byte_to_Z b * 256) + word_sum (negb parity) data
  end.

Definition end_parity (parity : bool) (data : list byte) : bool :=
  xorb parity (Nat.odd (length data)).

Lemma word_sum_bound parity data : 0 <= word_sum parity data <= 65280 * zlen data.
Proof.
  revert parity. induction data as [|b data IH]; intros parity; [done|].
  cbn [word_sum length]. specialize (IH (negb parity)). pose proof (byte_to_Z_range b).
  destruct parity; lia.
Qed.

Lemma word_sum_app parity l k :
  word_sum parity (l ++ k) = word_sum parity l + word_sum (end_parity parity l) k.
Proof.
  unfold end_parity. revert parity. induction l as [|b l IH]; intros parity.
  - cbn [app length word_sum]. by rewrite xorb_false_r.
  - cbn [app length word_sum]. rewrite IH, Nat.odd_succ, <- Nat.negb_odd.
    replace (xorb (negb parity) (Nat.odd (length l))) with (xorb parity (negb (Nat.odd (length l))))
      by (by destruct parity, (Nat.odd (length l))). lia.
Qed.

Lemma add_eq s parity data :
  0 <= s -> s + word_sum parity data < 2 ^ 32 ->
  add (mk s parity) data = mk (s + word_sum parity data) (end_parity parity data).
Proof.
  unfold add, end_parity. revert s parity. induction data as [|b data IH]; intros s parity Hs Hb; cbn [foldl].
  - cbn. by rewrite Z.add_0_r, xorb_false_r.
  - cbn [word_sum length] in *. pose proof (byte_to_Z_range b).
    pose proof (word_sum_bound (negb parity) data).
    assert (E : add_byte (mk s parity) b
      = mk (s + (if parity then byte_to_Z b else byte_to_Z b * 256)) (negb parity)).
    { unfold add_byte. cbn. rewrite Z.shiftl_mul_pow2 by lia. change (2 ^ 8) with 256 in *.
      destruct parity; cbn; rewrite ?(u16_id (byte_to_Z b * 256)), u32_id by lia; done. }
    rewrite E, IH by (destruct parity; lia). f_equal; [lia|].
    rewrite Nat.odd_succ, <- Nat.negb_odd. by destruct parity, (Nat.odd (length data)).
Qed.

(** ** Properties *)

(** The sum modulo [65535] decides acceptance: a positive sum checks exactly
    when it is a multiple of [65535]. *)
Lemma value_zero_iff c :
  0 <= _sum c < 2 ^ 32 -> (value c = 0 <-> 0 < _sum c /\ _sum c mod 65535 = 0).
Proof. intros H. rewrite value_eq by done. unfold folded. case_if; dlia. Qed.

Lemma verifies init before after :
  0 <= init -> Nat.even (length before) = true ->
  init + 65280 * zlen (before ++ after) + 2 * 65280 < 2 ^ 32 ->
  let ck := value (add (make init) (before ++ be_split 2 0 ++ after)) in
  value (add (make init) (before ++ be_split 2 ck ++ after)) = 0.
Proof.
  intros Hi Hev Hb ck. unfold make in *.
  assert (Hpar : end_parity false before = false)
    by (unfold end_parity; by rewrite <- Nat.negb_even, Hev).
  assert (Hsplit : forall v, 0 <= v < 65536 ->
    word_sum false (before ++ be_split 2 v ++ after)
    = word_sum false before + v + word_sum false after).
  { intros v Hv. rewrite !word_sum_app, Hpar. change (end_parity false (be_split 2 v)) with false.
    cbn -[byte_of_Z Z.div Z.mul]. rewrite !byte_to_of_Z. change (2 ^ (8 * 1)) with 256.
    change (2 ^ (8 * 0)) with 1. unfold u8. dlia. }
  pose proof (word_sum_bound false before). pose proof (word_sum_bound false after).
  rewrite length_app in Hb. pose proof (Hsplit 0 ltac:(lia)) as Hz.
  assert (Hck : ck = 65535 - folded (init + (word_sum false before + 0 + word_sum false after))).
  { subst ck. rewrite add_eq by (rewrite ?Hz; lia). rewrite value_eq; cbn [_sum]; rewrite Hz; [done|lia]. }
  assert (Hr : 0 <= ck <= 65535) by (rewrite Hck; unfold folded; case_if; dlia).
  rewrite add_eq by (rewrite ?Hsplit; lia). apply value_zero_iff; cbn [_sum]; rewrite Hsplit by lia; [lia|].
  rewrite Hck. unfold folded. case_if; dlia.
Qed.

(** The checksum verifies: take any message with an even-aligned 16-bit
    field holding 0 and the checksum computed over it (from any initial sum,
    e.g. that of a pseudo-header). Writing the computed value into the field
    makes the receiver's computation over the whole message return 0. *)
Theorem checksum_verifies init before after :
  0 <= init -> Nat.even (length before) = true ->
  init + 65280 * zlen (before ++ after) + 2 * 65280 < 2 ^ 32 ->
  let ck := value (add (make init) (before ++ be_split 2 0 ++ after)) in
  value (add (make init) (before ++ be_split 2 ck ++ after)) = 0.
Proof. apply verifies. Qed.

Lemma checksum_verifies_witness :
  let ck := value (add (make 7) ([x45; x00] ++ be_split 2 0 ++ [x10; x20; xff])) in
  value (add (make 7) ([x45; x00] ++ be_split 2 ck ++ [x10; x20; xff])) = 0.
Proof. apply checksum_verifies; [lia|done|cbn; lia]. Defined.

(** ** The reference: RFC 1071 *)

(** One's complement addition of 16-bit words: the carry goes around. *)
Definition ones_add (a b : Z) : Z := if 65535 <? a + b then a + b - 65535 else a + b.

(** The 16-bit big-endian words of a message; an odd last byte is padded with 0. *)
Fixpoint words (data : list byte) : list Z :=
  match data with
  | [] => []
  | [a] => [byte_to_Z a * 256]
  | a :: b :: data => (byte_to_Z a * 256 + byte_to_Z b) :: words data
  end.

Definition rfc1071 (data : list byte) : Z := 65535 - foldl ones_add 0 (words data).

Lemma byte_pairs_ind (P : list byte -> Prop) :
  P [] -> (forall a, P [a]) -> (forall a b l, P l -> P (a :: b :: l)) -> forall l, P l.
Proof. intros H0 H1 H2. fix IH 1. intros [|a [|b l]]; [exact H0|exact (H1 a)|exact (H2 a b l (IH l))]. Qed.

Lemma folded_add a b : 0 <= a -> 0 <= b <= 65535 -> folded (a + b) = ones_add (folded a) b.
Proof. intros Ha Hb. unfold ones_add, folded. repeat case_if; destruct (Z.ltb_spec 65535 (folded a + b)); unfold folded in *; repeat case_if; dlia. Qed.

Lemma foldl_ones_add a data :
  0 <= a -> foldl ones_add (folded a) (words data) = folded (a + word_sum false data).
Proof.
  revert a. induction data as [|x|x y l IH] using byte_pairs_ind; intros a Ha; cbn [words foldl word_sum negb].
  - by rewrite Z.add_0_r.
  - pose proof (byte_to_Z_range x). rewrite Z.add_0_r. rewrite folded_add by lia. done.
  - pose proof (byte_to_Z_range x). pose proof (byte_to_Z_range y).
    rewrite <- folded_add by lia. rewrite IH by lia. f_equal. lia.
Qed.

Lemma add_chunks c chunks : foldl add c chunks = add c (concat chunks).
Proof. revert c. induction chunks as [|x chunks IH]; intros c; [done|]. cbn [foldl concat]. rewrite IH. unfold add. by rewrite foldl_app. Qed.

(** C35. The incremental checksum is the Internet checksum of RFC 1071: for every
    way to cut a message of up to 65,000 bytes into chunks, odd lengths
    included, adding the chunks one by one and taking the value gives the
    complement of the one's complement sum of the message's 16-bit words. *)
Theorem checksum_is_rfc1071 chunks :
  zlen (concat chunks) <= 65000 -> value (foldl add (make 0) chunks) = rfc1071 (concat chunks).
Proof.
  intros Hl. rewrite add_chunks. set (data := concat chunks) in *. pose proof (word_sum_bound false data).
  unfold make. rewrite add_eq by lia. rewrite value_eq by (cbn [_sum]; lia). cbn [_sum].
  unfold rfc1071. f_equal. rewrite <- foldl_ones_add by lia. done.
Qed.

Lemma checksum_is_rfc1071_witness :
  value (foldl add (make 0) [[x45]; []; [x00; x10]; [xff; xff; xff]]) = 43520.
Proof. rewrite checksum_is_rfc1071; [by vm_compute|cbn; lia]. Defined.

End InternetChecksum.
