(* ===== verification/ethernet.v ===== *)
(** Ethernet frames and ARP messages
    ([libsponge/tcp_helpers/ethernet_header.{hh,cc}], [ethernet_frame.{hh,cc}],
    [arp_message.{hh,cc}]). *)

From S2P Require Import prelude buffer parser.

(** [using EthernetAddress = std::array<uint8_t, 6>] *)
Definition EthernetAddress := list byte.
Abbreviation eth_ok a := (length a = 6%nat).

(** ff:ff:ff:ff:ff:ff *)
Definition ETHERNET_BROADCAST : EthernetAddress := replicate 6 xff.

Module EthernetHeader.

Definition LENGTH : Z := 14.
Definition TYPE_IPv4 : Z := 0x800.
Definition TYPE_ARP : Z := 0x806.

Record t := mk {
  dst : EthernetAddress;
  src : EthernetAddress;
  type : Z
}.

(** A value-initialised header ([_header{}]). *)
Definition zero : t := mk (replicate 6 x00) (replicate 6 x00) 0.

(** [parse]: the fields are assigned through [*this]. *)
Definition parse (h : t) (p : NetParser.t) : t * NetParser.t * ParseResult :=
  if Buffer.size (NetParser.buffer p) <? LENGTH then (h, p, PacketTooShort)
  else
    let '(dst, p) := NetParser.bytes 6 p in
    let '(src, p) := NetParser.bytes 6 p in
    let '(type, p) := NetParser.u16 p in
    (mk dst src type, p, NetParser.get_error p).

Definition serialize (h : t) : list byte :=
  let ret := NetUnparser.bytes [] (dst h) in
  let ret := NetUnparser.bytes ret (src h) in
  NetUnparser.u16 ret (type h).

Definition wf (h : t) : Prop := eth_ok (dst h) /\ eth_ok (src h) /\ is_u16 (type h).

Lemma eth_header_serialize_eq h : serialize h = dst h ++ src h ++ be_split 2 (type h).
Proof. unfold serialize. by unparse_simpl. Qed.

Lemma eth_header_length_serialize h : wf h -> length (serialize h) = 14%nat.
Proof. intros (? & ? & _). rewrite eth_header_serialize_eq, !length_app, length_be_split. lia. Qed.

Lemma eth_header_parse_serialize h h0 p l :
  wf h -> NetParser.ready p (serialize h ++ l) ->
  exists p', parse h0 p = (h, p', NoError) /\ NetParser.ready p' l.
Proof.
  intros Hwf R. pose proof (eth_header_length_serialize h Hwf) as Hl. destruct Hwf as (H1 & H2 & H3).
  unfold parse. destruct R as (Re & Rw & Rs).
  assert (Hsz : Buffer.size (NetParser.buffer p) = 14 + zlen l)
    by (unfold Buffer.size, NetParser.buffer; rewrite Rs, length_app; lia).
  rewrite Hsz. destruct (Z.ltb_spec (14 + zlen l) LENGTH); [unfold LENGTH in *; lia|].
  assert (R : NetParser.ready p (dst h ++ src h ++ be_split 2 (type h) ++ l))
    by (split_and!; [done|done|]; by rewrite Rs, eth_header_serialize_eq, <- !app_assoc).
  unfold NetParser.u16. do 3 parse_step. eexists. split; [|done].
  destruct R as (E & _). unfold NetParser.get_error. rewrite E. by destruct h.
Qed.

End EthernetHeader.

Module EthernetFrame.

Record t := mk {
  header : EthernetHeader.t;
  payload : BufferList.t
}.

Definition empty : t := mk EthernetHeader.zero [].

(** [parse]: the result of the header's [parse] is not used. *)
Definition parse (f : t) (buffer : Buffer.t) : t * ParseResult :=
  let p := NetParser.make buffer in
  let '(h, p, _) := EthernetHeader.parse (header f) p in
  (mk h (BufferList.of_buffer (NetParser.buffer p)), NetParser.get_error p).

Definition serialize (f : t) : BufferList.t :=
  let ret := BufferList.append [] (BufferList.of_string (EthernetHeader.serialize (header f))) in
  BufferList.append ret (payload f).

Lemma concatenate_serialize f :
  BufferList.concatenate (serialize f)
  = EthernetHeader.serialize (header f) ++ BufferList.concatenate (payload f).
Proof. unfold serialize, BufferList.append. by rewrite BufferList.concatenate_app. Qed.

Lemma eth_frame_parse_serialize f f0 :
  EthernetHeader.wf (header f) -> zlen (BufferList.concatenate (payload f)) < 2 ^ 62 ->
  exists f', parse f0 (Buffer.of_string (BufferList.concatenate (serialize f))) = (f', NoError) /\
    header f' = header f /\
    BufferList.concatenate (payload f') = BufferList.concatenate (payload f).
Proof.
  intros Hwf Hlen. unfold parse. rewrite concatenate_serialize.
  assert (R : NetParser.ready (NetParser.make (Buffer.of_string
    (EthernetHeader.serialize (header f) ++ BufferList.concatenate (payload f))))
    (EthernetHeader.serialize (header f) ++ BufferList.concatenate (payload f))).
  { apply NetParser.ready_make. rewrite length_app, EthernetHeader.eth_header_length_serialize by done. lia. }
  destruct (EthernetHeader.eth_header_parse_serialize _ (header f0) _ _ Hwf R) as (p' & E & (R1 & R2 & R3)).
  rewrite E. eexists. split; [unfold NetParser.get_error; by rewrite R1|]. cbn. split; [done|].
  exact R3.
Qed.

(** Ethernet round trip: the bytes of a serialized frame parse, without
    error, to a frame with the same addresses, type and payload bytes. *)
Theorem ethernet_roundtrip f f0 :
  EthernetHeader.wf (header f) -> zlen (BufferList.concatenate (payload f)) < 2 ^ 62 ->
  exists f', parse f0 (Buffer.of_string (BufferList.concatenate (serialize f))) = (f', NoError) /\
    header f' = header f /\
    BufferList.concatenate (payload f') = BufferList.concatenate (payload f).
Proof. apply eth_frame_parse_serialize. Qed.

(** A frame of fewer than 14 bytes is reported as parsed without error, with
    the header left as it was: the header's [PacketTooShort] is dropped. *)
Theorem short_frame_accepted :
  parse empty (Buffer.of_string [x01; x02; x03]) =
    (mk EthernetHeader.zero [Buffer.of_string [x01; x02; x03]], NoError).
Proof. by vm_compute. Qed.

Lemma ethernet_roundtrip_witness :
  let f := mk (EthernetHeader.mk (replicate 6 x02) (replicate 6 x0a) EthernetHeader.TYPE_ARP)
              (BufferList.of_string [x61; x62]) in
  exists f', parse empty (Buffer.of_string (BufferList.concatenate (serialize f))) = (f', NoError) /\
    header f' = header f /\
    BufferList.concatenate (payload f') = BufferList.concatenate (payload f).
Proof. apply ethernet_roundtrip; [split_and!; vm_compute; done|vm_compute; done]. Defined.

End EthernetFrame.

Module ARPMessage.

Definition LENGTH : Z := 28.
Definition TYPE_ETHERNET : Z := 1.
Definition OPCODE_REQUEST : Z := 1.
Definition OPCODE_REPLY : Z := 2.

Record t := mk {
  hardware_type : Z;
  protocol_type : Z;
  hardware_address_size : Z;
  protocol_address_size : Z;
  opcode : Z;
  sender_ethernet_address : EthernetAddress;
  sender_ip_address : Z;
  target_ethernet_address : EthernetAddress;
  target_ip_address : Z
}.

(** A default-constructed message ([sizeof] of the address types is 6 and 4). *)
Definition default : t :=
  mk TYPE_ETHERNET EthernetHeader.TYPE_IPv4 6 4 0 (replicate 6 x00) 0 (replicate 6 x00) 0.

Definition supported (m : t) : bool :=
  (hardware_type m =? TYPE_ETHERNET) && (protocol_type m =? EthernetHeader.TYPE_IPv4) &&
  (hardware_address_size m =? 6) && (protocol_address_size m =? 4) &&
  ((opcode m =? OPCODE_REQUEST) || (opcode m =? OPCODE_REPLY)).

Definition parse (m : t) (buffer : Buffer.t) : t * ParseResult :=
  let p := NetParser.make buffer in
  if Buffer.size (NetParser.buffer p) <? LENGTH then (m, PacketTooShort)
  else
    let '(hardware_type, p) := NetParser.u16 p in
    let '(protocol_type, p) := NetParser.u16 p in
    let '(hardware_address_size, p) := NetParser.u8 p in
    let '(protocol_address_size, p) := NetParser.u8 p in
    let '(opcode, p) := NetParser.u16 p in
    let m := mk hardware_type protocol_type hardware_address_size protocol_address_size opcode
                (sender_ethernet_address m) (sender_ip_address m)
                (target_ethernet_address m) (target_ip_address m) in
    if negb (supported m) then (m, Unsupported)
    else
      let '(sender_eth, p) := NetParser.bytes 6 p in
      let '(sender_ip, p) := NetParser.u32 p in
      let '(target_eth, p) := NetParser.bytes 6 p in
      let '(target_ip, p) := NetParser.u32 p in
      (mk hardware_type protocol_type hardware_address_size protocol_address_size opcode
          sender_eth sender_ip target_eth target_ip, NetParser.get_error p).

Definition serialize (m : t) : result (list byte) :=
  if negb (supported m) then Throw runtime_error
  else
    let ret := NetUnparser.u16 [] (hardware_type m) in
    let ret := NetUnparser.u16 ret (protocol_type m) in
    let ret := NetUnparser.u8 ret (hardware_address_size m) in
    let ret := NetUnparser.u8 ret (protocol_address_size m) in
    let ret := NetUnparser.u16 ret (opcode m) in
    let ret := NetUnparser.bytes ret (sender_ethernet_address m) in
    let ret := NetUnparser.u32 ret (sender_ip_address m) in
    let ret := NetUnparser.bytes ret (target_ethernet_address m) in
    Ok (NetUnparser.u32 ret (target_ip_address m)).

Definition wf (m : t) : Prop :=
  supported m = true /\ eth_ok (sender_ethernet_address m) /\ is_u32 (sender_ip_address m) /\
  eth_ok (target_ethernet_address m) /\ is_u32 (target_ip_address m).

(** A supported message has the constants of Ethernet and IPv4. *)
Lemma supported_fields m :
  supported m = true ->
  hardware_type m = 1 /\ protocol_type m = 0x800 /\ hardware_address_size m = 6 /\
  protocol_address_size m = 4 /\ 1 <= opcode m <= 2.
Proof.
  unfold supported, TYPE_ETHERNET, EthernetHeader.TYPE_IPv4, OPCODE_REQUEST, OPCODE_REPLY.
  repeat (rewrite andb_true_iff || rewrite orb_true_iff || rewrite Z.eqb_eq). lia.
Qed.

Lemma arp_parse_serialize m m0 :
  wf m -> exists s, serialize m = Ok s /\ length s = 28%nat /\ parse m0 (Buffer.of_string s) = (m, NoError).
Proof.
  intros (Hsup & He1 & Hi1 & He2 & Hi2). unfold serialize. rewrite Hsup. cbn [negb].
  destruct (supported_fields m Hsup) as (F1 & F2 & F3 & F4 & F5).
  unparse_simpl. eexists. split; [done|].
  match goal with |- length ?x = _ /\ _ => set (s := x) end.
  assert (Hlen : length s = 28%nat).
  { subst s. rewrite !length_app, !length_be_split. lia. }
  split; [done|]. unfold parse.
  assert (R : NetParser.ready (NetParser.make (Buffer.of_string s)) s)
    by (apply NetParser.ready_make; lia).
  assert (Hsz : Buffer.size (NetParser.buffer (NetParser.make (Buffer.of_string s))) = 28)
    by (change (zlen s = 28); lia).
  rewrite Hsz. change (28 <? LENGTH) with false. cbv iota.
  unfold NetParser.u16, NetParser.u8, NetParser.u32.
  revert R. generalize (NetParser.make (Buffer.of_string s)). intros p R.
  subst s. rewrite <- (app_nil_r (be_split 4 (target_ip_address m))) in R.
  do 5 parse_step.
  match goal with |- context [supported ?x] =>
    assert (supported x = true) as -> by exact Hsup end. cbn [negb].
  do 4 parse_step. destruct R as (E & _). unfold NetParser.get_error. rewrite E. by destruct m.
Qed.

(** ARP round trip: every supported message serializes to 28 bytes and
    parses back to itself; an unsupported one is refused by [serialize] with an
    exception. *)
Theorem arp_roundtrip m m0 :
  (wf m -> exists s, serialize m = Ok s /\ length s = 28%nat /\
     parse m0 (Buffer.of_string s) = (m, NoError)) /\
  (supported m = false -> serialize m = Throw runtime_error).
Proof. split; [apply arp_parse_serialize|unfold serialize; by intros ->]. Qed.

Lemma arp_roundtrip_witness :
  let m := mk 1 0x800 6 4 2 (replicate 6 x02) 0x0a000001 (replicate 6 x04) 0x0a000002 in
  exists s, serialize m = Ok s /\ length s = 28%nat /\ parse default (Buffer.of_string s) = (m, NoError).
Proof.
  apply (proj1 (arp_roundtrip (mk 1 0x800 6 4 2 (replicate 6 x02) 0x0a000001 (replicate 6 x04) 0x0a000002) default)).
  split_and!; vm_compute; done.
Defined.

(** Nothing but a supported message comes out of a successful ARP parse,
    and a buffer shorter than 28 bytes is refused. *)
Theorem arp_parse_sound m0 buffer m r :
  parse m0 buffer = (m, r) ->
  (r = NoError -> supported m = true) /\ (Buffer.size buffer < LENGTH -> r = PacketTooShort).
Proof.
  unfold parse. cbn [NetParser.buffer NetParser.make NetParser._buffer].
  destruct (Z.ltb_spec (Buffer.size buffer) LENGTH); [by intros [= <- <-]|].
  repeat (destruct (NetParser.u16 _) as [? ?] || destruct (NetParser.u8 _) as [? ?]).
  match goal with |- context [negb (supported ?x)] => destruct (supported x) eqn:Hs end; cbn [negb].
  - repeat (destruct (NetParser.bytes _ _) as [? ?] || destruct (NetParser.u32 _) as [? ?]).
    intros [= <- <-]. split; [intros _; exact Hs|lia].
  - intros [= <- <-]. split; [done|lia].
Qed.

Lemma arp_parse_sound_witness :
  (PacketTooShort = NoError -> supported default = true) /\
  (Buffer.size Buffer.empty < LENGTH -> PacketTooShort = PacketTooShort).
Proof. apply (arp_parse_sound default Buffer.empty default PacketTooShort). reflexivity. Defined.

End ARPMessage.
