(* ===== verification/ipv4.v ===== *)
(** IPv4 headers and datagrams ([libsponge/tcp_helpers/ipv4_header.{hh,cc}],
    [ipv4_datagram.{hh,cc}]). *)

From S2P Require Import prelude buffer parser checksum std_algorithms.

Module IPv4Header.

Definition LENGTH : Z := 20.
Definition DEFAULT_TTL : Z := 128.
Definition PROTO_TCP : Z := 6.

Record t := mk {
  ver : Z;
  hlen : Z;
  tos : Z;
  len : Z;
  id : Z;
  df : bool;
  mf : bool;
  offset : Z;
  ttl : Z;
  proto : Z;
  cksum : Z;
  src : Z;
  dst : Z
}.

(** The default member initialisers. *)
Definition default : t := mk 4 (LENGTH / 4) 0 0 0 true false 0 DEFAULT_TTL PROTO_TCP 0 0 0.

#[global] Instance set_cksum : Setter cksum := fun f h =>
  mk (ver h) (hlen h) (tos h) (len h) (id h) (df h) (mf h) (offset h) (ttl h) (proto h) (f (cksum h)) (src h) (dst h).
#[global] Instance set_len : Setter len := fun f h =>
  mk (ver h) (hlen h) (tos h) (f (len h)) (id h) (df h) (mf h) (offset h) (ttl h) (proto h) (cksum h) (src h) (dst h).
#[global] Instance set_src : Setter src := fun f h =>
  mk (ver h) (hlen h) (tos h) (len h) (id h) (df h) (mf h) (offset h) (ttl h) (proto h) (cksum h) (f (src h)) (dst h).
#[global] Instance set_dst : Setter dst := fun f h =>
  mk (ver h) (hlen h) (tos h) (len h) (id h) (df h) (mf h) (offset h) (ttl h) (proto h) (cksum h) (src h) (f (dst h)).
#[global] Instance set_ttl : Setter ttl := fun f h =>
  mk (ver h) (hlen h) (tos h) (len h) (id h) (df h) (mf h) (offset h) (f (ttl h)) (proto h) (cksum h) (src h) (dst h).

Definition parse (h : t) (p : NetParser.t) : t * NetParser.t * ParseResult :=
  let original_serialized_version := NetParser.buffer p in
  let data_size := Buffer.size (NetParser.buffer p) in
  if data_size <? LENGTH then (h, p, PacketTooShort)
  else
    let '(first_byte, p) := NetParser.u8 p in
    let ver := Z.shiftr first_byte 4 in
    let hlen := Z.land first_byte 0x0f in
    let '(tos, p) := NetParser.u8 p in
    let '(len, p) := NetParser.u16 p in
    let '(id, p) := NetParser.u16 p in
    let '(fo_val, p) := NetParser.u16 p in
    let df := negb (Z.land fo_val 0x4000 =? 0) in
    let mf := negb (Z.land fo_val 0x2000 =? 0) in
    let offset := Z.land fo_val 0x1fff in
    let '(ttl, p) := NetParser.u8 p in
    let '(proto, p) := NetParser.u8 p in
    let '(cksum, p) := NetParser.u16 p in
    let '(src, p) := NetParser.u32 p in
    let '(dst, p) := NetParser.u32 p in
    let h := mk ver hlen tos len id df mf offset ttl proto cksum src dst in
    if data_size <? 4 * hlen then (h, p, PacketTooShort)
    else if negb (ver =? 4) then (h, p, WrongIPVersion)
    else if hlen <? 5 then (h, p, HeaderTooShort)
    else if negb (data_size =? len) then (h, p, TruncatedPacket)
    else
      let p := NetParser.remove_prefix p (u64 (hlen * 4 - LENGTH)) in
      if NetParser.error p then (h, p, NetParser.get_error p)
      else
        let check := InternetChecksum.add (InternetChecksum.make 0)
                       (take (Z.to_nat (4 * hlen)) (Buffer.str original_serialized_version)) in
        if negb (InternetChecksum.value check =? 0) then (h, p, BadChecksum)
        else (h, p, NoError).

Definition serialize (h : t) : result (list byte) :=
  if negb (ver h =? 4) then Throw runtime_error
  else if 4 * hlen h <? LENGTH then Throw runtime_error
  else
    let first_byte := u8 (Z.lor (Z.shiftl (ver h) 4) (Z.land (hlen h) 0xf)) in
    let ret := NetUnparser.u8 [] first_byte in
    let ret := NetUnparser.u8 ret (tos h) in
    let ret := NetUnparser.u16 ret (len h) in
    let ret := NetUnparser.u16 ret (id h) in
    let fo_val := u16 (Z.lor (Z.lor (if df h then 0x4000 else 0) (if mf h then 0x2000 else 0))
                             (Z.land (offset h) 0x1fff)) in
    let ret := NetUnparser.u16 ret fo_val in
    let ret := NetUnparser.u8 ret (ttl h) in
    let ret := NetUnparser.u8 ret (proto h) in
    let ret := NetUnparser.u16 ret (cksum h) in
    let ret := NetUnparser.u32 ret (src h) in
    let ret := NetUnparser.u32 ret (dst h) in
    Ok (str_resize ret (4 * hlen h)).

Definition payload_length (h : t) : Z := u16 (len h - 4 * hlen h).

Definition pseudo_cksum (h : t) : Z :=
  let pcksum := u32 (Z.shiftr (src h) 16 + Z.land (src h) 0xffff) in
  let pcksum := u32 (pcksum + u32 (Z.shiftr (dst h) 16 + Z.land (dst h) 0xffff)) in
  let pcksum := u32 (pcksum + proto h) in
  u32 (pcksum + payload_length h).

(** Every member is in the range of its field on the wire. *)
Record wf (h : t) : Prop := {
  wf_ver : ver h = 4;
  wf_hlen : 5 <= hlen h <= 15;
  wf_tos : is_u8 (tos h);
  wf_len : is_u16 (len h);
  wf_id : is_u16 (id h);
  wf_offset : 0 <= offset h < 2 ^ 13;
  wf_ttl : is_u8 (ttl h);
  wf_proto : is_u8 (proto h);
  wf_cksum : is_u16 (cksum h);
  wf_src : is_u32 (src h);
  wf_dst : is_u32 (dst h)
}.

Definition first_byte (h : t) : Z := u8 (Z.lor (Z.shiftl (ver h) 4) (Z.land (hlen h) 0xf)).
Definition fo_val (h : t) : Z :=
  u16 (Z.lor (Z.lor (if df h then 0x4000 else 0) (if mf h then 0x2000 else 0)) (Z.land (offset h) 0x1fff)).

(** The bytes before and after the checksum field. *)
Definition before_cksum (h : t) : list byte :=
  be_split 1 (first_byte h) ++ be_split 1 (tos h) ++ be_split 2 (len h) ++ be_split 2 (id h) ++
  be_split 2 (fo_val h) ++ be_split 1 (ttl h) ++ be_split 1 (proto h).
Definition after_cksum (h : t) : list byte :=
  be_split 4 (src h) ++ be_split 4 (dst h) ++ replicate (Z.to_nat (4 * hlen h) - 20) x00.

Lemma ipv4_header_length_before_cksum h : length (before_cksum h) = 10%nat.
Proof. unfold before_cksum. by rewrite !length_app, !length_be_split. Qed.
Lemma ipv4_header_length_after_cksum h : length (after_cksum h) = (8 + (Z.to_nat (4 * hlen h) - 20))%nat.
Proof. unfold after_cksum. by rewrite !length_app, !length_be_split, length_replicate. Qed.

Lemma ipv4_header_serialize_eq h :
  wf h -> serialize h = Ok (before_cksum h ++ be_split 2 (cksum h) ++ after_cksum h).
Proof.
  intros []. unfold serialize. rewrite wf_ver0. change (negb (4 =? 4)) with false.
  destruct (Z.ltb_spec (4 * hlen h) LENGTH); [unfold LENGTH in *; lia|]. cbv iota.
  unparse_simpl. rewrite <- wf_ver0 at 1. fold (first_byte h). fold (fo_val h).
  rewrite str_resize_pad by (rewrite !length_app, !length_be_split; lia).
  unfold before_cksum, after_cksum. rewrite <- !app_assoc. do 12 f_equal.
Qed.

(** The two packed fields are taken apart as they were put together. *)
Lemma first_byte_fields h :
  wf h -> is_u8 (first_byte h) /\ Z.shiftr (first_byte h) 4 = 4 /\ Z.land (first_byte h) 0x0f = hlen h.
Proof.
  intros []. unfold first_byte. rewrite wf_ver0. change 0xf with (Z.ones 4).
  rewrite Z.land_ones, (Z.mod_small (hlen h)) by lia.
  assert (0 <= Z.lor (Z.shiftl 4 4) (hlen h) < 2 ^ 8).
  { change (Z.shiftl 4 4) with 64. apply lor_range; lia. }
  rewrite u8_id by done. split; [done|]. by rewrite field_high, field_low by lia.
Qed.

Lemma fo_val_fields h :
  wf h -> is_u16 (fo_val h) /\ negb (Z.land (fo_val h) 0x4000 =? 0) = df h /\
  negb (Z.land (fo_val h) 0x2000 =? 0) = mf h /\ Z.land (fo_val h) 0x1fff = offset h.
Proof.
  intros []. unfold fo_val. change 0x1fff with (Z.ones 13).
  rewrite Z.land_ones, (Z.mod_small (offset h)) by lia.
  set (hi := Z.lor (if df h then _ else _) _). assert (Hhi : exists k, hi = Z.shiftl k 13 /\ 0 <= k < 4 /\
    Z.testbit k 1 = df h /\ Z.testbit k 0 = mf h).
  { subst hi. destruct (df h), (mf h); [exists 3|exists 2|exists 1|exists 0];
      (split_and!; first [lia|reflexivity]). }
  destruct Hhi as (k & Ek & Hk & B1 & B0). rewrite Ek.
  assert (0 <= Z.lor (Z.shiftl k 13) (offset h) < 2 ^ 16).
  { apply lor_range; [lia|rewrite Z.shiftl_mul_pow2 by lia; lia|lia]. }
  rewrite u16_id by done. split; [done|].
  change 0x4000 with (2 ^ 14). change 0x2000 with (2 ^ 13). rewrite !flag_bit by lia.
  rewrite !Z.lor_spec, !Z.shiftl_spec by lia. cbn [Z.sub]. change (14 - 13) with 1. change (13 - 13) with 0.
  assert (forall n, 13 <= n -> Z.testbit (offset h) n = false) as Hz.
  { intros n Hn. destruct (Z.eq_dec (offset h) 0) as [->|]; [apply Z.bits_0|].
    apply Z.bits_above_log2; [lia|]. apply Z.log2_lt_pow2; [lia|].
    apply Z.lt_le_trans with (2 ^ 13); [lia|]. apply Z.pow_le_mono_r; lia. }
  rewrite !Hz by lia. rewrite !orb_false_r. split_and!; [done|done|]. by rewrite field_low by lia.
Qed.

(** Parsing a serialized header whose checksum verifies, in front of a payload
    of the length the header announces. *)
Lemma ipv4_header_parse_serialize h h0 p s l :
  wf h -> serialize h = Ok s -> len h = 4 * hlen h + zlen l ->
  InternetChecksum.value (InternetChecksum.add (InternetChecksum.make 0) s) = 0 ->
  NetParser.ready p (s ++ l) ->
  exists p', parse h0 p = (h, p', NoError) /\ NetParser.ready p' l.
Proof.
  intros Hwf Hser Hlen Hck R. rewrite ipv4_header_serialize_eq in Hser by done. apply Ok_inj in Hser as Hs.
  destruct (first_byte_fields h Hwf) as (F1 & F2 & F3).
  destruct (fo_val_fields h Hwf) as (G1 & G2 & G3 & G4). destruct Hwf.
  assert (Hsl : zlen s = 4 * hlen h).
  { rewrite <- Hs, !length_app, ipv4_header_length_before_cksum, length_be_split, ipv4_header_length_after_cksum. lia. }
  unfold parse. pose proof R as (_ & _ & Rs). unfold NetParser.buffer.
  assert (Hsz : Buffer.size (NetParser._buffer p) = len h) by (unfold Buffer.size; rewrite Rs, length_app; lia).
  rewrite Hsz, Rs. destruct (Z.ltb_spec (len h) LENGTH); [unfold LENGTH in *; lia|].
  replace (take (Z.to_nat (4 * Z.land (first_byte h) 15)) (s ++ l)) with s
    by (rewrite F3, take_app_length'; [done|lia]).
  assert (Htk : take (Z.to_nat (4 * hlen h)) (s ++ l) = s) by (apply take_app_length'; lia).
  rewrite <- Hs in R. unfold before_cksum, after_cksum in R. rewrite <- !app_assoc in R.
  unfold NetParser.u32, NetParser.u16, NetParser.u8.
  do 10 parse_step. rewrite F2, F3, G2, G3, G4, Htk.
  destruct (Z.ltb_spec (len h) (4 * hlen h)); [lia|]. change (negb (4 =? 4)) with false.
  destruct (Z.ltb_spec (hlen h) 5); [lia|]. rewrite Z.eqb_refl. cbn [negb].
  assert (Hrep : u64 (hlen h * 4 - LENGTH) = zlen (replicate (Z.to_nat (4 * hlen h) - 20) x00))
    by (rewrite length_replicate, u64_id; unfold LENGTH; lia).
  destruct (NetParser.remove_prefix_ready _ _ l _ Hrep R) as (p' & Ep & R'). rewrite Ep.
  rewrite NetParser.error_false by (by destruct R'). rewrite Hck. cbn.
  exists p'. split; [|done]. rewrite <- wf_ver0. by destruct h.
Qed.

End IPv4Header.

Module IPv4Datagram.

Record t := mk {
  _header : IPv4Header.t;
  _payload : BufferList.t
}.

Definition default : t := mk IPv4Header.default [].

#[global] Instance set_header : Setter _header := fun f d => mk (f (_header d)) (_payload d).

(** [parse] does not look at the result of [_header.parse(p)]. *)
Definition parse (d : t) (buffer : Buffer.t) : t * ParseResult :=
  let p := NetParser.make buffer in
  let '(h, p, _) := IPv4Header.parse (_header d) p in
  let payload := BufferList.of_buffer (NetParser.buffer p) in
  let d := mk h payload in
  if negb (BufferList.size payload =? IPv4Header.payload_length h) then (d, PacketTooShort)
  else (d, NetParser.get_error p).

Definition serialize (d : t) : result BufferList.t :=
  if negb (BufferList.size (_payload d) =? IPv4Header.payload_length (_header d))
  then Throw runtime_error
  else
    let header_out := (_header d) <| IPv4Header.cksum := 0 |> in
    let* header_zero_checksum := IPv4Header.serialize header_out in
    let check := InternetChecksum.add (InternetChecksum.make 0) header_zero_checksum in
    let header_out := header_out <| IPv4Header.cksum := InternetChecksum.value check |> in
    let* s := IPv4Header.serialize header_out in
    let ret := BufferList.append [] (BufferList.of_string s) in
    Ok (BufferList.append ret (_payload d)).

(** The addresses of a parsed datagram are 32 bits wide. *)
Lemma parse_addresses d b d' r :
  parse d b = (d', r) -> is_u32 (IPv4Header.src (_header d)) -> is_u32 (IPv4Header.dst (_header d)) ->
  is_u32 (IPv4Header.src (_header d')) /\ is_u32 (IPv4Header.dst (_header d')).
Proof.
  unfold parse. intros E Hs Hd. destruct (IPv4Header.parse _ _) as [[h p] x] eqn:Eh.
  assert (H : is_u32 (IPv4Header.src h) /\ is_u32 (IPv4Header.dst h)); [clear E|by destruct (negb _); injection E as <- _].
  unfold IPv4Header.parse, NetParser.u8, NetParser.u16, NetParser.u32 in Eh. destruct (_ <? IPv4Header.LENGTH); [by injection Eh as <- _ _|].
  repeat match type of Eh with context [NetParser._parse_int ?n ?p] =>
    let H := fresh "H" in pose proof (NetParser.parse_int_range n p) as H; destruct (NetParser._parse_int n p) as [? ?]; cbn [fst] in H end.
  repeat (match type of Eh with context [if ?c then _ else _] => destruct c end); by injection Eh as <- _ _.
Qed.

(** A datagram the constructor of packets makes: fields in range and a total
    length that is the header's and the payload's. *)
Definition wf (d : t) : Prop :=
  IPv4Header.wf (_header d) /\
  IPv4Header.len (_header d) = 4 * IPv4Header.hlen (_header d) + zlen (BufferList.concatenate (_payload d)).

(** The checksum [serialize] stores: that of the header with 0 in the field. *)
Definition header_cksum (h : IPv4Header.t) : Z :=
  InternetChecksum.value (InternetChecksum.add (InternetChecksum.make 0)
    (IPv4Header.before_cksum h ++ be_split 2 0 ++ IPv4Header.after_cksum h)).

Lemma header_cksum_wf h : IPv4Header.wf h -> IPv4Header.wf (h <| IPv4Header.cksum := header_cksum h |>).
Proof. intros []. split; cbn; try done. apply u16_range. Qed.

Lemma payload_length_wf d :
  wf d -> IPv4Header.payload_length (_header d) = zlen (BufferList.concatenate (_payload d)).
Proof. intros [[] El]. unfold IPv4Header.payload_length. rewrite El, u16_id; lia. Qed.

Lemma size_wf d : wf d -> BufferList.size (_payload d) = zlen (BufferList.concatenate (_payload d)).
Proof. intros [[] El]. rewrite BufferList.size_concatenate, u64_id; lia. Qed.

(** What [serialize] produces. *)
Lemma ipv4_datagram_serialize_eq d :
  wf d -> exists s,
    IPv4Header.serialize ((_header d) <| IPv4Header.cksum := header_cksum (_header d) |>) = Ok s /\
    serialize d = Ok (BufferList.of_string s ++ _payload d).
Proof.
  intros Hd. pose proof (header_cksum_wf _ (proj1 Hd)) as Hc.
  pose proof (IPv4Header.ipv4_header_serialize_eq _ Hc) as Es. eexists. split; [exact Es|]. unfold serialize.
  rewrite size_wf, payload_length_wf by done. rewrite Z.eqb_refl. cbn [negb].
  assert (H0 : IPv4Header.wf ((_header d) <| IPv4Header.cksum := 0 |>))
    by (destruct Hd as [[] _]; split; cbn; done).
  rewrite (IPv4Header.ipv4_header_serialize_eq _ H0). cbn [result_bind].
  change (setter _ (setter _ (_header d)))
    with ((_header d) <| IPv4Header.cksum := header_cksum (_header d) |>).
  rewrite Es. done.
Qed.

(** The stored checksum is the one the receiver verifies. *)
Lemma header_cksum_verifies h s :
  IPv4Header.wf h -> IPv4Header.serialize (h <| IPv4Header.cksum := header_cksum h |>) = Ok s ->
  InternetChecksum.value (InternetChecksum.add (InternetChecksum.make 0) s) = 0.
Proof.
  intros Hw. rewrite IPv4Header.ipv4_header_serialize_eq by (by apply header_cksum_wf). intros <-%Ok_inj.
  apply (InternetChecksum.verifies 0); [lia|by rewrite IPv4Header.ipv4_header_length_before_cksum|].
  destruct Hw. rewrite length_app, IPv4Header.ipv4_header_length_before_cksum, IPv4Header.ipv4_header_length_after_cksum. cbn. lia.
Qed.

Lemma ipv4_datagram_parse_serialize d d0 :
  wf d ->
  exists l, serialize d = Ok l /\ zlen (BufferList.concatenate l) = IPv4Header.len (_header d) /\
    let b := Buffer.of_string (BufferList.concatenate l) in
    let h := (_header d) <| IPv4Header.cksum := header_cksum (_header d) |> in
    exists p' b', IPv4Header.parse (_header d0) (NetParser.make b) = (h, p', NoError) /\
      parse d0 b = (mk h (BufferList.of_buffer b'), NoError) /\
      Buffer.wf b' /\ Buffer.str b' = BufferList.concatenate (_payload d).
Proof.
  intros Hd. destruct (ipv4_datagram_serialize_eq d Hd) as (s & Es & ->). eexists. split; [done|].
  pose proof Hd as [Hh Hl]. cbv zeta.
  rewrite BufferList.concatenate_app, BufferList.concatenate_of_string.
  set (pl := BufferList.concatenate (_payload d)) in *.
  pose proof (header_cksum_wf _ Hh) as Hc.
  assert (Hs : zlen s = 4 * IPv4Header.hlen (_header d)).
  { rewrite IPv4Header.ipv4_header_serialize_eq in Es by done. apply Ok_inj in Es as <-.
    rewrite !length_app, IPv4Header.ipv4_header_length_before_cksum, length_be_split, IPv4Header.ipv4_header_length_after_cksum.
    destruct Hh. cbn. lia. }
  split; [rewrite length_app; lia|].
  destruct (IPv4Header.ipv4_header_parse_serialize _ (_header d0)
    (NetParser.make (Buffer.of_string (s ++ pl))) s pl Hc Es) as (p' & Ep & R).
  - exact Hl.
  - by apply (header_cksum_verifies (_header d)).
  - apply NetParser.ready_make. rewrite length_app. destruct Hh. lia.
  - unfold parse. rewrite Ep. destruct R as (Re & Rw & Rs). exists p', (NetParser.buffer p').
    assert (Hcat : BufferList.concatenate (BufferList.of_buffer (NetParser.buffer p')) = pl) by done.
    rewrite BufferList.size_concatenate, Hcat.
    replace (IPv4Header.payload_length _) with (zlen pl) by (symmetry; by apply payload_length_wf).
    rewrite u64_id by (destruct Hh; lia). rewrite Z.eqb_refl. cbn [negb].
    unfold NetParser.get_error. rewrite Re. done.
Qed.

(** C29. IPv4 round trip: a well-formed datagram serializes without throwing;
    parsing the bytes gives [NoError] both for the header (version, lengths
    and checksum included) and for the datagram, with the same header but for
    the checksum that [serialize] filled in, and the same payload. *)
Theorem ipv4_roundtrip d d0 :
  wf d ->
  exists l, serialize d = Ok l /\
    let b := Buffer.of_string (BufferList.concatenate l) in
    let h := (_header d) <| IPv4Header.cksum := header_cksum (_header d) |> in
    let '(h', p', r) := IPv4Header.parse (_header d0) (NetParser.make b) in
    let '(d', r') := parse d0 b in
    r = NoError /\ r' = NoError /\ h' = h /\ _header d' = h /\
    BufferList.concatenate (_payload d') = BufferList.concatenate (_payload d).
Proof.
  intros Hd. destruct (ipv4_datagram_parse_serialize d d0 Hd) as (l & El & _ & p' & b' & Eh & Ep & _ & Es).
  exists l. split; [done|]. cbv zeta. rewrite Eh, Ep. done.
Qed.

Lemma ipv4_roundtrip_witness :
  let d := mk (IPv4Header.mk 4 6 0 27 7 true false 5 64 6 0 (2 ^ 31 + 5) 77) (BufferList.of_string [x61; x62; x63]) in
  exists l, serialize d = Ok l /\
    let b := Buffer.of_string (BufferList.concatenate l) in
    let h := (_header d) <| IPv4Header.cksum := header_cksum (_header d) |> in
    let '(h', p', r) := IPv4Header.parse (_header default) (NetParser.make b) in
    let '(d', r') := parse default b in
    r = NoError /\ r' = NoError /\ h' = h /\ _header d' = h /\
    BufferList.concatenate (_payload d') = BufferList.concatenate (_payload d).
Proof. apply ipv4_roundtrip. split; [split; cbn; lia|done]. Defined.

(** The header checks of [IPv4Header::parse] do not reach the caller of
    [IPv4Datagram::parse]: this 20-byte datagram has a wrong checksum, the
    header parser reports [BadChecksum], and the datagram is accepted. *)
Theorem bad_checksum_accepted :
  let b := Buffer.of_string ([x45; x00; x00; x14] ++ replicate 16 x00) in
  snd (IPv4Header.parse IPv4Header.default (NetParser.make b)) = BadChecksum /\
  snd (parse default b) = NoError.
Proof. by vm_compute. Qed.

End IPv4Datagram.
