(* ===== verification/tcp_segment.v ===== *)
(** TCP headers and segments ([libsponge/tcp_helpers/tcp_header.{hh,cc}],
    [tcp_segment.{hh,cc}]). *)

From S2P Require Import prelude std_algorithms wrapping_integers buffer parser checksum.

Module TCPHeader.

Definition LENGTH : Z := 20.

Record t := mk {
  sport : Z;
  dport : Z;
  seqno : WrappingInt32;
  ackno : WrappingInt32;
  doff : Z;
  urg : bool;
  ack : bool;
  psh : bool;
  rst : bool;
  syn : bool;
  fin : bool;
  win : Z;
  cksum : Z;
  uptr : Z
}.

(** The default member initialisers. *)
Definition default : t :=
  mk 0 0 (mkWrappingInt32 0) (mkWrappingInt32 0) (LENGTH / 4) false false false false false false 0 0 0.

#[global] Instance set_sport : Setter sport := fun f h =>
  mk (f (sport h)) (dport h) (seqno h) (ackno h) (doff h) (urg h) (ack h) (psh h) (rst h) (syn h) (fin h) (win h) (cksum h) (uptr h).
#[global] Instance set_dport : Setter dport := fun f h =>
  mk (sport h) (f (dport h)) (seqno h) (ackno h) (doff h) (urg h) (ack h) (psh h) (rst h) (syn h) (fin h) (win h) (cksum h) (uptr h).
#[global] Instance set_seqno : Setter seqno := fun f h =>
  mk (sport h) (dport h) (f (seqno h)) (ackno h) (doff h) (urg h) (ack h) (psh h) (rst h) (syn h) (fin h) (win h) (cksum h) (uptr h).
#[global] Instance set_ackno : Setter ackno := fun f h =>
  mk (sport h) (dport h) (seqno h) (f (ackno h)) (doff h) (urg h) (ack h) (psh h) (rst h) (syn h) (fin h) (win h) (cksum h) (uptr h).
#[global] Instance set_ack : Setter ack := fun f h =>
  mk (sport h) (dport h) (seqno h) (ackno h) (doff h) (urg h) (f (ack h)) (psh h) (rst h) (syn h) (fin h) (win h) (cksum h) (uptr h).
#[global] Instance set_rst : Setter rst := fun f h =>
  mk (sport h) (dport h) (seqno h) (ackno h) (doff h) (urg h) (ack h) (psh h) (f (rst h)) (syn h) (fin h) (win h) (cksum h) (uptr h).
#[global] Instance set_syn : Setter syn := fun f h =>
  mk (sport h) (dport h) (seqno h) (ackno h) (doff h) (urg h) (ack h) (psh h) (rst h) (f (syn h)) (fin h) (win h) (cksum h) (uptr h).
#[global] Instance set_fin : Setter fin := fun f h =>
  mk (sport h) (dport h) (seqno h) (ackno h) (doff h) (urg h) (ack h) (psh h) (rst h) (syn h) (f (fin h)) (win h) (cksum h) (uptr h).
#[global] Instance set_win : Setter win := fun f h =>
  mk (sport h) (dport h) (seqno h) (ackno h) (doff h) (urg h) (ack h) (psh h) (rst h) (syn h) (fin h) (f (win h)) (cksum h) (uptr h).
#[global] Instance set_cksum : Setter cksum := fun f h =>
  mk (sport h) (dport h) (seqno h) (ackno h) (doff h) (urg h) (ack h) (psh h) (rst h) (syn h) (fin h) (win h) (f (cksum h)) (uptr h).

(** [parse]: reads past the end of the data give 0 and leave the parser in
    error; the fields are assigned in any case. *)
Definition parse (p : NetParser.t) : t * NetParser.t * ParseResult :=
  let '(sport, p) := NetParser.u16 p in
  let '(dport, p) := NetParser.u16 p in
  let '(seqno, p) := NetParser.u32 p in
  let '(ackno, p) := NetParser.u32 p in
  let '(off, p) := NetParser.u8 p in
  let doff := Z.shiftr off 4 in
  let '(fl_b, p) := NetParser.u8 p in
  let flag m := negb (Z.land fl_b m =? 0) in
  let '(win, p) := NetParser.u16 p in
  let '(cksum, p) := NetParser.u16 p in
  let '(uptr, p) := NetParser.u16 p in
  let h := mk sport dport (mkWrappingInt32 seqno) (mkWrappingInt32 ackno) doff
              (flag 0x20) (flag 0x10) (flag 0x08) (flag 0x04) (flag 0x02) (flag 0x01) win cksum uptr in
  if doff <? 5 then (h, p, HeaderTooShort)
  else
    let p := NetParser.remove_prefix p (u64 (doff * 4 - LENGTH)) in
    if NetParser.error p then (h, p, NetParser.get_error p)
    else (h, p, NoError).

Definition fl_b (h : t) : Z :=
  u8 (Z.lor (Z.lor (Z.lor (Z.lor (Z.lor (if urg h then 0x20 else 0) (if ack h then 0x10 else 0))
    (if psh h then 0x08 else 0)) (if rst h then 0x04 else 0)) (if syn h then 0x02 else 0))
    (if fin h then 0x01 else 0)).

Definition serialize (h : t) : result (list byte) :=
  if doff h <? 5 then Throw runtime_error
  else
    let ret := NetUnparser.u16 [] (sport h) in
    let ret := NetUnparser.u16 ret (dport h) in
    let ret := NetUnparser.u32 ret (raw_value (seqno h)) in
    let ret := NetUnparser.u32 ret (raw_value (ackno h)) in
    let ret := NetUnparser.u8 ret (u8 (Z.shiftl (doff h) 4)) in
    let ret := NetUnparser.u8 ret (fl_b h) in
    let ret := NetUnparser.u16 ret (win h) in
    let ret := NetUnparser.u16 ret (cksum h) in
    let ret := NetUnparser.u16 ret (uptr h) in
    Ok (str_resize ret (4 * doff h)).

(** [operator==], which leaves out the ports and the checksum. *)
Definition eqb (h other : t) : bool :=
  wi_eq (seqno h) (seqno other) && wi_eq (ackno h) (ackno other) && (doff h =? doff other) &&
  Bool.eqb (urg h) (urg other) && Bool.eqb (ack h) (ack other) && Bool.eqb (psh h) (psh other) &&
  Bool.eqb (rst h) (rst other) && Bool.eqb (syn h) (syn other) && Bool.eqb (fin h) (fin other) &&
  (win h =? win other) && (uptr h =? uptr other).

(** Every member is in the range of its field on the wire. *)
Record wf (h : t) : Prop := {
  wf_sport : is_u16 (sport h);
  wf_dport : is_u16 (dport h);
  wf_seqno : wi_ok (seqno h);
  wf_ackno : wi_ok (ackno h);
  wf_doff : 5 <= doff h <= 15;
  wf_win : is_u16 (win h);
  wf_cksum : is_u16 (cksum h);
  wf_uptr : is_u16 (uptr h)
}.

(** The bytes before and after the checksum field. *)
Definition before_cksum (h : t) : list byte :=
  be_split 2 (sport h) ++ be_split 2 (dport h) ++ be_split 4 (raw_value (seqno h)) ++
  be_split 4 (raw_value (ackno h)) ++ be_split 1 (u8 (Z.shiftl (doff h) 4)) ++
  be_split 1 (fl_b h) ++ be_split 2 (win h).
Definition after_cksum (h : t) : list byte :=
  be_split 2 (uptr h) ++ replicate (Z.to_nat (4 * doff h) - 20) x00.

Lemma tcp_header_length_before_cksum h : length (before_cksum h) = 16%nat.
Proof. unfold before_cksum. by rewrite !length_app, !length_be_split. Qed.
Lemma tcp_header_length_after_cksum h : length (after_cksum h) = (2 + (Z.to_nat (4 * doff h) - 20))%nat.
Proof. unfold after_cksum. by rewrite !length_app, !length_be_split, length_replicate. Qed.

Lemma tcp_header_serialize_eq h :
  wf h -> serialize h = Ok (before_cksum h ++ be_split 2 (cksum h) ++ after_cksum h).
Proof.
  intros []. unfold serialize. destruct (Z.ltb_spec (doff h) 5); [lia|].
  unparse_simpl. rewrite str_resize_pad by (rewrite !length_app, !length_be_split; lia).
  unfold before_cksum, after_cksum. rewrite <- !app_assoc. do 10 f_equal.
Qed.

Lemma tcp_header_length_serialize h s : wf h -> serialize h = Ok s -> zlen s = 4 * doff h.
Proof.
  intros Hwf Hs. rewrite tcp_header_serialize_eq in Hs by done. apply Ok_inj in Hs as <-. destruct Hwf.
  rewrite !length_app, tcp_header_length_before_cksum, length_be_split, tcp_header_length_after_cksum. lia.
Qed.

Lemma doff_field h : wf h -> Z.shiftr (u8 (Z.shiftl (doff h) 4)) 4 = doff h.
Proof.
  intros []. rewrite Z.shiftl_mul_pow2 by lia. rewrite u8_id by lia.
  rewrite Z.shiftr_div_pow2 by lia. by rewrite Z.div_mul.
Qed.

(** The six flags are taken apart as they were put together. *)
Lemma fl_b_flags h :
  is_u8 (fl_b h) /\
  negb (Z.land (fl_b h) 0x20 =? 0) = urg h /\ negb (Z.land (fl_b h) 0x10 =? 0) = ack h /\
  negb (Z.land (fl_b h) 0x08 =? 0) = psh h /\ negb (Z.land (fl_b h) 0x04 =? 0) = rst h /\
  negb (Z.land (fl_b h) 0x02 =? 0) = syn h /\ negb (Z.land (fl_b h) 0x01 =? 0) = fin h.
Proof.
  split; [apply u8_range|]. unfold fl_b.
  by destruct (urg h), (ack h), (psh h), (rst h), (syn h), (fin h).
Qed.

Lemma tcp_header_parse_serialize h p s l :
  wf h -> serialize h = Ok s -> NetParser.ready p (s ++ l) ->
  exists p', parse p = (h, p', NoError) /\ NetParser.ready p' l.
Proof.
  intros Hwf Hser R. rewrite tcp_header_serialize_eq in Hser by done. apply Ok_inj in Hser as Hs.
  pose proof (doff_field h Hwf) as Hd. destruct (fl_b_flags h) as (F0 & F1 & F2 & F3 & F4 & F5 & F6).
  destruct Hwf. rewrite <- Hs in R. unfold before_cksum, after_cksum in R. rewrite <- !app_assoc in R.
  unfold parse, NetParser.u32, NetParser.u16, NetParser.u8. pose proof (u8_range (Z.shiftl (doff h) 4)).
  do 9 parse_step. rewrite Hd, F1, F2, F3, F4, F5, F6.
  destruct (Z.ltb_spec (doff h) 5); [lia|].
  assert (Hrep : u64 (doff h * 4 - LENGTH) = zlen (replicate (Z.to_nat (4 * doff h) - 20) x00))
    by (rewrite length_replicate, u64_id; unfold LENGTH; lia).
  destruct (NetParser.remove_prefix_ready _ _ l _ Hrep R) as (p' & Ep & R'). rewrite Ep.
  rewrite NetParser.error_false by (by destruct R'). exists p'. split; [|done].
  by destruct h as [? ? [] []].
Qed.

End TCPHeader.

Module TCPSegment.

Record t := mk {
  _header : TCPHeader.t;
  _payload : Buffer.t
}.

Definition default : t := mk TCPHeader.default Buffer.empty.

#[global] Instance set_header : Setter _header := fun f s => mk (f (_header s)) (_payload s).
#[global] Instance set_payload : Setter _payload := fun f s => mk (_header s) (f (_payload s)).

Definition header (s : t) : TCPHeader.t := _header s.
Definition payload (s : t) : Buffer.t := _payload s.

(** [parse]: a bad checksum leaves the segment as it was; the result of
    [_header.parse(p)] is not used. *)
Definition parse (s : t) (buffer : Buffer.t) (datagram_layer_checksum : Z) : t * ParseResult :=
  let check := InternetChecksum.add (InternetChecksum.make datagram_layer_checksum) (Buffer.str buffer) in
  if negb (InternetChecksum.value check =? 0) then (s, BadChecksum)
  else
    let '(h, p, _) := TCPHeader.parse (NetParser.make buffer) in
    (mk h (NetParser.buffer p), NetParser.get_error p).

Definition length_in_sequence_space (s : t) : Z :=
  u64 (u64 (zlen (Buffer.str (payload s)) + (if TCPHeader.syn (header s) then 1 else 0))
       + (if TCPHeader.fin (header s) then 1 else 0)).

Definition serialize (s : t) (datagram_layer_checksum : Z) : result BufferList.t :=
  let header_out := (_header s) <| TCPHeader.cksum := 0 |> in
  let check := InternetChecksum.make datagram_layer_checksum in
  let* h := TCPHeader.serialize header_out in
  let check := InternetChecksum.add check h in
  let check := InternetChecksum.add check (Buffer.str (_payload s)) in
  let header_out := header_out <| TCPHeader.cksum := InternetChecksum.value check |> in
  let* h := TCPHeader.serialize header_out in
  let ret := BufferList.append [] (BufferList.of_string h) in
  Ok (BufferList.append ret (BufferList.of_buffer (_payload s))).

(** The fields of a parsed segment have the width of their types. *)
Lemma parse_in_range s b init seg :
  parse s b init = (seg, NoError) ->
  is_u16 (TCPHeader.sport (header seg)) /\ wi_ok (TCPHeader.ackno (header seg)) /\ is_u16 (TCPHeader.win (header seg)).
Proof.
  unfold parse. destruct (negb _); [done|]. destruct (TCPHeader.parse _) as [[h p] r] eqn:E. intros [= <- _]. cbn [header _header].
  unfold TCPHeader.parse, NetParser.u8, NetParser.u16, NetParser.u32 in E.
  repeat match type of E with context [NetParser._parse_int ?n ?p] =>
    let H := fresh "H" in pose proof (NetParser.parse_int_range n p) as H; destruct (NetParser._parse_int n p) as [? ?]; cbn [fst] in H end.
  destruct (_ <? 5); [by injection E as <- _ _|]. destruct (NetParser.error _); by injection E as <- _ _.
Qed.

(** The checksum [serialize] stores: that of the whole segment with 0 in the
    field, on top of the pseudo-header's sum. *)
Definition segment_cksum (s : t) (init : Z) : Z :=
  InternetChecksum.value (InternetChecksum.add (InternetChecksum.make init)
    (TCPHeader.before_cksum (_header s) ++ be_split 2 0 ++
     (TCPHeader.after_cksum (_header s) ++ Buffer.str (_payload s)))).

(** What the segment carries on the wire: its header with the checksum that
    [serialize] computes. *)
Definition header_out (s : t) (init : Z) : TCPHeader.t :=
  (_header s) <| TCPHeader.cksum := segment_cksum s init |>.

Lemma header_out_wf s init : TCPHeader.wf (_header s) -> TCPHeader.wf (header_out s init).
Proof. intros []. split; cbn; try done. apply u16_range. Qed.

Lemma tcp_segment_serialize_eq s init :
  TCPHeader.wf (_header s) -> exists h,
    TCPHeader.serialize (header_out s init) = Ok h /\
    serialize s init = Ok (BufferList.of_string h ++ BufferList.of_buffer (_payload s)).
Proof.
  intros Hs. pose proof (TCPHeader.tcp_header_serialize_eq _ (header_out_wf s init Hs)) as Es.
  eexists. split; [exact Es|]. unfold serialize.
  assert (H0 : TCPHeader.wf ((_header s) <| TCPHeader.cksum := 0 |>)) by (destruct Hs; split; cbn; done).
  rewrite (TCPHeader.tcp_header_serialize_eq _ H0). cbn [result_bind].
  unfold InternetChecksum.add at 1 2. rewrite <- foldl_app, <- !app_assoc.
  change (setter _ (setter _ (_header s))) with (header_out s init). by rewrite Es.
Qed.

(** The computed checksum is the one the receiver verifies. *)
Lemma segment_cksum_verifies s init h :
  TCPHeader.wf (_header s) -> 0 <= init ->
  init + 65280 * (zlen (Buffer.str (_payload s)) + 60) < 2 ^ 32 ->
  TCPHeader.serialize (header_out s init) = Ok h ->
  InternetChecksum.value (InternetChecksum.add (InternetChecksum.make init)
    (h ++ Buffer.str (_payload s))) = 0.
Proof.
  intros Hs Hi Hb Eh. rewrite TCPHeader.tcp_header_serialize_eq in Eh by (by apply header_out_wf).
  apply Ok_inj in Eh as <-. rewrite <- !app_assoc.
  apply InternetChecksum.verifies; [done|by rewrite TCPHeader.tcp_header_length_before_cksum|].
  destruct Hs. rewrite !length_app, TCPHeader.tcp_header_length_before_cksum, TCPHeader.tcp_header_length_after_cksum. cbn. lia.
Qed.

(** The bytes of a serialized segment, in any buffer, parse back. *)
Lemma tcp_segment_parse_serialize s init :
  TCPHeader.wf (_header s) -> 0 <= init ->
  init + 65280 * (zlen (Buffer.str (_payload s)) + 60) < 2 ^ 32 ->
  exists l, serialize s init = Ok l /\
    zlen (BufferList.concatenate l) = 4 * TCPHeader.doff (_header s) + zlen (Buffer.str (_payload s)) /\
    forall s0 b, Buffer.wf b -> Buffer.str b = BufferList.concatenate l ->
      exists s', parse s0 b init = (s', NoError) /\
        header s' = header_out s init /\ Buffer.str (payload s') = Buffer.str (payload s).
Proof.
  intros Hs Hi Hb. destruct (tcp_segment_serialize_eq s init Hs) as (h & Eh & ->). eexists. split; [done|].
  rewrite BufferList.concatenate_app, BufferList.concatenate_of_string.
  change (BufferList.concatenate (BufferList.of_buffer (_payload s))) with (Buffer.str (_payload s)).
  pose proof (segment_cksum_verifies s init h Hs Hi Hb Eh) as Hck.
  pose proof (TCPHeader.tcp_header_length_serialize _ _ (header_out_wf s init Hs) Eh) as Hl.
  split; [rewrite length_app; cbn in Hl; lia|]. intros s0 b Hwf Hstr.
  destruct (TCPHeader.tcp_header_parse_serialize (header_out s init) (NetParser.make b) h (Buffer.str (_payload s)))
    as (p' & Ep & Re & _ & Rs); [by apply header_out_wf|done|done|].
  exists (mk (header_out s init) (NetParser.buffer p')). unfold parse. rewrite Hstr, Hck, Ep. cbn [negb Z.eqb].
  unfold NetParser.get_error. rewrite Re. done.
Qed.

(** C28. TCP round trip: a segment with fields in range serializes without
    throwing; its bytes parse, under the same pseudo-header sum, to [NoError]
    with the same header (every flag included) but for the checksum that
    [serialize] filled in, and the same payload, so that the two headers are
    [operator==] and the segments have the same sequence-space length. *)
Theorem tcp_roundtrip s s0 init :
  TCPHeader.wf (_header s) -> 0 <= init ->
  init + 65280 * (zlen (Buffer.str (_payload s)) + 60) < 2 ^ 32 ->
  exists l s', serialize s init = Ok l /\
    parse s0 (Buffer.of_string (BufferList.concatenate l)) init = (s', NoError) /\
    header s' = header_out s init /\ Buffer.str (payload s') = Buffer.str (payload s) /\
    TCPHeader.eqb (header s') (header s) = true /\
    length_in_sequence_space s' = length_in_sequence_space s.
Proof.
  intros Hs Hi Hb. destruct (tcp_segment_parse_serialize s init Hs Hi Hb) as (l & El & Hlen & Hp).
  assert (H60 : 4 * TCPHeader.doff (_header s) <= 60) by (destruct Hs; lia).
  destruct (Hp s0 (Buffer.of_string (BufferList.concatenate l))) as (s' & Ep & Eh & Es);
    [apply Buffer.of_string_wf; lia|done|].
  exists l, s'. split; [done|]. split; [done|]. split; [done|]. split; [done|].
  unfold length_in_sequence_space. rewrite Es, Eh. split; [|done].
  unfold TCPHeader.eqb, wi_eq. cbn. by rewrite !Z.eqb_refl, !eqb_reflx.
Qed.

Lemma tcp_roundtrip_witness :
  let s := mk (TCPHeader.mk 80 4000 (mkWrappingInt32 (2 ^ 32 - 1)) (mkWrappingInt32 7) 6
                 false true true false true true 1000 0 9) (Buffer.of_string [x61; x62; x63]) in
  exists l s', serialize s 1234 = Ok l /\
    parse default (Buffer.of_string (BufferList.concatenate l)) 1234 = (s', NoError) /\
    header s' = header_out s 1234 /\ Buffer.str (payload s') = Buffer.str (payload s) /\
    TCPHeader.eqb (header s') (header s) = true /\
    length_in_sequence_space s' = length_in_sequence_space s.
Proof. apply tcp_roundtrip; [split; cbn; lia|lia|vm_compute; done]. Defined.

(** Whatever bytes arrive, a segment whose checksum does not verify is
    refused with [BadChecksum] and leaves the receiving object unchanged. *)
Theorem tcp_bad_checksum s b init :
  InternetChecksum.value (InternetChecksum.add (InternetChecksum.make init) (Buffer.str b)) <> 0 ->
  parse s b init = (s, BadChecksum).
Proof.
  intros H. unfold parse. by destruct (Z.eqb_spec (InternetChecksum.value
    (InternetChecksum.add (InternetChecksum.make init) (Buffer.str b))) 0).
Qed.

Lemma tcp_bad_checksum_witness :
  parse default (Buffer.of_string (replicate 20 x01)) 0 = (default, BadChecksum).
Proof. apply tcp_bad_checksum. by vm_compute. Defined.

(** A data offset below 5 is reported by [TCPHeader::parse] as
    [HeaderTooShort] and dropped by [TCPSegment::parse]: this segment (data
    offset 0, checksum right) is accepted. *)
Theorem short_doff_accepted :
  let b := Buffer.of_string (replicate 16 x00 ++ [xff; xff] ++ replicate 2 x00) in
  snd (TCPHeader.parse (NetParser.make b)) = HeaderTooShort /\
  snd (parse default b 0) = NoError.
Proof. by vm_compute. Qed.

End TCPSegment.
