(* ===== verification/text.v ===== *)
(** The texts that the library prints: Ethernet addresses and headers, ARP
    messages, IPv4 and TCP headers ([to_string] and [summary] of
    [libsponge/tcp_helpers]), frames ([summary] of [apps/lab7.cc] and
    [apps/network_simulator.cc]), and the dump of bytes in [libsponge/util/util.cc].

    What is shown: the text of a header tells everything in it, and the dump
    consists of aligned lines of sixteen bytes. *)

From Stdlib Require Import Ascii.
From S2P Require Import prelude std_strings wrapping_integers buffer parser ethernet ipv4 tcp_segment.

Module Text.

Definition newline : string := String "010" "".
Definition quote : string := String "034" "".
(** [boolalpha] *)
Definition bool_text (b : bool) : string := if b then "true" else "false".

(** ** Addresses and headers *)

(** [to_string(const EthernetAddress)] *)
Fixpoint ethernet_address (address : EthernetAddress) : string :=
  match address with
  | [] => ""
  | [b] => hex 2 (byte_to_Z b)
  | b :: address => hex 2 (byte_to_Z b) +:+ ":" +:+ ethernet_address address
  end.

Definition ethernet_header (h : EthernetHeader.t) : string :=
  "dst=" +:+ ethernet_address (EthernetHeader.dst h) +:+ ", src=" +:+ ethernet_address (EthernetHeader.src h) +:+ ", type=" +:+
  (if EthernetHeader.type h =? EthernetHeader.TYPE_IPv4 then "IPv4"
   else if EthernetHeader.type h =? EthernetHeader.TYPE_ARP then "ARP"
   else "[unknown type " +:+ hex 0 (EthernetHeader.type h) +:+ "!]").

Definition arp_message (m : ARPMessage.t) : string :=
  let opcode_str := "(unknown type)" in
  let opcode_str := if ARPMessage.opcode m =? ARPMessage.OPCODE_REQUEST then "REQUEST" else opcode_str in
  let opcode_str := if ARPMessage.opcode m =? ARPMessage.OPCODE_REPLY then "REPLY" else opcode_str in
  "opcode=" +:+ opcode_str +:+ ", sender=" +:+ ethernet_address (ARPMessage.sender_ethernet_address m) +:+ "/" +:+
  inet_ntoa (ARPMessage.sender_ip_address m) +:+ ", target=" +:+ ethernet_address (ARPMessage.target_ethernet_address m) +:+ "/" +:+
  inet_ntoa (ARPMessage.target_ip_address m).

Definition ipv4_header (h : IPv4Header.t) : string :=
  "IP version: " +:+ hex 0 (IPv4Header.ver h) +:+ newline +:+
  "IP hdr len: " +:+ hex 0 (IPv4Header.hlen h) +:+ newline +:+
  "IP tos: " +:+ hex 0 (IPv4Header.tos h) +:+ newline +:+
  "IP dgram len: " +:+ hex 0 (IPv4Header.len h) +:+ newline +:+
  "IP id: " +:+ hex 0 (IPv4Header.id h) +:+ newline +:+
  "Flags: df: " +:+ bool_text (IPv4Header.df h) +:+ " mf: " +:+ bool_text (IPv4Header.mf h) +:+ newline +:+
  "Offset: " +:+ hex 0 (IPv4Header.offset h) +:+ newline +:+
  "TTL: " +:+ hex 0 (IPv4Header.ttl h) +:+ newline +:+
  "Protocol: " +:+ hex 0 (IPv4Header.proto h) +:+ newline +:+
  "Checksum: " +:+ hex 0 (IPv4Header.cksum h) +:+ newline +:+
  "Src addr: " +:+ hex 0 (IPv4Header.src h) +:+ newline +:+
  "Dst addr: " +:+ hex 0 (IPv4Header.dst h) +:+ newline.

Definition ipv4_summary (h : IPv4Header.t) : string :=
  "IPv" +:+ hex 0 (IPv4Header.ver h) +:+ ", " +:+ "len=" +:+ hex 0 (IPv4Header.len h) +:+ ", " +:+
  "protocol=" +:+ hex 0 (IPv4Header.proto h) +:+ ", " +:+
  (if 10 <=? IPv4Header.ttl h then "" else "ttl=" +:+ to_string (IPv4Header.ttl h) +:+ ", ") +:+
  "src=" +:+ inet_ntoa (IPv4Header.src h) +:+ ", " +:+ "dst=" +:+ inet_ntoa (IPv4Header.dst h).

Definition tcp_header (h : TCPHeader.t) : string :=
  "TCP source port: " +:+ hex 0 (TCPHeader.sport h) +:+ newline +:+
  "TCP dest port: " +:+ hex 0 (TCPHeader.dport h) +:+ newline +:+
  "TCP seqno: " +:+ hex 0 (raw_value (TCPHeader.seqno h)) +:+ newline +:+
  "TCP ackno: " +:+ hex 0 (raw_value (TCPHeader.ackno h)) +:+ newline +:+
  "TCP doff: " +:+ hex 0 (TCPHeader.doff h) +:+ newline +:+
  "Flags: urg: " +:+ bool_text (TCPHeader.urg h) +:+ " ack: " +:+ bool_text (TCPHeader.ack h) +:+
  " psh: " +:+ bool_text (TCPHeader.psh h) +:+ " rst: " +:+ bool_text (TCPHeader.rst h) +:+
  " syn: " +:+ bool_text (TCPHeader.syn h) +:+ " fin: " +:+ bool_text (TCPHeader.fin h) +:+ newline +:+
  "TCP winsize: " +:+ hex 0 (TCPHeader.win h) +:+ newline +:+
  "TCP cksum: " +:+ hex 0 (TCPHeader.cksum h) +:+ newline +:+
  "TCP uptr: " +:+ hex 0 (TCPHeader.uptr h) +:+ newline.

Definition tcp_summary (h : TCPHeader.t) : string :=
  "Header(flags=" +:+ (if TCPHeader.syn h then "S" else "") +:+ (if TCPHeader.ack h then "A" else "") +:+
  (if TCPHeader.rst h then "R" else "") +:+ (if TCPHeader.fin h then "F" else "") +:+
  ",seqno=" +:+ to_string (raw_value (TCPHeader.seqno h)) +:+ ",ack=" +:+ to_string (raw_value (TCPHeader.ackno h)) +:+
  ",win=" +:+ to_string (TCPHeader.win h) +:+ ")".

(** ** Frames *)

(** The part of [summary] that the two programs share: what an ARP frame says. *)
Definition arp_part (frame : EthernetFrame.t) : result string :=
  let* b := BufferList.to_buffer (EthernetFrame.payload frame) in
  let '(arp, r) := ARPMessage.parse ARPMessage.default b in
  Ok (if bool_decide (r = NoError) then " " +:+ arp_message arp else " (bad ARP)").

(** [summary] of [apps/lab7.cc] *)
Definition lab7_summary (frame : EthernetFrame.t) : result string :=
  let ret := ethernet_header (EthernetFrame.header frame) in
  let type := EthernetHeader.type (EthernetFrame.header frame) in
  if type =? EthernetHeader.TYPE_IPv4 then
    let '(dgram, r) := IPv4Datagram.parse IPv4Datagram.default (Buffer.of_string (BufferList.concatenate (EthernetFrame.payload frame))) in
    if bool_decide (r = NoError) then
      let h := IPv4Datagram._header dgram in
      let ret := ret +:+ " " +:+ ipv4_summary h in
      if IPv4Header.proto h =? IPv4Header.PROTO_TCP then
        let '(tcp_seg, r) := TCPSegment.parse TCPSegment.default (Buffer.of_string (BufferList.concatenate (IPv4Datagram._payload dgram)))
                               (IPv4Header.pseudo_cksum h) in
        if bool_decide (r = NoError) then Ok (ret +:+ " " +:+ tcp_summary (TCPSegment.header tcp_seg)) else Ok ret
      else Ok ret
    else Ok (ret +:+ " (bad IPv4)")
  else if type =? EthernetHeader.TYPE_ARP then
    let* s := arp_part frame in
    Ok (ret +:+ s)
  else Ok ret.

(** [summary] of [apps/network_simulator.cc] *)
Definition simulator_summary (frame : EthernetFrame.t) : result string :=
  let ret := ethernet_header (EthernetFrame.header frame) in
  let type := EthernetHeader.type (EthernetFrame.header frame) in
  if type =? EthernetHeader.TYPE_IPv4 then
    let* b := BufferList.to_buffer (EthernetFrame.payload frame) in
    let '(dgram, r) := IPv4Datagram.parse IPv4Datagram.default b in
    if bool_decide (r = NoError) then
      Ok (ret +:+ " " +:+ ipv4_summary (IPv4Datagram._header dgram) +:+ " payload=" +:+ quote +:+
          String.string_of_list_byte (BufferList.concatenate (IPv4Datagram._payload dgram)) +:+ quote)
    else Ok (ret +:+ " (bad IPv4)")
  else if type =? EthernetHeader.TYPE_ARP then
    let* s := arp_part frame in
    Ok (ret +:+ s)
  else Ok ret.

(** ** The dump *)

(** A [stringstream]: its text, and where the next character goes. *)
Record stringstream := mk_stream { text : list ascii; pos : nat }.
Definition put (ss : stringstream) (c : ascii) : stringstream :=
  mk_stream (take (pos ss) (text ss) ++ [c] ++ drop (S (pos ss)) (text ss)) (S (pos ss)).
Definition str (ss : stringstream) : string := String.string_of_list_ascii (text ss).
(** [stringstream(" ")] and [str(" ")]: the space is the text, and writing starts
    at its beginning. *)
Definition one_space : stringstream := mk_stream [" "%char] 0.

Definition isprint (b : byte) : bool := (32 <=? byte_to_Z b) && (byte_to_Z b <=? 126).
Definition shown (b : byte) : ascii := if isprint b then ascii_of_byte b else "."%char.
Definition spaces (n : nat) : string := String.string_of_list_ascii (replicate n " "%char).

(** The state of the loop: the output so far, [printed] and [pchars]. *)
Definition dump_byte (indent : nat) (s : string * Z * stringstream) (b : byte) : string * Z * stringstream :=
  let '(out, printed, pchars) := s in
  let '(out, pchars) :=
    if Z.land printed 0xf =? 0 then
      let '(out, pchars) := if negb (printed =? 0) then (out +:+ "    " +:+ str pchars +:+ newline, one_space) else (out, pchars) in
      (out +:+ spaces indent +:+ hex 8 printed +:+ ":    ", pchars)
    else if Z.land printed 1 =? 0 then (out +:+ " ", pchars)
    else (out, pchars) in
  (out +:+ hex 2 (byte_to_Z b), printed + 1, put pchars (shown b)).

(** The rest of the last line. *)
Definition dump_end (s : string * Z * stringstream) : string :=
  let '(out, printed, pchars) := s in
  let print_rem := (16 - Z.land printed 0xf) mod 16 in
  out +:+ spaces (Z.to_nat (2 * print_rem + print_rem / 2 + 4)) +:+ str pchars +:+ newline +:+ newline.

(** What [hexdump] prints, for fewer than 2^31 bytes ([printed] is an [int]). *)
Definition hexdump (data : list byte) (indent : nat) : string :=
  dump_end (fold_left (dump_byte indent) data ("", 0, one_space)).

(** ** What the texts tell *)

Lemma bool_cancel a b s t : bool_text a +:+ s = bool_text b +:+ t -> a = b /\ s = t.
Proof. destruct a, b; intros E; try done; split; try done; by injection E. Qed.

(** Equal texts that begin with the same words, or with a number or a boolean. *)
Ltac cancel_texts :=
  repeat match goal with
  | H : ?s +:+ _ = ?s +:+ _ |- _ => apply string_app_cancel in H
  | H : hex _ _ +:+ _ = hex _ _ +:+ _ |- _ =>
      let E := fresh "E" in apply hex_cancel in H as [E H]; [|lia|lia|vm_compute; congruence|vm_compute; congruence]
  | H : bool_text _ +:+ _ = bool_text _ +:+ _ |- _ => let E := fresh "E" in apply bool_cancel in H as [E H]
  end.

(** The text of a TCP header tells everything in it: two headers with the same
    text are the same. *)
Theorem tcp_header_text_injective h h' :
  TCPHeader.wf h -> TCPHeader.wf h' -> tcp_header h = tcp_header h' -> h = h'.
Proof.
  intros [] [] E. unfold tcp_header in E. cancel_texts. clear E.
  destruct h as [? ? [?] [?]], h' as [? ? [?] [?]]. cbn in * |-. subst. reflexivity.
Qed.

(** So does the text of an IPv4 header. *)
Theorem ipv4_header_text_injective h h' :
  IPv4Header.wf h -> IPv4Header.wf h' -> ipv4_header h = ipv4_header h' -> h = h'.
Proof.
  intros [] [] E. unfold ipv4_header in E. cancel_texts. clear E. destruct h, h'. cbn in * |-. subst. reflexivity.
Qed.

Lemma tcp_header_text_injective_witness :
  TCPHeader.default = TCPHeader.default <| TCPHeader.win := 0 |> /\ tcp_header TCPHeader.default <> tcp_header (TCPHeader.default <| TCPHeader.win := 1 |>).
Proof.
  assert (W : forall n, is_u16 n -> TCPHeader.wf (TCPHeader.default <| TCPHeader.win := n |>)) by (intros n Hn; split; try (vm_compute; split; congruence); exact Hn).
  split; [apply tcp_header_text_injective; [exact (W 0 ltac:(lia))..|by vm_compute]|by vm_compute].
Defined.

(** ** The dump in lines *)

(** The bytes of a line, in pairs. *)
Definition hex_bytes (l : list byte) : string :=
  String.concat "" (imap (fun i b => (if negb (i =? 0)%nat && Nat.even i then " " else "") +:+ hex 2 (byte_to_Z b)) l).
Definition chars (l : list byte) : string := String.string_of_list_ascii (map shown l).

(** A line of at most 16 bytes: the indentation, the position, the bytes, space up
    to the column of the characters, and the characters. *)
Definition dump_line (indent : nat) (position : Z) (l : list byte) : string :=
  let missing := (16 - length l)%nat in
  spaces indent +:+ hex 8 position +:+ ":    " +:+ hex_bytes l +:+ spaces (2 * missing + missing / 2 + 4) +:+ chars l +:+ newline.

(** All lines; [n] is an upper bound of their number. *)
Fixpoint dump_lines (n : nat) (indent : nat) (position : Z) (l : list byte) : string :=
  match n, l with
  | S n, _ :: _ => dump_line indent position (take 16 l) +:+ dump_lines n indent (position + 16) (drop 16 l)
  | _, _ => ""
  end.

Lemma concat_app (l k : list string) : String.concat "" (l ++ k) = String.concat "" l +:+ String.concat "" k.
Proof.
  assert (E : forall s l, String.concat "" (s :: l) = s +:+ String.concat "" l).
  { intros s [|t l']; [by rewrite string_app_nil_r|done]. }
  induction l as [|s l IH]; [done|]. rewrite <- app_comm_cons, !E, IH. by rewrite string_app_assoc.
Qed.

Lemma hex_bytes_snoc l b :
  hex_bytes (l ++ [b]) = hex_bytes l +:+ (if negb (length l =? 0)%nat && Nat.even (length l) then " " else "") +:+ hex 2 (byte_to_Z b).
Proof. unfold hex_bytes. rewrite imap_app, concat_app. cbn [imap]. unfold compose. by rewrite Nat.add_0_r. Qed.

Lemma dump_lines_enough n m indent position l :
  (length l <= n)%nat -> (length l <= m)%nat -> dump_lines n indent position l = dump_lines m indent position l.
Proof.
  revert m position l. induction n as [|n IH]; intros m position l Hn Hm; [destruct l; [by destruct m|cbn in Hn; lia]|].
  destruct m as [|m], l as [|b l]; try done; [cbn in Hm; lia|]. cbn [dump_lines]. f_equal. apply IH; rewrite length_drop; cbn [length] in *; lia.
Qed.

Lemma put_end l c : put (mk_stream l (length l)) c = mk_stream (l ++ [c]) (length (l ++ [c])).
Proof. unfold put. cbn [text pos]. rewrite firstn_all, drop_ge, app_nil_r, length_app by lia. f_equal. cbn. lia. Qed.

(** The loop in the middle of a line that already shows [c]. *)
Definition in_line (indent : nat) (out : string) (q : Z) (c : list byte) : string * Z * stringstream :=
  (out +:+ spaces indent +:+ hex 8 (16 * q) +:+ ":    " +:+ hex_bytes c, 16 * q + zlen c, mk_stream (map shown c) (length (map shown c))).

Lemma land_1 q (k : nat) : (k <= 16)%nat -> (Z.land (16 * q + Z.of_nat k) 1 =? 0) = Nat.even k.
Proof.
  intros Hk. change 1 with (Z.ones 1). rewrite Z.land_ones by lia. change (2 ^ 1) with 2.
  replace (16 * q + Z.of_nat k) with (Z.of_nat k + 8 * q * 2) by lia. rewrite Z.mod_add by lia.
  do 17 (destruct k as [|k]; [reflexivity|]). lia.
Qed.

Lemma land_15 q k : 0 <= q -> 0 <= k <= 16 -> Z.land (16 * q + k) 0xf = if k =? 16 then 0 else k.
Proof.
  intros Hq Hk. change 0xf with (Z.ones 4). rewrite Z.land_ones by lia. change (2 ^ 4) with 16.
  destruct (Z.eqb_spec k 16); [subst; replace (16 * q + 16) with (0 + (q + 1) * 16) by lia|replace (16 * q + k) with (k + q * 16) by lia];
    rewrite Z.mod_add by lia; [done|apply Z.mod_small; lia].
Qed.

(** One more byte in the line, or the first one of the next line. *)
Lemma dump_byte_in indent out q c b :
  0 <= q -> (1 <= length c < 16)%nat -> dump_byte indent (in_line indent out q c) b = in_line indent out q (c ++ [b]).
Proof.
  intros Hq Hc. unfold dump_byte, in_line. rewrite land_15 by lia. destruct (Z.eqb_spec (zlen c) 16); [lia|].
  destruct (Z.eqb_spec (zlen c) 0); [lia|]. rewrite land_1 by lia.
  rewrite map_app, hex_bytes_snoc. destruct (Nat.eqb_spec (length c) 0); [lia|]. cbn [negb andb].
  destruct (Nat.even (length c)); rewrite put_end; (f_equal; f_equal; [by rewrite !string_app_assoc|rewrite length_app; cbn; lia]).
Qed.

Lemma dump_byte_next indent out q c b :
  0 <= q -> length c = 16%nat ->
  dump_byte indent (in_line indent out q c) b = in_line indent (out +:+ dump_line indent (16 * q) c) (q + 1) [b].
Proof.
  intros Hq Hc. unfold dump_byte, in_line. rewrite land_15 by lia. rewrite Hc. change (Z.of_nat 16 =? 16) with true. cbv iota.
  change (0 =? 0) with true. cbv iota. destruct (Z.eqb_spec (16 * q + Z.of_nat 16) 0); [lia|]. cbn [negb].
  replace (16 * (q + 1)) with (16 * q + Z.of_nat 16) by lia. unfold dump_line. rewrite Hc. f_equal. f_equal. by rewrite !string_app_assoc.
Qed.

Lemma dump_end_line indent out q c :
  0 <= q -> (1 <= length c <= 16)%nat -> dump_end (in_line indent out q c) = out +:+ dump_line indent (16 * q) c +:+ newline.
Proof.
  intros Hq Hc. unfold dump_end, in_line, dump_line. rewrite land_15 by lia. set (k := (16 - length c)%nat).
  assert (E : (16 - (if zlen c =? 16 then 0 else zlen c)) mod 16 = Z.of_nat k).
  { destruct (Z.eqb_spec (zlen c) 16); [change ((16 - 0) mod 16) with 0; lia|]. rewrite Z.mod_small; lia. }
  rewrite E. replace (Z.to_nat (2 * Z.of_nat k + Z.of_nat k / 2 + 4)) with (2 * k + k / 2 + 4)%nat.
  - by rewrite !string_app_assoc.
  - change 2 with (Z.of_nat 2). rewrite <- Nat2Z.inj_div. lia.
Qed.

Lemma dump_loop indent rest out q c :
  0 <= q -> (1 <= length c <= 16)%nat ->
  dump_end (fold_left (dump_byte indent) rest (in_line indent out q c)) =
  out +:+ dump_lines (length (c ++ rest)) indent (16 * q) (c ++ rest) +:+ newline.
Proof.
  revert out q c. induction rest as [|b rest IH]; intros out q c Hq Hc; cbn [fold_left].
  - rewrite app_nil_r, dump_end_line by done. destruct c as [|x c]; [cbn in Hc; lia|]. cbn [length dump_lines].
    rewrite (take_ge (x :: c)), (drop_ge (x :: c)) by (cbn [length] in *; lia). destruct (length c); by rewrite string_app_nil_r.
  - destruct (decide (length c = 16%nat)) as [E|E].
    + rewrite dump_byte_next, IH by (done || cbn; lia). rewrite string_app_assoc. f_equal.
      assert (L : length (c ++ b :: rest) = S (15 + length ([b] ++ rest))) by (rewrite length_app, E; cbn; lia).
      rewrite L. destruct c as [|x c]; [done|]. change (dump_lines (S ?n) ?i ?p ((x :: c) ++ ?l)) with
        (dump_line i p (take 16 ((x :: c) ++ l)) +:+ dump_lines n i (p + 16) (drop 16 ((x :: c) ++ l))).
      rewrite take_app_length', drop_app_length' by done. rewrite string_app_assoc. f_equal. f_equal.
      replace (16 * (q + 1)) with (16 * q + 16) by lia. apply dump_lines_enough; cbn [length app]; lia.
    + rewrite dump_byte_in, IH by (done || rewrite ?length_app; cbn; lia). by rewrite <- app_assoc.
Qed.

Lemma string_length_app (s t : string) : String.length (s +:+ t) = (String.length s + String.length t)%nat.
Proof. induction s as [|c s IH]; [done|]. exact (f_equal S IH). Qed.

Lemma spaces_length n : String.length (spaces n) = n.
Proof. induction n as [|n IH]; [done|]. exact (f_equal S IH). Qed.

Lemma hex_byte_length b : String.length (hex 2 (byte_to_Z b)) = 2%nat.
Proof. by destruct b. Qed.

(** Two characters for each byte, and a space before every second byte. *)
Lemma hex_bytes_length l : (String.length (hex_bytes l) = 2 * length l + (length l - 1) / 2)%nat.
Proof.
  induction l as [|b l IH] using rev_ind; [done|]. rewrite hex_bytes_snoc, !string_length_app, hex_byte_length, length_app, IH.
  cbn [length]. destruct (Nat.eqb_spec (length l) 0) as [E|E]; [rewrite E; done|]. cbn [negb andb].
  destruct (Nat.even (length l)) eqn:Ev.
  - apply Nat.even_spec in Ev as (k & Hk). rewrite Hk in *. replace (2 * k + 1 - 1)%nat with (k * 2)%nat by lia.
    replace (2 * k - 1)%nat with (1 + (k - 1) * 2)%nat by lia. rewrite Nat.div_mul, Nat.div_add by lia. cbn. lia.
  - assert (Ho : Nat.Odd (length l)) by (apply Nat.odd_spec; unfold Nat.odd; by rewrite Ev). destruct Ho as (k & Hk). rewrite Hk in *.
    replace (2 * k + 1 + 1 - 1)%nat with (1 + k * 2)%nat by lia. replace (2 * k + 1 - 1)%nat with (k * 2)%nat by lia.
    rewrite Nat.div_mul, Nat.div_add by lia. cbn. lia.
Qed.

(** The characters begin in the same column on every line. *)
Lemma dump_column l : (1 <= length l <= 16)%nat ->
  String.length (hex_bytes l +:+ spaces (2 * (16 - length l) + (16 - length l) / 2 + 4)) = 43%nat.
Proof.
  intros Hl. rewrite string_length_app, hex_bytes_length, spaces_length. generalize dependent (length l). intros n Hn.
  do 17 (destruct n as [|n]; [done || lia|]). lia.
Qed.

(** The dump of bytes, which the code prints in one loop over the bytes with
    running counters, is the sequence of its lines: sixteen bytes each, in pairs,
    with their position in front and their characters behind, and an empty line at
    the end. On every line, the last one included, the characters begin in the
    same column. *)
Theorem hexdump_is_lines (data : list byte) (indent : nat) :
  data <> [] -> zlen data < 2 ^ 31 ->
  hexdump data indent = dump_lines (length data) indent 0 data +:+ newline /\
  forall l, (1 <= length l <= 16)%nat ->
    String.length (hex_bytes l +:+ spaces (2 * (16 - length l) + (16 - length l) / 2 + 4)) = 43%nat.
Proof.
  intros Hd _. split; [|by apply dump_column]. destruct data as [|b data]; [done|]. unfold hexdump. cbn [fold_left].
  replace (dump_byte indent ("", 0, one_space) b) with (in_line indent "" 0 [b])
    by (unfold dump_byte, in_line; change (Z.land 0 0xf =? 0) with true; cbv iota; cbn [negb Z.eqb]; by rewrite !string_app_assoc).
  exact (dump_loop indent data "" 0 [b] ltac:(lia) ltac:(cbn; lia)).
Qed.

Lemma hexdump_is_lines_witness :
  hexdump [x41; x00; x7e] 1 = " 00000000:    4100 7e                                    A.~" +:+ newline +:+ newline /\
  hexdump [x41; x00; x7e] 1 = dump_lines 3 1 0 [x41; x00; x7e] +:+ newline.
Proof. split; [by vm_compute|]. exact (proj1 (hexdump_is_lines [x41; x00; x7e] 1 ltac:(done) ltac:(cbn; lia))). Defined.
End Text.
