(* ===== verification/byte_stream.v ===== *)
(** The flow-controlled byte stream ([libsponge/byte_stream.{hh,cc}]).

    [ByteStream.t] has the private members of the class, [deq] being the
    [std::deque<char>] with its front at the head of the list; each operation
    is the method of the same name. The counters are [size_t], hence modulo
    [2^64]. [ByteStream.op]/[run] replay any sequence of calls and are used to
    state the first-in first-out contract. *)

From S2P Require Import prelude.

Module ByteStream.

Record t := mk {
  _end : bool;
  _error : bool;
  cap : Z;
  bytes_wrote : Z;
  bytes_readed : Z;
  deq : list byte
}.

#[global] Instance set_end : Setter _end := fun f s =>
  mk (f (_end s)) (_error s) (cap s) (bytes_wrote s) (bytes_readed s) (deq s).
#[global] Instance set_err : Setter _error := fun f s =>
  mk (_end s) (f (_error s)) (cap s) (bytes_wrote s) (bytes_readed s) (deq s).
#[global] Instance set_wrote : Setter bytes_wrote := fun f s =>
  mk (_end s) (_error s) (cap s) (f (bytes_wrote s)) (bytes_readed s) (deq s).
#[global] Instance set_readed : Setter bytes_readed := fun f s =>
  mk (_end s) (_error s) (cap s) (bytes_wrote s) (f (bytes_readed s)) (deq s).
#[global] Instance set_deq : Setter deq := fun f s =>
  mk (_end s) (_error s) (cap s) (bytes_wrote s) (bytes_readed s) (f (deq s)).

(** The constructor. *)
Definition make (capacity : Z) : t := mk false false capacity 0 0 [].

Definition remaining_capacity (s : t) : Z := u64 (cap s - zlen (deq s)).
Definition buffer_size (s : t) : Z := zlen (deq s).
Definition buffer_empty (s : t) : bool := zlen (deq s) =? 0.
Definition input_ended (s : t) : bool := _end s.
Definition error (s : t) : bool := _error s.
Definition eof (s : t) : bool := buffer_empty s && input_ended s.
Definition bytes_written (s : t) : Z := bytes_wrote s.
Definition bytes_read (s : t) : Z := bytes_readed s.

Definition end_input (s : t) : t := s <| _end := true |>.
Definition set_error (s : t) : t := s <| _error := true |>.

(** [write]: the loop pushes the first [size] characters at the back. *)
Definition write (s : t) (data : list byte) : t * Z :=
  let size := Z.min (zlen data) (remaining_capacity s) in
  (s <| bytes_wrote := u64 (bytes_wrote s + size) |>
     <| deq := deq s ++ take (Z.to_nat size) data |>, size).

(** [peek_output]: the loop copies the first [size] characters. *)
Definition peek_output (s : t) (len : Z) : list byte :=
  let size := Z.min len (zlen (deq s)) in take (Z.to_nat size) (deq s).

(** [pop_output]: [size] times [pop_front]. *)
Definition pop_output (s : t) (len : Z) : t :=
  let size := Z.min len (zlen (deq s)) in
  s <| deq := drop (Z.to_nat size) (deq s) |>
    <| bytes_readed := u64 (bytes_readed s + size) |>.

Definition read (s : t) (len : Z) : t * list byte :=
  let str_readed := peek_output s len in (pop_output s len, str_readed).

(** ** Invariant *)

Definition wf (s : t) : Prop := is_u64 (cap s) /\ zlen (deq s) <= cap s.

Lemma remaining_capacity_eq s : wf s -> remaining_capacity s = cap s - zlen (deq s).
Proof. intros [? ?]. apply u64_id. lia. Qed.

Lemma make_wf capacity : is_u64 capacity -> wf (make capacity).
Proof. intros. split; cbn; lia. Qed.

Lemma write_wf s data : wf s -> wf (write s data).1.
Proof.
  intros H. pose proof (remaining_capacity_eq s H) as Hr. destruct H as [? ?].
  split; cbn; [done|]. rewrite length_app, length_take. lia.
Qed.

Lemma pop_output_wf s len : wf s -> wf (pop_output s len).
Proof. intros [? ?]. split; cbn; [done|]. rewrite length_drop. lia. Qed.

Lemma end_input_wf s : wf s -> wf (end_input s).
Proof. intros [? ?]. by split. Qed.

Lemma set_error_wf s : wf s -> wf (set_error s).
Proof. intros [? ?]. by split. Qed.

#[global] Hint Resolve make_wf write_wf pop_output_wf end_input_wf set_error_wf : sponge.

(** [write] accepts the longest prefix that fits. *)
Lemma write_eq s data :
  wf s ->
  let n := Z.min (zlen data) (cap s - zlen (deq s)) in
  write s data =
    (s <| bytes_wrote := u64 (bytes_wrote s + n) |>
       <| deq := deq s ++ take (Z.to_nat n) data |>, n).
Proof. intros H. unfold write. by rewrite remaining_capacity_eq. Qed.

(** When the data fits, all of it is written. *)
Lemma write_fits s data :
  wf s -> zlen (deq s) + zlen data <= cap s ->
  write s data =
    (s <| bytes_wrote := u64 (bytes_wrote s + zlen data) |>
       <| deq := deq s ++ data |>, zlen data).
Proof.
  intros H Hfit. rewrite write_eq by done.
  replace (Z.min _ _) with (zlen data) by lia. by rewrite Nat2Z.id, firstn_all.
Qed.

(** What fits the remaining capacity is written whole. *)
Lemma write_capacity s data :
  wf s -> zlen data <= remaining_capacity s ->
  deq (write s data).1 = deq s ++ data /\ (write s data).2 = zlen data.
Proof.
  intros Hs Hd. rewrite remaining_capacity_eq in Hd by done. by rewrite write_fits by (done || lia).
Qed.

(** Popping the first [n] of the bytes that were peeked at. *)
Lemma pop_peeked s k n :
  (n <= length (peek_output s k))%nat ->
  deq s = take n (peek_output s k) ++ deq (pop_output s (Z.of_nat n)).
Proof.
  unfold peek_output. rewrite length_take. intros Hn. rewrite take_take. cbn.
  replace (n `min` _)%nat with n by lia. replace (Z.to_nat _) with n by lia. by rewrite take_drop.
Qed.

Lemma peek_peeked s k n : (n <= length (peek_output s k))%nat -> take n (peek_output s k) = peek_output s (Z.of_nat n).
Proof.
  unfold peek_output. rewrite length_take. intros Hn. rewrite take_take. f_equal. lia.
Qed.

(** ** Replaying calls *)

Inductive op :=
  | Write (data : list byte)
  | Pop (len : Z)
  | Read (len : Z)
  | EndInput
  | SetError.

(** The state, the bytes the stream accepted and the bytes it handed out. *)
Definition step (c : t * list byte * list byte) (o : op) : t * list byte * list byte :=
  let '(s, accepted, delivered) := c in
  match o with
  | Write data =>
      let '(s', n) := write s data in (s', accepted ++ take (Z.to_nat n) data, delivered)
  | Pop len => (pop_output s len, accepted, delivered ++ peek_output s len)
  | Read len => let '(s', str) := read s len in (s', accepted, delivered ++ str)
  | EndInput => (end_input s, accepted, delivered)
  | SetError => (set_error s, accepted, delivered)
  end.

Definition run (capacity : Z) (ops : list op) : t * list byte * list byte :=
  fold_left step ops (make capacity, [], []).

(** What every reachable configuration satisfies. *)
Definition fifo_inv (capacity : Z) (c : t * list byte * list byte) : Prop :=
  let '(s, accepted, delivered) := c in
  wf s /\ cap s = capacity /\ accepted = delivered ++ deq s /\
  bytes_wrote s = u64 (zlen accepted) /\ bytes_readed s = u64 (zlen delivered).

Lemma pop_inv capacity s acc del len :
  0 <= len -> fifo_inv capacity (s, acc, del) ->
  fifo_inv capacity (pop_output s len, acc, del ++ peek_output s len).
Proof.
  intros Hl (Hwf & Hcap & Hacc & Hw & Hr). unfold fifo_inv.
  split; [by auto with sponge|]. split; [done|]. split; [|split; [done|]].
  - cbn. unfold peek_output. by rewrite <- app_assoc, take_drop.
  - cbn. rewrite Hr, u64_add_l, length_app. unfold peek_output. rewrite length_take. f_equal. lia.
Qed.

Definition op_ok (o : op) : Prop :=
  match o with Pop n | Read n => 0 <= n | _ => True end.

Lemma step_inv capacity c o : op_ok o -> fifo_inv capacity c -> fifo_inv capacity (step c o).
Proof.
  destruct c as [[s acc] del]. intros Ho Hinv.
  destruct o as [data|len|len| |]; cbn [step read]; try (by apply pop_inv).
  - destruct Hinv as (Hwf & Hcap & Hacc & Hw & Hr).
    pose proof (write_wf s data Hwf) as Hwf'. rewrite write_eq in * by done. cbn in *.
    split; [done|]. split; [done|]. split; [by rewrite Hacc, app_assoc|]. split; [|done].
    destruct Hwf as [? ?]. rewrite Hw, u64_add_l, length_app, length_take. f_equal. lia.
  - by destruct Hinv as (Hwf & ?).
  - by destruct Hinv as (Hwf & ?).
Qed.

(** C30. The byte stream is a bounded first-in first-out queue. After any
    sequence of writes, pops, reads, [end_input] and [set_error] on a fresh
    stream: the bytes accepted so far are exactly the bytes handed out so far
    followed by the buffered ones, in order; the buffer never exceeds the
    capacity; and the two counters count the accepted and the handed-out bytes
    (modulo [2^64]). *)
Theorem run_fifo capacity ops s accepted delivered :
  is_u64 capacity -> Forall op_ok ops ->
  run capacity ops = (s, accepted, delivered) ->
  accepted = delivered ++ deq s /\ buffer_size s <= capacity /\
  bytes_written s = u64 (zlen accepted) /\ bytes_read s = u64 (zlen delivered).
Proof.
  intros Hc Hops Hrun.
  assert (H : fifo_inv capacity (run capacity ops)).
  { clear Hrun. unfold run. assert (H0 : fifo_inv capacity (make capacity, [], [])).
    { split; [by apply make_wf|]. done. }
    revert H0. generalize (make capacity, @nil byte, @nil byte).
    induction Hops as [|o ops Ho _ IH]; intros c H0; [done|]. by apply IH, step_inv. }
  rewrite Hrun in H. destruct H as ([_ Hlen] & Hcap & Hacc & Hw & Hr).
  unfold buffer_size. rewrite <- Hcap. done.
Qed.

Lemma run_fifo_witness :
  let c := run 3 [Write [x61; x62]; Read 1; Write [x63; x64; x65]; EndInput; Pop 2] in
  c.1.2 = c.2 ++ deq c.1.1 /\ buffer_size c.1.1 <= 3 /\
  bytes_written c.1.1 = u64 (zlen c.1.2) /\ bytes_read c.1.1 = u64 (zlen c.2).
Proof.
  eapply (run_fifo 3 [Write [x61; x62]; Read 1; Write [x63; x64; x65]; EndInput; Pop 2]);
    [lia | repeat (apply Forall_cons_2 || apply Forall_nil_2); cbn; lia | reflexivity].
Defined.

End ByteStream.
