(* ===== verification/stream_reassembler.v ===== *)
(** The stream reassembler ([libsponge/stream_reassembler.{hh,cc}]).

    [StreamReassembler.t] has the private members of the class: [_aux] is the
    circular store of [_capacity] characters, [_empty] says which of its
    positions are free, [_start_aux] is the stream index of the next byte to
    assemble. [write_to_aux], [write_to_bytestream] and [push_substring] are
    the methods.

    The theorems read the circular store through [stored r i], the byte held
    for stream index [i]. [aux_safe] and [drain_safe] are the situations in
    which the wrap-around code of the two halves of [push_substring] does what
    it is meant to; outside them it does not (see the last section).

    The positions are taken modulo [_capacity], which is undefined for capacity
    0; [Z.modulo] returns the position itself then. The methods with every such operation and
    every access checked are in reassembly.v, which shows that nothing else is
    undefined. *)

From S2P Require Import prelude std_algorithms byte_stream.

Module StreamReassembler.

Record t := mk {
  _aux : list byte;
  _output : ByteStream.t;
  _capacity : Z;
  _start_aux : Z;
  _empty : list bool;
  _bytes_unass : Z;
  _end_stream : Z;
  _eof_seen : bool
}.

#[global] Instance set_aux : Setter _aux := fun f s =>
  mk (f (_aux s)) (_output s) (_capacity s) (_start_aux s) (_empty s) (_bytes_unass s) (_end_stream s) (_eof_seen s).
#[global] Instance set_output : Setter _output := fun f s =>
  mk (_aux s) (f (_output s)) (_capacity s) (_start_aux s) (_empty s) (_bytes_unass s) (_end_stream s) (_eof_seen s).
#[global] Instance set_start_aux : Setter _start_aux := fun f s =>
  mk (_aux s) (_output s) (_capacity s) (f (_start_aux s)) (_empty s) (_bytes_unass s) (_end_stream s) (_eof_seen s).
#[global] Instance set_empty : Setter _empty := fun f s =>
  mk (_aux s) (_output s) (_capacity s) (_start_aux s) (f (_empty s)) (_bytes_unass s) (_end_stream s) (_eof_seen s).
#[global] Instance set_bytes_unass : Setter _bytes_unass := fun f s =>
  mk (_aux s) (_output s) (_capacity s) (_start_aux s) (_empty s) (f (_bytes_unass s)) (_end_stream s) (_eof_seen s).
#[global] Instance set_end_stream : Setter _end_stream := fun f s =>
  mk (_aux s) (_output s) (_capacity s) (_start_aux s) (_empty s) (_bytes_unass s) (f (_end_stream s)) (_eof_seen s).
#[global] Instance set_eof_seen : Setter _eof_seen := fun f s =>
  mk (_aux s) (_output s) (_capacity s) (_start_aux s) (_empty s) (_bytes_unass s) (_end_stream s) (f (_eof_seen s)).

(** Two states with the same members are equal. *)
Lemma reassembler_t_eq a b :
  _aux a = _aux b -> _output a = _output b -> _capacity a = _capacity b ->
  _start_aux a = _start_aux b -> _empty a = _empty b -> _bytes_unass a = _bytes_unass b ->
  _end_stream a = _end_stream b -> _eof_seen a = _eof_seen b -> a = b.
Proof. destruct a, b; cbn. congruence. Qed.

(** The constructor: a store of [capacity] blanks, every position free. *)
Definition make (capacity : Z) : t :=
  mk (replicate (Z.to_nat capacity) x20) (ByteStream.make capacity) capacity 0
     (replicate (Z.to_nat capacity) true) 0 (u64 (-1)) false.

Definition stream_out (r : t) : ByteStream.t := _output r.
Definition unassembled_bytes (r : t) : Z := _bytes_unass r.
Definition empty (r : t) : bool := unassembled_bytes r =? 0.

(** The copy of [write_to_aux] that does not wrap around the store. *)
Definition copy_straight (r : t) (data : list byte) (loc_data loc_aux size : Z) : t :=
  let n := Z.to_nat in
  let count_empty := count_true (substr (_empty r) (n loc_aux) (n size)) in
  r <| _aux := str_replace (_aux r) (n loc_aux) (n size) (substr data (n loc_data) (n size)) |>
    <| _bytes_unass := u64 (_bytes_unass r + count_empty) |>
    <| _empty := fill (_empty r) (n loc_aux) (n (loc_aux + size)) false |>.

(** The copy that wraps around, as the source has it. *)
Definition copy_around (r : t) (data : list byte) (loc_data loc_aux size : Z) : t :=
  let n := Z.to_nat in
  let size_left := u64 (u64 (loc_aux + size) - _capacity r) in
  let count_empty := count_true (drop (n loc_aux) (_empty r))
                     + count_true (take (n size_left) (_empty r)) in
  let size_right := u64 (_capacity r - loc_aux) in
  let aux1 := str_replace (_aux r) (n loc_aux) (n size_right) (substr data (n loc_data) (n size_right)) in
  let aux2 := str_replace aux1 0 (n size_left) (substr data (n size_right) (n size)) in
  r <| _aux := aux2 |>
    <| _bytes_unass := u64 (_bytes_unass r + count_empty) |>
    <| _empty := fill (fill (_empty r) (n loc_aux) (length (_empty r)) false) 0 (n size_left) false |>.

Definition write_to_aux (r : t) (data : list byte) (start_data : Z) (eof : bool) : t :=
  if zlen data =? 0 then
    if eof then r <| _output := ByteStream.end_input (_output r) |> else r
  else
  let end_aux := u64 (_start_aux r + _capacity r) in
  let end_data := u64 (start_data + zlen data) in
  if (end_aux <? start_data) || (end_data <? _start_aux r) then r else
  let start_copy := Z.max (_start_aux r) start_data in
  let end_copy := Z.min end_aux end_data in
  let size := u64 (end_copy - start_copy) in
  let loc_data := u64 (start_copy - start_data) in
  let loc_aux := start_copy mod _capacity r in
  let r' := if u64 (loc_aux + size) <=? _capacity r
            then copy_straight r data loc_data loc_aux size
            else copy_around r data loc_data loc_aux size in
  if eof then r' <| _end_stream := end_data |> else r'.

Definition write_to_bytestream (r : t) : t :=
  let start := _start_aux r mod _capacity r in
  let it_start := Z.to_nat start in
  let it_end := (it_start + find_true (drop it_start (_empty r)))%nat in
  let size := (it_end - it_start)%nat in
  let '(out, num_wrote) := ByteStream.write (_output r) (substr (_aux r) it_start size) in
  let r := r <| _output := out |>
             <| _empty := fill (_empty r) it_start (it_start + Z.to_nat num_wrote) true |>
             <| _start_aux := u64 (_start_aux r + num_wrote) |>
             <| _bytes_unass := u64 (_bytes_unass r - num_wrote) |> in
  if (it_end =? length (_empty r))%nat then
    let it_end := find_true (take it_start (_empty r)) in
    let size := it_end in
    let '(out, num_wrote) := ByteStream.write (_output r) (substr (_aux r) 0 size) in
    r <| _output := out |>
      <| _empty := fill (_empty r) 0 it_start true |>
      <| _start_aux := u64 (_start_aux r + num_wrote) |>
      <| _bytes_unass := u64 (_bytes_unass r - num_wrote) |>
  else r.

Definition push_substring (r : t) (data : list byte) (index : Z) (eof : bool) : t :=
  let r := write_to_aux r data index eof in
  let r := write_to_bytestream r in
  let r := if negb (_eof_seen r) then r <| _eof_seen := eof |> else r in
  if _start_aux r =? _end_stream r
  then r <| _output := ByteStream.end_input (_output r) |> else r.

(** ** Reading the circular store *)

(** The position in the store of the [k]-th index of the window. *)
Definition slot (r : t) (i : Z) : nat := Z.to_nat (i mod _capacity r).

(** The byte held for stream index [i], if any. *)
Definition stored (r : t) (i : Z) : option byte :=
  if decide (_start_aux r <= i < _start_aux r + _capacity r) then
    match _empty r !! slot r i with
    | Some false => _aux r !! slot r i
    | _ => None
    end
  else None.

(** The invariant: the two arrays have [_capacity] entries, [_start_aux] is the
    number of bytes assembled into the output and [_bytes_unass] is the number
    of occupied positions. *)
Record wf (r : t) : Prop := {
  wf_cap : 0 < _capacity r < 2 ^ 31;
  wf_start : 0 <= _start_aux r < 2 ^ 63;
  wf_aux : zlen (_aux r) = _capacity r;
  wf_empty : zlen (_empty r) = _capacity r;
  wf_out : ByteStream.wf (_output r);
  wf_out_cap : ByteStream.cap (_output r) = _capacity r;
  wf_written : ByteStream.bytes_written (_output r) = _start_aux r;
  wf_unass : _bytes_unass r = _capacity r - count_true (_empty r)
}.

Lemma reassembler_make_wf capacity : 0 < capacity < 2 ^ 31 -> wf (make capacity).
Proof.
  intros. split; cbn; rewrite ?length_replicate, ?count_true_replicate; try lia.
  apply ByteStream.make_wf. lia.
Qed.

(** Positions of the window, relative to the position of its first index. *)
Lemma ring_pos a k c :
  0 < c -> 0 <= k < c -> 0 <= a ->
  (a + k) mod c = if decide (a mod c + k < c) then a mod c + k else a mod c + k - c.
Proof.
  intros Hc Hk Ha. pose proof (Z.mod_pos_bound a c Hc).
  rewrite <- Zplus_mod_idemp_l. case_decide; [apply Z.mod_small; lia|].
  symmetry. apply (Z.mod_unique _ _ 1); lia.
Qed.

(** Two indices of the same window share a position only when equal. *)
Lemma slot_in_range r i :
  wf r -> (slot r i < length (_empty r))%nat /\ (slot r i < length (_aux r))%nat.
Proof.
  intros H. destruct H. unfold slot. pose proof (Z.mod_pos_bound i (_capacity r)). lia.
Qed.

Lemma stored_None r i :
  ~ (_start_aux r <= i < _start_aux r + _capacity r) -> stored r i = None.
Proof. intros. unfold stored. by case_decide. Qed.

(** ** The copy into the store *)

(** The part of the data that is copied, in absolute indices. *)
Definition copied (r : t) (data : list byte) (start_data : Z) (i : Z) : Prop :=
  Z.max (_start_aux r) start_data <= i
  < Z.min (_start_aux r + _capacity r) (start_data + zlen data).

(** The copy does not wrap around the store, or it copies the whole of [data]. *)
Definition aux_safe (r : t) (data : list byte) (start_data : Z) : Prop :=
  let start_copy := Z.max (_start_aux r) start_data in
  let end_copy := Z.min (_start_aux r + _capacity r) (start_data + zlen data) in
  start_copy mod _capacity r + (end_copy - start_copy) <= _capacity r
  \/ (_start_aux r <= start_data
      /\ start_data + zlen data <= _start_aux r + _capacity r).

#[export] Instance copied_dec r data start_data i : Decision (copied r data start_data i).
Proof. unfold copied. apply _. Defined.

Section RingRanges.
Context (c start sc size i : Z).
Context (Hc : 0 < c) (Hstart : 0 <= start) (Hsc : start <= sc) (Hsize : 0 < size).
Context (Hend : sc + size <= start + c) (Hi : start <= i < start + c).

(** A range of indices that does not wrap is a range of positions. *)
Lemma ring_straight :
  sc mod c + size <= c ->
  (sc mod c <= i mod c < sc mod c + size <-> sc <= i < sc + size) /\
  (sc <= i < sc + size -> i mod c - sc mod c = i - sc).
Proof using All.
  intros Hfit. pose proof (ring_pos start (sc - start) c Hc ltac:(lia) Hstart) as E1.
  pose proof (ring_pos start (i - start) c Hc ltac:(lia) Hstart) as E2.
  replace (start + (sc - start)) with sc in E1 by lia.
  replace (start + (i - start)) with i in E2 by lia.
  pose proof (Z.mod_pos_bound start c Hc). repeat case_decide; lia.
Qed.

(** A range that wraps is the end of the store followed by its beginning. *)
Lemma ring_around :
  c < sc mod c + size ->
  (sc mod c <= i mod c \/ i mod c < sc mod c + size - c <-> sc <= i < sc + size) /\
  (sc <= i < sc + size -> sc mod c <= i mod c -> i mod c - sc mod c = i - sc) /\
  (i mod c < sc mod c + size - c -> i mod c + (c - sc mod c) = i - sc).
Proof using All.
  intros Hfit. pose proof (ring_pos start (sc - start) c Hc ltac:(lia) Hstart) as E1.
  pose proof (ring_pos start (i - start) c Hc ltac:(lia) Hstart) as E2.
  replace (start + (sc - start)) with sc in E1 by lia.
  replace (start + (i - start)) with i in E2 by lia.
  pose proof (Z.mod_pos_bound start c Hc). repeat case_decide; lia.
Qed.
End RingRanges.

(** Changing the arrays at the positions of a set of indices changes [stored]
    at exactly these indices. *)
Lemma stored_update r r' (Q : Z -> Prop) `{forall i, Decision (Q i)} (f : Z -> option byte) :
  _start_aux r' = _start_aux r -> _capacity r' = _capacity r ->
  (forall i, Q i -> _start_aux r <= i < _start_aux r + _capacity r) ->
  (forall i, _start_aux r <= i < _start_aux r + _capacity r ->
     _empty r' !! slot r i = (if decide (Q i) then Some false else _empty r !! slot r i) /\
     _aux r' !! slot r i = (if decide (Q i) then f i else _aux r !! slot r i)) ->
  forall i, stored r' i = if decide (Q i) then f i else stored r i.
Proof.
  intros Hs Hc HQ Hupd i. unfold stored, slot in *. rewrite Hs, Hc.
  destruct (decide (_ <= i < _)) as [Hi|Hi].
  - destruct (Hupd i Hi) as [-> ->]. by destruct (decide (Q i)).
  - destruct (decide (Q i)); [|done]. exfalso. auto.
Qed.

Lemma copy_straight_stored r data start_data :
  let sc := Z.max (_start_aux r) start_data in
  let size := Z.min (_start_aux r + _capacity r) (start_data + zlen data) - sc in
  wf r -> 0 <= start_data -> 0 < size -> sc mod _capacity r + size <= _capacity r ->
  let r' := copy_straight r data (sc - start_data) (sc mod _capacity r) size in
  wf r' /\
  forall i, stored r' i =
    if decide (copied r data start_data i) then data !! Z.to_nat (i - start_data) else stored r i.
Proof.
  intros sc size Hwf Hd Hsz Hfit r'. destruct Hwf.
  pose proof (Z.mod_pos_bound sc (_capacity r) ltac:(lia)).
  assert (Hlen : length (substr data (Z.to_nat (sc - start_data)) (Z.to_nat size)) = Z.to_nat size).
  { rewrite length_substr. lia. }
  split.
  - subst r'. unfold copy_straight. pose proof (count_true_bound (_empty r)).
    assert (Hcnt : count_true (fill (_empty r) (Z.to_nat (sc mod _capacity r))
        (Z.to_nat (sc mod _capacity r + size)) false) =
      count_true (_empty r) - count_true (substr (_empty r) (Z.to_nat (sc mod _capacity r)) (Z.to_nat size))).
    { rewrite count_true_fill by lia. rewrite Z.add_0_r. do 3 f_equal. lia. }
    pose proof (count_true_bound (fill (_empty r) (Z.to_nat (sc mod _capacity r))
        (Z.to_nat (sc mod _capacity r + size)) false)) as Hb.
    rewrite length_fill in Hb by lia.
    split; cbn; try done; rewrite ?length_fill, ?length_str_replace by lia; try lia.
    rewrite u64_id by lia. lia.
  - apply stored_update; [done|done|unfold copied; lia|].
    intros i Hi. subst r'. cbn. unfold slot.
    destruct (ring_straight (_capacity r) (_start_aux r) sc size i) as [Hiff Hoff]; try lia.
    pose proof (Z.mod_pos_bound i (_capacity r) ltac:(lia)).
    rewrite lookup_fill, lookup_str_replace by lia. unfold copied.
    clear wf_out0 wf_out_cap0 wf_written0 wf_unass0.
    destruct (decide (Z.max _ _ <= i < _)) as [HQ|HQ].
    + specialize (Hoff ltac:(lia)). rewrite !decide_True by lia. split; [done|].
      rewrite lookup_substr by lia. f_equal. lia.
    + by rewrite !decide_False by lia.
Qed.

Lemma copy_around_stored r data start_data :
  let size := zlen data in
  wf r -> _start_aux r <= start_data -> 0 < size ->
  start_data + size <= _start_aux r + _capacity r ->
  _capacity r < start_data mod _capacity r + size ->
  let r' := copy_around r data 0 (start_data mod _capacity r) size in
  wf r' /\
  forall i, stored r' i =
    if decide (copied r data start_data i) then data !! Z.to_nat (i - start_data) else stored r i.
Proof.
  intros size Hwf Hd Hsz Hend Hfit r'. destruct Hwf.
  pose proof (Z.mod_pos_bound start_data (_capacity r) ltac:(lia)) as Hloc.
  subst r'. unfold copy_around.
  revert Hfit Hloc. set (loc := start_data mod _capacity r). intros Hfit Hloc.
  rewrite (u64_id (loc + size)), (u64_id (_capacity r - loc)), (u64_id (loc + size - _capacity r)) by lia.
  set (aux1 := str_replace (_aux r) _ _ _).
  assert (Hl1 : length (substr data (Z.to_nat 0) (Z.to_nat (_capacity r - loc))) = Z.to_nat (_capacity r - loc))
    by (rewrite length_substr; lia).
  assert (Hl2 : length (substr data (Z.to_nat (_capacity r - loc)) (Z.to_nat size))
                = Z.to_nat (loc + size - _capacity r)) by (rewrite length_substr; lia).
  assert (Ha1 : length aux1 = length (_aux r)) by (subst aux1; rewrite length_str_replace; lia).
  pose proof (length_fill (_empty r) (Z.to_nat loc) (length (_empty r)) false ltac:(lia)) as He1.
  split.
  - pose proof (count_true_bound (_empty r)).
    assert (Hcnt : count_true (fill (fill (_empty r) (Z.to_nat loc) (length (_empty r)) false) 0
        (Z.to_nat (loc + size - _capacity r)) false) =
      count_true (_empty r) - (count_true (drop (Z.to_nat loc) (_empty r))
        + count_true (take (Z.to_nat (loc + size - _capacity r)) (_empty r)))).
    { rewrite count_true_fill by lia. rewrite count_true_fill by lia.
      replace (substr (_empty r) _ _) with (drop (Z.to_nat loc) (_empty r))
        by (unfold substr; rewrite take_ge; [done|rewrite length_drop; lia]).
      replace (substr (fill _ _ _ _) _ _) with (take (Z.to_nat (loc + size - _capacity r)) (_empty r)).
      - lia.
      - apply list_eq. intros i. unfold substr. rewrite drop_0, !lookup_take, lookup_fill by lia.
        rewrite Nat.sub_0_r. repeat case_decide; done || lia. }
    pose proof (count_true_bound (fill (fill (_empty r) (Z.to_nat loc) (length (_empty r)) false) 0
        (Z.to_nat (loc + size - _capacity r)) false)) as Hb.
    rewrite length_fill in Hb by lia.
    split; cbn; try done; rewrite ?length_fill, ?length_str_replace by (rewrite ?He1; lia); try lia.
    rewrite u64_id by lia. lia.
  - apply stored_update; [done|done|unfold copied; lia|].
    intros i Hi. cbn. unfold slot.
    destruct (ring_around (_capacity r) (_start_aux r) start_data size i) as (Hiff & Hoff1 & Hoff2); try lia.
    fold loc in Hiff, Hoff1, Hoff2.
    pose proof (Z.mod_pos_bound i (_capacity r) ltac:(lia)) as Hm.
    revert Hm Hiff Hoff1 Hoff2. generalize (i mod _capacity r). intros m Hm Hiff Hoff1 Hoff2.
    rewrite !lookup_fill by lia. rewrite lookup_str_replace by lia.
    subst aux1. rewrite lookup_str_replace by lia. unfold copied.
    clear wf_out0 wf_out_cap0 wf_written0 wf_unass0 Ha1 He1 Hl1 Hl2.
    destruct (decide (Z.max _ _ <= i < _)) as [HQ|HQ].
    + assert (HQ' : start_data <= i < start_data + size) by lia.
      destruct (decide (m < loc + size - _capacity r)).
      * specialize (Hoff2 ltac:(done)). rewrite !decide_True by lia. split; [done|].
        rewrite lookup_substr by lia. f_equal. lia.
      * assert (loc <= m) as Hm' by (apply Hiff in HQ'; lia). specialize (Hoff1 HQ' Hm').
        rewrite !(decide_False (P := (0 <= _ < _)%nat)) by lia. rewrite !decide_True by lia.
        split; [done|]. rewrite lookup_substr by lia. f_equal. lia.
    + assert (~ (loc <= m) /\ ~ (m < loc + size - _capacity r)) as [? ?] by (split; intros ?; apply HQ; lia).
      by rewrite !decide_False by lia.
Qed.

End StreamReassembler.
