(* ===== verification/reassembly.v ===== *)
(** Correctness of the stream reassembler of [stream_reassembler.v]:
    [Reassembly] has the properties, [ReassemblyCore] the equivalence of
    reassemblers that differ only in where they think the stream ends. *)

From S2P Require Import prelude std_algorithms byte_stream stream_reassembler.

Module Reassembly.
Import StreamReassembler.

Lemma copied_nothing r data start_data i :
  Z.min (_start_aux r + _capacity r) (start_data + zlen data)
    <= Z.max (_start_aux r) start_data -> ~ copied r data start_data i.
Proof. unfold copied. lia. Qed.

(** An empty range changes nothing. *)
Lemma copy_straight_nil r data loc_data loc_aux :
  wf r -> 0 <= loc_aux < _capacity r -> copy_straight r data loc_data loc_aux 0 = r.
Proof.
  intros [] H. pose proof (count_true_bound (_empty r)).
  apply reassembler_t_eq; cbn; try done; unfold substr, str_replace; change (Z.to_nat 0) with 0%nat.
  - by rewrite Nat.add_0_r, take_0, app_nil_l, take_drop.
  - rewrite Z.add_0_r, fill_nil_range; [done|lia].
  - rewrite take_0. change (count_true []) with 0. rewrite Z.add_0_r. apply u64_id. lia.
Qed.

(** [write_to_aux] with the guards resolved. *)
Lemma write_to_aux_stored r data start_data eof :
  wf r -> 0 < zlen data -> 0 <= start_data -> start_data + zlen data < 2 ^ 64 ->
  aux_safe r data start_data ->
  let r' := write_to_aux r data start_data eof in
  wf r' /\ _output r' = _output r /\ _start_aux r' = _start_aux r /\
  _capacity r' = _capacity r /\ _eof_seen r' = _eof_seen r /\
  _end_stream r' =
    (if eof && (start_data <=? _start_aux r + _capacity r) && (_start_aux r <=? start_data + zlen data)
     then start_data + zlen data else _end_stream r) /\
  forall i, stored r' i =
    if decide (copied r data start_data i) then data !! Z.to_nat (i - start_data) else stored r i.
Proof.
  intros Hwf Hd Hs Hov Hsafe r'. subst r'. unfold write_to_aux.
  pose proof (wf_cap r Hwf) as Hcap. pose proof (wf_start r Hwf) as Hst.
  destruct (Z.eqb_spec (zlen data) 0); [lia|].
  rewrite (u64_id (_start_aux r + _capacity r)), (u64_id (start_data + zlen data)) by lia.
  destruct (Z.ltb_spec (_start_aux r + _capacity r) start_data);
    [|destruct (Z.ltb_spec (start_data + zlen data) (_start_aux r))]; cbn [orb].
  1,2: split_and!; try done; [repeat case_if; done || lia|];
    intros i; rewrite decide_False; [done|]; apply copied_nothing; lia.
  destruct (Z.leb_spec start_data (_start_aux r + _capacity r)); [|lia].
  destruct (Z.leb_spec (_start_aux r) (start_data + zlen data)); [|lia]. rewrite !andb_true_r.
  set (sc := Z.max (_start_aux r) start_data).
  set (ec := Z.min (_start_aux r + _capacity r) (start_data + zlen data)).
  pose proof (Z.mod_pos_bound sc (_capacity r) ltac:(lia)).
  rewrite (u64_id (ec - sc)), (u64_id (sc - start_data)), (u64_id (sc mod _ + _)) by lia.
  match goal with |- context [if _ then copy_straight _ _ _ _ _ else ?x] => set (ra := x) end.
  set (r1 := if _ <=? _ then _ else _).
  assert (Hr1 : wf r1 /\ forall i, stored r1 i =
    if decide (copied r data start_data i) then data !! Z.to_nat (i - start_data) else stored r i).
  { subst r1. destruct (Z.eq_dec (ec - sc) 0) as [E|E].
    - rewrite E, Z.add_0_r. destruct (Z.leb_spec (sc mod _capacity r) (_capacity r)); [|lia].
      rewrite copy_straight_nil by done. split; [done|].
      intros i. rewrite decide_False; [done|]. apply copied_nothing. lia.
    - destruct (Z.leb_spec (sc mod _capacity r + (ec - sc)) (_capacity r)) as [Hfit|Hfit].
      + apply copy_straight_stored; fold sc ec; lia || done.
      + unfold aux_safe in Hsafe. fold sc ec in Hsafe.
        destruct Hsafe as [Hsafe|[Hs1 Hs2]]; [lia|].
        assert (sc = start_data) as Esc by lia. subst ra.
        replace (ec - sc) with (zlen data) by lia. rewrite Esc, Z.sub_diag.
        rewrite Esc in Hfit. apply copy_around_stored; lia || done. }
  assert (Hf : _output r1 = _output r /\ _start_aux r1 = _start_aux r /\
    _capacity r1 = _capacity r /\ _eof_seen r1 = _eof_seen r /\ _end_stream r1 = _end_stream r)
    by (subst r1 ra; by case_if).
  destruct Hr1 as [Hwf1 Hst1], Hf as (? & ? & ? & ? & ?). clearbody r1.
  destruct eof; cbn [andb]; [|done].
  split; [destruct Hwf1; by split|]. done.
Qed.

(** ** Draining the store into the output *)

Section Drain.
Context (r : t) (Hwf : wf r).

(** Position of [_start_aux], free room of the output, and the two runs of
    occupied positions the source looks for: up to the end of the store and,
    when that run reaches the end, from its beginning. *)
Definition head_pos : nat := slot r (_start_aux r).
Definition room : nat := Z.to_nat (_capacity r - zlen (ByteStream.deq (_output r))).
Definition head_run : nat := find_true (drop head_pos (_empty r)).
Definition wraps : bool := (head_pos + head_run =? length (_empty r))%nat.
Definition tail_run : nat := if wraps then find_true (take head_pos (_empty r)) else 0.
Definition wrote1 : nat := Nat.min head_run room.
Definition wrote2 : nat := Nat.min tail_run (room - wrote1).

(** When the drain wraps around, the source frees every position before the
    starting one; this is right when those it did not write were free. *)
Definition drain_safe : Prop :=
  wraps = true -> forall p, (wrote2 <= p < head_pos)%nat -> _empty r !! p = Some true.

Definition drained : list byte :=
  substr (_aux r) head_pos wrote1 ++ substr (_aux r) 0 wrote2.

Lemma head_pos_lt : (head_pos < length (_empty r))%nat.
Proof using Hwf. by apply slot_in_range. Qed.

Lemma run_bounds :
  (head_pos + head_run <= length (_empty r))%nat /\ (tail_run <= head_pos)%nat /\
  (wrote1 <= head_run)%nat /\ (wrote2 <= tail_run)%nat /\ (wrote1 + wrote2 <= room)%nat /\
  (0 < tail_run -> head_pos + head_run = length (_empty r))%nat /\
  (0 < wrote2 -> wrote1 = head_run)%nat.
Proof using Hwf.
  pose proof head_pos_lt. pose proof (find_true_le (drop head_pos (_empty r))) as H1.
  pose proof (find_true_le (take head_pos (_empty r))) as H2.
  rewrite length_drop in H1. rewrite length_take in H2.
  unfold wrote2, wrote1, tail_run, wraps, head_run in *.
  destruct (Nat.eqb_spec (head_pos + find_true (drop head_pos (_empty r))) (length (_empty r))); lia.
Qed.

Lemma head_run_false p :
  (head_pos <= p < head_pos + head_run)%nat -> _empty r !! p = Some false.
Proof using Type.
  intros Hp. replace p with (head_pos + (p - head_pos))%nat by lia.
  rewrite <- lookup_drop. apply find_true_before. unfold head_run in Hp. lia.
Qed.

Lemma tail_run_false p : (p < tail_run)%nat -> _empty r !! p = Some false.
Proof using Type.
  intros Hp. unfold tail_run in Hp. destruct wraps; [|lia].
  pose proof (find_true_le (take head_pos (_empty r))) as H. rewrite length_take in H.
  rewrite <- (lookup_take_lt _ head_pos) by lia. by apply find_true_before.
Qed.

Definition empty1 : list bool := fill (_empty r) head_pos (head_pos + wrote1) true.
Definition empty2 : list bool := fill empty1 0 wrote2 true.

Lemma length_empty1 : length empty1 = length (_empty r).
Proof using Hwf. pose proof run_bounds. apply length_fill. lia. Qed.
Lemma length_empty2 : length empty2 = length (_empty r).
Proof using Hwf.
  pose proof run_bounds. unfold empty2. rewrite length_fill; rewrite length_empty1; lia.
Qed.

(** After the drain the written positions are free and no other changed. *)
Lemma lookup_empty2 p :
  empty2 !! p =
    if decide ((head_pos <= p < head_pos + wrote1)%nat \/ (p < wrote2)%nat)
    then Some true else _empty r !! p.
Proof using Hwf.
  pose proof run_bounds. unfold empty2. rewrite lookup_fill by (rewrite length_empty1; lia).
  unfold empty1. rewrite lookup_fill by lia. repeat case_decide; done || lia.
Qed.

Lemma count_empty2 :
  count_true empty2 = count_true (_empty r) + Z.of_nat wrote1 + Z.of_nat wrote2.
Proof using Hwf.
  pose proof run_bounds. pose proof head_pos_lt.
  assert (count_true (substr (_empty r) head_pos wrote1) = 0) as H1.
  { apply count_true_none. rewrite length_substr. intros i Hi.
    rewrite lookup_substr by lia. apply head_run_false. lia. }
  assert (count_true (substr empty1 0 wrote2) = 0) as H2.
  { apply count_true_none. rewrite length_substr, length_empty1. intros i Hi.
    rewrite lookup_substr by lia. unfold empty1. rewrite lookup_fill by lia.
    rewrite decide_False by lia. apply tail_run_false. lia. }
  unfold empty2. rewrite count_true_fill by (rewrite length_empty1; lia).
  rewrite Nat.sub_0_r, H2. unfold empty1. rewrite count_true_fill by lia.
  replace (head_pos + wrote1 - head_pos)%nat with wrote1 by lia. lia.
Qed.

Lemma fill_safe : drain_safe -> wraps = true -> fill empty1 0 head_pos true = empty2.
Proof using Hwf.
  intros Hsafe Hw. pose proof run_bounds. pose proof head_pos_lt. apply list_eq. intros p.
  rewrite lookup_fill by (rewrite length_empty1; lia). rewrite lookup_empty2.
  unfold empty1. rewrite lookup_fill by lia.
  repeat case_decide; try done; try lia. symmetry. apply Hsafe; [done|lia].
Qed.
End Drain.

(** One write of the drain: the [n] bytes at position [pos] that fit. *)
Lemma write_run (o : ByteStream.t) (aux : list byte) pos n room :
  ByteStream.wf o -> room = Z.to_nat (ByteStream.cap o - zlen (ByteStream.deq o)) ->
  (pos + n <= length aux)%nat ->
  ByteStream.write o (substr aux pos n) =
    (ByteStream.mk (ByteStream._end o) (ByteStream._error o) (ByteStream.cap o)
       (u64 (ByteStream.bytes_wrote o + Z.of_nat (Nat.min n room))) (ByteStream.bytes_readed o)
       (ByteStream.deq o ++ substr aux pos (Nat.min n room)), Z.of_nat (Nat.min n room)).
Proof.
  intros Hwf -> Hn. rewrite ByteStream.write_eq by done. destruct Hwf as [_ Hlen].
  rewrite length_substr. replace (Z.min _ _) with (Z.of_nat (Nat.min n
    (Z.to_nat (ByteStream.cap o - zlen (ByteStream.deq o))))) by lia.
  rewrite Nat2Z.id, take_substr by lia. done.
Qed.

(** The whole drain, in closed form. *)
Lemma write_to_bytestream_eq r :
  wf r -> drain_safe r -> _start_aux r + _capacity r < 2 ^ 63 ->
  let w := Z.of_nat (wrote1 r + wrote2 r) in
  let o := _output r in
  write_to_bytestream r =
    mk (_aux r)
       (ByteStream.mk (ByteStream._end o) (ByteStream._error o) (ByteStream.cap o)
          (_start_aux r + w) (ByteStream.bytes_readed o) (ByteStream.deq o ++ drained r))
       (_capacity r) (_start_aux r + w) (empty2 r) (_bytes_unass r - w)
       (_end_stream r) (_eof_seen r).
Proof.
  intros Hwf Hsafe Hov w o. pose proof (run_bounds r Hwf) as Hb.
  pose proof (head_pos_lt r Hwf) as Hh. pose proof (count_empty2 r Hwf) as Hc.
  pose proof (count_true_bound (empty2 r)) as Hcb. rewrite length_empty2 in Hcb by done.
  pose proof (count_true_bound (_empty r)) as Hcb0.
  destruct Hwf. unfold write_to_bytestream. fold (slot r (_start_aux r)). fold (head_pos r).
  fold (head_run r). replace (head_pos r + head_run r - head_pos r)%nat with (head_run r) by lia.
  rewrite (write_run _ _ _ _ (room r)); [|done|unfold room; by rewrite wf_out_cap0|lia].
  fold (wrote1 r). cbn [setter set_output set_empty set_start_aux set_bytes_unass _empty _aux _output].
  rewrite Nat2Z.id. fold (empty1 r). rewrite length_empty1 by done. fold (wraps r).
  assert (wf_written' : ByteStream.bytes_wrote (_output r) = _start_aux r) by done.
  assert (Hroom : (room r <= Z.to_nat (_capacity r))%nat) by (unfold room; lia).
  destruct (wraps r) eqn:Hw.
  - assert (Ht : find_true (take (head_pos r) (empty1 r)) = tail_run r).
    { unfold tail_run. rewrite Hw. f_equal. unfold empty1, fill. rewrite take_app_le.
      - by rewrite take_take, Nat.min_id.
      - rewrite length_take. lia. }
    rewrite Ht, (write_run _ _ _ _ (room r - wrote1 r)).
    + fold (wrote2 r). rewrite (fill_safe r) by done.
      rewrite wf_written', !(u64_id (_start_aux r + Z.of_nat (wrote1 r))) by lia.
      apply reassembler_t_eq; cbn; try done; rewrite ?(u64_id (_bytes_unass r - _)), ?u64_id by lia; try lia.
      unfold drained. rewrite app_assoc. f_equal; lia.
    + cbn. destruct wf_out0 as [? ?]. split; cbn; [done|]. rewrite length_app, length_substr.
      unfold room in Hb. lia.
    + cbn. rewrite length_app, length_substr. unfold room in *. lia.
    + lia.
  - assert (wrote2 r = 0%nat) as H2 by (unfold wrote2, tail_run; rewrite Hw; lia).
    rewrite wf_written'. unfold drained, empty2. rewrite H2, fill_nil_range by lia.
    apply reassembler_t_eq; cbn; try done; rewrite ?u64_id by lia; try lia.
    unfold substr at 3. rewrite take_0, app_nil_r. f_equal; lia.
Qed.

Lemma length_drained r : wf r -> length (drained r) = (wrote1 r + wrote2 r)%nat.
Proof.
  intros H. pose proof (run_bounds r H). pose proof (head_pos_lt r H). destruct H.
  unfold drained. rewrite length_app, !length_substr. lia.
Qed.

(** The slot of the [k]-th index of the window, seen from [head_pos]. *)
Lemma slot_offset r k :
  wf r -> 0 <= k < _capacity r ->
  slot r (_start_aux r + k) =
    if decide (head_pos r + Z.to_nat k < length (_empty r))%nat
    then (head_pos r + Z.to_nat k)%nat
    else (head_pos r + Z.to_nat k - length (_empty r))%nat.
Proof.
  intros [] Hk. unfold slot at 1. rewrite ring_pos by lia.
  pose proof (Z.mod_pos_bound (_start_aux r) (_capacity r) ltac:(lia)).
  unfold head_pos, slot. repeat case_decide; lia.
Qed.

Lemma stored_offset r k :
  wf r -> 0 <= k < _capacity r ->
  stored r (_start_aux r + k) =
    match _empty r !! slot r (_start_aux r + k) with
    | Some false => _aux r !! slot r (_start_aux r + k)
    | _ => None
    end.
Proof. intros. unfold stored. by rewrite decide_True by lia. Qed.

(** What is drained is what was stored from [_start_aux] on. *)
Lemma drained_lookup r k :
  wf r -> (k < length (drained r))%nat ->
  stored r (_start_aux r + Z.of_nat k) = drained r !! k.
Proof.
  intros Hwf Hk. pose proof (run_bounds r Hwf). pose proof (head_pos_lt r Hwf).
  rewrite length_drained in Hk by done.
  assert (length (_empty r) = Z.to_nat (_capacity r) /\ length (_aux r) = Z.to_nat (_capacity r)
          /\ 0 < _capacity r) as (? & ? & ?) by (destruct Hwf; lia).
  rewrite stored_offset, slot_offset, Nat2Z.id by (done || lia).
  assert (Hl1 : length (substr (_aux r) (head_pos r) (wrote1 r)) = wrote1 r)
    by (rewrite length_substr; lia).
  unfold drained. destruct (decide (k < wrote1 r)%nat).
  - rewrite decide_True by lia. rewrite head_run_false by lia.
    rewrite lookup_app_l by lia. by rewrite lookup_substr.
  - rewrite decide_False by lia. rewrite tail_run_false by lia.
    rewrite lookup_app_r, Hl1 by lia. rewrite lookup_substr by lia. f_equal. lia.
Qed.

(** The drain stops only at a hole or when the output is full. *)
Lemma drained_maximal r :
  wf r -> length (drained r) = room r \/ stored r (_start_aux r + zlen (drained r)) = None.
Proof.
  intros Hwf. rewrite length_drained by done.
  pose proof (run_bounds r Hwf). pose proof (head_pos_lt r Hwf).
  destruct (decide (wrote1 r + wrote2 r = room r)%nat) as [|Hne]; [by left|right].
  assert (wrote1 r = head_run r /\ wrote2 r = tail_run r) as [E1 E2]
    by (unfold wrote2, wrote1 in *; lia).
  assert (length (_empty r) = Z.to_nat (_capacity r) /\ 0 < _capacity r) as (? & ?)
    by (destruct Hwf; lia).
  destruct (decide (head_run r + tail_run r < length (_empty r))%nat) as [Hlt|Hge].
  - rewrite stored_offset, slot_offset, Nat2Z.id, E1, E2 by (done || lia).
    assert (Hend : _empty r !! (if decide (head_pos r + (head_run r + tail_run r) < length (_empty r))%nat
      then (head_pos r + (head_run r + tail_run r))%nat
      else (head_pos r + (head_run r + tail_run r) - length (_empty r))%nat) = Some true); [|by rewrite Hend].
    case_decide.
    + assert (tail_run r = 0)%nat as -> by lia. rewrite Nat.add_0_r, <- lookup_drop.
      apply find_true_at. rewrite length_drop. unfold head_run in *. lia.
    + assert (wraps r = true) as Hw by (unfold wraps; apply Nat.eqb_eq; lia).
      replace (head_pos r + (head_run r + tail_run r) - length (_empty r))%nat with (tail_run r)
        by (unfold wraps in Hw; apply Nat.eqb_eq in Hw; lia).
      unfold tail_run in *. rewrite Hw in *. apply Nat.eqb_eq in Hw.
      rewrite <- (lookup_take_lt _ (head_pos r)) by lia.
      apply find_true_at. rewrite length_take. lia.
  - apply stored_None. lia.
Qed.

(** Everything that was not drained is still stored. *)
Lemma drain_keeps r i :
  wf r -> drain_safe r -> _start_aux r + _capacity r < 2 ^ 63 ->
  _start_aux r + zlen (drained r) <= i ->
  stored (write_to_bytestream r) i = stored r i.
Proof.
  intros Hwf Hsafe Hov Hi. rewrite length_drained in Hi by done.
  rewrite write_to_bytestream_eq by done.
  pose proof (run_bounds r Hwf). pose proof (head_pos_lt r Hwf).
  assert (length (_empty r) = Z.to_nat (_capacity r) /\ 0 < _capacity r) as (Hlen & Hcap)
    by (destruct Hwf; lia).
  destruct (decide (i < _start_aux r + _capacity r)) as [Hin|Hout].
  - unfold stored. cbn. rewrite !decide_True by lia. unfold slot; cbn. fold (slot r i).
    rewrite lookup_empty2 by done. rewrite decide_False; [done|].
    replace i with (_start_aux r + (i - _start_aux r)) by lia.
    rewrite slot_offset by (done || lia). case_decide; lia.
  - rewrite (stored_None r) by lia. unfold stored. cbn. case_decide; [|done].
    unfold slot; cbn. replace (i mod _capacity r) with ((i - _capacity r) mod _capacity r).
    + fold (slot r (i - _capacity r)). rewrite lookup_empty2 by done. rewrite decide_True; [done|].
      replace (i - _capacity r) with (_start_aux r + (i - _capacity r - _start_aux r)) by lia.
      rewrite slot_offset by (done || lia). case_decide; lia.
    + rewrite <- (Z.mod_add (i - _capacity r) 1) by lia. f_equal. lia.
Qed.

Lemma write_to_bytestream_wf r :
  wf r -> drain_safe r -> _start_aux r + _capacity r < 2 ^ 63 -> wf (write_to_bytestream r).
Proof.
  intros Hwf Hsafe Hov. rewrite write_to_bytestream_eq by done.
  pose proof (run_bounds r Hwf). pose proof (count_empty2 r Hwf). pose proof (length_empty2 r Hwf).
  pose proof (length_drained r Hwf). destruct Hwf. unfold room in *.
  split; cbn; try done; try lia.
  destruct wf_out0 as [? ?]. split; cbn; [done|]. rewrite length_app. lia.
Qed.

(** ** One push *)

(** What the store holds once [data] has been merged into it. *)
Definition merged (r : t) (data : list byte) (index : Z) (i : Z) : option byte :=
  if decide (copied r data index i) then data !! Z.to_nat (i - index) else stored r i.

(** Both halves of the push are in the situations their code handles. *)
Definition push_safe (r : t) (data : list byte) (index : Z) (eof : bool) : Prop :=
  0 < zlen data /\ 0 <= index /\ index + zlen data < 2 ^ 64 /\
  _start_aux r + _capacity r < 2 ^ 63 /\
  aux_safe r data index /\ drain_safe (write_to_aux r data index eof).

(** The last lines of [push_substring]: the end-of-stream bookkeeping. *)
Definition finish (r : t) (eof : bool) : t :=
  let r := if negb (_eof_seen r) then r <| _eof_seen := eof |> else r in
  if _start_aux r =? _end_stream r
  then r <| _output := ByteStream.end_input (_output r) |> else r.

Lemma push_substring_finish r data index eof :
  push_substring r data index eof = finish (write_to_bytestream (write_to_aux r data index eof)) eof.
Proof. done. Qed.

Lemma finish_stored r eof i : stored (finish r eof) i = stored r i.
Proof. unfold finish. by repeat case_if. Qed.

Lemma finish_wf r eof : wf r -> wf (finish r eof).
Proof. intros []. unfold finish. repeat case_if; split; cbn; auto with sponge. Qed.

Lemma finish_frame r eof :
  _start_aux (finish r eof) = _start_aux r /\ _capacity (finish r eof) = _capacity r /\
  _end_stream (finish r eof) = _end_stream r /\
  ByteStream.deq (_output (finish r eof)) = ByteStream.deq (_output r) /\
  ByteStream._end (_output (finish r eof)) =
    (if _start_aux r =? _end_stream r then true else ByteStream._end (_output r)).
Proof. unfold finish. by repeat case_if. Qed.

(** The effect of [finish (write_to_bytestream r)] on a state with the arrays
    already updated. *)
Lemma drain_finish r eof :
  wf r -> drain_safe r -> _start_aux r + _capacity r < 2 ^ 63 ->
  let bs := drained r in
  let r' := finish (write_to_bytestream r) eof in
  wf r' /\
  ByteStream.deq (_output r') = ByteStream.deq (_output r) ++ bs /\
  _start_aux r' = _start_aux r + zlen bs /\ _capacity r' = _capacity r /\
  _end_stream r' = _end_stream r /\
  ByteStream._end (_output r') =
    (if _start_aux r + zlen bs =? _end_stream r then true else ByteStream._end (_output r)) /\
  (forall i, _start_aux r' <= i -> stored r' i = stored r i).
Proof.
  intros Hwf Hs Hov bs r'. pose proof (length_drained r Hwf) as Hl.
  pose proof (finish_frame (write_to_bytestream r) eof) as (F1 & F2 & F3 & F4 & F5).
  pose proof (drain_keeps r) as Hk. pose proof (write_to_bytestream_wf r Hwf Hs Hov) as Hwf'.
  pose proof (write_to_bytestream_eq r Hwf Hs Hov) as E. cbn zeta in E. rewrite <- Hl in E.
  assert (G : _start_aux (write_to_bytestream r) = _start_aux r + zlen bs /\
    _capacity (write_to_bytestream r) = _capacity r /\
    _end_stream (write_to_bytestream r) = _end_stream r /\
    ByteStream.deq (_output (write_to_bytestream r)) = ByteStream.deq (_output r) ++ bs /\
    ByteStream._end (_output (write_to_bytestream r)) = ByteStream._end (_output r))
    by (by rewrite E).
  destruct G as (G1 & G2 & G3 & G4 & G5). subst r'.
  split; [by apply finish_wf|]. rewrite F1, F2, F3, F4, F5, G1, G2, G3, G4, G5.
  split_and!; try done. intros i Hi. rewrite finish_stored. by apply Hk.
Qed.

(** One push, with the end-of-stream bookkeeping. *)
Lemma push_spec r data index eof :
  wf r -> push_safe r data index eof ->
  let r' := push_substring r data index eof in
  exists bs,
    (wf r' /\
    ByteStream.deq (stream_out r') = ByteStream.deq (stream_out r) ++ bs /\
    _start_aux r' = _start_aux r + zlen bs /\
    (forall k, (k < length bs)%nat -> merged r data index (_start_aux r + Z.of_nat k) = bs !! k) /\
    (zlen bs = ByteStream.remaining_capacity (stream_out r)
     \/ merged r data index (_start_aux r') = None) /\
    (forall i, _start_aux r' <= i -> stored r' i = merged r data index i)) /\
    _capacity r' = _capacity r /\
    _end_stream r' =
      (if eof && (index <=? _start_aux r + _capacity r) && (_start_aux r <=? index + zlen data)
       then index + zlen data else _end_stream r) /\
    ByteStream._end (_output r') =
      (if _start_aux r' =? _end_stream r' then true else ByteStream._end (_output r)).
Proof.
  intros Hwf (Hlen & Hidx & Hov & Hst & Haux & Hdrain) r'.
  destruct (write_to_aux_stored r data index eof) as (Hwf1 & Ho & Hs1 & Hc1 & _ & Hes & Hst1);
    try done.
  set (r1 := write_to_aux r data index eof) in *.
  destruct (drain_finish r1 eof Hwf1 Hdrain ltac:(lia)) as (Hwf' & Hdeq & Hs' & Hc' & Hes' & Hend & Hkeep).
  subst r'. rewrite push_substring_finish. fold r1.
  exists (drained r1). unfold stream_out. rewrite <- Ho, <- Hs1.
  split_and!; try done.
  - intros k Hk. rewrite <- (drained_lookup r1 k) by done. rewrite Hst1. done.
  - rewrite Hs'. destruct (drained_maximal r1 Hwf1) as [Hm|Hm].
    + left. rewrite Hm. rewrite ByteStream.remaining_capacity_eq by (by destruct Hwf1).
      unfold room. destruct Hwf1 as [_ _ _ _ [? ?] Hoc _ _]. lia.
    + right. rewrite <- Hm, Hst1. done.
  - intros i Hi. rewrite Hkeep by done. rewrite Hst1. done.
  - by rewrite Hc'.
  - by rewrite Hes', Hes, Hs1.
  - by rewrite Hend, Hs', Hes'.
Qed.

(** C9. One push of a substring, in the situations [push_safe]: the output
    receives exactly the bytes known from [_start_aux] on (already stored, or
    in [data]) up to the first hole or until it is full; everything else that
    is known inside the window stays stored, with the value received; and the
    invariant is kept. *)
Theorem push_substring_spec r data index eof :
  wf r -> push_safe r data index eof ->
  let r' := push_substring r data index eof in
  exists bs,
    wf r' /\
    ByteStream.deq (stream_out r') = ByteStream.deq (stream_out r) ++ bs /\
    _start_aux r' = _start_aux r + zlen bs /\
    (forall k, (k < length bs)%nat -> merged r data index (_start_aux r + Z.of_nat k) = bs !! k) /\
    (zlen bs = ByteStream.remaining_capacity (stream_out r)
     \/ merged r data index (_start_aux r') = None) /\
    (forall i, _start_aux r' <= i -> stored r' i = merged r data index i).
Proof.
  intros Hwf Hsafe r'. destruct (push_spec r data index eof Hwf Hsafe) as (bs & H & _). by exists bs.
Qed.

(** A position whose index in the next lap is not stored is free. *)
Lemma slot_free r p :
  wf r -> (p < length (_empty r))%nat ->
  _start_aux r <= Z.of_nat p + _capacity r < _start_aux r + _capacity r ->
  stored r (Z.of_nat p + _capacity r) = None -> _empty r !! p = Some true.
Proof.
  intros Hwf Hp Hin Hnone. destruct Hwf. unfold stored in Hnone. rewrite decide_True in Hnone by done.
  assert (slot r (Z.of_nat p + _capacity r) = p) as Hslot.
  { unfold slot. rewrite <- (Z.mul_1_l (_capacity r)) at 1. rewrite Z.mod_add by lia.
    rewrite Z.mod_small by lia. lia. }
  rewrite Hslot in Hnone. destruct (lookup_lt_is_Some_2 (_empty r) p Hp) as [b Hb].
  destruct (lookup_lt_is_Some_2 (_aux r) p ltac:(lia)) as [x Hx].
  rewrite Hb, Hx in Hnone. by destruct b.
Qed.

(** ** Reassembling a whole stream *)

Section WholeStream.
(** The stream being transmitted, no longer than the store. *)
Context (capacity : Z) (src : list byte).
Context (Hcap : 0 < capacity < 2 ^ 31) (HS : zlen src <= capacity).

(** A substring of [src] arrives (in any order, with any overlap), or the
    reader pops bytes from the output. *)
Inductive op :=
  | Push (index len : nat) (eof : bool)
  | Pop (n : nat).

(** Substrings lie inside [src]. *)
Definition op_ok (o : op) : Prop :=
  match o with
  | Push index len _ => (index + len <= length src)%nat
  | Pop _ => True
  end.

(** A non-empty substring flagged as last ends where [src] does. *)
Definition ends_right (o : op) : Prop :=
  match o with
  | Push index len eof => eof = true -> (0 < len)%nat -> (index + len = length src)%nat
  | Pop _ => True
  end.

Definition step (c : t * list byte) (o : op) : t * list byte :=
  let '(r, delivered) := c in
  match o with
  | Push index len eof => (push_substring r (substr src index len) (Z.of_nat index) eof, delivered)
  | Pop n =>
      let '(out, str) := ByteStream.read (stream_out r) (Z.of_nat n) in
      (r <| _output := out |>, delivered ++ str)
  end.

Definition run (ops : list op) : t * list byte := fold_left step ops (make capacity, []).

Definition covers (i : nat) (o : op) : bool :=
  match o with
  | Push index len _ => (index <=? i)%nat && (i <? index + len)%nat
  | Pop _ => false
  end.
Definition is_last (o : op) : bool :=
  match o with Push _ len eof => eof && (0 <? len)%nat | Pop _ => false end.
Definition is_empty_last (o : op) : bool :=
  match o with Push _ len eof => eof && (len =? 0)%nat | Pop _ => false end.

(** Has index [i] arrived? Has the end been announced, by the last bytes or
    by an empty substring? *)
Definition covered (ops : list op) (i : nat) : bool := existsb (covers i) ops.
Definition announced (ops : list op) : bool := existsb is_last ops.
Definition empty_last (ops : list op) : bool := existsb is_empty_last ops.

(** The first index that has not arrived, or the length of [src]. *)
Definition first_gap (ops : list op) : nat :=
  find_true (map (fun i => negb (covered ops i)) (seq 0 (length src))).

(** How many of the arrived indices are beyond the first gap. *)
Definition pending (ops : list op) : Z :=
  count_true (map (covered ops) (seq (first_gap ops) (length src - first_gap ops))).

Lemma covered_snoc ops o i : covered (ops ++ [o]) i = covered ops i || covers i o.
Proof using Type. unfold covered. rewrite existsb_app. cbn. by rewrite orb_false_r. Qed.
Lemma announced_snoc ops o : announced (ops ++ [o]) = announced ops || is_last o.
Proof using Type. unfold announced. rewrite existsb_app. cbn. by rewrite orb_false_r. Qed.
Lemma empty_last_snoc ops o : empty_last (ops ++ [o]) = empty_last ops || is_empty_last o.
Proof using Type. unfold empty_last. rewrite existsb_app. cbn. by rewrite orb_false_r. Qed.

Lemma first_gap_unique ops n :
  (n <= length src)%nat -> (forall i, (i < n)%nat -> covered ops i = true) ->
  ((n < length src)%nat -> covered ops n = false) -> first_gap ops = n.
Proof using Type.
  intros Hn Hbefore Hat. unfold first_gap.
  set (l := map _ _). assert (Hl : length l = length src) by (subst l; by rewrite length_map, length_seq).
  assert (Hlk : forall i, (i < length src)%nat -> l !! i = Some (negb (covered ops i))).
  { intros i Hi. subst l. rewrite list_lookup_fmap, lookup_seq_lt by done. done. }
  pose proof (find_true_le l). destruct (Nat.lt_total (find_true l) n) as [Hlt|[Heq|Hgt]]; [|done|].
  - pose proof (find_true_at l ltac:(lia)) as H1. rewrite Hlk in H1 by lia.
    rewrite Hbefore in H1 by done. done.
  - pose proof (find_true_before l n Hgt) as H1. rewrite Hlk in H1 by lia.
    rewrite Hat in H1 by lia. done.
Qed.

(** What holds after the operations [ops]. *)
Record inv (ops : list op) (c : t * list byte) : Prop := {
  inv_wf : wf c.1;
  inv_cap : _capacity c.1 = capacity;
  inv_start : _start_aux c.1 <= zlen src;
  inv_out : c.2 ++ ByteStream.deq (_output c.1) = take (Z.to_nat (_start_aux c.1)) src;
  inv_stored : forall i, stored c.1 i =
    if decide (_start_aux c.1 <= i < zlen src /\ covered ops (Z.to_nat i) = true)
    then src !! Z.to_nat i else None;
  inv_before : forall i, Z.of_nat i < _start_aux c.1 -> covered ops i = true;
  inv_gap : _start_aux c.1 < zlen src -> covered ops (Z.to_nat (_start_aux c.1)) = false;
  inv_end_stream : Forall ends_right ops ->
    _end_stream c.1 = if announced ops then zlen src else u64 (-1);
  inv_ended : Forall ends_right ops ->
    ByteStream._end (_output c.1) = empty_last ops || (announced ops && (_start_aux c.1 =? zlen src))
}.

Lemma inv_init : inv [] (make capacity, []).
Proof using Hcap HS.
  split; cbn; try done; try lia.
  - by apply reassembler_make_wf.
  - intros i. rewrite decide_False by (intros [_ ?]; done). unfold stored. cbn.
    case_decide; [|done]. unfold slot; cbn.
    rewrite lookup_replicate_2; [done|]. pose proof (Z.mod_pos_bound i capacity). lia.
Qed.

(** A state that stores the arrived part of [src] beyond [_start_aux]. *)
Definition stores (r : t) (P : nat -> bool) : Prop :=
  forall i, stored r i =
    if decide (_start_aux r <= i < zlen src /\ P (Z.to_nat i) = true) then src !! Z.to_nat i else None.

Lemma stores_drain_safe r P :
  wf r -> _capacity r = capacity -> _start_aux r <= zlen src -> stores r P -> drain_safe r.
Proof using Hcap HS.
  intros Hwf Hc Hs Hst _ p Hp. pose proof (head_pos_lt r Hwf).
  assert (0 <= _start_aux r) by (destruct Hwf; lia).
  assert (Hh : _start_aux r < capacity /\ head_pos r = Z.to_nat (_start_aux r)).
  { unfold head_pos, slot in *. rewrite Hc in *.
    destruct (decide (_start_aux r = capacity)) as [E|E].
    - rewrite E, Z.mod_same in Hp by lia. lia.
    - rewrite Z.mod_small by lia. lia. }
  apply slot_free; try done; try lia. rewrite Hst. rewrite decide_False; [done|]. lia.
Qed.

Lemma push_aux_step ops r del index len eof :
  inv ops (r, del) -> op_ok (Push index len eof) ->
  let r1 := write_to_aux r (substr src index len) (Z.of_nat index) eof in
  let ops' := ops ++ [Push index len eof] in
  wf r1 /\
  _output r1 = (if is_empty_last (Push index len eof) then ByteStream.end_input (_output r) else _output r) /\
  _start_aux r1 = _start_aux r /\ _capacity r1 = capacity /\
  (Forall ends_right ops' -> _end_stream r1 = if announced ops' then zlen src else u64 (-1)) /\
  stores r1 (covered ops').
Proof using Hcap HS.
  intros [] Hlen. cbn -[Nat.ltb] in *.
  assert (Hl : length (substr src index len) = len) by (rewrite length_substr; lia).
  assert (Hnn : 0 <= _start_aux r) by (destruct inv_wf0; lia).
  rewrite announced_snoc. cbn [is_last]. destruct (decide (len = 0%nat)) as [->|Hne].
  - assert (E : write_to_aux r (substr src index 0) (Z.of_nat index) eof
      = if eof then r <| _output := ByteStream.end_input (_output r) |> else r) by done.
    rewrite E, !andb_false_r, andb_true_r, orb_false_r. split_and!.
    + destruct eof; [|done]. destruct inv_wf0. split; cbn; by auto with sponge.
    + by destruct eof.
    + by destruct eof.
    + by destruct eof.
    + intros [Her _]%Forall_app. rewrite <- inv_end_stream0 by done. by destruct eof.
    + intros i. rewrite covered_snoc. cbn [covers].
      replace ((index <=? Z.to_nat i)%nat && (Z.to_nat i <? index + 0)%nat) with false
        by (destruct (Nat.leb_spec index (Z.to_nat i)), (Nat.ltb_spec (Z.to_nat i) (index + 0)); lia || done).
      rewrite orb_false_r. destruct eof; apply inv_stored0.
  - destruct (write_to_aux_stored r (substr src index len) (Z.of_nat index) eof)
      as (W1 & W2 & W3 & W4 & _ & W6 & W7); try done; try lia.
    { left. rewrite Hl, inv_cap0. set (sc := Z.max _ _).
      destruct (decide (sc = capacity)) as [->|]; [rewrite Z.mod_same by lia; lia|].
      rewrite Z.mod_small; lia. }
    rewrite Hl in W6. split_and!; try done; try congruence.
    + rewrite W2. destruct (Nat.eqb_spec len 0); [lia|]. by rewrite andb_false_r.
    + intros [Her Heof%Forall_inv]%Forall_app. cbn in Heof. rewrite W6, inv_end_stream0 by done.
      destruct (Nat.ltb_spec 0 len); [|lia]. destruct eof; cbn [andb].
      * specialize (Heof eq_refl ltac:(lia)).
        destruct (Z.leb_spec (Z.of_nat index) (_start_aux r + _capacity r)); [|lia].
        destruct (Z.leb_spec (_start_aux r) (Z.of_nat index + Z.of_nat len)); [|lia].
        rewrite orb_true_r. cbn. lia.
      * by rewrite orb_false_r.
    + intros i. rewrite W7, W3, inv_stored0, covered_snoc. cbn [covers].
      destruct (decide (copied _ _ _ _)) as [Hc|Hc]; unfold copied in Hc; rewrite Hl in Hc.
      * rewrite decide_True.
        -- rewrite lookup_substr by lia. f_equal. lia.
        -- split; [lia|]. destruct (Nat.leb_spec index (Z.to_nat i)); [|lia].
           destruct (Nat.ltb_spec (Z.to_nat i) (index + len)); [|lia]. apply orb_true_r.
      * apply decide_ext. split; intros [Hi Hcv]; (split; [done|]).
        -- by rewrite Hcv.
        -- destruct (covered ops (Z.to_nat i)); [done|]. cbn in Hcv.
           apply andb_true_iff in Hcv as [?%Nat.leb_le ?%Nat.ltb_lt]. exfalso. lia.
Qed.

(** The drained bytes are the arrived bytes of [src] from [_start_aux] on. *)
Lemma drained_src r P k :
  wf r -> stores r P -> (k < length (drained r))%nat ->
  Z.of_nat k + _start_aux r < zlen src /\ P (Z.to_nat (_start_aux r + Z.of_nat k)) = true /\
  drained r !! k = src !! Z.to_nat (_start_aux r + Z.of_nat k).
Proof using Type.
  intros Hwf Hst Hk. pose proof (drained_lookup r k Hwf Hk) as E.
  destruct (lookup_lt_is_Some_2 _ _ Hk) as [x Hx]. rewrite Hx, Hst in E.
  case_decide as Hd; [|done]. rewrite Hx, E. destruct Hd as [? ?]. split_and!; [lia|done|done].
Qed.

Lemma drained_eq r P :
  wf r -> _start_aux r <= zlen src -> stores r P ->
  drained r = substr src (Z.to_nat (_start_aux r)) (length (drained r)) /\
  _start_aux r + zlen (drained r) <= zlen src.
Proof using Type.
  intros Hwf Hle Hst. assert (0 <= _start_aux r) by (by destruct (wf_start r Hwf)).
  assert (Hb : _start_aux r + zlen (drained r) <= zlen src).
  { destruct (length (drained r)) as [|n] eqn:En; [lia|].
    destruct (drained_src r P n Hwf Hst) as [? _]; lia. }
  split; [|done]. apply list_eq. intros k. destruct (decide (k < length (drained r))%nat).
  - destruct (drained_src r P k) as (_ & _ & ->); try done.
    rewrite lookup_substr by done. f_equal. lia.
  - rewrite !lookup_ge_None_2; [done|rewrite length_substr; lia|lia].
Qed.

Lemma push_step_inv ops r del index len eof :
  inv ops (r, del) -> op_ok (Push index len eof) ->
  inv (ops ++ [Push index len eof]) (step (r, del) (Push index len eof)).
Proof using Hcap HS.
  intros Hinv Hok. destruct (push_aux_step ops r del index len eof Hinv Hok)
    as (W1 & W2 & W3 & W4 & W5 & W6). destruct Hinv. cbn -[Nat.eqb Nat.ltb] in *.
  rewrite push_substring_finish.
  set (r1 := write_to_aux _ _ _ _) in *. set (ops' := ops ++ _) in *.
  assert (Hnn : 0 <= _start_aux r) by (by destruct (wf_start r inv_wf0)).
  assert (Hsafe : drain_safe r1) by (apply (stores_drain_safe r1 (covered ops')); done || lia).
  destruct (drain_finish r1 eof W1 Hsafe ltac:(lia)) as (D1 & D2 & D3 & D4 & D5 & D6 & D7).
  destruct (drained_eq r1 (covered ops')) as [E1 E2]; try done; [lia|].
  assert (W2d : ByteStream.deq (_output r1) = ByteStream.deq (_output r)) by (rewrite W2; by destruct (eof && _)).
  assert (W2e : ByteStream._end (_output r1) = (eof && (len =? 0)%nat) || ByteStream._end (_output r))
    by (rewrite W2; by destruct (eof && _)).
  set (bs := drained r1) in *. set (r' := finish _ _) in *. rewrite W3 in *. rewrite W2d in *.
  assert (Hdel : zlen del + zlen (ByteStream.deq (_output r)) = _start_aux r).
  { apply (f_equal length) in inv_out0. rewrite length_app, length_take in inv_out0. lia. }
  split; cbn -[Nat.eqb Nat.ltb]; try done; try lia.
  - rewrite D2, app_assoc, inv_out0, E1. unfold substr. rewrite take_take_drop. f_equal. lia.
  - intros i. destruct (decide (_start_aux r' <= i)) as [Hi|Hi].
    + rewrite D7 by done. rewrite W6, W3. apply decide_ext. split; intros [? ?]; split; done || lia.
    + rewrite stored_None, decide_False by lia. done.
  - intros i Hi. destruct (decide (Z.of_nat i < _start_aux r)) as [Hlt|Hge].
    + subst ops'. rewrite covered_snoc, inv_before0 by done. done.
    + destruct (drained_src r1 (covered ops') (i - Z.to_nat (_start_aux r))) as (_ & Hc & _);
        try done; [fold bs; lia|]. rewrite W3 in Hc. rewrite <- Hc. f_equal. lia.
  - intros Hlt. destruct (drained_maximal r1 W1) as [Hm|Hm]; fold bs in Hm.
    + exfalso. unfold room in Hm. rewrite W2d, W4 in Hm. lia.
    + rewrite W6, W3, <- D3 in Hm. case_decide as Hd.
      * apply lookup_ge_None_1 in Hm. lia.
      * destruct (covered ops' (Z.to_nat (_start_aux r'))); [|done]. exfalso. apply Hd. lia.
  - intros Her. by rewrite D5, W5.
  - intros Her. change (u64 (-1)) with (2 ^ 64 - 1) in W5. pose proof (proj1 (proj1 (Forall_app _ _ _) Her)) as Her0.
    rewrite D6, D3, W5, W2e, inv_ended0 by done. subst ops'. rewrite announced_snoc, empty_last_snoc.
    cbn [is_empty_last]. destruct (eof && (len =? 0)%nat), (empty_last ops), (announced ops), (is_last (Push index len eof)); cbn [andb orb];
      repeat case_if; try done; try lia; destruct (Z.eqb_spec (_start_aux r + zlen bs) (zlen src)); try done; try lia;
      destruct (Z.eqb_spec (_start_aux r) (zlen src)); done || lia.
Qed.

Lemma pop_step_inv ops r del n :
  inv ops (r, del) -> inv (ops ++ [Pop n]) (step (r, del) (Pop n)).
Proof using Type.
  intros []. cbn in *. split; cbn; try done.
  - destruct inv_wf0. split; try done. by apply ByteStream.pop_output_wf.
  - rewrite <- inv_out0, <- app_assoc. f_equal. unfold ByteStream.peek_output. apply take_drop.
  - intros i. rewrite covered_snoc, orb_false_r. apply inv_stored0.
  - intros i Hi. rewrite covered_snoc, inv_before0 by done. done.
  - intros Hi. rewrite covered_snoc, inv_gap0 by done. done.
  - intros [Her _]%Forall_app. by rewrite announced_snoc, orb_false_r, <- inv_end_stream0.
  - intros [Her _]%Forall_app. by rewrite announced_snoc, empty_last_snoc, !orb_false_r, <- inv_ended0.
Qed.

Lemma run_inv ops : Forall op_ok ops -> inv ops (run ops).
Proof using Hcap HS.
  induction ops as [|o ops IH] using rev_ind; intros Hok; [by apply inv_init|].
  apply Forall_app in Hok as [Hok Ho%Forall_inv].
  unfold run in *. rewrite fold_left_app. cbn [fold_left].
  specialize (IH Hok). destruct (fold_left step ops _) as [r del].
  destruct o; [by apply push_step_inv|by apply pop_step_inv].
Qed.

Lemma inv_first_gap ops r del : inv ops (r, del) -> first_gap ops = Z.to_nat (_start_aux r).
Proof using Type.
  intros []. cbn in *. assert (0 <= _start_aux r) by (by destruct (wf_start r inv_wf0)).
  apply first_gap_unique; [lia|intros; apply inv_before0; lia|intros; apply inv_gap0; lia].
Qed.

(** The flags, position by position, and what they count. *)
Lemma inv_unassembled ops r del : inv ops (r, del) -> _bytes_unass r = pending ops.
Proof using Hcap HS.
  intros Hinv. unfold pending. rewrite (inv_first_gap _ _ _ Hinv). destruct Hinv. cbn in *.
  destruct inv_wf0. set (a := Z.to_nat (_start_aux r)).
  set (f := fun p => (a <=? p)%nat && (p <? length src)%nat && covered ops p).
  assert (HE : _empty r = map (fun p => negb (f p)) (seq 0 (Z.to_nat capacity))).
  { apply list_eq. intros p. destruct (decide (p < Z.to_nat capacity)%nat) as [Hp|Hp].
    2: { rewrite !lookup_ge_None_2; rewrite ?length_map, ?length_seq; done || lia. }
    rewrite list_lookup_fmap, lookup_seq_lt by done. cbn.
    destruct (lookup_lt_is_Some_2 (_empty r) p ltac:(lia)) as [b Hb]. rewrite Hb. f_equal.
    destruct (lookup_lt_is_Some_2 (_aux r) p ltac:(lia)) as [x Hx].
    set (i := if decide (a <= p)%nat then Z.of_nat p else Z.of_nat p + capacity).
    assert (Hslot : slot r i = p).
    { unfold slot, i. rewrite inv_cap0. case_decide; [rewrite Z.mod_small by lia; lia|].
      rewrite <- (Z.mul_1_l capacity) at 1. rewrite Z.mod_add, Z.mod_small by lia. lia. }
    assert (Hi : _start_aux r <= i < _start_aux r + _capacity r)
      by (unfold i; case_decide; lia).
    specialize (inv_stored0 i). unfold stored in inv_stored0.
    rewrite (decide_True (P := _ <= i < _ + _)) in inv_stored0 by done.
    rewrite Hslot, Hb, Hx in inv_stored0.
    destruct (f p) eqn:Hf; unfold f in Hf.
    - apply andb_true_iff in Hf as [[?%Nat.leb_le ?%Nat.ltb_lt]%andb_true_iff Hc].
      unfold i in inv_stored0. rewrite (decide_True (P := (a <= p)%nat)) in inv_stored0 by done.
      rewrite Nat2Z.id, decide_True in inv_stored0 by (split; [lia|done]).
      destruct b; [|done]. symmetry in inv_stored0. apply lookup_ge_None_1 in inv_stored0. lia.
    - rewrite decide_False in inv_stored0; [by destruct b|]. intros [Hi1 Hi2].
      unfold i in Hi1, Hi2. case_decide; [|lia]. rewrite Nat2Z.id in Hi2. rewrite Hi2 in Hf.
      destruct (Nat.leb_spec a p), (Nat.ltb_spec p (length src)); done || lia. }
  rewrite wf_unass0, HE, count_true_negb, length_seq, inv_cap0.
  replace (Z.to_nat capacity) with (a + (length src - a) + (Z.to_nat capacity - length src))%nat by lia.
  rewrite !seq_app, !map_app, !count_true_app.
  rewrite (count_true_map_false f (seq 0 a)), (count_true_map_false f (seq (0 + (a + _)) _)).
  - rewrite Nat.add_0_l. replace (map f (seq a (length src - a))) with (map (covered ops) (seq a (length src - a))); [lia|].
    apply map_ext_in. intros p Hp%in_seq. unfold f.
    destruct (Nat.leb_spec a p), (Nat.ltb_spec p (length src)); done || lia.
  - intros p Hp%in_seq. unfold f. destruct (Nat.ltb_spec p (length src)); [lia|]. by rewrite andb_false_r.
  - intros p Hp%in_seq. unfold f. destruct (Nat.leb_spec a p); [lia|done].
Qed.

Lemma run_any_order ops r delivered :
  Forall op_ok ops -> run ops = (r, delivered) ->
  let n := first_gap ops in
  delivered ++ ByteStream.deq (stream_out r) = take n src /\
  ByteStream.bytes_written (stream_out r) = Z.of_nat n /\
  unassembled_bytes r = pending ops /\
  (Forall ends_right ops ->
   ByteStream.input_ended (stream_out r) = empty_last ops || (announced ops && (n =? length src)%nat)).
Proof using Hcap HS.
  intros Hok Hrun n. pose proof (run_inv ops Hok) as Hinv. rewrite Hrun in Hinv.
  pose proof (inv_first_gap _ _ _ Hinv) as Hn. pose proof (inv_unassembled _ _ _ Hinv) as Hu.
  destruct Hinv. cbn in *. destruct inv_wf0. unfold stream_out, ByteStream.input_ended. subst n.
  rewrite Hn. split_and!; try done; [lia|]. intros Her. rewrite inv_ended0 by done. do 2 f_equal.
  destruct (Z.eqb_spec (_start_aux r) (zlen src)), (Nat.eqb_spec (Z.to_nat (_start_aux r)) (length src));
    done || lia.
Qed.

(** C10. Reassembly of a stream that fits the store is exactly right, whatever
    the order, overlap and duplication of the substrings, whichever of them
    are flagged as last, and however the reader interleaves its reads. After
    any sequence of arrivals and reads: the bytes handed out followed by the
    buffered ones are the stream up to the first index that has not arrived,
    and [unassembled_bytes] is the number of distinct arrived indices beyond
    it. As for the end of the input: if the non-empty substrings flagged as
    last do end where the stream does, it is signalled exactly when one of
    them was announced and nothing is missing, or, wherever the stream stands
    (the defect of [empty_last_ends_early]), as soon as an empty substring
    flagged as last has come. *)
Theorem reassembles_any_order ops r delivered :
  Forall op_ok ops -> run ops = (r, delivered) ->
  let n := first_gap ops in
  delivered ++ ByteStream.deq (stream_out r) = take n src /\
  ByteStream.bytes_written (stream_out r) = Z.of_nat n /\
  unassembled_bytes r = pending ops /\
  (Forall ends_right ops ->
   ByteStream.input_ended (stream_out r) = empty_last ops || (announced ops && (n =? length src)%nat)).
Proof using Hcap HS. apply run_any_order. Qed.

End WholeStream.

Lemma reassembles_any_order_witness :
  let src := [x61; x62; x63; x64; x65] in
  let ops := [Push 3 2 true; Push 0 2 false; Pop 1; Push 1 3 false; Push 5 0 true; Push 3 2 true] in
  let c := run 8 src ops in
  c.2 ++ ByteStream.deq (stream_out c.1) = take (first_gap src ops) src /\
  ByteStream.bytes_written (stream_out c.1) = Z.of_nat (first_gap src ops) /\
  unassembled_bytes c.1 = pending src ops /\
  Forall (ends_right src) ops /\
  (Forall (ends_right src) ops ->
   ByteStream.input_ended (stream_out c.1)
     = empty_last ops || (announced ops && (first_gap src ops =? length src)%nat)).
Proof.
  intros src ops c. destruct (reassembles_any_order 8 src ltac:(lia) ltac:(cbn; lia) ops c.1 c.2) as (H1 & H2 & H3 & H4).
  - repeat (apply Forall_cons_2 || apply Forall_nil_2); cbn; done || lia.
  - exact (surjective_pairing (run 8 src ops)).
  - split_and!; [exact H1|exact H2|exact H3| |exact H4].
    repeat (apply Forall_cons_2 || apply Forall_nil_2); cbn; done || lia.
Defined.

(** ** In-order arrivals, without a bound on the length of the stream *)

(** Nothing is waiting in the store. *)
Definition store_empty (r : t) : Prop := Forall (fun b => b = true) (_empty r).

Lemma store_empty_stored r i : wf r -> store_empty r -> stored r i = None.
Proof.
  intros Hwf He. unfold stored. case_decide; [|done].
  destruct (slot_in_range r i Hwf) as [Hs _].
  destruct (lookup_lt_is_Some_2 _ _ Hs) as [b Hb]. rewrite Hb.
  by rewrite (Forall_lookup_1 _ _ _ _ He Hb).
Qed.

Lemma stored_store_empty r : wf r -> (forall i, stored r i = None) -> store_empty r.
Proof.
  intros Hwf Hst. apply Forall_lookup_2. intros p b Hb.
  destruct b; [done|]. exfalso. pose proof (head_pos_lt r Hwf).
  pose proof (lookup_lt_Some _ _ _ Hb) as Hp.
  assert (length (_empty r) = Z.to_nat (_capacity r) /\ length (_aux r) = Z.to_nat (_capacity r)
    /\ 0 < _capacity r) as (? & ? & ?) by (destruct Hwf; lia).
  set (k := if decide (head_pos r <= p)%nat then Z.of_nat (p - head_pos r)
            else Z.of_nat (p + length (_empty r) - head_pos r)).
  assert (Hk : 0 <= k < _capacity r) by (unfold k; case_decide; lia).
  specialize (Hst (_start_aux r + k)). rewrite stored_offset in Hst by done.
  rewrite slot_offset in Hst by done.
  replace (if decide _ then _ else _) with p in Hst by (unfold k; repeat case_decide; lia).
  rewrite Hb in Hst. destruct (lookup_lt_is_Some_2 (_aux r) p ltac:(lia)) as [x Hx]. by rewrite Hx in Hst.
Qed.

Lemma store_empty_unassembled r : wf r -> store_empty r -> unassembled_bytes r = 0.
Proof.
  intros [] He. unfold unassembled_bytes. rewrite wf_unass0.
  apply count_true_all in He. lia.
Qed.

(** When the stored indices are the first [n] of the window and fit the output,
    the drain is safe. *)
Lemma prefix_drain_safe r n :
  wf r -> (n <= room r)%nat -> Z.of_nat n <= _capacity r ->
  (forall i, stored r i <> None <-> _start_aux r <= i < _start_aux r + Z.of_nat n) -> drain_safe r.
Proof.
  intros Hwf Hroom Hn Hst Hw p Hp. pose proof (run_bounds r Hwf) as Hb.
  pose proof (head_pos_lt r Hwf) as Hh. apply Nat.eqb_eq in Hw as Hw'.
  destruct (lookup_lt_is_Some_2 (_empty r) p ltac:(lia)) as [b Hb']. rewrite Hb'.
  destruct b; [done|]. exfalso.
  assert (length (_empty r) = Z.to_nat (_capacity r) /\ length (_aux r) = Z.to_nat (_capacity r)
    /\ 0 < _capacity r) as (? & ? & ?) by (destruct Hwf; lia).
  (* the index behind a position before [head_pos] *)
  assert (Hslot : forall q, (q < head_pos r)%nat ->
    slot r (_start_aux r + Z.of_nat (q + head_run r)) = q).
  { intros q Hq. rewrite slot_offset by (done || lia). rewrite decide_False by lia. lia. }
  assert (Hk : Z.of_nat (p + head_run r) < Z.of_nat n).
  { assert (stored r (_start_aux r + Z.of_nat (p + head_run r)) <> None) as Hs%Hst.
    { rewrite stored_offset, Hslot, Hb' by (done || lia).
      destruct (lookup_lt_is_Some_2 (_aux r) p ltac:(lia)) as [x ->]. done. }
    lia. }
  destruct (decide (wrote2 r < tail_run r)%nat) as [Hlt|Hge].
  { unfold wrote2, wrote1 in *. lia. }
  assert (Ht : _empty r !! tail_run r = Some true).
  { unfold tail_run in *. rewrite Hw in *. rewrite <- (lookup_take_lt _ (head_pos r)) by lia.
    apply find_true_at. rewrite length_take. lia. }
  assert (stored r (_start_aux r + Z.of_nat (tail_run r + head_run r)) <> None) as Hne by (apply Hst; lia).
  apply Hne. rewrite stored_offset, Hslot, Ht by (done || lia). done.
Qed.

(** The next bytes of the stream go straight to the output. *)
Lemma push_in_order r data eof :
  wf r -> store_empty r -> _start_aux r + _capacity r < 2 ^ 63 ->
  0 < zlen data <= ByteStream.remaining_capacity (stream_out r) ->
  let r' := push_substring r data (_start_aux r) eof in
  wf r' /\ store_empty r' /\ unassembled_bytes r' = 0 /\
  ByteStream.deq (stream_out r') = ByteStream.deq (stream_out r) ++ data /\
  ByteStream.bytes_written (stream_out r') = ByteStream.bytes_written (stream_out r) + zlen data /\
  _capacity r' = _capacity r /\
  _end_stream r' = (if eof then _start_aux r + zlen data else _end_stream r) /\
  ByteStream._end (_output r') =
    (if _start_aux r + zlen data =? _end_stream r' then true else ByteStream._end (_output r)).
Proof.
  intros Hwf He Hov Hlen r'. pose proof (wf_start r Hwf) as Hst. pose proof (wf_cap r Hwf) as Hcap.
  assert (Hrem : ByteStream.remaining_capacity (stream_out r) = Z.of_nat (room r)).
  { rewrite ByteStream.remaining_capacity_eq by (by destruct Hwf).
    unfold room, stream_out. destruct Hwf as [_ _ _ _ [? ?] E _ _]. lia. }
  assert (Hroom : Z.of_nat (room r) <= _capacity r) by (unfold room; lia).
  assert (Haux : aux_safe r data (_start_aux r)) by (right; lia).
  assert (Hmerged : forall i, merged r data (_start_aux r) i =
    if decide (_start_aux r <= i < _start_aux r + zlen data) then data !! Z.to_nat (i - _start_aux r) else None).
  { intros i. unfold merged. rewrite (store_empty_stored r i) by done.
    apply decide_ext. unfold copied. lia. }
  assert (Hsafe : push_safe r data (_start_aux r) eof).
  { split_and!; try done; try lia.
    destruct (write_to_aux_stored r data (_start_aux r) eof) as (W1 & W2 & W3 & W4 & _ & _ & W7); try done; try lia.
    apply (prefix_drain_safe _ (length data)); try done; try (unfold room in *; rewrite ?W2, ?W4; lia).
    intros i. rewrite W7, W3. specialize (Hmerged i). unfold merged in Hmerged. rewrite Hmerged. clear Hmerged W7.
    case_decide; (split; [done|]); [|lia]. intros _ Hn%lookup_ge_None_1. lia. }
  destruct (push_spec r data (_start_aux r) eof Hwf Hsafe)
    as (bs & (P1 & P2 & P3 & P4 & P5 & P6) & P7 & P8 & P9).
  fold r' in P1, P2, P3, P5, P6, P7, P8, P9. assert (bs = data) as ->.
  { assert (Hle : (length bs <= length data)%nat).
    { destruct (length bs) as [|n] eqn:En; [lia|]. specialize (P4 n ltac:(lia)). rewrite Hmerged in P4.
      destruct (lookup_lt_is_Some_2 bs n ltac:(lia)) as [x Hx]. rewrite Hx in P4.
      case_decide; [lia|done]. }
    assert (Hge : (length data <= length bs)%nat).
    { destruct P5 as [P5|P5]; [lia|]. rewrite Hmerged, P3 in P5. case_decide; [|lia].
      apply lookup_ge_None_1 in P5. lia. }
    apply list_eq. intros k. destruct (decide (k < length bs)%nat).
    - rewrite <- P4 by done. rewrite Hmerged, decide_True by lia. f_equal. lia.
    - rewrite !lookup_ge_None_2; [done|lia|lia]. }
  assert (He' : store_empty r').
  { apply stored_store_empty; [done|]. intros i. destruct (decide (_start_aux r' <= i)).
    - rewrite P6, Hmerged, decide_False by lia. done.
    - apply stored_None. lia. }
  assert (Hes : _end_stream r' = if eof then _start_aux r + zlen data else _end_stream r).
  { rewrite P8. rewrite !(proj2 (Z.leb_le _ _)) by lia. by destruct eof. }
  split_and!; try done; [by apply store_empty_unassembled| |by rewrite P9, P3].
  unfold stream_out. rewrite (wf_written r'), (wf_written r) by done. done.
Qed.

Lemma push_substring_spec_witness :
  let r := make 4 in let data := [x61; x62] in
  let r' := push_substring r data 1 false in
  exists bs,
    wf r' /\
    ByteStream.deq (stream_out r') = ByteStream.deq (stream_out r) ++ bs /\
    _start_aux r' = _start_aux r + zlen bs /\
    (forall k, (k < length bs)%nat -> merged r data 1 (_start_aux r + Z.of_nat k) = bs !! k) /\
    (zlen bs = ByteStream.remaining_capacity (stream_out r)
     \/ merged r data 1 (_start_aux r') = None) /\
    (forall i, _start_aux r' <= i -> stored r' i = merged r data 1 i).
Proof.
  apply push_substring_spec; [apply reassembler_make_wf; lia|].
  split_and!; try (vm_compute; done). left. vm_compute. done.
Defined.

(** ** Every access is in range *)

(** The calls that throw or are undefined for some arguments, with these
    outcomes: [substr] and [replace] throw [std::out_of_range] when the
    position is past the end, an iterator outside its container and a
    division by zero are undefined. *)
Inductive checked (A : Type) :=
  | Value (a : A)
  | OutOfRange
  | Undefined.
Arguments Value {A} a.
Arguments OutOfRange {A}.
Arguments Undefined {A}.

Definition cbind {A B} (m : checked A) (k : A -> checked B) : checked B :=
  match m with Value a => k a | OutOfRange => OutOfRange | Undefined => Undefined end.
#[local] Notation "'let!' x := m 'in' k" := (cbind m (fun x => k))
  (at level 10, x name, m at level 200, k at level 200).

Definition checked_substr (l : list byte) (pos n : Z) : checked (list byte) :=
  if pos <=? zlen l then Value (substr l (Z.to_nat pos) (Z.to_nat n)) else OutOfRange.
Definition checked_replace (l : list byte) (pos n : Z) (with_ : list byte) : checked (list byte) :=
  if pos <=? zlen l then Value (str_replace l (Z.to_nat pos) (Z.to_nat n) with_) else OutOfRange.
Definition checked_mod (a b : Z) : checked Z := if b =? 0 then Undefined else Value (a mod b).

(** The range between two iterators, [begin() + a] and [begin() + b]. *)
Definition is_range (l : list bool) (a b : Z) : bool := (0 <=? a) && (a <=? b) && (b <=? zlen l).
Definition checked_fill (l : list bool) (a b : Z) (v : bool) : checked (list bool) :=
  if is_range l a b then Value (fill l (Z.to_nat a) (Z.to_nat b) v) else Undefined.
Definition checked_accumulate (l : list bool) (a b : Z) : checked Z :=
  if is_range l a b then Value (count_true (substr l (Z.to_nat a) (Z.to_nat (b - a)))) else Undefined.
(** [find(begin() + a, begin() + b, true)], as a position. *)
Definition checked_find (l : list bool) (a b : Z) : checked Z :=
  if is_range l a b
  then Value (a + Z.of_nat (find_true (substr l (Z.to_nat a) (Z.to_nat (b - a))))) else Undefined.

(** The methods once more, every position checked when it is used. *)
Definition checked_copy_straight (r : t) (data : list byte) (loc_data loc_aux size : Z) : checked t :=
  let! count_empty := checked_accumulate (_empty r) loc_aux (loc_aux + size) in
  let! part := checked_substr data loc_data size in
  let! aux := checked_replace (_aux r) loc_aux size part in
  let! empty := checked_fill (_empty r) loc_aux (loc_aux + size) false in
  Value (r <| _aux := aux |> <| _bytes_unass := u64 (_bytes_unass r + count_empty) |> <| _empty := empty |>).

Definition checked_copy_around (r : t) (data : list byte) (loc_data loc_aux size : Z) : checked t :=
  let size_left := u64 (u64 (loc_aux + size) - _capacity r) in
  let! count_right := checked_accumulate (_empty r) loc_aux (zlen (_empty r)) in
  let! count_left := checked_accumulate (_empty r) 0 size_left in
  let size_right := u64 (_capacity r - loc_aux) in
  let! right := checked_substr data loc_data size_right in
  let! aux := checked_replace (_aux r) loc_aux size_right right in
  let! left := checked_substr data size_right size in
  let! aux := checked_replace aux 0 size_left left in
  let! empty := checked_fill (_empty r) loc_aux (zlen (_empty r)) false in
  let! empty := checked_fill empty 0 size_left false in
  Value (r <| _aux := aux |> <| _bytes_unass := u64 (_bytes_unass r + (count_right + count_left)) |>
           <| _empty := empty |>).

Definition checked_write_to_aux (r : t) (data : list byte) (start_data : Z) (eof : bool) : checked t :=
  if zlen data =? 0 then
    Value (if eof then r <| _output := ByteStream.end_input (_output r) |> else r)
  else
  let end_aux := u64 (_start_aux r + _capacity r) in
  let end_data := u64 (start_data + zlen data) in
  if (end_aux <? start_data) || (end_data <? _start_aux r) then Value r else
  let start_copy := Z.max (_start_aux r) start_data in
  let end_copy := Z.min end_aux end_data in
  let size := u64 (end_copy - start_copy) in
  let loc_data := u64 (start_copy - start_data) in
  let! loc_aux := checked_mod start_copy (_capacity r) in
  let! r' := if u64 (loc_aux + size) <=? _capacity r
             then checked_copy_straight r data loc_data loc_aux size
             else checked_copy_around r data loc_data loc_aux size in
  Value (if eof then r' <| _end_stream := end_data |> else r').

Definition checked_write_to_bytestream (r : t) : checked t :=
  let! start := checked_mod (_start_aux r) (_capacity r) in
  let! it_start := checked_mod (_start_aux r) (_capacity r) in
  let! it_end := checked_find (_empty r) it_start (zlen (_empty r)) in
  let! data := checked_substr (_aux r) start (it_end - it_start) in
  let '(out, num_wrote) := ByteStream.write (_output r) data in
  let! empty := checked_fill (_empty r) it_start (it_start + num_wrote) true in
  let r := r <| _output := out |> <| _empty := empty |>
             <| _start_aux := u64 (_start_aux r + num_wrote) |>
             <| _bytes_unass := u64 (_bytes_unass r - num_wrote) |> in
  if it_end =? zlen (_empty r) then
    let! it_end := checked_find (_empty r) 0 it_start in
    let! data := checked_substr (_aux r) 0 it_end in
    let '(out, num_wrote) := ByteStream.write (_output r) data in
    let! empty := checked_fill (_empty r) 0 it_start true in
    Value (r <| _output := out |> <| _empty := empty |>
             <| _start_aux := u64 (_start_aux r + num_wrote) |>
             <| _bytes_unass := u64 (_bytes_unass r - num_wrote) |>)
  else Value r.

Definition checked_push_substring (r : t) (data : list byte) (index : Z) (eof : bool) : checked t :=
  let! r := checked_write_to_aux r data index eof in
  let! r := checked_write_to_bytestream r in
  let r := if negb (_eof_seen r) then r <| _eof_seen := eof |> else r in
  Value (if _start_aux r =? _end_stream r
         then r <| _output := ByteStream.end_input (_output r) |> else r).

Lemma is_range_true l a b : 0 <= a <= b -> b <= zlen l -> is_range l a b = true.
Proof. intros. unfold is_range. rewrite !(proj2 (Z.leb_le _ _)) by lia. done. Qed.
Lemma checked_substr_ok l pos n :
  pos <= zlen l -> checked_substr l pos n = Value (substr l (Z.to_nat pos) (Z.to_nat n)).
Proof. intros. unfold checked_substr. by rewrite (proj2 (Z.leb_le _ _)). Qed.
Lemma checked_replace_ok l pos n d :
  pos <= zlen l -> checked_replace l pos n d = Value (str_replace l (Z.to_nat pos) (Z.to_nat n) d).
Proof. intros. unfold checked_replace. by rewrite (proj2 (Z.leb_le _ _)). Qed.
Lemma checked_fill_ok l a b v :
  0 <= a <= b -> b <= zlen l -> checked_fill l a b v = Value (fill l (Z.to_nat a) (Z.to_nat b) v).
Proof. intros. unfold checked_fill. by rewrite is_range_true. Qed.
Lemma checked_accumulate_ok l a b :
  0 <= a <= b -> b <= zlen l ->
  checked_accumulate l a b = Value (count_true (substr l (Z.to_nat a) (Z.to_nat (b - a)))).
Proof. intros. unfold checked_accumulate. by rewrite is_range_true. Qed.
Lemma checked_mod_ok a b : 0 < b -> checked_mod a b = Value (a mod b).
Proof. intros. unfold checked_mod. by rewrite (proj2 (Z.eqb_neq _ _)) by lia. Qed.
(** The range up to the end, and the one from the beginning. *)
Lemma checked_find_ok l a b :
  0 <= a <= b -> b <= zlen l ->
  checked_find l a b = Value (a + Z.of_nat (find_true (substr l (Z.to_nat a) (Z.to_nat (b - a))))).
Proof. intros. unfold checked_find. by rewrite is_range_true. Qed.
Lemma substr_to_end {A} (l : list A) a : 0 <= a <= zlen l -> substr l (Z.to_nat a) (Z.to_nat (zlen l - a)) = drop (Z.to_nat a) l.
Proof. intros. unfold substr. apply take_ge. rewrite length_drop. lia. Qed.
Lemma substr_from_begin {A} (l : list A) b : substr l (Z.to_nat 0) (Z.to_nat (b - 0)) = take (Z.to_nat b) l.
Proof. unfold substr. by rewrite drop_0, Z.sub_0_r. Qed.

(** Bounds that hold of every reachable state, also after the wrap-around code
    has misplaced bytes. *)
Record in_bounds (r : t) : Prop := {
  ib_cap : 0 < _capacity r < 2 ^ 31;
  ib_start : 0 <= _start_aux r < 2 ^ 63;
  ib_aux : _capacity r <= zlen (_aux r);
  ib_empty : zlen (_empty r) = _capacity r;
  ib_out : ByteStream.wf (_output r);
  ib_out_cap : ByteStream.cap (_output r) = _capacity r
}.

Lemma in_bounds_make capacity : 0 < capacity < 2 ^ 31 -> in_bounds (make capacity).
Proof. intros H. destruct (reassembler_make_wf capacity H). split; done || lia. Qed.

Section InBounds.
Context (r : t) (data : list byte) (Hb : in_bounds r).

(** The copies, on the arguments the guards let through. *)
Lemma checked_copy_straight_ok loc_data loc_aux size :
  0 <= loc_data -> 0 <= size -> loc_data + size <= zlen data ->
  0 <= loc_aux < _capacity r -> loc_aux + size <= _capacity r ->
  checked_copy_straight r data loc_data loc_aux size = Value (copy_straight r data loc_data loc_aux size) /\
  in_bounds (copy_straight r data loc_data loc_aux size).
Proof using Hb.
  intros Hd Hs Hds Ha Hfit. destruct Hb. split.
  - unfold checked_copy_straight. rewrite checked_accumulate_ok, checked_substr_ok by lia. cbn [cbind].
    rewrite checked_replace_ok, checked_fill_ok by lia. cbn [cbind].
    unfold copy_straight. by replace (loc_aux + size - loc_aux) with size by lia.
  - split; cbn; try done; rewrite ?length_fill, ?length_str_replace; rewrite ?length_substr; lia.
Qed.

Lemma checked_copy_around_ok loc_data loc_aux size :
  0 <= loc_data -> 0 <= size <= _capacity r -> loc_data + size <= zlen data ->
  0 <= loc_aux < _capacity r -> _capacity r < loc_aux + size ->
  checked_copy_around r data loc_data loc_aux size = Value (copy_around r data loc_data loc_aux size) /\
  in_bounds (copy_around r data loc_data loc_aux size).
Proof using Hb.
  intros Hd Hs Hds Ha Hfit. destruct Hb. unfold checked_copy_around, copy_around.
  rewrite (u64_id (loc_aux + size)), (u64_id (_capacity r - loc_aux)), (u64_id (loc_aux + size - _capacity r)) by lia.
  set (size_right := _capacity r - loc_aux). set (size_left := loc_aux + size - _capacity r).
  assert (Hr : length (substr data (Z.to_nat loc_data) (Z.to_nat size_right)) = Z.to_nat size_right)
    by (rewrite length_substr; lia).
  set (aux1 := str_replace (_aux r) _ _ _).
  assert (Ha1 : length aux1 = length (_aux r)) by (subst aux1; rewrite length_str_replace; lia).
  assert (He1 : length (fill (_empty r) (Z.to_nat loc_aux) (length (_empty r)) false) = length (_empty r))
    by (apply length_fill; lia).
  split.
  - rewrite !checked_accumulate_ok, substr_to_end, substr_from_begin by lia. cbn [cbind].
    rewrite checked_substr_ok by lia. cbn [cbind]. rewrite checked_replace_ok by lia. cbn [cbind]. fold aux1.
    rewrite checked_substr_ok by lia. cbn [cbind]. rewrite checked_replace_ok, checked_fill_ok by lia. cbn [cbind].
    rewrite Nat2Z.id, checked_fill_ok by lia. done.
  - split; cbn; try done.
    + unfold str_replace at 1. rewrite !length_app, length_take, length_drop, length_substr. lia.
    + rewrite length_fill; lia.
Qed.

Context (start_data : Z) (Hd : is_u64 start_data) (Hl : zlen data < 2 ^ 62).
Context (Hov : _start_aux r + _capacity r < 2 ^ 63).

(** The guards leave only starts for which nothing overflows. *)
Lemma checked_write_to_aux_ok eof :
  checked_write_to_aux r data start_data eof = Value (write_to_aux r data start_data eof) /\
  in_bounds (write_to_aux r data start_data eof) /\
  _start_aux (write_to_aux r data start_data eof) = _start_aux r /\
  _capacity (write_to_aux r data start_data eof) = _capacity r.
Proof using All.
  assert (Hframe : _start_aux (write_to_aux r data start_data eof) = _start_aux r /\
    _capacity (write_to_aux r data start_data eof) = _capacity r) by (unfold write_to_aux; by repeat case_if).
  rewrite (and_assoc (_ = _)). split; [|done]. clear Hframe.
  unfold checked_write_to_aux, write_to_aux. destruct (zlen data =? 0).
  { split; [done|]. destruct eof, Hb; split; cbn; auto with sponge. }
  pose proof Hb as []. rewrite (u64_id (_start_aux r + _)) by lia.
  destruct (_ || _) eqn:Hg; [done|]. apply orb_false_iff in Hg as [?%Z.ltb_ge Hg2%Z.ltb_ge].
  rewrite (u64_id (start_data + zlen data)) in * by lia.
  set (sc := Z.max _ _). rewrite checked_mod_ok by lia. cbn [cbind].
  pose proof (Z.mod_pos_bound sc (_capacity r) ltac:(lia)) as Hm.
  revert Hm. generalize (sc mod _capacity r). intros loc Hm.
  rewrite (u64_id (sc - start_data)), (u64_id (Z.min _ _ - sc)), (u64_id (loc + _)) by lia.
  destruct (Z.leb_spec (loc + (Z.min (_start_aux r + _capacity r) (start_data + zlen data) - sc)) (_capacity r)).
  - destruct (checked_copy_straight_ok (sc - start_data) loc (Z.min (_start_aux r + _capacity r) (start_data + zlen data) - sc))
      as [-> H1]; try lia. cbn [cbind]. split; [done|]. destruct eof, H1; by split.
  - destruct (checked_copy_around_ok (sc - start_data) loc (Z.min (_start_aux r + _capacity r) (start_data + zlen data) - sc))
      as [-> H1]; try lia. cbn [cbind]. split; [done|]. destruct eof, H1; by split.
Qed.
End InBounds.

(** The drain stays inside the arrays. *)
Lemma checked_write_to_bytestream_ok r :
  in_bounds r -> _start_aux r + 2 * _capacity r < 2 ^ 63 ->
  checked_write_to_bytestream r = Value (write_to_bytestream r) /\ in_bounds (write_to_bytestream r).
Proof.
  intros [] Hov. unfold checked_write_to_bytestream, write_to_bytestream. rewrite checked_mod_ok by lia.
  pose proof (Z.mod_pos_bound (_start_aux r) (_capacity r) ltac:(lia)) as Hm.
  revert Hm. generalize (_start_aux r mod _capacity r). intros it Hm. cbn [cbind].
  rewrite checked_find_ok, substr_to_end by lia. cbn [cbind].
  pose proof (find_true_le (drop (Z.to_nat it) (_empty r))) as Hf. rewrite length_drop in Hf.
  set (n1 := find_true _) in *. rewrite checked_substr_ok by lia. cbn [cbind].
  replace (Z.to_nat (it + Z.of_nat n1 - it)) with n1 by lia.
  replace (Z.to_nat it + n1 - Z.to_nat it)%nat with n1 by lia.
  rewrite (write_run _ _ _ _ _ ib_out0 eq_refl) by lia.
  set (w1 := Nat.min n1 _). assert (Hw1 : (w1 <= n1)%nat) by lia.
  assert (Hw1' : Z.of_nat w1 <= ByteStream.cap (_output r) - zlen (ByteStream.deq (_output r)))
    by (destruct ib_out0; lia).
  rewrite checked_fill_ok by lia. cbn [cbind]. replace (Z.to_nat (it + Z.of_nat w1)) with (Z.to_nat it + Z.to_nat (Z.of_nat w1))%nat by lia.
  clearbody w1 n1. set (r1 := setter _ _).
  assert (Hr1 : in_bounds r1).
  { subst r1. destruct ib_out0 as [? ?]. split; cbn; rewrite ?Nat2Z.id; try done.
    - rewrite u64_id; lia.
    - rewrite length_fill; lia.
    - split; cbn; [done|]. rewrite length_app, length_substr. lia. }
  assert (Hs1 : _start_aux r1 <= _start_aux r + _capacity r /\ _capacity r1 = _capacity r)
    by (subst r1; cbn; rewrite u64_id; destruct ib_out0; lia).
  assert (Hl1 : length (_empty r1) = length (_empty r))
    by (subst r1; cbn; rewrite Nat2Z.id, length_fill; lia).
  clearbody r1. destruct (Z.eqb_spec (it + Z.of_nat n1) (zlen (_empty r1))), (Nat.eqb_spec (Z.to_nat it + n1) (length (_empty r1)));
    [|lia|lia|done]. destruct Hr1, Hs1.
  rewrite checked_find_ok, substr_from_begin by lia. cbn [cbind]. rewrite Z.add_0_l, checked_substr_ok by lia. cbn [cbind].
  pose proof (find_true_le (take (Z.to_nat it) (_empty r1))) as Hf2. rewrite length_take in Hf2.
  change (Z.to_nat 0) with 0%nat. rewrite Nat2Z.id, (write_run _ _ _ _ _ ib_out1 eq_refl) by lia.
  set (w2 := Nat.min _ _). assert (Hw2' : Z.of_nat w2 <= ByteStream.cap (_output r1)
    - zlen (ByteStream.deq (_output r1))) by (destruct ib_out1; lia). clearbody w2.
  rewrite checked_fill_ok by lia. cbn [cbind]. split; [done|].
  destruct ib_out1 as [? ?]. split; cbn; try done.
  - rewrite u64_id; lia.
  - rewrite length_fill; lia.
  - split; cbn; [done|]. rewrite length_app, length_substr. lia.
Qed.

Lemma finish_bounds r eof : in_bounds r -> in_bounds (finish r eof).
Proof. intros []. unfold finish. repeat case_if; split; cbn; auto with sponge. Qed.

(** C31. Memory safety of the reassembler, for every push: in any state within
    bounds (those of a reassembler of capacity at least 1, also after the
    wrap-around code has misplaced bytes), whatever substring arrives at
    whatever index, the push with every call checked where it is made (the
    positions of [substr] and [replace], both iterators of every [fill],
    [accumulate] and [find], the divisor of every [%]) runs to its end without
    [std::out_of_range] and without undefined behaviour, gives what
    [push_substring] gives, and leaves the state within bounds. (Stream
    positions stay below 2^63.) *)
Theorem push_substring_in_bounds r data index eof :
  in_bounds r -> is_u64 index -> zlen data < 2 ^ 62 -> _start_aux r + 2 * _capacity r < 2 ^ 63 ->
  checked_push_substring r data index eof = Value (push_substring r data index eof) /\
  in_bounds (push_substring r data index eof).
Proof.
  intros Hb Hi Hl Hov. assert (0 < _capacity r) by (destruct Hb; lia).
  destruct (checked_write_to_aux_ok r data Hb index Hi Hl ltac:(lia) eof) as (E1 & H1 & Hs & Hc).
  destruct (checked_write_to_bytestream_ok _ H1 ltac:(lia)) as [E2 H2].
  unfold checked_push_substring. rewrite E1. cbn [cbind]. rewrite E2. cbn [cbind].
  rewrite push_substring_finish. split; [done|]. by apply finish_bounds.
Qed.

Lemma push_substring_in_bounds_witness :
  checked_push_substring (make 4) [x61; x62; x63; x64; x65; x66] 2 true
    = Value (push_substring (make 4) [x61; x62; x63; x64; x65; x66] 2 true) /\
  in_bounds (push_substring (make 4) [x61; x62; x63; x64; x65; x66] 2 true).
Proof.
  apply push_substring_in_bounds; [apply in_bounds_make; lia|lia|vm_compute; done|vm_compute; done].
Defined.

(** A reassembler of capacity 0 (the programs accept [-w 0]) divides by zero
    at its first push, whatever it is. *)
Theorem zero_capacity_undefined data index eof :
  is_u64 index -> zlen data < 2 ^ 62 -> checked_push_substring (make 0) data index eof = Undefined.
Proof.
  intros Hi Hl. unfold checked_push_substring, checked_write_to_aux.
  destruct (zlen data =? 0); [by destruct eof|].
  change (_start_aux (make 0)) with 0. change (_capacity (make 0)) with 0.
  by destruct (_ || _).
Qed.

(** ** Where the wrap-around code goes wrong *)

(** A push into the state after the reader has consumed [k] bytes. *)
Definition consume (r : t) (k : Z) : t :=
  r <| _output := ByteStream.pop_output (_output r) k |>.

(** A retransmission that starts before the window and wraps around the store
    is copied from the wrong place ([data.substr(size_right, size)] ignores
    [loc_data]): with capacity 4, after "ab" was consumed, "abcdef" delivers
    "efcd" instead of "cdef", and [_aux] has grown beyond the capacity. *)
Theorem overlapping_wrap_corrupts :
  let r := consume (push_substring (make 4) [x61; x62] 0 false) 2 in
  let r' := push_substring r [x61; x62; x63; x64; x65; x66] 0 false in
  ByteStream.deq (stream_out r') = [x65; x66; x63; x64] /\ length (_aux r') = 6%nat.
Proof. by vm_compute. Qed.

(** When a drain reaches the end of the store, every position before the
    starting one is marked free, also those holding bytes beyond a hole: with
    capacity 4, after "abc" was consumed, the byte of index 5 arrives, then
    index 3; byte 5 is forgotten although [unassembled_bytes] still counts it. *)
Theorem hole_bytes_lost :
  let r := consume (push_substring (make 4) [x61; x62; x63] 0 false) 3 in
  let r := push_substring r [x66] 5 false in
  let r' := push_substring r [x64] 3 false in
  stored r 5 = Some x66 /\ stored r' 5 = None /\ unassembled_bytes r' = 1 /\
  Forall (fun b => b = true) (_empty r').
Proof. split_and!; try (by vm_compute). vm_compute. repeat constructor. Qed.

(** The store accepts [capacity] bytes beyond the assembled ones even when the
    output is full, so bytes held can reach twice the documented limit. *)
Theorem capacity_exceeded :
  let r := push_substring (make 4) [x61; x62; x63; x64] 0 false in
  let r' := push_substring r [x66; x67; x68] 5 false in
  unassembled_bytes r' + ByteStream.buffer_size (stream_out r') = 7.
Proof. by vm_compute. Qed.

(** An empty substring flagged as last ends the stream at once, wherever it
    belongs: here the stream "ab" is reported complete with nothing in it. *)
Theorem empty_last_ends_early :
  let r := push_substring (make 4) [] 2 true in
  ByteStream.input_ended (stream_out r) = true /\ ByteStream.bytes_written (stream_out r) = 0.
Proof. by vm_compute. Qed.

End Reassembly.

(** The bytes a reassembler assembles do not depend on its end-of-stream flags. *)
Module ReassemblyCore.
Import StreamReassembler.

(** Output streams that agree on everything but the two flags. *)
Definition same_bytes (a b : ByteStream.t) : Prop :=
  ByteStream.cap a = ByteStream.cap b /\ ByteStream.bytes_wrote a = ByteStream.bytes_wrote b /\
  ByteStream.bytes_readed a = ByteStream.bytes_readed b /\ ByteStream.deq a = ByteStream.deq b.

(** Reassemblers that agree on everything but the end of the stream. *)
Definition same_core (a b : StreamReassembler.t) : Prop :=
  _aux a = _aux b /\ same_bytes (_output a) (_output b) /\ _capacity a = _capacity b /\
  _start_aux a = _start_aux b /\ _empty a = _empty b /\ _bytes_unass a = _bytes_unass b.

#[global] Instance same_bytes_equiv : Equivalence same_bytes.
Proof.
  split; [by intros a|by intros a b (? & ? & ? & ?)|].
  intros a b c (? & ? & ? & ?) (? & ? & ? & ?). split_and!; congruence.
Qed.

#[global] Instance same_core_equiv : Equivalence same_core.
Proof.
  split; [by intros a|by intros a b (? & ? & ? & ? & ? & ?)|].
  intros a b c (? & ? & ? & ? & ? & ?) (? & ? & ? & ? & ? & ?). split_and!; try congruence. by etrans.
Qed.

#[global] Instance end_input_proper : Proper (same_bytes ==> same_bytes) ByteStream.end_input.
Proof. by intros a b. Qed.
#[global] Instance pop_output_proper : Proper (same_bytes ==> eq ==> same_bytes) ByteStream.pop_output.
Proof.
  intros a b (H1 & H2 & H3 & H4) n ? <-. unfold ByteStream.pop_output. rewrite H4. split_and!; cbn; congruence.
Qed.

Lemma write_same a b d :
  same_bytes a b -> same_bytes (ByteStream.write a d).1 (ByteStream.write b d).1 /\
  (ByteStream.write a d).2 = (ByteStream.write b d).2.
Proof.
  intros (H1 & H2 & H3 & H4). unfold ByteStream.write, ByteStream.remaining_capacity. rewrite H1, H2, H4.
  split; [|done]. split_and!; cbn; congruence.
Qed.

Lemma write_to_aux_same a b d i eof :
  same_core a b -> same_core (write_to_aux a d i eof) (write_to_aux b d i false).
Proof.
  intros (H1 & H2 & H3 & H4 & H5 & H6). destruct a, b. cbn in H1, H2, H3, H4, H5, H6. subst.
  unfold write_to_aux. cbn -[copy_straight copy_around].
  destruct (_ =? 0); [by destruct eof|]. destruct (_ || _); [done|].
  destruct (_ <=? _), eof; done.
Qed.

Lemma write_to_bytestream_same a b : same_core a b -> same_core (write_to_bytestream a) (write_to_bytestream b).
Proof.
  intros (H1 & H2 & H3 & H4 & H5 & H6). unfold write_to_bytestream. rewrite H1, H3, H4, H5, H6.
  set (d := substr _ _ _). destruct (write_same _ _ d H2) as [W1 W2].
  destruct (ByteStream.write (_output a) d) as [oa na], (ByteStream.write (_output b) d) as [ob nb]. cbn in W1, W2. subst nb.
  cbn -[ByteStream.write u64]. rewrite ?H1, ?H3, ?H4, ?H5, ?H6. destruct (_ =? _)%nat; [|split_and!; cbn; first [done|congruence|apply W1]]. set (d2 := substr _ _ _). destruct (write_same _ _ d2 W1) as [X1 X2].
  destruct (ByteStream.write oa d2) as [oa2 na2], (ByteStream.write ob d2) as [ob2 nb2]. cbn in X1, X2. subst nb2.
  split_and!; cbn; first [done|congruence|apply X1].
Qed.

Lemma finish_same a b eof eof' : same_core a b -> same_core (Reassembly.finish a eof) (Reassembly.finish b eof').
Proof. intros H. unfold Reassembly.finish. repeat case_if; done. Qed.

(** The bytes do not depend on which substrings are flagged as last. *)
Lemma push_substring_same a b d i eof :
  same_core a b -> same_core (push_substring a d i eof) (push_substring b d i false).
Proof.
  intros H. rewrite !Reassembly.push_substring_finish.
  by apply finish_same, write_to_bytestream_same, write_to_aux_same.
Qed.

End ReassemblyCore.
