(* ===== verification/tcp_receiver.v ===== *)
(** The receiving half of TCP ([libsponge/tcp_receiver.{hh,cc}]).

    [TCPReceiver.t] has the private members of the class; [segment_received]
    is the method, call for call. Absolute sequence numbers and stream indices
    are [uint64_t], with the wrap-arounds written out. *)

From S2P Require Import prelude std_algorithms wrapping_integers buffer tcp_segment byte_stream stream_reassembler reassembly.

Module TCPReceiver.
Import StreamReassembler ReassemblyCore.

Record t := mk {
  _reassembler : StreamReassembler.t;
  _capacity : Z;
  _ckpt : Z;
  _isn : WrappingInt32;
  _ack : WrappingInt32;
  _syn : bool;
  _fin : bool;
  _eof : bool;
  _fin_seen : bool;
  _len_stream : Z
}.

#[global] Instance set_reassembler : Setter _reassembler := fun f s =>
  mk (f (_reassembler s)) (_capacity s) (_ckpt s) (_isn s) (_ack s) (_syn s) (_fin s) (_eof s) (_fin_seen s) (_len_stream s).
#[global] Instance set_ckpt : Setter _ckpt := fun f s =>
  mk (_reassembler s) (_capacity s) (f (_ckpt s)) (_isn s) (_ack s) (_syn s) (_fin s) (_eof s) (_fin_seen s) (_len_stream s).
#[global] Instance set_isn : Setter _isn := fun f s =>
  mk (_reassembler s) (_capacity s) (_ckpt s) (f (_isn s)) (_ack s) (_syn s) (_fin s) (_eof s) (_fin_seen s) (_len_stream s).
#[global] Instance set_ack : Setter _ack := fun f s =>
  mk (_reassembler s) (_capacity s) (_ckpt s) (_isn s) (f (_ack s)) (_syn s) (_fin s) (_eof s) (_fin_seen s) (_len_stream s).
#[global] Instance set_syn : Setter _syn := fun f s =>
  mk (_reassembler s) (_capacity s) (_ckpt s) (_isn s) (_ack s) (f (_syn s)) (_fin s) (_eof s) (_fin_seen s) (_len_stream s).
#[global] Instance set_eof : Setter _eof := fun f s =>
  mk (_reassembler s) (_capacity s) (_ckpt s) (_isn s) (_ack s) (_syn s) (_fin s) (f (_eof s)) (_fin_seen s) (_len_stream s).
#[global] Instance set_fin_seen : Setter _fin_seen := fun f s =>
  mk (_reassembler s) (_capacity s) (_ckpt s) (_isn s) (_ack s) (_syn s) (_fin s) (_eof s) (f (_fin_seen s)) (_len_stream s).
#[global] Instance set_len_stream : Setter _len_stream := fun f s =>
  mk (_reassembler s) (_capacity s) (_ckpt s) (_isn s) (_ack s) (_syn s) (_fin s) (_eof s) (_fin_seen s) (f (_len_stream s)).

(** The constructor and the default member initialisers. *)
Definition make (capacity : Z) : t :=
  mk (StreamReassembler.make capacity) capacity 0 (mkWrappingInt32 0) (mkWrappingInt32 0)
     false false false false (2 ^ 64 - 1).

Definition stream_out (s : t) : ByteStream.t := StreamReassembler.stream_out (_reassembler s).
Definition unassembled_bytes (s : t) : Z := StreamReassembler.unassembled_bytes (_reassembler s).
Definition isn (s : t) : WrappingInt32 := _isn s.

Definition ackno (s : t) : option WrappingInt32 := if _syn s then Some (_ack s) else None.

Definition window_size (s : t) : Z := u64 (_capacity s - ByteStream.buffer_size (stream_out s)).

(** [stream_out()] as a reference: the owner's update of the output stream. *)
Definition with_stream_out (s : t) (f : ByteStream.t -> ByteStream.t) : t :=
  s <| _reassembler := (_reassembler s) <| _output := f (_output (_reassembler s)) |> |>.

(** Lines 13-25: the handshake and the stream index of the payload. *)
Definition locate (s : t) (header : TCPHeader.t) : t * Z :=
  let seqno := TCPHeader.seqno header in
  if TCPHeader.syn header then
    let s := s <| _syn := true |> <| _isn := seqno |> in
    (s, unwrap seqno (_isn s) (_ckpt s))
  else (s, u64 (unwrap seqno (_isn s) (_ckpt s) - 1)).

Definition segment_received (s : t) (seg : TCPSegment.t) : t :=
  let header := TCPSegment.header seg in
  if negb (_syn s) && negb (TCPHeader.syn header) then s
  else
  let '(s, start_payload) := locate s header in
  let s := if TCPHeader.fin header && negb (_fin_seen s) then s <| _fin_seen := true |> else s in
  let len_in_seq := TCPSegment.length_in_sequence_space seg in
  let len_payload :=
    if TCPHeader.syn header && TCPHeader.fin header then u64 (len_in_seq - 2)
    else if TCPHeader.syn header || TCPHeader.fin header then u64 (len_in_seq - 1)
    else len_in_seq in
  let s := if TCPHeader.fin header
           then s <| _len_stream := u64 (start_payload + len_payload) |> <| _eof := true |> else s in
  let data := Buffer.copy (TCPSegment.payload seg) in
  let s := s <| _reassembler := push_substring (_reassembler s) data start_payload (_eof s) |> in
  let s := s <| _ckpt := ByteStream.bytes_written (stream_out s) |> in
  let s := if _ckpt s =? _len_stream s
           then with_stream_out (s <| _ack := wrap (u64 (_ckpt s + 2)) (_isn s) |>) ByteStream.end_input
           else s <| _ack := wrap (u64 (_ckpt s + 1)) (_isn s) |> in
  if negb (_fin_seen s) && TCPHeader.fin header
  then with_stream_out s ByteStream.end_input else s.

(** ** One segment, as one update *)

Lemma receiver_t_eq a b :
  _reassembler a = _reassembler b -> _capacity a = _capacity b -> _ckpt a = _ckpt b ->
  _isn a = _isn b -> _ack a = _ack b -> _syn a = _syn b -> _fin a = _fin b -> _eof a = _eof b ->
  _fin_seen a = _fin_seen b -> _len_stream a = _len_stream b -> a = b.
Proof. destruct a, b; cbn. congruence. Qed.

(** Where the payload goes. *)
Definition stream_index (s : t) (header : TCPHeader.t) : Z :=
  let seqno := TCPHeader.seqno header in
  if TCPHeader.syn header then unwrap seqno seqno (_ckpt s) else u64 (unwrap seqno (_isn s) (_ckpt s) - 1).

Definition payload_len (seg : TCPSegment.t) : Z := zlen (Buffer.copy (TCPSegment.payload seg)).

(** The reassembler after the payload has been pushed. *)
Definition pushed (s : t) (seg : TCPSegment.t) : StreamReassembler.t :=
  push_substring (_reassembler s) (Buffer.copy (TCPSegment.payload seg))
    (stream_index s (TCPSegment.header seg)) (_eof s || TCPHeader.fin (TCPSegment.header seg)).

(** The receiver once its reassembler has become [r]. *)
Definition accept_with (s : t) (seg : TCPSegment.t) (r : StreamReassembler.t) : t :=
  let header := TCPSegment.header seg in
  let isn := if TCPHeader.syn header then TCPHeader.seqno header else _isn s in
  let len_stream := if TCPHeader.fin header then u64 (stream_index s header + payload_len seg) else _len_stream s in
  let ckpt := ByteStream.bytes_written (_output r) in
  let done := ckpt =? len_stream in
  mk (if done then r <| _output := ByteStream.end_input (_output r) |> else r)
     (_capacity s) ckpt isn (wrap (u64 (ckpt + (if done then 2 else 1))) isn) true (_fin s)
     (_eof s || TCPHeader.fin header) (_fin_seen s || TCPHeader.fin header) len_stream.

Definition accept (s : t) (seg : TCPSegment.t) : t := accept_with s seg (pushed s seg).

Lemma length_payload seg :
  payload_len seg < 2 ^ 62 ->
  let h := TCPSegment.header seg in
  (if TCPHeader.syn h && TCPHeader.fin h then u64 (TCPSegment.length_in_sequence_space seg - 2)
   else if TCPHeader.syn h || TCPHeader.fin h then u64 (TCPSegment.length_in_sequence_space seg - 1)
   else TCPSegment.length_in_sequence_space seg) = payload_len seg.
Proof.
  intros H h. unfold payload_len, Buffer.copy, TCPSegment.length_in_sequence_space in *. fold h.
  assert (E : forall n a b, 0 <= n < 2 ^ 62 -> 0 <= a <= 1 -> 0 <= b <= 1 -> u64 (u64 (n + a) + b) = n + a + b)
    by (intros n a b ? ? ?; rewrite (u64_id (n + a)) by lia; apply u64_id; lia).
  destruct (TCPHeader.syn h), (TCPHeader.fin h); cbn [andb orb]; rewrite E by lia; rewrite ?u64_id; lia.
Qed.

Lemma segment_received_eq s seg :
  payload_len seg < 2 ^ 62 ->
  segment_received s seg =
    if _syn s || TCPHeader.syn (TCPSegment.header seg) then accept s seg else s.
Proof.
  intros Hl. pose proof (length_payload seg Hl) as Hp. cbv zeta in Hp.
  unfold segment_received, accept, accept_with, pushed, stream_index, locate, with_stream_out, stream_out, StreamReassembler.stream_out.
  set (h := TCPSegment.header seg) in *. rewrite Hp.
  destruct s as [r cap ck isn0 ack sy f [] [] ls], sy, (TCPHeader.syn h), (TCPHeader.fin h);
    cbn -[push_substring unwrap wrap u64 payload_len]; try reflexivity.
  all: destruct (_ =? _); reflexivity.
Qed.

(** ** Any input at all *)

(** The output stream after a push: still within its capacity. *)
Lemma push_substring_output r data index eof :
  ByteStream.wf (_output r) ->
  ByteStream.wf (_output (push_substring r data index eof)) /\
  ByteStream.cap (_output (push_substring r data index eof)) = ByteStream.cap (_output r).
Proof.
  intros Hw. rewrite Reassembly.push_substring_finish.
  assert (H1 : ByteStream.wf (_output (write_to_aux r data index eof)) /\
    ByteStream.cap (_output (write_to_aux r data index eof)) = ByteStream.cap (_output r)).
  { unfold write_to_aux. repeat case_if; cbn; auto with sponge. }
  revert H1. generalize (write_to_aux r data index eof). intros r1 [H1 E1].
  assert (H2 : ByteStream.wf (_output (write_to_bytestream r1)) /\
    ByteStream.cap (_output (write_to_bytestream r1)) = ByteStream.cap (_output r1)).
  { unfold write_to_bytestream. destruct (ByteStream.write _ _) as [o n] eqn:Ew.
    pose proof (ByteStream.write_wf _ (substr (_aux r1) (Z.to_nat (_start_aux r1 mod StreamReassembler._capacity r1))
      (Z.to_nat (_start_aux r1 mod StreamReassembler._capacity r1) +
       find_true (drop (Z.to_nat (_start_aux r1 mod StreamReassembler._capacity r1)) (_empty r1)) -
       Z.to_nat (_start_aux r1 mod StreamReassembler._capacity r1))) H1) as Ho.
    rewrite Ew in Ho. cbn [fst] in Ho.
    assert (Hc : ByteStream.cap o = ByteStream.cap (_output r1)) by (by injection Ew as <- _).
    clear Ew. destruct (_ =? _)%nat; [|done].
    destruct (ByteStream.write _ _) as [o2 n2] eqn:Ew2. cbn in Ew2. cbn.
    split; [|by injection Ew2 as <- _]. change o2 with (o2, n2).1. rewrite <- Ew2. by apply ByteStream.write_wf. }
  revert H2. generalize (write_to_bytestream r1). intros r2 [H2 E2].
  rewrite <- E1, <- E2. unfold Reassembly.finish. repeat case_if; cbn; auto with sponge.
Qed.

(** What can happen to a receiver: a segment arrives, the owner reads from the
    output stream or sets its error flag. *)
Inductive event :=
  | Segment (seg : TCPSegment.t)
  | Read (n : Z)
  | SetError.

Definition step (s : t) (e : event) : t :=
  match e with
  | Segment seg => segment_received s seg
  | Read n => with_stream_out s (fun o => ByteStream.pop_output o n)
  | SetError => with_stream_out s ByteStream.set_error
  end.

Definition run (s : t) (evs : list event) : t := fold_left step evs s.

Definition event_ok (e : event) : Prop :=
  match e with Segment seg => payload_len seg < 2 ^ 62 | Read n => 0 <= n | SetError => True end.

(** The sequence number of the last SYN among the events. *)
Definition syn_of (e : event) : option WrappingInt32 :=
  match e with
  | Segment seg => if TCPHeader.syn (TCPSegment.header seg) then Some (TCPHeader.seqno (TCPSegment.header seg)) else None
  | _ => None
  end.
Definition last_syn (evs : list event) : option WrappingInt32 :=
  fold_left (fun acc e => match syn_of e with Some i => Some i | None => acc end) evs None.

Record safe (capacity : Z) (syn : option WrappingInt32) (s : t) : Prop := {
  safe_cap : _capacity s = capacity;
  safe_out : ByteStream.wf (stream_out s);
  safe_out_cap : ByteStream.cap (stream_out s) = capacity;
  safe_syn : _syn s = bool_decide (is_Some syn);
  safe_ack : forall i, syn = Some i ->
    _isn s = i /\
    _ack s = wrap (u64 (ByteStream.bytes_written (stream_out s) +
                        (if ByteStream.bytes_written (stream_out s) =? _len_stream s then 2 else 1))) i
}.

Lemma safe_accept capacity syn s seg r i :
  safe capacity syn s -> ByteStream.wf (_output r) -> ByteStream.cap (_output r) = capacity ->
  i = (if TCPHeader.syn (TCPSegment.header seg) then TCPHeader.seqno (TCPSegment.header seg) else _isn s) ->
  safe capacity (Some i) (accept_with s seg r).
Proof.
  intros [] Hw Hc ->. unfold accept_with. set (ls := if TCPHeader.fin _ then _ else _). clearbody ls.
  unfold stream_out, StreamReassembler.stream_out in *.
  split; cbn -[wrap u64]; try done.
  - case_if; cbn; by auto with sponge.
  - by case_if.
  - intros i [= <-]. split; [done|]. unfold ByteStream.bytes_written, stream_out, StreamReassembler.stream_out.
    destruct (ByteStream.bytes_wrote (_output r) =? ls) eqn:E; cbn -[wrap u64]; by rewrite E.
Qed.

Lemma pushed_output s seg :
  ByteStream.wf (stream_out s) ->
  ByteStream.wf (_output (pushed s seg)) /\
  ByteStream.cap (_output (pushed s seg)) = ByteStream.cap (stream_out s).
Proof. intros H. unfold pushed. by apply push_substring_output. Qed.

Lemma safe_segment capacity syn s seg :
  payload_len seg < 2 ^ 62 -> safe capacity syn s ->
  safe capacity (match syn_of (Segment seg) with Some i => Some i | None => syn end) (segment_received s seg).
Proof.
  intros Hl Hs. pose proof Hs as []. rewrite segment_received_eq by done. unfold syn_of.
  rewrite safe_syn0.
  destruct (pushed_output s seg safe_out0) as [Hw Hc].
  pose proof (safe_accept capacity syn s seg (pushed s seg)) as Hacc. fold (accept s seg) in Hacc.
  destruct (TCPHeader.syn (TCPSegment.header seg)) eqn:Esyn.
  - rewrite orb_true_r. apply Hacc; [done|done|by etrans|done].
  - destruct syn as [i|]; [|by rewrite bool_decide_false by (by intros [])].
    rewrite bool_decide_true by done. apply Hacc; [done|done|by etrans|]. by destruct (safe_ack0 i eq_refl).
Qed.

Lemma safe_with_stream_out capacity syn s f :
  (forall o, ByteStream.wf o -> ByteStream.wf (f o)) ->
  (forall o, ByteStream.cap (f o) = ByteStream.cap o /\ ByteStream.bytes_written (f o) = ByteStream.bytes_written o) ->
  safe capacity syn s -> safe capacity syn (with_stream_out s f).
Proof.
  intros Hwf Hf []. destruct (Hf (_output (_reassembler s))) as [Hc Hb].
  unfold stream_out, StreamReassembler.stream_out in *.
  split; cbn -[wrap u64]; rewrite ?Hb; auto; congruence.
Qed.

Lemma safe_run capacity evs :
  is_u64 capacity -> Forall event_ok evs -> safe capacity (last_syn evs) (run (make capacity) evs).
Proof.
  intros Hc. unfold last_syn, run. induction evs as [|e evs IH] using rev_ind; intros Hok.
  - split; cbn; try done. by apply ByteStream.make_wf.
  - apply Forall_app in Hok as [Hok He%Forall_inv]. rewrite !fold_left_app. cbn [fold_left].
    specialize (IH Hok). destruct e; cbn [step]; [by apply safe_segment| |];
      (apply safe_with_stream_out; [intros; by auto with sponge|done|done]).
Qed.

(** C17. Whatever segments arrive (well formed or hostile, in any order, any
    flags) and however the owner reads: the receiver acknowledges exactly when
    a SYN has arrived; the acknowledgment is one past the bytes assembled into
    the stream (two past once the announced end is reached), relative to the
    last SYN's sequence number; the buffered bytes never exceed the capacity,
    and the advertised window is the capacity that is left. (The capacity is not
    0: with capacity 0 the reassembler divides by zero, see
    [zero_capacity_undefined].) *)
Theorem receiver_feedback capacity evs :
  is_u64 capacity -> Forall event_ok evs ->
  let s := run (make capacity) evs in
  ackno s = match last_syn evs with
            | None => None
            | Some i =>
                let n := ByteStream.bytes_written (stream_out s) in
                Some (wrap (u64 (n + (if n =? _len_stream s then 2 else 1))) i)
            end /\
  window_size s + ByteStream.buffer_size (stream_out s) = capacity /\ 0 <= window_size s.
Proof.
  intros Hc Hok s. pose proof (safe_run capacity evs Hc Hok) as Hs. fold s in Hs. clearbody s. destruct Hs.
  unfold ackno, window_size. rewrite safe_syn0, safe_cap0. destruct safe_out0 as [_ Hb].
  unfold ByteStream.buffer_size in *. rewrite (u64_id (capacity - zlen (ByteStream.deq (stream_out s)))) by lia.
  split; [|lia]. destruct (last_syn evs) as [i|]; [|done].
  rewrite bool_decide_true by done. f_equal. by destruct (safe_ack0 i eq_refl).
Qed.

(** A segment for the examples. *)
Definition segment (seqno : Z) (syn fin : bool) (payload : list byte) : TCPSegment.t :=
  TCPSegment.mk (TCPHeader.default <| TCPHeader.seqno := mkWrappingInt32 seqno |>
                   <| TCPHeader.syn := syn |> <| TCPHeader.fin := fin |>) (Buffer.of_string payload).

Lemma receiver_feedback_witness :
  let evs := [Segment (segment 9 false false [x7a]); Segment (segment 10 true false []);
              Segment (segment 13 false true [x63]); Read 5; Segment (segment 11 false false [x61; x62])] in
  let s := run (make 4) evs in
  ackno s = match last_syn evs with
            | None => None
            | Some i =>
                let n := ByteStream.bytes_written (stream_out s) in
                Some (wrap (u64 (n + (if n =? _len_stream s then 2 else 1))) i)
            end /\
  window_size s + ByteStream.buffer_size (stream_out s) = 4 /\ 0 <= window_size s.
Proof.
  apply receiver_feedback; [lia|]. repeat (apply Forall_cons_2 || apply Forall_nil_2); vm_compute; done.
Defined.

(** ** Refinement: segments in any order *)

(** Nothing depends on the index of an empty substring. *)
Lemma push_nil_index r i j eof : push_substring r [] i eof = push_substring r [] j eof.
Proof. done. Qed.

(** With nothing stored, the drain does nothing. *)
Lemma write_to_bytestream_idle r : wf r -> Reassembly.store_empty r -> write_to_bytestream r = r.
Proof.
  intros Hwf He. pose proof Hwf as [Hcap Hst Haux Hem Hout Hoc Hbw Hun].
  unfold write_to_bytestream. pose proof (Z.mod_pos_bound (_start_aux r) (StreamReassembler._capacity r) ltac:(lia)).
  set (k := Z.to_nat _). assert (Hk : (k < length (_empty r))%nat) by lia. clearbody k.
  assert (Hf : find_true (drop k (_empty r)) = 0%nat).
  { destruct (lookup_lt_is_Some_2 (_empty r) k Hk) as [b Hb].
    rewrite (drop_S _ _ _ Hb). by rewrite (Forall_lookup_1 _ _ _ _ He Hb). }
  rewrite Hf, Nat.add_0_r, Nat.sub_diag. unfold substr. rewrite take_0.
  rewrite ByteStream.write_fits by (done || (destruct Hout; cbn; lia)).
  change (zlen []) with 0. rewrite app_nil_r, !Z.add_0_r, Z.sub_0_r.
  unfold ByteStream.bytes_written in Hbw. rewrite (u64_id (ByteStream.bytes_wrote _)) by lia.
  rewrite (u64_id (_start_aux r)) by lia. pose proof (Reassembly.store_empty_unassembled r Hwf He) as Hu.
  unfold StreamReassembler.unassembled_bytes in Hu. rewrite (u64_id (_bytes_unass r)) by lia.
  change (Z.to_nat 0) with 0%nat. rewrite Nat.add_0_r, fill_nil_range by lia. cbn.
  destruct (Nat.eqb_spec k (length (_empty r))); [lia|]. destruct r as [? [] ? ? ? ? ? ?]. done.
Qed.

Lemma push_nil_idle r i :
  wf r -> Reassembly.store_empty r -> _end_stream r = 2 ^ 64 - 1 -> push_substring r [] i false = r.
Proof.
  intros Hwf He Hs. rewrite Reassembly.push_substring_finish. cbn [write_to_aux length Z.of_nat Z.eqb].
  change (write_to_aux r [] i false) with r. rewrite write_to_bytestream_idle by done.
  unfold Reassembly.finish. destruct (wf_start r Hwf).
  assert (E : (if negb (_eof_seen r) then r <| _eof_seen := false |> else r) = r)
    by (destruct r as [? ? ? ? ? ? ? []]; done).
  rewrite E, Hs. destruct (Z.eqb_spec (_start_aux r) (2 ^ 64 - 1)); [lia|done].
Qed.

Section AnyOrder.
#[local] Opaque push_substring.
Context (capacity : Z) (src : list byte) (isn0 : WrappingInt32).
Context (Hcap : 0 < capacity < 2 ^ 31) (HS : zlen src <= capacity) (Hisn : wi_ok isn0).

(** A segment arrives with [len] bytes of [src] from [index] on, or the
    reader takes [n] bytes. *)
Inductive arrival :=
  | Arrive (seg : TCPSegment.t) (index len : nat)
  | Take (n : nat).

(** The segment carries the bytes it is meant to carry, numbered from the
    initial sequence number, and a FIN ends where the stream does. A SYN from
    sequence number 0 with a payload or a FIN is left out: [unwrap] misplaces
    it ([syn_payload_isn_zero]). *)
Definition carries (a : arrival) : Prop :=
  match a with
  | Arrive seg index len =>
      let h := TCPSegment.header seg in
      (index + len <= length src)%nat /\
      Buffer.copy (TCPSegment.payload seg) = substr src index len /\
      (TCPHeader.fin h = true -> (index + len = length src)%nat) /\
      if TCPHeader.syn h
      then TCPHeader.seqno h = isn0 /\ index = 0%nat /\
        (len = 0%nat /\ TCPHeader.fin h = false \/ raw_value isn0 <> 0)
      else TCPHeader.seqno h = wrap (1 + Z.of_nat index) isn0
  | Take _ => True
  end.

Definition is_fin (a : arrival) : bool :=
  match a with Arrive seg _ _ => TCPHeader.fin (TCPSegment.header seg) | Take _ => false end.
Definition is_syn (a : arrival) : bool :=
  match a with Arrive seg _ _ => TCPHeader.syn (TCPSegment.header seg) | Take _ => false end.

(** What the receiver does to its reassembler: [_eof] stays set once a FIN
    has been seen, so later substrings are flagged as last too. *)
Definition push_of (eof : bool) (a : arrival) : Reassembly.op :=
  match a with
  | Arrive seg index len => Reassembly.Push index len (eof || is_fin a)
  | Take n => Reassembly.Pop n
  end.
Definition fins (l : list arrival) : bool := existsb is_fin l.
Fixpoint pushes (eof : bool) (l : list arrival) : list Reassembly.op :=
  match l with
  | [] => []
  | a :: l => push_of eof a :: pushes (eof || is_fin a) l
  end.

Definition receive (c : t * list byte) (a : arrival) : t * list byte :=
  let '(s, delivered) := c in
  match a with
  | Arrive seg _ _ => (segment_received s seg, delivered)
  | Take n =>
      let '(out, str) := ByteStream.read (stream_out s) (Z.of_nat n) in
      (with_stream_out s (fun _ => out), delivered ++ str)
  end.
Definition receive_all (l : list arrival) : t * list byte := fold_left receive l (make capacity, []).

Lemma pushes_snoc b l a : pushes b (l ++ [a]) = pushes b l ++ [push_of (b || fins l) a].
Proof using Type.
  revert b. induction l as [|a' l IH]; intros b; cbn; [by rewrite orb_false_r|]. by rewrite IH, orb_assoc.
Qed.
Lemma fins_snoc l a : fins (l ++ [a]) = fins l || is_fin a.
Proof using Type. unfold fins. rewrite existsb_app. cbn. by rewrite orb_false_r. Qed.

(** From the first FIN on the sticky flag announces the end. *)
Lemma announced_pushes l :
  Reassembly.announced (pushes false l) || Reassembly.empty_last (pushes false l) = fins l.
Proof using Type.
  induction l as [|a l IH] using rev_ind; [done|].
  rewrite pushes_snoc, Reassembly.announced_snoc, Reassembly.empty_last_snoc, fins_snoc, <- IH.
  destruct (Reassembly.announced _), (Reassembly.empty_last _); cbn [orb] in *; rewrite ?orb_true_r; try done.
  destruct a as [seg index [|len]|]; cbn; by rewrite ?andb_false_r, ?andb_true_r, ?orb_false_r.
Qed.

(** The receiver and the reassembler it drives, in step: the same bytes; the
    same end as long as the substrings flagged as last end the stream. *)
Record sim (l : list arrival) (c : t * list byte) (d : StreamReassembler.t * list byte) : Prop := {
  sim_core : same_core (_reassembler c.1) d.1;
  sim_exact : Forall (Reassembly.ends_right src) (pushes false l) -> _reassembler c.1 = d.1;
  sim_complete : fins l && (_start_aux d.1 =? zlen src) = true -> ByteStream._end (_output (_reassembler c.1)) = true;
  sim_delivered : c.2 = d.2;
  sim_capacity : _capacity c.1 = capacity;
  sim_ckpt : _ckpt c.1 = _start_aux d.1;
  sim_eof : _eof c.1 = fins l;
  sim_len : _len_stream c.1 = if fins l then zlen src else 2 ^ 64 - 1;
  sim_syn : l <> [] -> _syn c.1 = true /\ _isn c.1 = isn0 /\
    _ack c.1 = wrap (_start_aux d.1 + (if fins l && (_start_aux d.1 =? zlen src) then 2 else 1)) isn0
}.
Lemma end_input_idle r :
  ByteStream._end (_output r) = true -> r <| _output := ByteStream.end_input (_output r) |> = r.
Proof using Type. destruct r as [? [] ? ? ? ? ? ?]; cbn. by intros ->. Qed.

Lemma carries_payload_len seg index len : carries (Arrive seg index len) -> payload_len seg = Z.of_nat len.
Proof using Type.
  intros (Hl & Hp & _). unfold payload_len. rewrite Hp, length_substr. lia.
Qed.

(** A payload or a FIN is located at its index. *)
Lemma carries_index s seg index len :
  carries (Arrive seg index len) -> (0 < len)%nat \/ TCPHeader.fin (TCPSegment.header seg) = true ->
  0 <= _ckpt s <= zlen src -> (TCPHeader.syn (TCPSegment.header seg) = false -> _isn s = isn0) ->
  stream_index s (TCPSegment.header seg) = Z.of_nat index.
Proof using Hcap HS Hisn.
  intros (Hl & _ & _ & Hh) Hlen Hck His. unfold stream_index. destruct (TCPHeader.syn _).
  - destruct Hh as (-> & -> & [[? Hf]|H0]); [rewrite Hf in Hlen; destruct Hlen; done || lia|].
    rewrite <- (wrap_0 isn0) at 1 by done. apply unwrap_near; try done; lia.
  - rewrite Hh, His by done. rewrite unwrap_ahead by (done || lia). rewrite u64_id; lia.
Qed.

(** The push the receiver performs is the one of [push_of]. *)
Lemma pushed_eq s seg index len :
  carries (Arrive seg index len) -> 0 <= _ckpt s <= zlen src ->
  (TCPHeader.syn (TCPSegment.header seg) = false -> _isn s = isn0) ->
  pushed s seg = push_substring (_reassembler s) (substr src index len) (Z.of_nat index)
    (_eof s || TCPHeader.fin (TCPSegment.header seg)).
Proof using Hcap HS Hisn.
  intros Hc Hck His. unfold pushed. pose proof Hc as (_ & Hp & _). rewrite Hp.
  destruct len as [|len]; [apply push_nil_index|]. by rewrite (carries_index s seg index (S len)) by (done || lia).
Qed.

Lemma push_same a b d i eof : same_core a b -> same_core (push_substring a d i eof) (push_substring b d i eof).
Proof using Type. intros H. etrans; [by apply (push_substring_same a b)|]. symmetry. by apply push_substring_same. Qed.

Lemma sim_arrive l s r del seg index len :
  let a := Arrive seg index len in
  let ops := pushes false l in
  Reassembly.inv capacity src ops (r, del) ->
  Reassembly.inv capacity src (ops ++ [push_of (fins l) a]) (Reassembly.step src (r, del) (push_of (fins l) a)) ->
  carries a -> (l = [] -> is_syn a = true) ->
  sim l (s, del) (r, del) ->
  sim (l ++ [a]) (receive (s, del) a) (Reassembly.step src (r, del) (push_of (fins l) a)).
Proof using Hcap HS Hisn.
  intros a ops Hinv Hinv' Hca Hfirst Hsim. destruct Hsim. subst a. cbn [fst snd] in *.
  pose proof (carries_payload_len seg index len Hca) as Hpl.
  assert (Hst : 0 <= _start_aux r <= zlen src).
  { destruct Hinv as [Hw _ ? _ _ _ _ _ _]. cbn in *. destruct (wf_start r Hw). lia. }
  change (l = [] -> TCPHeader.syn (TCPSegment.header seg) = true) in Hfirst.
  assert (Hsyn : _syn s || TCPHeader.syn (TCPSegment.header seg) = true).
  { destruct l as [|a0 l0]; [rewrite (Hfirst eq_refl); apply orb_true_r|].
    by destruct (sim_syn0 ltac:(done)) as [-> _]. }
  assert (His : TCPHeader.syn (TCPSegment.header seg) = false -> _isn s = isn0).
  { intros E. destruct l as [|a0 l0]; [by rewrite (Hfirst eq_refl) in E|].
    by destruct (sim_syn0 ltac:(done)) as (_ & ? & _). }
  pose proof (pushed_eq s seg index len Hca ltac:(lia) His) as Hpush. rewrite sim_eof0 in Hpush.
  pose proof (announced_pushes (l ++ [Arrive seg index len])) as Hann.
  rewrite pushes_snoc, fins_snoc in Hann. fold ops in Hann.
  cbn [push_of Reassembly.step receive is_fin orb] in *. set (fin := TCPHeader.fin (TCPSegment.header seg)) in *.
  rewrite segment_received_eq by (rewrite Hpl; destruct Hca; lia). rewrite Hsyn.
  unfold accept. rewrite Hpush.
  pose proof (push_same _ _ (substr src index len) (Z.of_nat index) (fins l || fin) sim_core0) as Hcore.
  assert (Hexact : Forall (Reassembly.ends_right src) ops ->
    push_substring (_reassembler s) (substr src index len) (Z.of_nat index) (fins l || fin)
    = push_substring r (substr src index len) (Z.of_nat index) (fins l || fin)) by (intros E; by rewrite sim_exact0).
  revert Hcore Hexact. generalize (push_substring (_reassembler s) (substr src index len) (Z.of_nat index) (fins l || fin)).
  set (r1 := push_substring r _ _ _) in *. intros r2 Hcore Hexact.
  destruct Hinv' as [Hw1 _ Hs1 _ _ _ _ _ He1]. cbn [fst snd] in *. clearbody r1.
  pose proof (wf_start r1 Hw1) as [Hs0 _].
  assert (Hbw : ByteStream.bytes_written (_output r2) = _start_aux r1).
  { destruct Hcore as (_ & (_ & E & _) & _). unfold ByteStream.bytes_written. rewrite E. by apply wf_written. }
  assert (Hls : (if fin then u64 (stream_index s (TCPSegment.header seg) + payload_len seg) else _len_stream s)
    = if fins l || fin then zlen src else 2 ^ 64 - 1).
  { destruct fin eqn:Ef; [|by rewrite orb_false_r]. rewrite orb_true_r. subst fin.
    rewrite (carries_index s seg index len) by (auto || lia). destruct Hca as (_ & _ & Hfe & _).
    specialize (Hfe Ef). rewrite Hpl, u64_id by lia. lia. }
  assert (Hdone : (ByteStream.bytes_written (_output r2) =? (if fins l || fin then zlen src else 2 ^ 64 - 1))
    = (fins l || fin) && (_start_aux r1 =? zlen src)).
  { rewrite Hbw. destruct (fins l || fin); cbn [andb]; [done|]. apply Z.eqb_neq. lia. }
  unfold accept_with. fold fin. rewrite Hls, Hdone.
  assert (Hisn' : (if TCPHeader.syn (TCPSegment.header seg) then TCPHeader.seqno (TCPSegment.header seg) else _isn s) = isn0).
  { destruct (TCPHeader.syn _) eqn:E; [|by apply His]. destruct Hca as (_ & _ & _ & Hh). rewrite E in Hh. by destruct Hh. }
  rewrite Hisn', Hbw. split; cbn [fst snd _reassembler _capacity _ckpt _eof _len_stream _syn _isn _ack]; rewrite ?fins_snoc; try done.
  - destruct ((fins l || fin) && _); exact Hcore.
  - rewrite pushes_snoc. cbn [orb push_of is_fin]. fold ops fin. intros Her.
    rewrite Hexact by (by apply Forall_app in Her as [? _]). destruct ((fins l || fin) && _) eqn:E; [|done].
    apply end_input_idle. rewrite He1 by done. apply andb_true_iff in E as [E1 E2].
    by rewrite E2, andb_true_r, orb_comm, Hann.
  - cbn [is_fin]. fold fin. by destruct ((fins l || fin) && _).
  - by rewrite sim_eof0.
  - intros _. split_and!; try done. cbn [is_fin]. fold fin. rewrite u64_id; [done|].
    clear -Hs0 Hs1 HS Hcap. destruct (_ && _); lia.
Qed.
(** The first arrival is a SYN. *)
Definition syn_first (l : list arrival) : Prop :=
  match l with a :: _ => is_syn a = true | [] => True end.

Lemma syn_first_snoc l a : syn_first (l ++ [a]) -> syn_first l /\ (l = [] -> is_syn a = true).
Proof using Type. destruct l; cbn; [|by intros]. done. Qed.

Lemma sim_take l s r del n :
  l <> [] -> sim l (s, del) (r, del) ->
  sim (l ++ [Take n]) (receive (s, del) (Take n)) (Reassembly.step src (r, del) (Reassembly.Pop n)).
Proof using Type.
  intros Hl []. cbn [fst snd] in *. pose proof sim_core0 as (A1 & A2 & A3 & A4 & A5 & A6).
  split; cbn -[wrap ByteStream.peek_output ByteStream.pop_output]; rewrite ?fins_snoc, ?orb_false_r; try done.
  - split_and!; try done. by apply pop_output_proper.
  - rewrite pushes_snoc. intros [Her _]%Forall_app. unfold stream_out, StreamReassembler.stream_out. by rewrite sim_exact0.
  - unfold ByteStream.peek_output, stream_out, StreamReassembler.stream_out. by destruct A2 as (_ & _ & _ & ->).
  - intros _. by apply sim_syn0.
Qed.

Lemma carries_pushes b l : Forall carries l -> Forall (Reassembly.op_ok src) (pushes b l).
Proof using Type.
  revert b. induction l as [|a l IH]; intros b Hc; cbn; [constructor|].
  apply Forall_cons in Hc as [Ha Hc]. constructor; [|by apply IH]. destruct a; [by destruct Ha|done].
Qed.

Lemma sim_run l :
  Forall carries l -> syn_first l -> sim l (receive_all l) (Reassembly.run capacity src (pushes false l)).
Proof using Hcap HS Hisn.
  unfold receive_all. induction l as [|a l IH] using rev_ind; intros Hc Hfirst.
  { split; cbn; try done. }
  pose proof (carries_pushes false _ Hc) as Hok.
  apply syn_first_snoc in Hfirst as [Hf1 Hf2]. apply Forall_app in Hc as [Hc Ha%Forall_inv].
  rewrite pushes_snoc in *. cbn [orb] in *. pose proof Hok as [Hokl _]%Forall_app.
  specialize (IH Hc Hf1). pose proof (Reassembly.run_inv capacity src Hcap HS _ Hokl) as Hi.
  pose proof (Reassembly.run_inv capacity src Hcap HS _ Hok) as Hi'.
  unfold Reassembly.run in *. rewrite fold_left_app in *. cbn [fold_left] in *.
  rewrite ?fold_left_app. cbn [fold_left].
  destruct (fold_left (Reassembly.step src) _ _) as [r del] eqn:Er.
  destruct (fold_left receive l _) as [s del'] eqn:Es.
  assert (del' = del) as -> by (by destruct IH).
  destruct a as [seg index len|n]; [by apply sim_arrive|].
  apply sim_take; [|done]. intros ->. by specialize (Hf2 eq_refl).
Qed.

(** C11. End to end, for a stream that fits the receiver's capacity: let
    segments of it arrive in any order, overlapping, duplicated, empty or
    not, with SYN and FIN retransmitted, a FIN with or without payload,
    interleaved with reads, the first being a SYN; the only segments left out
    are SYNs from sequence number 0 that carry a payload or a FIN
    ([syn_payload_isn_zero]). Then the bytes handed to the reader followed by
    the buffered ones are the stream up to the first missing index [n]; the
    acknowledgment is [isn + 1 + n], plus 1 for the FIN once it was seen and
    everything arrived; the window is the capacity left; and the stream has
    ended when it is complete. It can also end too early, exactly in these
    cases: a FIN without payload, or after a FIN any segment without payload,
    ends it at once; and after a FIN a segment that stops before the end of
    the stream can ([sticky_eof_ends_early]; ruled out by [ends_right]). *)
Theorem receives_any_order l s delivered :
  Forall carries l -> syn_first l -> l <> [] ->
  receive_all l = (s, delivered) ->
  let n := Reassembly.first_gap src (pushes false l) in
  let complete := fins l && (n =? length src)%nat in
  delivered ++ ByteStream.deq (stream_out s) = take n src /\
  ackno s = Some (wrap (1 + Z.of_nat n + (if complete then 1 else 0)) isn0) /\
  window_size s = capacity - ByteStream.buffer_size (stream_out s) /\
  unassembled_bytes s = Reassembly.pending src (pushes false l) /\
  (complete = true -> ByteStream.input_ended (stream_out s) = true) /\
  (Forall (Reassembly.ends_right src) (pushes false l) ->
   ByteStream.input_ended (stream_out s) = complete || Reassembly.empty_last (pushes false l)).
Proof using Hcap HS Hisn.
  intros Hc Hf Hne Hrun n complete. pose proof (carries_pushes false l Hc) as Hok.
  pose proof (sim_run l Hc Hf) as Hs. rewrite Hrun in Hs.
  destruct (Reassembly.run capacity src (pushes false l)) as [r del] eqn:Er. destruct Hs. cbn [fst snd] in *. subst del.
  destruct (Reassembly.run_any_order capacity src Hcap HS _ _ _ Hok Er) as (R1 & R2 & R3 & R4). fold n in R1, R2, R4.
  pose proof (Reassembly.run_inv capacity src Hcap HS _ Hok) as Hi. rewrite Er in Hi.
  destruct Hi as [Hw Hcp _ _ _ _ _ _ _]. cbn in Hw, Hcp. destruct Hw.
  unfold StreamReassembler.stream_out in *. rewrite wf_written0 in R2.
  assert (Hcomp : fins l && (_start_aux r =? zlen src) = complete).
  { rewrite R2. unfold complete. f_equal.
    destruct (Z.eqb_spec (Z.of_nat n) (zlen src)), (Nat.eqb_spec n (length src)); lia || done. }
  rewrite Hcomp in *. pose proof sim_core0 as (_ & (_ & _ & _ & E4) & _ & _ & _ & E6).
  unfold unassembled_bytes, ackno, window_size, ByteStream.buffer_size, stream_out, StreamReassembler.stream_out,
    StreamReassembler.unassembled_bytes in *.
  destruct (sim_syn0 Hne) as (-> & _ & ->). rewrite E4, E6, sim_capacity0. split_and!; try done.
  - do 2 f_equal. rewrite R2. destruct complete; lia.
  - destruct wf_out0. apply u64_id. lia.
  - intros Her. rewrite sim_exact0, R4 by done. unfold complete. rewrite <- (announced_pushes l).
    destruct (Reassembly.empty_last _), (Reassembly.announced _); cbn [andb orb]; by rewrite ?orb_true_r, ?orb_false_r.
Qed.
End AnyOrder.

Lemma receives_any_order_witness :
  let src := [x61; x62; x63; x64; x65] in
  let isn := mkWrappingInt32 (2 ^ 32 - 2) in
  let seq n := raw_value (wrap n isn) in
  let l := [Arrive (segment (2 ^ 32 - 2) true false [x61]) 0 1; Arrive (segment (seq 3) false false [x63; x64]) 2 2; Take 3;
            Arrive (segment (seq 1) false false [x61; x62; x63]) 0 3;
            Arrive (segment (seq 4) false true [x64; x65]) 3 2; Take 2; Arrive (segment (seq 6) false true []) 5 0] in
  let '(s, delivered) := receive_all 8 l in
  let n := Reassembly.first_gap src (pushes false l) in
  let complete := fins l && (n =? length src)%nat in
  delivered ++ ByteStream.deq (stream_out s) = take n src /\
  ackno s = Some (wrap (1 + Z.of_nat n + (if complete then 1 else 0)) isn) /\
  window_size s = 8 - ByteStream.buffer_size (stream_out s) /\
  unassembled_bytes s = Reassembly.pending src (pushes false l) /\
  (complete = true -> ByteStream.input_ended (stream_out s) = true) /\
  (Forall (Reassembly.ends_right src) (pushes false l) ->
   ByteStream.input_ended (stream_out s) = complete || Reassembly.empty_last (pushes false l)).
Proof.
  intros src isn seq l. destruct (receive_all 8 l) as [s delivered] eqn:E.
  apply (receives_any_order 8 src isn).
  - lia.
  - vm_compute. congruence.
  - vm_compute. split; congruence.
  - repeat (apply Forall_cons_2 || apply Forall_nil_2); vm_compute; intuition (congruence || lia).
  - reflexivity.
  - discriminate.
  - exact E.
Defined.

(** ** In-order conversations of any length *)

Section InOrder.
#[local] Opaque push_substring.
Context (capacity : Z) (isn0 : WrappingInt32).
Context (Hcap : 0 < capacity < 2 ^ 31) (Hisn : wi_ok isn0).

Definition plain (seg : TCPSegment.t) : Prop :=
  TCPHeader.syn (TCPSegment.header seg) = false /\ TCPHeader.fin (TCPSegment.header seg) = false.

(** The receiver after a bare SYN, then, in any interleaving: the next bytes
    of the stream within the advertised window, segments without payload,
    and reads. [sent] is what has been carried, [delivered] what was read. *)
Inductive conversation : t -> list byte -> list byte -> Prop :=
  | conv_syn seg :
      TCPHeader.syn (TCPSegment.header seg) = true -> TCPHeader.fin (TCPSegment.header seg) = false ->
      TCPHeader.seqno (TCPSegment.header seg) = isn0 -> Buffer.copy (TCPSegment.payload seg) = [] ->
      conversation (segment_received (make capacity) seg) [] []
  | conv_data s sent delivered seg :
      conversation s sent delivered -> plain seg ->
      ackno s = Some (TCPHeader.seqno (TCPSegment.header seg)) -> 0 < payload_len seg <= window_size s ->
      conversation (segment_received s seg) (sent ++ Buffer.copy (TCPSegment.payload seg)) delivered
  | conv_empty s sent delivered seg :
      conversation s sent delivered -> plain seg -> Buffer.copy (TCPSegment.payload seg) = [] ->
      conversation (segment_received s seg) sent delivered
  | conv_read s sent delivered n :
      conversation s sent delivered -> 0 <= n ->
      conversation (with_stream_out s (fun o => ByteStream.pop_output o n)) sent
        (delivered ++ ByteStream.peek_output (stream_out s) n).

(** What holds throughout. *)
Record established (s : t) (sent delivered : list byte) : Prop := {
  est_wf : wf (_reassembler s);
  est_cap : StreamReassembler._capacity (_reassembler s) = capacity;
  est_empty : Reassembly.store_empty (_reassembler s);
  est_end_stream : _end_stream (_reassembler s) = 2 ^ 64 - 1;
  est_start : _start_aux (_reassembler s) = zlen sent;
  est_open : ByteStream._end (_output (_reassembler s)) = false;
  est_bytes : sent = delivered ++ ByteStream.deq (_output (_reassembler s));
  est_syn : _syn s = true;
  est_capacity : _capacity s = capacity;
  est_isn : _isn s = isn0;
  est_ckpt : _ckpt s = zlen sent;
  est_eof : _eof s = false;
  est_len : _len_stream s = 2 ^ 64 - 1;
  est_ack : _ack s = wrap (zlen sent + 1) isn0
}.

Lemma established_window s sent delivered :
  established s sent delivered ->
  window_size s = ByteStream.remaining_capacity (StreamReassembler.stream_out (_reassembler s)) /\
  0 <= window_size s <= capacity.
Proof using Hcap.
  intros []. destruct est_wf0. unfold window_size, ByteStream.remaining_capacity, stream_out, StreamReassembler.stream_out.
  unfold ByteStream.buffer_size. destruct wf_out0. rewrite u64_id by lia. rewrite u64_id by lia. lia.
Qed.

(** Accepting a segment without FIN whose push leaves nothing stored. *)
Lemma established_accept s seg r sent' delivered :
  _capacity s = capacity -> _eof s = false -> _len_stream s = 2 ^ 64 - 1 ->
  TCPHeader.fin (TCPSegment.header seg) = false ->
  (if TCPHeader.syn (TCPSegment.header seg) then TCPHeader.seqno (TCPSegment.header seg) else _isn s) = isn0 ->
  wf r -> StreamReassembler._capacity r = capacity -> Reassembly.store_empty r ->
  _end_stream r = 2 ^ 64 - 1 -> _start_aux r = zlen sent' -> ByteStream._end (_output r) = false ->
  sent' = delivered ++ ByteStream.deq (_output r) ->
  established (accept_with s seg r) sent' delivered.
Proof using Hcap.
  intros H1 H2 H3 H4 H5 Hw Hc He Hes Hst Ho Hb. unfold accept_with. rewrite H2, H3, H4, H5.
  pose proof (wf_start r Hw). rewrite (wf_written r Hw), Hst.
  destruct (Z.eqb_spec (zlen sent') (2 ^ 64 - 1)); [lia|]. rewrite u64_id by lia.
  by split.
Qed.

Lemma established_syn seg :
  TCPHeader.syn (TCPSegment.header seg) = true -> TCPHeader.fin (TCPSegment.header seg) = false ->
  TCPHeader.seqno (TCPSegment.header seg) = isn0 -> Buffer.copy (TCPSegment.payload seg) = [] ->
  established (segment_received (make capacity) seg) [] [].
Proof using Hcap.
  intros Hs Hf Hq Hp. rewrite segment_received_eq by (unfold payload_len; by rewrite Hp).
  rewrite Hs, orb_true_r. unfold accept.
  assert (Hpu : pushed (make capacity) seg = StreamReassembler.make capacity).
  { unfold pushed. rewrite Hp, Hf. apply push_nil_idle; [by apply reassembler_make_wf| |done].
    by apply Forall_replicate. }
  rewrite Hpu. apply established_accept; try done; [by rewrite Hs|by apply reassembler_make_wf|by apply Forall_replicate].
Qed.

(** The segment that starts at the acknowledgment lands at the next index. *)
Lemma established_index s sent delivered seg :
  established s sent delivered -> zlen sent < 2 ^ 62 ->
  TCPHeader.syn (TCPSegment.header seg) = false ->
  ackno s = Some (TCPHeader.seqno (TCPSegment.header seg)) ->
  stream_index s (TCPSegment.header seg) = zlen sent.
Proof using Hcap Hisn.
  intros [] Hb Hs Ha. unfold ackno in Ha. rewrite est_syn0, est_ack0 in Ha. injection Ha as Ha.
  unfold stream_index. rewrite Hs, <- Ha, est_isn0, est_ckpt0. rewrite unwrap_near by (done || lia).
  rewrite u64_id; lia.
Qed.

(** The push of an in-order payload, last or not. *)
Lemma established_push s sent delivered seg :
  established s sent delivered -> zlen sent < 2 ^ 62 ->
  TCPHeader.syn (TCPSegment.header seg) = false ->
  ackno s = Some (TCPHeader.seqno (TCPSegment.header seg)) -> 0 < payload_len seg <= window_size s ->
  let r := pushed s seg in
  let fin := TCPHeader.fin (TCPSegment.header seg) in
  let sent' := sent ++ Buffer.copy (TCPSegment.payload seg) in
  wf r /\ StreamReassembler._capacity r = capacity /\ Reassembly.store_empty r /\
  _end_stream r = (if fin then zlen sent' else 2 ^ 64 - 1) /\ _start_aux r = zlen sent' /\
  ByteStream._end (_output r) = fin /\
  sent' = delivered ++ ByteStream.deq (_output r).
Proof using Hcap Hisn.
  intros He Hb Hs Ha Hw r fin sent'. destruct (established_window _ _ _ He) as [Ew Hwb].
  pose proof (established_index _ _ _ _ He Hb Hs Ha) as Hi. destruct He.
  assert (Hr : r = push_substring (_reassembler s) (Buffer.copy (TCPSegment.payload seg))
    (_start_aux (_reassembler s)) fin).
  { unfold r, pushed. by rewrite Hi, est_start0, est_eof0. }
  clearbody r. subst r. unfold payload_len in *. rewrite Ew in Hw.
  destruct (Reassembly.push_in_order (_reassembler s) _ fin est_wf0 est_empty0 ltac:(lia) Hw)
    as (P1 & P2 & _ & P4 & P5 & P6 & P7 & P8).
  set (r := push_substring _ _ _ _) in *. clearbody r.
  pose proof (wf_written r P1) as Hwr. unfold StreamReassembler.stream_out in *.
  rewrite P5, (wf_written _ est_wf0) in Hwr.
  assert (Hz : zlen sent' = zlen sent + zlen (Buffer.copy (TCPSegment.payload seg)))
    by (unfold sent'; rewrite length_app; lia).
  rewrite P8, P7, est_start0, est_end_stream0, est_open0, Hz.
  split_and!; try done; try lia.
  - destruct fin; [by rewrite Z.eqb_refl|]. destruct (Z.eqb_spec (zlen sent + zlen (Buffer.copy (TCPSegment.payload seg))) (2 ^ 64 - 1)); [lia|done].
  - unfold sent'. rewrite est_bytes0, P4. by rewrite app_assoc.
Qed.

Lemma conversation_established s sent delivered :
  conversation s sent delivered -> zlen sent < 2 ^ 62 -> established s sent delivered.
Proof using Hcap Hisn.
  induction 1 as [seg Hs Hf Hq Hp|s sent del seg _ IH [Hs Hf] Ha Hw|s sent del seg _ IH [Hs Hf] Hp|s sent del n _ IH Hn];
    intros Hb.
  - by apply established_syn.
  - rewrite length_app in Hb. specialize (IH ltac:(lia)).
    destruct (established_push s sent del seg IH ltac:(lia) Hs Ha Hw) as (P1 & P2 & P3 & P4 & P5 & P6 & P7).
    rewrite Hf in P4, P6. destruct (established_window _ _ _ IH). pose proof IH as [].
    rewrite segment_received_eq by lia. rewrite est_syn0. apply established_accept; try done. by rewrite Hs.
  - specialize (IH Hb). pose proof IH as [].
    rewrite segment_received_eq by (unfold payload_len; by rewrite Hp). rewrite est_syn0. cbn [orb].
    unfold accept. assert (Hpu : pushed s seg = _reassembler s).
    { unfold pushed. rewrite Hp, Hf, est_eof0. by apply push_nil_idle. }
    rewrite Hpu. apply established_accept; try done. by rewrite Hs.
  - specialize (IH Hb). destruct IH. split; try done.
    + destruct est_wf0. split; try done. by apply ByteStream.pop_output_wf.
    + cbn. unfold ByteStream.peek_output, stream_out, StreamReassembler.stream_out.
      by rewrite <- app_assoc, take_drop.
Qed.

(** A receiver fed in order, for streams of any length (the store is
    cycled any number of times): what was carried is what was read followed
    by what is buffered; the acknowledgment is the next sequence number; the
    window is the capacity not used by buffered bytes; nothing waits for
    reassembly and the stream is open. When the FIN segment then arrives, its
    bytes are delivered too, the FIN is acknowledged and the stream ends. *)
Theorem in_order_conversation s sent delivered :
  conversation s sent delivered -> zlen sent < 2 ^ 62 ->
  (sent = delivered ++ ByteStream.deq (stream_out s) /\
   ackno s = Some (wrap (zlen sent + 1) isn0) /\
   window_size s = capacity - ByteStream.buffer_size (stream_out s) /\
   unassembled_bytes s = 0 /\ ByteStream.input_ended (stream_out s) = false) /\
  forall seg,
    TCPHeader.syn (TCPSegment.header seg) = false -> TCPHeader.fin (TCPSegment.header seg) = true ->
    ackno s = Some (TCPHeader.seqno (TCPSegment.header seg)) -> 0 < payload_len seg <= window_size s ->
    let s' := segment_received s seg in
    let sent' := sent ++ Buffer.copy (TCPSegment.payload seg) in
    sent' = delivered ++ ByteStream.deq (stream_out s') /\
    ackno s' = Some (wrap (zlen sent' + 2) isn0) /\
    ByteStream.input_ended (stream_out s') = true.
Proof using Hcap Hisn.
  intros Hc Hb. pose proof (conversation_established _ _ _ Hc Hb) as He.
  destruct (established_window _ _ _ He) as [Ew Hwb]. split.
  - destruct He. unfold ackno, stream_out, unassembled_bytes, StreamReassembler.stream_out, ByteStream.input_ended.
    rewrite est_syn0, est_ack0. split_and!; try done; [|by apply Reassembly.store_empty_unassembled].
    rewrite Ew. destruct est_wf0. unfold StreamReassembler.stream_out.
    rewrite ByteStream.remaining_capacity_eq by done. unfold ByteStream.buffer_size. lia.
  - intros seg Hs Hf Ha Hw s' sent'.
    destruct (established_push s sent delivered seg He Hb Hs Ha Hw) as (P1 & P2 & P3 & P4 & P5 & P6 & P7).
    pose proof (established_index _ _ _ _ He Hb Hs Ha) as Hi. destruct He.
    assert (Hz : zlen sent' = zlen sent + payload_len seg)
      by (unfold sent', payload_len; rewrite length_app; lia).
    unfold s'. rewrite segment_received_eq by lia. rewrite est_syn0. cbn [orb].
    unfold accept. set (r := pushed s seg) in *. clearbody r.
    unfold accept_with. rewrite (wf_written _ P1), P5, Hf, Hs, Hi, u64_id by lia.
    fold sent'. rewrite Hz, Z.eqb_refl. rewrite u64_id, est_isn0 by lia.
    unfold ackno, stream_out, StreamReassembler.stream_out, ByteStream.input_ended. cbn [_syn _ack _reassembler].
    split_and!; done.
Qed.
End InOrder.

Lemma in_order_conversation_witness :
  let isn := mkWrappingInt32 (2 ^ 32 - 1) in
  let s := segment_received (segment_received (make 4) (segment (2 ^ 32 - 1) true false []))
             (segment 0 false false [x61; x62]) in
  let seg := segment 2 false true [x63] in
  let s' := segment_received s seg in
  [x61; x62; x63] = [] ++ ByteStream.deq (stream_out s') /\
  ackno s' = Some (wrap 5 isn) /\ ByteStream.input_ended (stream_out s') = true.
Proof.
  intros isn s seg.
  refine (proj2 (in_order_conversation 4 isn _ _ s [x61; x62] [] _ _) seg _ _ _ _);
    try (vm_compute; first [done | split; congruence]).
  unfold s. apply (conv_data 4 isn _ [] [] (segment 0 false false [x61; x62])).
  - by apply conv_syn.
  - done.
  - by vm_compute.
  - vm_compute. split; congruence.
Defined.

(** ** Where the receiver goes wrong *)

(** [_eof] stays set after a FIN, so every later segment is pushed as if
    it were the last one. Here "c" with the FIN arrives early, then "a": the
    stream is reported ended after one byte of three, although the
    acknowledgment still asks for the second. *)
Theorem sticky_eof_ends_early :
  let s := run (make 8) [Segment (segment 10 true false []); Segment (segment 13 false true [x63]);
                         Segment (segment 11 false false [x61])] in
  ByteStream.input_ended (stream_out s) = true /\ ByteStream.deq (stream_out s) = [x61] /\
  ackno s = Some (mkWrappingInt32 12).
Proof. by vm_compute. Qed.

(** A FIN without payload that overtakes the data ends the stream at once. *)
Theorem early_fin_ends_stream :
  let s := run (make 8) [Segment (segment 10 true false []); Segment (segment 13 false true [])] in
  ByteStream.input_ended (stream_out s) = true /\ ByteStream.bytes_written (stream_out s) = 0 /\
  ackno s = Some (mkWrappingInt32 11).
Proof. by vm_compute. Qed.

(** With initial sequence number 0 the payload of a SYN segment is located
    at index [2^32] and lost; with any other it is delivered. *)
Theorem syn_payload_isn_zero :
  ByteStream.deq (stream_out (segment_received (make 8) (segment 0 true false [x61; x62]))) = [] /\
  ByteStream.deq (stream_out (segment_received (make 8) (segment 1 true false [x61; x62]))) = [x61; x62].
Proof. by vm_compute. Qed.

End TCPReceiver.
