(* ===== verification/tcp_sender.v ===== *)
(** The sending half of TCP ([libsponge/tcp_sender.{hh,cc}], with the constants
    of [libsponge/tcp_helpers/tcp_config.hh]).

    [TCPSender.t] has the private members of the class, the queue and the three
    parallel deques with their front at the head of the list; each operation is
    the method of the same name. *)

From S2P Require Import prelude std_algorithms wrapping_integers buffer tcp_segment byte_stream.

Module TCPConfig.

Definition DEFAULT_CAPACITY : Z := 64000.
Definition MAX_PAYLOAD_SIZE : Z := 1000.
Definition TIMEOUT_DFLT : Z := 1000.
Definition MAX_RETX_ATTEMPTS : Z := 8.

Record t := mk {
  rt_timeout : Z;
  recv_capacity : Z;
  send_capacity : Z;
  fixed_isn : option WrappingInt32
}.

Definition default : t := mk TIMEOUT_DFLT DEFAULT_CAPACITY DEFAULT_CAPACITY None.

End TCPConfig.

Module TCPSender.

Record t := mk {
  _isn : WrappingInt32;
  _segments_out : list TCPSegment.t;
  _initial_retransmission_timeout : Z;
  _stream : ByteStream.t;
  _next_seqno : Z;
  _curr_RTO : Z;
  _segments_outstanding : list TCPSegment.t;
  _seqnos_abs_outstanding : list Z;
  _timestamps_outstanding : list Z;
  _bytes_flying : Z;
  _window_size : Z;
  _consec_retrans : Z;
  _ack_abs : Z;
  _time : Z;
  _time_fin_sent : Z;
  _fin_sent : bool
}.

#[global] Instance set_segments_out : Setter _segments_out := fun f s =>
  mk (_isn s) (f (_segments_out s)) (_initial_retransmission_timeout s) (_stream s) (_next_seqno s) (_curr_RTO s) (_segments_outstanding s) (_seqnos_abs_outstanding s)
     (_timestamps_outstanding s) (_bytes_flying s) (_window_size s) (_consec_retrans s) (_ack_abs s) (_time s) (_time_fin_sent s) (_fin_sent s).
#[global] Instance set_stream : Setter _stream := fun f s =>
  mk (_isn s) (_segments_out s) (_initial_retransmission_timeout s) (f (_stream s)) (_next_seqno s) (_curr_RTO s) (_segments_outstanding s) (_seqnos_abs_outstanding s)
     (_timestamps_outstanding s) (_bytes_flying s) (_window_size s) (_consec_retrans s) (_ack_abs s) (_time s) (_time_fin_sent s) (_fin_sent s).
#[global] Instance set_next_seqno : Setter _next_seqno := fun f s =>
  mk (_isn s) (_segments_out s) (_initial_retransmission_timeout s) (_stream s) (f (_next_seqno s)) (_curr_RTO s) (_segments_outstanding s) (_seqnos_abs_outstanding s)
     (_timestamps_outstanding s) (_bytes_flying s) (_window_size s) (_consec_retrans s) (_ack_abs s) (_time s) (_time_fin_sent s) (_fin_sent s).
#[global] Instance set_curr_RTO : Setter _curr_RTO := fun f s =>
  mk (_isn s) (_segments_out s) (_initial_retransmission_timeout s) (_stream s) (_next_seqno s) (f (_curr_RTO s)) (_segments_outstanding s) (_seqnos_abs_outstanding s)
     (_timestamps_outstanding s) (_bytes_flying s) (_window_size s) (_consec_retrans s) (_ack_abs s) (_time s) (_time_fin_sent s) (_fin_sent s).
#[global] Instance set_segments_outstanding : Setter _segments_outstanding := fun f s =>
  mk (_isn s) (_segments_out s) (_initial_retransmission_timeout s) (_stream s) (_next_seqno s) (_curr_RTO s) (f (_segments_outstanding s)) (_seqnos_abs_outstanding s)
     (_timestamps_outstanding s) (_bytes_flying s) (_window_size s) (_consec_retrans s) (_ack_abs s) (_time s) (_time_fin_sent s) (_fin_sent s).
#[global] Instance set_seqnos_abs_outstanding : Setter _seqnos_abs_outstanding := fun f s =>
  mk (_isn s) (_segments_out s) (_initial_retransmission_timeout s) (_stream s) (_next_seqno s) (_curr_RTO s) (_segments_outstanding s) (f (_seqnos_abs_outstanding s))
     (_timestamps_outstanding s) (_bytes_flying s) (_window_size s) (_consec_retrans s) (_ack_abs s) (_time s) (_time_fin_sent s) (_fin_sent s).
#[global] Instance set_timestamps_outstanding : Setter _timestamps_outstanding := fun f s =>
  mk (_isn s) (_segments_out s) (_initial_retransmission_timeout s) (_stream s) (_next_seqno s) (_curr_RTO s) (_segments_outstanding s) (_seqnos_abs_outstanding s)
     (f (_timestamps_outstanding s)) (_bytes_flying s) (_window_size s) (_consec_retrans s) (_ack_abs s) (_time s) (_time_fin_sent s) (_fin_sent s).
#[global] Instance set_bytes_flying : Setter _bytes_flying := fun f s =>
  mk (_isn s) (_segments_out s) (_initial_retransmission_timeout s) (_stream s) (_next_seqno s) (_curr_RTO s) (_segments_outstanding s) (_seqnos_abs_outstanding s)
     (_timestamps_outstanding s) (f (_bytes_flying s)) (_window_size s) (_consec_retrans s) (_ack_abs s) (_time s) (_time_fin_sent s) (_fin_sent s).
#[global] Instance set_window_size : Setter _window_size := fun f s =>
  mk (_isn s) (_segments_out s) (_initial_retransmission_timeout s) (_stream s) (_next_seqno s) (_curr_RTO s) (_segments_outstanding s) (_seqnos_abs_outstanding s)
     (_timestamps_outstanding s) (_bytes_flying s) (f (_window_size s)) (_consec_retrans s) (_ack_abs s) (_time s) (_time_fin_sent s) (_fin_sent s).
#[global] Instance set_consec_retrans : Setter _consec_retrans := fun f s =>
  mk (_isn s) (_segments_out s) (_initial_retransmission_timeout s) (_stream s) (_next_seqno s) (_curr_RTO s) (_segments_outstanding s) (_seqnos_abs_outstanding s)
     (_timestamps_outstanding s) (_bytes_flying s) (_window_size s) (f (_consec_retrans s)) (_ack_abs s) (_time s) (_time_fin_sent s) (_fin_sent s).
#[global] Instance set_ack_abs : Setter _ack_abs := fun f s =>
  mk (_isn s) (_segments_out s) (_initial_retransmission_timeout s) (_stream s) (_next_seqno s) (_curr_RTO s) (_segments_outstanding s) (_seqnos_abs_outstanding s)
     (_timestamps_outstanding s) (_bytes_flying s) (_window_size s) (_consec_retrans s) (f (_ack_abs s)) (_time s) (_time_fin_sent s) (_fin_sent s).
#[global] Instance set_time : Setter _time := fun f s =>
  mk (_isn s) (_segments_out s) (_initial_retransmission_timeout s) (_stream s) (_next_seqno s) (_curr_RTO s) (_segments_outstanding s) (_seqnos_abs_outstanding s)
     (_timestamps_outstanding s) (_bytes_flying s) (_window_size s) (_consec_retrans s) (_ack_abs s) (f (_time s)) (_time_fin_sent s) (_fin_sent s).
#[global] Instance set_time_fin_sent : Setter _time_fin_sent := fun f s =>
  mk (_isn s) (_segments_out s) (_initial_retransmission_timeout s) (_stream s) (_next_seqno s) (_curr_RTO s) (_segments_outstanding s) (_seqnos_abs_outstanding s)
     (_timestamps_outstanding s) (_bytes_flying s) (_window_size s) (_consec_retrans s) (_ack_abs s) (_time s) (f (_time_fin_sent s)) (_fin_sent s).
#[global] Instance set_fin_sent : Setter _fin_sent := fun f s =>
  mk (_isn s) (_segments_out s) (_initial_retransmission_timeout s) (_stream s) (_next_seqno s) (_curr_RTO s) (_segments_outstanding s) (_seqnos_abs_outstanding s)
     (_timestamps_outstanding s) (_bytes_flying s) (_window_size s) (_consec_retrans s) (_ack_abs s) (_time s) (_time_fin_sent s) (f (_fin_sent s)).

(** The constructor; [isn] is the fixed or random initial sequence number. *)
Definition make (capacity retx_timeout : Z) (isn : WrappingInt32) : t :=
  mk isn [] retx_timeout (ByteStream.make capacity) 0 retx_timeout [] [] [] 0 1 0 0 0 0 false.

Definition stream_in (s : t) : ByteStream.t := _stream s.
Definition bytes_in_flight (s : t) : Z := _bytes_flying s.
Definition consecutive_retransmissions (s : t) : Z := _consec_retrans s.
Definition next_seqno_absolute (s : t) : Z := _next_seqno s.
Definition next_seqno (s : t) : WrappingInt32 := wrap (_next_seqno s) (_isn s).
Definition time_fin_sent (s : t) : Z := _time_fin_sent s.
Definition fin_sent (s : t) : bool := _fin_sent s.
Definition ack_abs (s : t) : Z := _ack_abs s.

(** [stream_in()] as a reference: the writer's update of the stream. *)
Definition with_stream_in (s : t) (f : ByteStream.t -> ByteStream.t) : t := s <| _stream := f (_stream s) |>.

(** The two pushes of a new segment. *)
Definition enqueue (s : t) (seg : TCPSegment.t) : t :=
  s <| _segments_out := _segments_out s ++ [seg] |>
    <| _segments_outstanding := _segments_outstanding s ++ [seg] |>.

(** The end of the segment and its timestamp, pushed after [_next_seqno] has
    been advanced. *)
Definition stamp (s : t) : t :=
  s <| _seqnos_abs_outstanding := _seqnos_abs_outstanding s ++ [_next_seqno s] |>
    <| _timestamps_outstanding := _timestamps_outstanding s ++ [_time s] |>.

Definition add_flying (s : t) (n : Z) : t := s <| _bytes_flying := u64 (_bytes_flying s + n) |>.
Definition add_next (s : t) (n : Z) : t := s <| _next_seqno := u64 (_next_seqno s + n) |>.

(** [_stream.read(n)] *)
Definition read_stream (s : t) (n : Z) : t * list byte :=
  let '(st, str) := ByteStream.read (_stream s) n in (s <| _stream := st |>, str).

(** Lines 36-48. *)
Definition send_syn (s : t) : t :=
  let seg := TCPSegment.mk (TCPHeader.default <| TCPHeader.syn := true |>
                              <| TCPHeader.seqno := _isn s |>) Buffer.empty in
  stamp (add_next (add_flying (enqueue s seg) 1) 1).

(** Lines 53-69. *)
Definition send_fin (s : t) : t :=
  let seg := TCPSegment.mk (TCPHeader.default <| TCPHeader.fin := true |>
                              <| TCPHeader.seqno := next_seqno s |>) (Buffer.of_string []) in
  let s := stamp (add_next (add_flying (enqueue s seg) 1) 1) in
  s <| _fin_sent := true |> <| _time_fin_sent := _time s |>.

(** Lines 74-84: the zero-window probe. *)
Definition send_probe (s : t) : t :=
  let header := TCPHeader.default <| TCPHeader.seqno := next_seqno s |> in
  let '(s, str) := read_stream s 1 in
  let seg := TCPSegment.mk header (Buffer.of_string str) in
  stamp (add_next (add_flying (enqueue s seg) 1) 1).

(** Lines 89-108: one turn of the loop. *)
Definition send_data (s : t) : t :=
  let size_seg := Z.min (Z.min (ByteStream.buffer_size (_stream s)) (u64 (_window_size s - _bytes_flying s)))
                        TCPConfig.MAX_PAYLOAD_SIZE in
  let header := TCPHeader.default <| TCPHeader.seqno := next_seqno s |> in
  let '(s, str) := read_stream s size_seg in
  let payload := Buffer.of_string str in
  let s := add_flying s size_seg in
  let '(s, header) :=
    if ByteStream.eof (_stream s) && negb (_fin_sent s) && (_bytes_flying s <? _window_size s)
    then let s := add_next (add_flying (s <| _fin_sent := true |>) 1) 1 in
         (s <| _time_fin_sent := _time s |>, header <| TCPHeader.fin := true |>)
    else (s, header) in
  stamp (add_next (enqueue s (TCPSegment.mk header payload)) size_seg).

Definition window_available (s : t) : bool :=
  (0 <? ByteStream.buffer_size (_stream s)) && (_bytes_flying s <? _window_size s).

(** Line 88: the loop. Every turn takes at least one byte from the stream, so
    the number of buffered bytes bounds the number of turns ([fill_loop_done]). *)
Fixpoint fill_loop (fuel : nat) (s : t) : t :=
  match fuel with
  | O => s
  | S fuel => if window_available s then fill_loop fuel (send_data s) else s
  end.

Definition fill_window (s : t) : t :=
  if _next_seqno s =? 0 then send_syn s
  else if ByteStream.eof (_stream s) && negb (_fin_sent s) &&
          ((_bytes_flying s <? _window_size s) || ((_window_size s =? 0) && (_bytes_flying s =? 0)))
  then send_fin s
  else if (0 <? ByteStream.buffer_size (_stream s)) && (_window_size s =? 0) && (_bytes_flying s =? 0)
  then send_probe s
  else fill_loop (Z.to_nat (ByteStream.buffer_size (_stream s))) s.

(** Lines 147-156: the loop over the outstanding segments. *)
Fixpoint pop_acked (ack : Z) (segs : list TCPSegment.t) (seqnos stamps : list Z) :
    list TCPSegment.t * list Z * list Z :=
  match seqnos with
  | e :: seqnos' => if e <=? ack then pop_acked ack (tail segs) seqnos' (tail stamps) else (segs, seqnos, stamps)
  | [] => (segs, seqnos, stamps)
  end.

Definition ack_received (s : t) (ackno : WrappingInt32) (window_size : Z) : t :=
  let ack_abs := unwrap ackno (_isn s) (ByteStream.bytes_read (_stream s)) in
  let s := s <| _window_size := window_size |> in
  if (u64 (ByteStream.bytes_read (_stream s) + 2) <? ack_abs) || (ack_abs <=? _ack_abs s) ||
     (negb (_fin_sent s) && (u64 (ByteStream.bytes_read (_stream s) + 1) <? ack_abs))
  then s
  else
  let s := s <| _curr_RTO := _initial_retransmission_timeout s |> in
  let bytes_ack := u64 (ack_abs - _ack_abs s) in
  let s := s <| _bytes_flying := u64 (_bytes_flying s - bytes_ack) |>
             <| _ack_abs := ack_abs |> <| _consec_retrans := 0 |> in
  let '(segs, seqnos, stamps) :=
    pop_acked (_ack_abs s) (_segments_outstanding s) (_seqnos_abs_outstanding s) (_timestamps_outstanding s) in
  let s := s <| _segments_outstanding := segs |> <| _seqnos_abs_outstanding := seqnos |>
             <| _timestamps_outstanding := map (fun _ => _time s) stamps |> in
  if (_bytes_flying s <? _window_size s) || ((_window_size s =? 0) && (_bytes_flying s =? 0)) then
    if negb (_fin_sent s) then fill_window s else s
  else s.

Definition tick (s : t) (ms_since_last_tick : Z) : t :=
  match _timestamps_outstanding s with
  | [] => s
  | t0 :: ts =>
      let s := s <| _time := u64 (_time s + ms_since_last_tick) |> in
      if _curr_RTO s <=? u64 (_time s - t0) then
        let s := s <| _segments_out := _segments_out s ++ take 1 (_segments_outstanding s) |>
                   <| _timestamps_outstanding := _time s :: ts |> in
        if negb (_window_size s =? 0)
        then s <| _consec_retrans := u32 (_consec_retrans s + 1) |> <| _curr_RTO := u64 (_curr_RTO s * 2) |>
        else s
      else s
  end.

Definition send_empty_segment (s : t) : t :=
  let seg := TCPSegment.mk (TCPHeader.default <| TCPHeader.seqno := next_seqno s |>) Buffer.empty in
  s <| _segments_out := _segments_out s ++ [seg] |>.

End TCPSender.
