(* ===== verification/sending.v ===== *)
(** What the sender guarantees: every segment it emits carries the bytes of
    the outgoing stream that its sequence number says, the bookkeeping of the
    outstanding segments is exact, and nothing is sent beyond the window. *)

From S2P Require Import prelude std_algorithms wrapping_integers buffer tcp_segment byte_stream tcp_sender.

Module Sending.
Import TCPSender.

Abbreviation hdr seg := (TCPSegment.header seg).
Abbreviation body seg := (Buffer.copy (TCPSegment.payload seg)).

(** ** Segments of a stream *)

(** [seg] is the segment of the stream [data] at absolute sequence number
    [start]: the SYN is number 0 and carries no data, byte [i] is number
    [i + 1], and a FIN (only once the input has ended) follows the last byte. *)
Definition authentic (isn : WrappingInt32) (data : list byte) (ended : bool) (start : Z) (seg : TCPSegment.t) : Prop :=
  TCPHeader.seqno (hdr seg) = wrap start isn /\ 0 <= start /\
  (TCPHeader.syn (hdr seg) = true -> start = 0) /\
  (body seg <> [] -> 0 < start /\ start - 1 + zlen (body seg) <= zlen data /\
                     body seg = substr data (Z.to_nat (start - 1)) (length (body seg))) /\
  (TCPHeader.fin (hdr seg) = true -> 0 < start /\ ended = true /\ start - 1 + zlen (body seg) = zlen data).

(** More input does not change what has been sent, as long as it comes before
    the end. *)
Lemma authentic_write isn data more start seg :
  authentic isn data false start seg -> authentic isn (data ++ more) false start seg.
Proof.
  intros (H1 & H2 & H3 & H4 & H5). split_and!; try done.
  - intros Hs. destruct (H4 Hs) as (Hp & Hl & Hb). rewrite length_app. split_and!; [done|lia|].
    rewrite Hb at 1. unfold substr. rewrite drop_app_le, take_app_le; [done| |lia].
    rewrite length_drop. lia.
  - intros Hf. by destruct (H5 Hf) as (_ & ? & _).
Qed.

Lemma authentic_end isn data ended start seg :
  authentic isn data ended start seg -> authentic isn data true start seg.
Proof. intros (H1 & H2 & H3 & H4 & H5). split_and!; try done. intros Hf. by destruct (H5 Hf) as (? & _ & ?). Qed.

(** Outstanding segments and their ends follow one another from [start] to [stop]. *)
Fixpoint chain (isn : WrappingInt32) (data : list byte) (ended : bool)
    (start : Z) (segs : list TCPSegment.t) (ends : list Z) (stop : Z) : Prop :=
  match segs, ends with
  | [], [] => start = stop
  | seg :: segs, e :: ends =>
      authentic isn data ended start seg /\ (start = 0 -> TCPHeader.syn (hdr seg) = true) /\
      e = start + TCPSegment.length_in_sequence_space seg /\ start < e /\
      chain isn data ended e segs ends stop
  | _, _ => False
  end.

Lemma chain_length isn data ended start segs ends stop :
  chain isn data ended start segs ends stop -> length segs = length ends.
Proof.
  revert start ends. induction segs as [|seg segs IH]; intros start [|e ends]; cbn; try done.
  intros (_ & _ & _ & _ & H). f_equal. by eapply IH.
Qed.

Lemma chain_le isn data ended start segs ends stop :
  chain isn data ended start segs ends stop -> start <= stop /\ Forall (fun e => start < e <= stop) ends.
Proof.
  revert start ends. induction segs as [|seg segs IH]; intros start [|e ends]; cbn; try done.
  - intros ->. split; [lia|done].
  - intros (_ & _ & _ & Hlt & H). destruct (IH _ _ H) as [Hle Hall]. split; [lia|].
    constructor; [lia|]. eapply Forall_impl; [done|]. cbn. lia.
Qed.

Lemma chain_snoc isn data ended start segs ends mid seg e :
  chain isn data ended start segs ends mid -> authentic isn data ended mid seg ->
  (mid = 0 -> TCPHeader.syn (hdr seg) = true) ->
  e = mid + TCPSegment.length_in_sequence_space seg -> mid < e ->
  chain isn data ended start (segs ++ [seg]) (ends ++ [e]) e.
Proof.
  revert start ends. induction segs as [|seg0 segs IH]; intros start [|e0 ends]; cbn; try done.
  - intros -> ? ? ? ?. done.
  - intros (? & ? & ? & ? & H) ? ? ? ?. split_and!; try done. by apply IH.
Qed.

Lemma chain_app isn data ended start segs ends mid segs' ends' stop :
  chain isn data ended start segs ends mid -> chain isn data ended mid segs' ends' stop ->
  chain isn data ended start (segs ++ segs') (ends ++ ends') stop.
Proof.
  revert start ends. induction segs as [|seg segs IH]; intros start [|e ends]; cbn; try done.
  - by intros ->.
  - intros (? & ? & ? & ? & H) H'. split_and!; try done. by apply IH.
Qed.

(** The last segment of a chain, by itself. *)
Lemma chain_last isn data ended start segs ends seg e stop :
  chain isn data ended start (segs ++ [seg]) (ends ++ [e]) stop ->
  let mid := e - TCPSegment.length_in_sequence_space seg in chain isn data ended mid [seg] [e] stop.
Proof.
  revert start ends. induction segs as [|seg0 segs IH]; intros start [|e0 ends]; cbn; try done.
  - intros (H1 & H2 & -> & H3 & H4). by replace (start + _ - _) with start by lia.
  - intros (_ & _ & _ & _ & H). by destruct ends.
  - intros (_ & _ & _ & _ & H). by destruct segs.
  - intros (_ & _ & _ & _ & H). by apply IH in H.
Qed.

Lemma chain_impl isn data data' ended ended' start segs ends stop :
  (forall st seg, authentic isn data ended st seg -> authentic isn data' ended' st seg) ->
  chain isn data ended start segs ends stop -> chain isn data' ended' start segs ends stop.
Proof.
  intros Hi. revert start ends. induction segs as [|seg segs IH]; intros start [|e ends]; cbn; try done.
  intros (? & ? & ? & ? & H). split_and!; try done; auto.
Qed.

(** Popping what is acknowledged keeps exactly the rest. *)
Lemma pop_acked_chain isn data ended start segs ends stop stamps ack :
  chain isn data ended start segs ends stop -> start <= ack -> length stamps = length segs ->
  exists start' segs' ends' stamps',
    pop_acked ack segs ends stamps = (segs', ends', stamps') /\
    chain isn data ended start' segs' ends' stop /\ (0 <= start -> 0 <= start') /\
    (start' <= ack) /\ ends' = List.filter (fun e => ack <? e) ends /\
    length stamps' = length segs' /\ segs' = drop (length (List.filter (fun e => e <=? ack) ends)) segs.
Proof.
  revert start ends stamps. induction segs as [|seg segs IH]; intros start [|e ends] stamps; cbn [chain]; try done.
  - intros -> Hle Hl. exists stop, [], [], stamps. split_and!; done.
  - intros (Ha & Hs & He & Hlt & Hc) Hle Hl. destruct stamps as [|ts stamps]; [done|]. cbn [pop_acked List.filter].
    destruct (Z.leb_spec e ack).
    + destruct (IH e ends stamps Hc) as (st & sg & en & sp & E & C & N & L & F & Ln & K); [lia|by injection Hl|].
      exists st, sg, en, sp. cbn [tail]. destruct (Z.ltb_spec ack e); [lia|]. split_and!; try done.
      intros. apply N. lia.
    + exists start, (seg :: segs), (e :: ends), (ts :: stamps). destruct (Z.ltb_spec ack e); [|lia].
      pose proof (proj2 (chain_le _ _ _ _ _ _ _ Hc)) as Hall.
      assert (Hf : List.filter (fun e => ack <? e) ends = ends /\ List.filter (fun e => e <=? ack) ends = []).
      { clear - Hall H. induction Hall as [|e' ends He' _ [IH1 IH2]]; [done|]. cbn.
        destruct (Z.ltb_spec ack e'), (Z.leb_spec e' ack); try lia. by rewrite IH1, IH2. }
      destruct Hf as [-> ->]. split_and!; done.
Qed.

(** ** The invariant *)

Record inv (data : list byte) (s : t) : Prop := {
  i_isn : wi_ok (_isn s);
  i_wf : ByteStream.wf (_stream s);
  i_size : zlen data < 2 ^ 62;
  i_read : 0 <= ByteStream.bytes_readed (_stream s) <= zlen data;
  i_deq : ByteStream.deq (_stream s) = drop (Z.to_nat (ByteStream.bytes_readed (_stream s))) data;
  i_next : (_next_seqno s = 0 /\ ByteStream.bytes_readed (_stream s) = 0 /\ _fin_sent s = false) \/
           _next_seqno s = 1 + ByteStream.bytes_readed (_stream s) + (if _fin_sent s then 1 else 0);
  i_fin : _fin_sent s = true ->
          ByteStream._end (_stream s) = true /\ ByteStream.bytes_readed (_stream s) = zlen data;
  i_ack : 0 <= _ack_abs s <= _next_seqno s;
  i_fly : _bytes_flying s = _next_seqno s - _ack_abs s;
  i_win : is_u16 (_window_size s);
  i_stamps : length (_timestamps_outstanding s) = length (_segments_outstanding s);
  i_chain : exists start, 0 <= start <= _ack_abs s /\
            chain (_isn s) data (ByteStream._end (_stream s)) start
              (_segments_outstanding s) (_seqnos_abs_outstanding s) (_next_seqno s) /\
            Forall (fun e => _ack_abs s < e) (_seqnos_abs_outstanding s)
}.

(** Every segment waiting in the output queue is authentic. *)
Definition genuine (data : list byte) (s : t) (seg : TCPSegment.t) : Prop :=
  exists start, start <= _next_seqno s /\ authentic (_isn s) data (ByteStream._end (_stream s)) start seg.

Lemma inv_next_range data s : inv data s -> 0 <= _next_seqno s < 2 ^ 63.
Proof. intros []. destruct i_next0 as [(? & ? & ?)|E]; [lia|destruct (_fin_sent s); lia]. Qed.

Lemma inv_buffered data s :
  inv data s -> zlen (ByteStream.deq (_stream s)) = zlen data - ByteStream.bytes_readed (_stream s).
Proof. intros []. rewrite i_deq0, length_drop. lia. Qed.

(** The effect shared by the four ways of sending something new. *)
Definition transmit (s : t) (st : ByteStream.t) (seg : TCPSegment.t) (n : Z) (fin : bool) : t :=
  mk (_isn s) (_segments_out s ++ [seg]) (_initial_retransmission_timeout s) st (_next_seqno s + n) (_curr_RTO s)
     (_segments_outstanding s ++ [seg]) (_seqnos_abs_outstanding s ++ [_next_seqno s + n])
     (_timestamps_outstanding s ++ [_time s]) (_bytes_flying s + n) (_window_size s) (_consec_retrans s)
     (_ack_abs s) (_time s) (if fin then _time s else _time_fin_sent s) (fin || _fin_sent s).

(** A segment made by the sender: [syn], [fin] and [str] at the next number. *)
Definition new_segment (s : t) (syn fin : bool) (payload : Buffer.t) : TCPSegment.t :=
  TCPSegment.mk (TCPHeader.default <| TCPHeader.seqno := next_seqno s |> <| TCPHeader.syn := syn |>
                   <| TCPHeader.fin := fin |>) payload.

Definition b2z (b : bool) : Z := if b then 1 else 0.

Lemma length_new_segment s syn fin p :
  zlen (Buffer.copy p) < 2 ^ 62 ->
  TCPSegment.length_in_sequence_space (new_segment s syn fin p) = zlen (Buffer.copy p) + b2z syn + b2z fin.
Proof.
  intros H. unfold TCPSegment.length_in_sequence_space, TCPSegment.payload, TCPSegment.header, new_segment, b2z, Buffer.copy in *.
  cbn [TCPSegment._payload TCPSegment._header]. cbn [TCPHeader.syn TCPHeader.fin setter TCPHeader.set_syn TCPHeader.set_fin].
  destruct syn, fin; rewrite (u64_id (zlen _ + _)) by lia; rewrite u64_id; lia.
Qed.

(** Sending the next [k] bytes of the stream. *)
Lemma transmit_inv data s st fin syn p (k : Z) :
  inv data s -> _fin_sent s = false -> 0 <= k <= zlen (ByteStream.deq (_stream s)) ->
  ByteStream.wf st -> ByteStream._end st = ByteStream._end (_stream s) ->
  ByteStream.bytes_readed st = ByteStream.bytes_readed (_stream s) + k ->
  ByteStream.deq st = drop (Z.to_nat k) (ByteStream.deq (_stream s)) ->
  Buffer.copy p = take (Z.to_nat k) (ByteStream.deq (_stream s)) ->
  syn = (_next_seqno s =? 0) -> (syn = true -> k = 0 /\ fin = false) ->
  (fin = true -> ByteStream._end st = true /\ ByteStream.deq st = []) ->
  0 < k + b2z syn + b2z fin ->
  let seg := new_segment s syn fin p in
  let s' := transmit s st seg (k + b2z syn + b2z fin) fin in
  inv data s' /\ genuine data s' seg.
Proof.
  intros Hinv Hnf Hk Hwf Hend Hrd Hdq Hp Hsyn Hsyn0 Hfin Hpos seg s'.
  pose proof (inv_next_range data s Hinv) as Hn. pose proof (inv_buffered data s Hinv) as Hb. pose proof Hinv as [].
  assert (Hlp : zlen (Buffer.copy p) = k) by (rewrite Hp, length_take; lia).
  assert (Hls : TCPSegment.length_in_sequence_space seg = k + b2z syn + b2z fin)
    by (unfold seg; rewrite length_new_segment; lia).
  assert (Hau : authentic (_isn s) data (ByteStream._end st) (_next_seqno s) seg).
  { unfold authentic, seg. change (body (new_segment s syn fin p)) with (Buffer.copy p).
    change (TCPHeader.seqno (hdr (new_segment s syn fin p))) with (next_seqno s).
    change (TCPHeader.syn (hdr (new_segment s syn fin p))) with syn.
    change (TCPHeader.fin (hdr (new_segment s syn fin p))) with fin.
    rewrite Hnf in *. split_and!; try done.
    - lia.
    - intros ->. symmetry in Hsyn. by apply Z.eqb_eq in Hsyn.
    - intros Hne. assert (Es : syn = false).
      { apply not_true_iff_false. intros E. destruct (Hsyn0 E) as [-> _]. by rewrite Hp in Hne. }
      rewrite Es in Hsyn. symmetry in Hsyn. apply Z.eqb_neq in Hsyn.
      destruct i_next0 as [(? & _)|En]; [lia|]. split_and!; [lia|lia|].
      unfold substr. replace (Z.to_nat (_next_seqno s - 1)) with (Z.to_nat (ByteStream.bytes_readed (_stream s))) by lia.
      rewrite <- i_deq0, Hp at 1. f_equal. lia.
    - intros ->. destruct (Hfin eq_refl) as [He Hd].
      destruct i_next0 as [(E & _)|En].
      + rewrite E in Hsyn. cbn in Hsyn. subst syn. by destruct (Hsyn0 eq_refl).
      + split_and!; [lia|done|]. rewrite Hdq in Hd. apply (f_equal length) in Hd. rewrite length_drop in Hd. cbn in Hd. lia. }
  assert (Hsb : syn = true -> ByteStream.bytes_readed (_stream s) = 0).
  { intros ->. symmetry in Hsyn. apply Z.eqb_eq in Hsyn. destruct i_next0 as [(_ & ? & _)|E]; [done|].
    rewrite Hnf in E. lia. }
  split.
  - unfold s', transmit. split; cbn [_isn _stream _next_seqno _fin_sent _ack_abs _bytes_flying _window_size
      _timestamps_outstanding _segments_outstanding _seqnos_abs_outstanding]; rewrite ?Hnf, ?orb_false_r, ?Hrd; try done; try lia.
    + rewrite Hdq, i_deq0, drop_drop. f_equal. lia.
    + right. rewrite Hnf in *. unfold b2z in *. destruct syn.
      * destruct (Hsyn0 eq_refl) as [-> ->]. specialize (Hsb eq_refl). symmetry in Hsyn. apply Z.eqb_eq in Hsyn. lia.
      * destruct i_next0 as [(E & _)|E]; [by rewrite E in Hsyn|]. destruct fin; lia.
    + intros ->. destruct (Hfin eq_refl) as [He Hd]. split; [done|].
      rewrite Hdq in Hd. apply (f_equal length) in Hd. rewrite length_drop in Hd. cbn in Hd. lia.
    + rewrite !length_app. cbn. lia.
    + destruct i_chain0 as (start & Hst & Hc & Hall). exists start. split; [done|]. rewrite Hend in *. split.
      * apply (chain_snoc _ _ _ _ _ _ (_next_seqno s)); try done; [|lia|lia].
        intros E. change (syn = true). rewrite Hsyn, E. done.
      * apply Forall_app. split; [done|]. constructor; [lia|constructor].
  - exists (_next_seqno s). split; [cbn; lia|done].
Qed.

(** ** The four ways of sending, as [transmit] *)

Lemma pop_output_eq st k :
  0 <= k <= zlen (ByteStream.deq st) -> is_u64 (ByteStream.bytes_readed st + k) ->
  ByteStream.bytes_readed (ByteStream.pop_output st k) = ByteStream.bytes_readed st + k /\
  ByteStream.deq (ByteStream.pop_output st k) = drop (Z.to_nat k) (ByteStream.deq st) /\
  ByteStream.peek_output st k = take (Z.to_nat k) (ByteStream.deq st) /\
  ByteStream._end (ByteStream.pop_output st k) = ByteStream._end st.
Proof.
  intros Hk Hr. unfold ByteStream.pop_output, ByteStream.peek_output. rewrite Z.min_l by lia. cbn. by rewrite u64_id.
Qed.

Lemma transmit_ext s st seg n m (fin : bool) :
  n = m -> is_u64 (_next_seqno s + n) -> is_u64 (_bytes_flying s + n) ->
  mk (_isn s) (_segments_out s ++ [seg]) (_initial_retransmission_timeout s) st (u64 (_next_seqno s + n)) (_curr_RTO s)
     (_segments_outstanding s ++ [seg]) (_seqnos_abs_outstanding s ++ [u64 (_next_seqno s + n)])
     (_timestamps_outstanding s ++ [_time s]) (u64 (_bytes_flying s + n)) (_window_size s) (_consec_retrans s)
     (_ack_abs s) (_time s) (if fin then _time s else _time_fin_sent s) (fin || _fin_sent s)
  = transmit s st seg m fin.
Proof. intros -> ? ?. unfold transmit. by rewrite !u64_id. Qed.

Lemma send_syn_eq data s :
  inv data s -> _next_seqno s = 0 ->
  send_syn s = transmit s (_stream s) (new_segment s true false Buffer.empty) (0 + 1 + 0) false.
Proof.
  intros Hinv E. pose proof (inv_next_range data s Hinv). destruct Hinv.
  rewrite <- (transmit_ext s _ _ 1 (0 + 1 + 0) false) by lia. 
  assert (En : next_seqno s = _isn s) by (unfold next_seqno; rewrite E; by apply wrap_0).
  unfold new_segment. rewrite En.
  by destruct s.
Qed.

Lemma send_fin_eq data s :
  inv data s ->
  send_fin s = transmit s (_stream s) (new_segment s false true (Buffer.of_string [])) (0 + 0 + 1) true.
Proof.
  intros Hinv. pose proof (inv_next_range data s Hinv). destruct Hinv.
  rewrite <- (transmit_ext s _ _ 1 (0 + 0 + 1) true) by lia. by destruct s.
Qed.

Lemma send_probe_eq data s :
  inv data s -> 0 < zlen (ByteStream.deq (_stream s)) ->
  send_probe s = transmit s (ByteStream.pop_output (_stream s) 1)
    (new_segment s false false (Buffer.of_string (take (Z.to_nat 1) (ByteStream.deq (_stream s))))) (1 + 0 + 0) false.
Proof.
  intros Hinv Hb. pose proof (inv_next_range data s Hinv). destruct Hinv.
  destruct (pop_output_eq (_stream s) 1) as (_ & _ & Hpk & _); [lia|lia|].
  rewrite <- (transmit_ext s _ _ 1 (1 + 0 + 0) false) by lia. rewrite <- Hpk. by destruct s.
Qed.

(** The size of the next segment and whether it carries the FIN. *)
Definition next_size (s : t) : Z :=
  Z.min (Z.min (zlen (ByteStream.deq (_stream s))) (_window_size s - _bytes_flying s)) TCPConfig.MAX_PAYLOAD_SIZE.
Definition piggyback (s : t) : bool :=
  ByteStream.eof (ByteStream.pop_output (_stream s) (next_size s)) && negb (_fin_sent s) &&
  (_bytes_flying s + next_size s <? _window_size s).

Lemma window_available_spec s :
  window_available s = true <-> 0 < zlen (ByteStream.deq (_stream s)) /\ _bytes_flying s < _window_size s.
Proof. unfold window_available, ByteStream.buffer_size. rewrite andb_true_iff, !Z.ltb_lt. done. Qed.

Lemma send_data_eq data s :
  inv data s -> window_available s = true ->
  send_data s = transmit s (ByteStream.pop_output (_stream s) (next_size s))
    (new_segment s false (piggyback s) (Buffer.of_string (take (Z.to_nat (next_size s)) (ByteStream.deq (_stream s)))))
    (next_size s + 0 + b2z (piggyback s)) (piggyback s).
Proof.
  intros Hinv Hav%window_available_spec. pose proof (inv_next_range data s Hinv) as Hn.
  pose proof (inv_buffered data s Hinv) as Hb. destruct Hinv.
  assert (Hsz : 0 < next_size s <= 1000 /\ next_size s <= zlen (ByteStream.deq (_stream s)))
    by (unfold next_size, TCPConfig.MAX_PAYLOAD_SIZE; lia).
  destruct (pop_output_eq (_stream s) (next_size s)) as (_ & _ & Hpk & _); [lia|lia|].
  unfold send_data. rewrite (u64_id (_window_size s - _bytes_flying s)) by lia.
  change (Z.min (Z.min (ByteStream.buffer_size (_stream s)) _) _) with (next_size s).
  unfold read_stream, ByteStream.read. rewrite Hpk.
  assert (Hpg : piggyback s = ByteStream.eof (ByteStream.pop_output (_stream s) (next_size s)) && negb (_fin_sent s) &&
    (u64 (_bytes_flying s + next_size s) <? _window_size s)) by (rewrite u64_id by lia; done).
  rewrite <- (transmit_ext s _ _ (next_size s + b2z (piggyback s)) (next_size s + 0 + b2z (piggyback s)) (piggyback s)) by (unfold b2z; destruct (piggyback s); lia).
  revert Hpg. generalize (piggyback s). intros pg Hpg.
  change (ByteStream.eof (_stream (add_flying _ _)) && negb (_fin_sent (add_flying _ _)) && _)
    with (ByteStream.eof (ByteStream.pop_output (_stream s) (next_size s)) && negb (_fin_sent s) &&
    (u64 (_bytes_flying s + next_size s) <? _window_size s)).
  rewrite <- Hpg. destruct pg; unfold b2z; rewrite ?Z.add_0_r; [|by destruct s].
  replace (_next_seqno s + (next_size s + 1)) with (_next_seqno s + 1 + next_size s) by lia.
  replace (_bytes_flying s + (next_size s + 1)) with (_bytes_flying s + next_size s + 1) by lia.
  rewrite <- (u64_add_l (_next_seqno s + 1)), <- (u64_add_l (_bytes_flying s + next_size s)).
  by destruct s.
Qed.

(** ** Filling the window *)

(** At most 1000 bytes, and not a reset. *)
Definition modest (seg : TCPSegment.t) : Prop := zlen (body seg) <= TCPConfig.MAX_PAYLOAD_SIZE /\ TCPHeader.rst (hdr seg) = false.

(** What sending new segments does to the state: the same segments are queued
    and recorded as outstanding, each genuine and of at most 1000 bytes, and
    the sequence numbers used stay within the window (or within the one byte
    that probes a closed window). *)
Record sends_new (data : list byte) (s s' : t) : Prop := {
  n_inv : inv data s';
  n_frame : _isn s' = _isn s /\ _ack_abs s' = _ack_abs s /\ _window_size s' = _window_size s /\
            _time s' = _time s /\ _curr_RTO s' = _curr_RTO s /\ _consec_retrans s' = _consec_retrans s /\
            _initial_retransmission_timeout s' = _initial_retransmission_timeout s /\
            ByteStream._end (_stream s') = ByteStream._end (_stream s) /\ ByteStream.cap (_stream s') = ByteStream.cap (_stream s);
  n_new : exists new, _segments_out s' = _segments_out s ++ new /\
          _segments_outstanding s' = _segments_outstanding s ++ new /\
          Forall (fun seg => genuine data s' seg /\ modest seg) new /\
          exists ends, chain (_isn s) data (ByteStream._end (_stream s)) (_next_seqno s) new ends (_next_seqno s');
  n_next : _next_seqno s <= _next_seqno s';
  n_window : _next_seqno s' = _next_seqno s \/ _next_seqno s' <= _ack_abs s + Z.max 1 (_window_size s)
}.

Lemma genuine_mono data s s' seg :
  _isn s' = _isn s -> ByteStream._end (_stream s') = ByteStream._end (_stream s) -> _next_seqno s <= _next_seqno s' ->
  genuine data s seg -> genuine data s' seg.
Proof. intros E1 E2 Hn (st & Hs & Ha). exists st. rewrite E1, E2. split; [lia|done]. Qed.

Lemma sends_new_refl data s : inv data s -> sends_new data s s.
Proof. intros. split; try done; [exists []; rewrite !app_nil_r; split_and!; try done; by exists []|by left]. Qed.

Lemma sends_new_trans data a b c : sends_new data a b -> sends_new data b c -> sends_new data a c.
Proof.
  intros [I1 (A1 & A2 & A3 & A4 & A5 & A6 & A7 & A8 & A9) (n1 & O1 & S1 & F1 & e1 & C1) X1 W1]
    [I2 (B1 & B2 & B3 & B4 & B5 & B6 & B7 & B8 & B9) (n2 & O2 & S2 & F2 & e2 & C2) X2 W2].
  split; [done|split_and!; congruence| |lia|lia].
  exists (n1 ++ n2). rewrite O2, O1, S2, S1, !app_assoc. split_and!; try done.
  - apply Forall_app. split; [|done]. eapply Forall_impl; [done|]. intros seg [Hg ?]. split; [|done].
    by apply (genuine_mono data b).
  - rewrite A1, A8 in C2. exists (e1 ++ e2). by eapply chain_app.
Qed.

Lemma transmit_new data s st syn fin p k :
  let n := k + b2z syn + b2z fin in
  let s' := transmit s st (new_segment s syn fin p) n fin in
  inv data s -> inv data s' -> genuine data s' (new_segment s syn fin p) ->
  ByteStream._end st = ByteStream._end (_stream s) -> ByteStream.cap st = ByteStream.cap (_stream s) ->
  zlen (Buffer.copy p) <= TCPConfig.MAX_PAYLOAD_SIZE -> zlen (Buffer.copy p) = k -> 0 < n ->
  _bytes_flying s + n <= Z.max 1 (_window_size s) ->
  sends_new data s s'.
Proof.
  intros n s' Hi Hi' Hg He Hcp Hp Hk Hn Hw. split; try done; [|cbn; lia|].
  - exists [new_segment s syn fin p]. split_and!; try done; [by constructor|]. exists [_next_seqno s + n].
    pose proof (inv_next_range data s Hi). destruct Hi' as [_ _ _ _ _ _ _ _ _ _ _ (start & _ & Hc & _)].
    apply chain_last in Hc. cbn [_isn _stream _next_seqno s' transmit] in Hc. rewrite length_new_segment in Hc by (unfold TCPConfig.MAX_PAYLOAD_SIZE in Hp; lia).
    replace (_next_seqno s + n - _) with (_next_seqno s) in Hc by lia. by rewrite He in Hc.
  - right. cbn. destruct Hi. lia.
Qed.

Lemma send_data_new data s :
  inv data s -> window_available s = true -> _fin_sent s = false -> _next_seqno s <> 0 ->
  sends_new data s (send_data s) /\
  zlen (ByteStream.deq (_stream (send_data s))) < zlen (ByteStream.deq (_stream s)) /\
  _next_seqno (send_data s) <> 0 /\ (_fin_sent (send_data s) = true -> ByteStream.deq (_stream (send_data s)) = []) /\
  (ByteStream.eof (_stream (send_data s)) = true -> _bytes_flying (send_data s) < _window_size s ->
   _fin_sent (send_data s) = true).
Proof.
  intros Hinv Hav Hnf Hne. pose proof (send_data_eq data s Hinv Hav) as E.
  apply window_available_spec in Hav. pose proof (inv_buffered data s Hinv) as Hb.
  pose proof (inv_next_range data s Hinv) as Hn.
  assert (Hsz : 0 < next_size s <= 1000 /\ next_size s <= zlen (ByteStream.deq (_stream s)) /\
    next_size s <= _window_size s - _bytes_flying s) by (unfold next_size, TCPConfig.MAX_PAYLOAD_SIZE; lia).
  destruct (pop_output_eq (_stream s) (next_size s)) as (P1 & P2 & _ & P4); [lia|destruct Hinv; lia|].
  assert (Hpg : piggyback s = true -> ByteStream._end (ByteStream.pop_output (_stream s) (next_size s)) = true /\
    ByteStream.deq (ByteStream.pop_output (_stream s) (next_size s)) = [] /\
    _bytes_flying s + next_size s < _window_size s).
  { unfold piggyback, ByteStream.eof, ByteStream.buffer_empty, ByteStream.input_ended. rewrite !andb_true_iff, Z.ltb_lt, Z.eqb_eq.
    intros [[[Hz ?] _] ?]. split_and!; try done. apply nil_length_inv. lia. }
  set (p := Buffer.of_string _) in E.
  destruct (transmit_inv data s (ByteStream.pop_output (_stream s) (next_size s)) (piggyback s) false p (next_size s)) as [I G];
    try done; try lia.
  { apply ByteStream.pop_output_wf. by destruct Hinv. }
  { intros Hp. by destruct (Hpg Hp) as (? & ? & _). }
  { unfold b2z. destruct (piggyback s); lia. }
  change (b2z false) with 0 in I, G. rewrite E. split; [|split_and!].
  - apply (transmit_new data s _ false (piggyback s) p (next_size s)); try done.
    + change (Buffer.copy p) with (take (Z.to_nat (next_size s)) (ByteStream.deq (_stream s))).
      rewrite length_take. unfold TCPConfig.MAX_PAYLOAD_SIZE. lia.
    + change (Buffer.copy p) with (take (Z.to_nat (next_size s)) (ByteStream.deq (_stream s))).
      rewrite length_take. lia.
    + unfold b2z. destruct (piggyback s); lia.
    + unfold b2z. destruct (piggyback s) eqn:Ep; [destruct (Hpg eq_refl) as (_ & _ & ?)|]; lia.
  - cbn [transmit _stream]. rewrite P2, length_drop. lia.
  - cbn [transmit _next_seqno]. unfold b2z. destruct (piggyback s); lia.
  - cbn [transmit _stream _fin_sent]. rewrite Hnf, orb_false_r. intros Hp. by destruct (Hpg Hp) as (_ & ? & _).
  - cbn [transmit _stream _fin_sent _bytes_flying]. rewrite Hnf, orb_false_r. intros Heof Hw.
    unfold piggyback at 1. rewrite Heof, Hnf. cbn [negb andb]. apply Z.ltb_lt. unfold b2z in Hw.
    destruct (piggyback s); lia.
Qed.

(** What the loop leaves: an empty buffer, with the FIN sent if it may be, or a
    full window. *)
Definition drained_or_full (s : t) : Prop :=
  (ByteStream.deq (_stream s) = [] /\ (ByteStream._end (_stream s) = true -> _fin_sent s = true))
  \/ _window_size s <= _bytes_flying s.

Lemma fill_loop_done data fuel s :
  inv data s -> (length (ByteStream.deq (_stream s)) <= fuel)%nat -> _next_seqno s <> 0 ->
  (_fin_sent s = true -> ByteStream.deq (_stream s) = []) ->
  (ByteStream.eof (_stream s) = true -> _bytes_flying s < _window_size s -> _fin_sent s = true) ->
  sends_new data s (fill_loop fuel s) /\ drained_or_full (fill_loop fuel s).
Proof.
  revert s. induction fuel as [|fuel IH]; intros s Hinv Hf Hne Hfin Heof; cbn [fill_loop].
  - split; [by apply sends_new_refl|]. destruct (Z_lt_dec (_bytes_flying s) (_window_size s)); [left|right; lia].
    assert (Hd : ByteStream.deq (_stream s) = []) by (apply nil_length_inv; lia).
    split; [done|]. intros He. apply Heof; [|done]. unfold ByteStream.eof, ByteStream.buffer_empty, ByteStream.input_ended.
    by rewrite Hd, He.
  - destruct (window_available s) eqn:Hav.
    + assert (Hnf : _fin_sent s = false).
      { apply not_true_iff_false. intros Hs. apply window_available_spec in Hav. rewrite (Hfin Hs) in Hav. cbn in Hav. lia. }
      destruct (send_data_new data s Hinv Hav Hnf Hne) as (N1 & N2 & N3 & N4 & N5).
      destruct (IH (send_data s)) as [A B]; try done; [by destruct N1|lia| |].
      * intros H1 H2. apply N5; [done|]. by destruct N1 as [_ (_ & _ & <- & _) _ _ _].
      * split; [|done]. by eapply sends_new_trans.
    + split; [by apply sends_new_refl|]. destruct (Z_lt_dec (_bytes_flying s) (_window_size s)); [left|right; lia].
      assert (Hd : ByteStream.deq (_stream s) = []).
      { destruct (ByteStream.deq (_stream s)) as [|x xs] eqn:Ed; [done|]. exfalso.
        assert (window_available s = true) by (apply window_available_spec; rewrite Ed; cbn; lia). congruence. }
      split; [done|]. intros He. apply Heof; [|done]. unfold ByteStream.eof, ByteStream.buffer_empty, ByteStream.input_ended.
      by rewrite Hd, He.
Qed.

Lemma eof_spec st : ByteStream.eof st = true <-> ByteStream.deq st = [] /\ ByteStream._end st = true.
Proof.
  unfold ByteStream.eof, ByteStream.buffer_empty, ByteStream.input_ended. rewrite andb_true_iff, Z.eqb_eq.
  split; intros [H ?]; (split; [|done]); [apply nil_length_inv; lia|by rewrite H].
Qed.

Lemma fin_sent_drained data s : inv data s -> _fin_sent s = true -> ByteStream.deq (_stream s) = [].
Proof. intros [] Hf. destruct (i_fin0 Hf) as [_ E]. rewrite i_deq0, E. apply drop_ge. lia. Qed.

Lemma send_syn_new data s : inv data s -> _next_seqno s = 0 -> sends_new data s (send_syn s) /\ _next_seqno (send_syn s) = 1.
Proof.
  intros Hinv E. rewrite (send_syn_eq data s Hinv E). split; [|cbn; lia].
  assert (Hf : _fin_sent s = false) by (destruct Hinv; destruct i_next0 as [(_ & _ & ?)|E']; [done|destruct (_fin_sent s); lia]).
  destruct (transmit_inv data s (_stream s) false true Buffer.empty 0) as [I G]; try done; try lia.
  - by destruct Hinv.
  - apply (transmit_new data s _ true false Buffer.empty 0); try done. destruct Hinv. cbn. lia.
Qed.

Lemma send_fin_new data s :
  inv data s -> _next_seqno s <> 0 -> ByteStream.eof (_stream s) = true -> _fin_sent s = false ->
  (_bytes_flying s <? _window_size s) || ((_window_size s =? 0) && (_bytes_flying s =? 0)) = true ->
  sends_new data s (send_fin s) /\ drained_or_full (send_fin s).
Proof.
  intros Hinv Hne [Hd He]%eof_spec Hf Hw. rewrite (send_fin_eq data s Hinv). split; [|by left].
  destruct (transmit_inv data s (_stream s) true false (Buffer.of_string []) 0) as [I G]; try done; try lia.
  - by destruct Hinv.
  - apply (transmit_new data s _ false true (Buffer.of_string []) 0); try done.
    apply orb_true_iff in Hw. rewrite andb_true_iff, Z.ltb_lt, !Z.eqb_eq in Hw. cbn. lia.
Qed.

Lemma send_probe_new data s :
  inv data s -> _next_seqno s <> 0 -> 0 < zlen (ByteStream.deq (_stream s)) ->
  _window_size s = 0 -> _bytes_flying s = 0 -> sends_new data s (send_probe s) /\ drained_or_full (send_probe s).
Proof.
  intros Hinv Hne Hb Hw Hfl. rewrite (send_probe_eq data s Hinv Hb). split; [|right; cbn; lia].
  assert (Hf : _fin_sent s = false).
  { apply not_true_iff_false. intros Hf. rewrite (fin_sent_drained data s Hinv Hf) in Hb. cbn in Hb. lia. }
  pose proof (inv_buffered data s Hinv).
  destruct (pop_output_eq (_stream s) 1) as (P1 & P2 & _ & P4); [lia|destruct Hinv; lia|].
  set (p := Buffer.of_string _).
  destruct (transmit_inv data s (ByteStream.pop_output (_stream s) 1) false false p 1) as [I G]; try done; try lia.
  - apply ByteStream.pop_output_wf. by destruct Hinv.
  - assert (Hp : zlen (Buffer.copy p) = 1).
    { change (Buffer.copy p) with (take (Z.to_nat 1) (ByteStream.deq (_stream s))). rewrite length_take. lia. }
    apply (transmit_new data s _ false false p 1); try done; [unfold TCPConfig.MAX_PAYLOAD_SIZE; lia|cbn; lia].
Qed.

Lemma fill_window_new data s :
  inv data s ->
  sends_new data s (fill_window s) /\
  if _next_seqno s =? 0 then _next_seqno (fill_window s) = 1 else drained_or_full (fill_window s).
Proof.
  intros Hinv. unfold fill_window. destruct (Z.eqb_spec (_next_seqno s) 0) as [E|Hne]; [by apply send_syn_new|].
  destruct (ByteStream.eof (_stream s)) eqn:Heof; [destruct (_fin_sent s) eqn:Hf; [|destruct (_ || _) eqn:Hw]|]; cbn [negb andb].
  2: by apply send_fin_new.
  all: unfold ByteStream.buffer_size; destruct (Z.ltb_spec 0 (zlen (ByteStream.deq (_stream s)))) as [Hb|Hb]; cbn [andb];
    [destruct (Z.eqb_spec (_window_size s) 0) as [Ew|Ew]; cbn [andb];
      [destruct (Z.eqb_spec (_bytes_flying s) 0) as [Efl|Efl]; [by apply send_probe_new|]|]|].
  all: apply fill_loop_done; try done; try lia; try (intros; by eapply fin_sent_drained).
  all: try by rewrite Heof.
  all: intros _ Hlt; apply orb_false_iff in Hw as [Hw%Z.ltb_ge _]; lia.
Qed.

(** What it means to send [new]: the segments go into the queue and, with
    their ends and the current time as their timestamps, into the three
    queues of what is outstanding. *)
Definition appends (s s' : t) (new : list TCPSegment.t) : Prop :=
  _segments_out s' = _segments_out s ++ new /\
  _segments_outstanding s' = _segments_outstanding s ++ new /\
  _timestamps_outstanding s' = _timestamps_outstanding s ++ replicate (length new) (_time s) /\
  _time s' = _time s /\
  exists ends, length ends = length new /\ _seqnos_abs_outstanding s' = _seqnos_abs_outstanding s ++ ends.

Lemma appends_nil s : appends s s [].
Proof. split_and!; rewrite ?app_nil_r; try done. exists []. by rewrite app_nil_r. Qed.

Lemma appends_app s s1 s2 n1 n2 : appends s s1 n1 -> appends s1 s2 n2 -> appends s s2 (n1 ++ n2).
Proof.
  intros (A1 & A2 & A3 & A4 & e1 & A5 & A6) (B1 & B2 & B3 & B4 & e2 & B5 & B6).
  split_and!; rewrite ?B1, ?B2, ?B3, ?B4, ?A1, ?A2, ?A3, ?A4, <- ?app_assoc; try done.
  - by rewrite length_app, replicate_add.
  - exists (e1 ++ e2). rewrite B6, A6, !length_app, <- app_assoc. split; [lia|done].
Qed.

Lemma send_data_appends s : exists new, appends s (send_data s) new.
Proof.
  unfold send_data, read_stream. destruct (ByteStream.read _ _). cbn -[u64].
  destruct (_ && _); eexists [_]; (split_and!; try reflexivity; eexists [_]; split; reflexivity).
Qed.

Lemma fill_loop_appends fuel s : exists new, appends s (fill_loop fuel s) new.
Proof.
  revert s. induction fuel as [|fuel IH]; intros s; cbn [fill_loop]; [exists []; apply appends_nil|].
  destruct (window_available s); [|exists []; apply appends_nil].
  destruct (send_data_appends s) as [k Hk], (IH (send_data s)) as [l Hl]. exists (k ++ l). by eapply appends_app.
Qed.

Lemma fill_window_appends s : exists new, appends s (fill_window s) new.
Proof.
  unfold fill_window. destruct (_ =? 0); [eexists [_]; split_and!; try reflexivity; eexists [_]; split; reflexivity|].
  destruct (_ && _ && _); [eexists [_]; split_and!; try reflexivity; eexists [_]; split; reflexivity|].
  destruct (_ && _ && _); [|apply fill_loop_appends].
  unfold send_probe, read_stream. destruct (ByteStream.read _ _).
  eexists [_]; split_and!; try reflexivity; eexists [_]; split; reflexivity.
Qed.

(** ** Acknowledgments *)

(** The absolute number an acknowledgment stands for, and whether it is news:
    beyond the last one and not beyond what was sent. *)
Definition ack_of (s : t) (ackno : WrappingInt32) : Z :=
  unwrap ackno (_isn s) (ByteStream.bytes_read (_stream s)).
Definition new_ack (s : t) (a : Z) : Prop := _ack_abs s < a <= _next_seqno s.

(** The state once [a] is acknowledged, before the window is filled again. *)
Definition acked (s : t) (a window : Z) : t :=
  let '(segs, seqnos, stamps) :=
    pop_acked a (_segments_outstanding s) (_seqnos_abs_outstanding s) (_timestamps_outstanding s) in
  mk (_isn s) (_segments_out s) (_initial_retransmission_timeout s) (_stream s) (_next_seqno s)
     (_initial_retransmission_timeout s) segs seqnos (map (fun _ => _time s) stamps)
     (_next_seqno s - a) window 0 a (_time s) (_time_fin_sent s) (_fin_sent s).

Lemma unwrap_range n isn c : is_u64 (unwrap n isn c).
Proof.
  unfold unwrap. destruct (_ <=? _); repeat case_if; auto with sponge.
Qed.

Lemma unwrap_is_wrap n isn c : wi_ok n -> n = wrap (unwrap n isn c) isn.
Proof.
  intros Hn. rewrite wrap_eq. destruct n as [n]; cbn in *. f_equal. symmetry.
  rewrite <- u32_add_l, unwrap_congr, u32_add_l; cbn.
  replace (n - raw_value isn + raw_value isn) with n by lia. by apply u32_id.
Qed.

(** Before the SYN is out, only the acknowledgment of that SYN is misjudged. *)
Definition ack_sane (s : t) (ackno : WrappingInt32) : Prop :=
  wi_ok ackno /\ (_next_seqno s = 0 -> ackno <> wrap 1 (_isn s)).

Lemma acked_inv data s a window : inv data s -> new_ack s a -> is_u16 window -> inv data (acked s a window).
Proof.
  intros [] Ha Hw. unfold acked, new_ack in *. destruct i_chain0 as (start & Hst & Hc & Hall).
  destruct (pop_acked_chain _ _ _ _ _ _ _ (_timestamps_outstanding s) a Hc)
    as (st & sg & en & sp & E & C & N & L & F & Ln & _); [lia|done|].
  rewrite E. split; cbn; try done; try lia.
  - by rewrite length_map.
  - exists st. split; [lia|]. split; [done|]. rewrite F. apply List.Forall_forall.
    intros e [_ He]%filter_In. by apply Z.ltb_lt.
Qed.

(** Its queues: what [a] covers is gone, every timestamp is the current time. *)
Lemma acked_queues data s a window :
  inv data s -> new_ack s a ->
  let s1 := acked s a window in
  let k := length (List.filter (fun e => e <=? a) (_seqnos_abs_outstanding s)) in
  _ack_abs s1 = a /\ _consec_retrans s1 = 0 /\ _curr_RTO s1 = _initial_retransmission_timeout s1 /\
  _segments_outstanding s1 = drop k (_segments_outstanding s) /\
  _segments_out s1 = _segments_out s /\
  _seqnos_abs_outstanding s1 = List.filter (fun e => a <? e) (_seqnos_abs_outstanding s) /\
  _timestamps_outstanding s1 = replicate (length (drop k (_segments_outstanding s))) (_time s) /\
  _time s1 = _time s.
Proof.
  intros [] Ha s1 k. destruct i_chain0 as (start & Hst & Hch & _). unfold new_ack in Ha.
  destruct (pop_acked_chain _ _ _ _ _ _ _ (_timestamps_outstanding s) a Hch)
    as (st & sg & en & sp & Ep & _ & _ & _ & F & L & K); [lia|done|]. fold k in K.
  unfold s1, acked. rewrite Ep. cbn. rewrite <- K. split_and!; try done.
  rewrite <- L. clear. induction sp; cbn; congruence.
Qed.

Lemma ack_received_eq data s ackno window :
  inv data s -> ack_sane s ackno ->
  let a := ack_of s ackno in
  (new_ack s a /\
   ack_received s ackno window =
     let s1 := acked s a window in
     if ((_bytes_flying s1 <? window) || ((window =? 0) && (_bytes_flying s1 =? 0))) && negb (_fin_sent s)
     then fill_window s1 else s1) \/
  (~ new_ack s a /\ ack_received s ackno window = s <| _window_size := window |>).
Proof.
  intros Hinv [Hok Hsane] a. pose proof (inv_next_range data s Hinv) as Hn. pose proof Hinv as [].
  pose proof (unwrap_range ackno (_isn s) (ByteStream.bytes_read (_stream s))) as Hr. fold (ack_of s ackno) a in Hr.
  assert (Hone : _next_seqno s = 0 -> a <> 1).
  { intros E Ea. apply (Hsane E). rewrite (unwrap_is_wrap ackno (_isn s) (ByteStream.bytes_read (_stream s)) Hok).
    fold (ack_of s ackno) a. by rewrite Ea. }
  unfold ack_received. fold (ack_of s ackno) a. cbn [_stream setter set_window_size _ack_abs _fin_sent].
  unfold ByteStream.bytes_read. rewrite !(u64_id (ByteStream.bytes_readed _ + _)) by lia.
  destruct (_ || _) eqn:Hrej.
  - right. split; [|done]. rewrite !orb_true_iff, andb_true_iff, !Z.ltb_lt, Z.leb_le in Hrej.
    unfold new_ack. destruct (_fin_sent s); cbn [negb] in Hrej; intuition lia.
  - left. rewrite !orb_false_iff, andb_false_iff, !Z.ltb_ge, Z.leb_gt in Hrej.
    assert (Ha : new_ack s a).
    { unfold new_ack. destruct Hrej as [[? ?] Hrej]. split; [lia|].
      destruct i_next0 as [(E & E1 & E2)|E].
      - rewrite E2 in Hrej. cbn in Hrej. specialize (Hone E). destruct Hrej; [done|]. lia.
      - destruct (_fin_sent s); cbn in Hrej; destruct Hrej; done || lia. }
    split; [done|]. unfold new_ack in Ha. unfold acked. cbn -[u64 fill_window pop_acked].
    rewrite (u64_id (a - _ack_abs s)) by lia. rewrite i_fly0.
    replace (_next_seqno s - _ack_abs s - (a - _ack_abs s)) with (_next_seqno s - a) by lia.
    rewrite u64_id by lia.
    destruct (pop_acked _ _ _ _) as [[segs seqnos] stamps]. cbn -[u64 fill_window].
    destruct (_ || _); cbn [andb]; [|done]. by destruct (negb (_fin_sent s)).
Qed.

(** ** Everything the owner can do with a sender *)

(** Whether the stream has ended is up to its writer. *)
Abbreviation ended s := (ByteStream._end (_stream s)).

Lemma send_data_ended s : ended (send_data s) = ended s.
Proof.
  unfold send_data, read_stream, ByteStream.read. cbv zeta beta iota. by destruct (_ && _ && _).
Qed.

Lemma fill_loop_ended fuel s : ended (fill_loop fuel s) = ended s.
Proof.
  revert s. induction fuel as [|fuel IH]; intros s; cbn [fill_loop]; [done|].
  destruct (window_available s); [|done]. by rewrite IH, send_data_ended.
Qed.

Lemma fill_window_ended s : ended (fill_window s) = ended s.
Proof. unfold fill_window. repeat case_if; first [done|apply fill_loop_ended]. Qed.

Lemma ack_received_ended s ackno window : ended (ack_received s ackno window) = ended s.
Proof.
  unfold ack_received. cbv zeta. destruct (_ || _); [done|]. destruct (pop_acked _ _ _ _) as [[? ?] ?].
  destruct (_ || _); [|done]. destruct (negb _); [|done]. by rewrite fill_window_ended.
Qed.

Lemma tick_ended s ms : ended (tick s ms) = ended s.
Proof. unfold tick. destruct (_timestamps_outstanding s); [done|]. cbv zeta. by repeat case_if. Qed.

(** A sender that fills its window has sent its SYN, and stays so. *)
Lemma fill_window_started data s : inv data s -> _next_seqno (fill_window s) <> 0.
Proof.
  intros Hinv. destruct (fill_window_new data s Hinv) as [Hn H]. pose proof (inv_next_range data s Hinv).
  destruct (Z.eqb_spec (_next_seqno s) 0); [lia|]. destruct Hn. lia.
Qed.

Lemma ack_received_started data s ackno window :
  inv data s -> ack_sane s ackno -> is_u16 window -> _next_seqno s <> 0 -> _next_seqno (ack_received s ackno window) <> 0.
Proof.
  intros Hinv Hs Hw Hn. destruct (ack_received_eq data s ackno window Hinv Hs) as [[Ha E]|[_ E]]; rewrite E; [|done].
  pose proof (acked_inv data s _ window Hinv Ha Hw) as Hi. cbv zeta. set (s1 := acked _ _ _) in *.
  assert (E1 : _next_seqno s1 = _next_seqno s) by (unfold s1, acked; by destruct (pop_acked _ _ _ _) as [[? ?] ?]).
  destruct (_ && _); [by eapply fill_window_started|]. by rewrite E1.
Qed.

Section Reachable.
Context (capacity rto : Z) (isn0 : WrappingInt32).
Context (Hcap : is_u64 capacity) (Hisn : wi_ok isn0).

(** [reach s data emitted]: a state of the sender, the bytes its stream has
    accepted so far and the segments taken from its queue, in order, after
    any calls with one exception: an acknowledgment of the SYN that arrives
    before the SYN was sent ([ack_sane]; the code accepts it and its counter of
    bytes in flight wraps around, see [ack_before_syn]). *)
Inductive reach : t -> list byte -> list TCPSegment.t -> Prop :=
  | r_init : reach (make capacity rto isn0) [] []
  | r_write s data emitted d :
      reach s data emitted -> ByteStream.input_ended (_stream s) = false ->
      reach (with_stream_in s (fun st => (ByteStream.write st d).1))
            (data ++ take (Z.to_nat (ByteStream.write (_stream s) d).2) d) emitted
  | r_end s data emitted : reach s data emitted -> reach (with_stream_in s ByteStream.end_input) data emitted
  | r_error s data emitted : reach s data emitted -> reach (with_stream_in s ByteStream.set_error) data emitted
  | r_fill s data emitted : reach s data emitted -> reach (fill_window s) data emitted
  | r_ack s data emitted ackno window :
      reach s data emitted -> ack_sane s ackno -> is_u16 window ->
      reach (ack_received s ackno window) data emitted
  | r_tick s data emitted ms : reach s data emitted -> 0 <= ms -> reach (tick s ms) data emitted
  | r_empty s data emitted : reach s data emitted -> reach (send_empty_segment s) data emitted
  | r_dequeue s data emitted seg q :
      reach s data emitted -> _segments_out s = seg :: q ->
      reach (s <| _segments_out := q |>) data (emitted ++ [seg]).

(** Taking everything that is queued. *)
Lemma r_dequeue_all s data emitted :
  reach s data emitted -> reach (s <| _segments_out := [] |>) data (emitted ++ _segments_out s).
Proof using Type.
  remember (_segments_out s) as q eqn:Eq. revert s emitted Eq. induction q as [|seg q IH]; intros s emitted Eq Hr.
  - rewrite app_nil_r. replace (s <| _segments_out := [] |>) with s; [done|]. rewrite Eq. by destruct s.
  - pose proof (r_dequeue s data emitted seg q Hr (eq_sym Eq)) as H1. specialize (IH (s <| _segments_out := q |>) _ eq_refl H1).
    by rewrite <- app_assoc in IH.
Qed.

Definition all_genuine (data : list byte) (s : t) (emitted : list TCPSegment.t) : Prop :=
  Forall (genuine data s) (emitted ++ _segments_out s).

Lemma inv_make : inv [] (make capacity rto isn0).
Proof using Hcap Hisn.
  split; cbn; try done; try lia.
  - by apply ByteStream.make_wf.
  - exists 0. split; [lia|done].
Qed.

Lemma inv_write data s d :
  inv data s -> ByteStream.input_ended (_stream s) = false ->
  let more := take (Z.to_nat (ByteStream.write (_stream s) d).2) d in
  zlen (data ++ more) < 2 ^ 62 ->
  let s' := with_stream_in s (fun st => (ByteStream.write st d).1) in
  inv (data ++ more) s' /\ forall seg, genuine data s seg -> genuine (data ++ more) s' seg.
Proof using Type.
  intros Hinv Hend more Hsz s'. pose proof Hinv as []. unfold ByteStream.input_ended in Hend.
  assert (Hf : _fin_sent s = false).
  { apply not_true_iff_false. intros Hf. destruct (i_fin0 Hf). congruence. }
  unfold more in *. clear more. rewrite ByteStream.write_eq in * by done. set (n := Z.min _ _) in *. cbn [snd] in *.
  unfold s', with_stream_in. rewrite ByteStream.write_eq by done. fold n. cbn [fst]. split.
  - split; cbn; rewrite ?Hf in *; try done.
    + pose proof (ByteStream.write_wf (_stream s) d i_wf0) as Hw. rewrite ByteStream.write_eq in Hw by done. done.
    + rewrite length_app. lia.
    + rewrite i_deq0 at 1. rewrite drop_app_le by lia. done.
    + destruct i_chain0 as (start & Hst & Hc & Hall). exists start. split_and!; try done; try lia.
      eapply chain_impl; [|exact Hc]. rewrite Hend. intros st seg. apply authentic_write.
  - intros seg (st & Hs & Ha). exists st. split; [done|]. cbn. rewrite Hend in *. by apply authentic_write.
Qed.

Lemma inv_with_stream data s f :
  (forall st, ByteStream.wf st -> ByteStream.wf (f st)) ->
  (forall st, ByteStream.bytes_readed (f st) = ByteStream.bytes_readed st /\ ByteStream.deq (f st) = ByteStream.deq st /\
              (ByteStream._end (f st) = ByteStream._end st \/ ByteStream._end (f st) = true)) ->
  inv data s -> inv data (with_stream_in s f) /\ forall seg, genuine data s seg -> genuine data (with_stream_in s f) seg.
Proof using Type.
  intros Hwf Hf []. destruct (Hf (_stream s)) as (E1 & E2 & E3).
  assert (Hau : forall st seg, authentic (_isn s) data (ByteStream._end (_stream s)) st seg ->
    authentic (_isn s) data (ByteStream._end (f (_stream s))) st seg).
  { intros st seg Ha. destruct E3 as [-> | ->]; [done|]. by eapply authentic_end. }
  split.
  - split; cbn; rewrite ?E1, ?E2; try done; [by apply Hwf| |].
    + intros H. destruct (i_fin0 H) as [He ?]. split; [|done]. by destruct E3 as [-> | ->].
    + destruct i_chain0 as (start & Hst & Hc & Hall). exists start. split_and!; try done; try lia.
      by eapply chain_impl.
  - intros seg (st & Hs & Ha). exists st. split; [done|]. by apply Hau.
Qed.

Lemma inv_window data s window :
  inv data s -> is_u16 window -> inv data (s <| _window_size := window |>).
Proof using Type. intros [] ?. by split. Qed.

Lemma inv_tick data s ms :
  inv data s -> inv data (tick s ms) /\
  exists re, _segments_out (tick s ms) = _segments_out s ++ re /\ Forall (genuine data s) re /\
    (forall seg, genuine data s seg -> genuine data (tick s ms) seg).
Proof using Type.
  intros Hinv. unfold tick. destruct (_timestamps_outstanding s) as [|t0 ts] eqn:Et.
  { split; [done|]. exists []. by rewrite app_nil_r. }
  assert (Hre : Forall (genuine data s) (take 1 (_segments_outstanding s))).
  { destruct Hinv. destruct i_chain0 as (start & Hst & Hc & Hall).
    destruct (_segments_outstanding s) as [|seg segs]; [constructor|].
    destruct (_seqnos_abs_outstanding s) as [|e ends]; [done|]. destruct Hc as (Ha & _).
    constructor; [|constructor]. exists start. split; [lia|done]. }
  destruct Hinv. rewrite Et in i_stamps0. cbn [length] in i_stamps0.
  cbn -[u64]. destruct (_ <=? _); [destruct (negb _)|]; (split; [split; cbn; rewrite ?Et; done|]).
  1,2: exists (take 1 (_segments_outstanding s)); split_and!; done.
  exists []. split; [by rewrite app_nil_r|]. split; [constructor|done].
Qed.

(** Filling the window or acknowledging keeps everything genuine. *)
Lemma sends_new_genuine data s s' emitted :
  sends_new data s s' -> all_genuine data s emitted -> all_genuine data s' emitted.
Proof using Type.
  intros [_ (E1 & _ & _ & _ & _ & _ & _ & E2 & _) (new & Eo & _ & Hnew & _) Hn _] Hall. unfold all_genuine in *.
  rewrite Eo, app_assoc. apply Forall_app. split.
  - eapply Forall_impl; [done|]. intros seg. by apply genuine_mono.
  - eapply Forall_impl; [done|]. by intros seg [? _].
Qed.

Lemma ack_received_inv data s emitted ackno window :
  inv data s -> all_genuine data s emitted -> ack_sane s ackno -> is_u16 window ->
  inv data (ack_received s ackno window) /\ all_genuine data (ack_received s ackno window) emitted.
Proof using Type.
  intros Hinv Hg Hs Hw. destruct (ack_received_eq data s ackno window Hinv Hs) as [[Ha E]|[_ E]]; rewrite E.
  2: { split; [by apply inv_window|done]. }
  pose proof (acked_inv data s _ window Hinv Ha Hw) as Hi. cbv zeta. set (s1 := acked _ _ _) in *.
  assert (Hg1 : all_genuine data s1 emitted).
  { unfold s1, acked. by destruct (pop_acked _ _ _ _) as [[? ?] ?]. }
  destruct (_ && _); [|done]. destruct (fill_window_new data s1 Hi) as [Hn _].
  split; [by destruct Hn|by eapply sends_new_genuine].
Qed.

Lemma ack_received_isn data s ackno window :
  inv data s -> ack_sane s ackno -> is_u16 window -> _isn (ack_received s ackno window) = _isn s.
Proof using Type.
  intros Hinv Hs Hw. destruct (ack_received_eq data s ackno window Hinv Hs) as [[Ha E]|[_ E]]; rewrite E; [|done].
  pose proof (acked_inv data s _ window Hinv Ha Hw) as Hi. cbv zeta. set (s1 := acked _ _ _) in *.
  assert (E1 : _isn s1 = _isn s) by (unfold s1, acked; by destruct (pop_acked _ _ _ _) as [[? ?] ?]).
  destruct (_ && _); [|done]. destruct (fill_window_new data s1 Hi) as [[_ (-> & _) _ _ _] _]. done.
Qed.

Lemma reach_inv s data emitted :
  reach s data emitted -> zlen data < 2 ^ 62 ->
  (inv data s /\ all_genuine data s emitted) /\ _isn s = isn0.
Proof using Hcap Hisn.
  unfold all_genuine.
  induction 1 as [|s data em d _ IH He|s data em _ IH|s data em _ IH|s data em _ IH|s data em ackno w _ IH Hs Hw
    |s data em ms _ IH Hm|s data em _ IH|s data em seg q _ IH Eq]; intros Hsz.
  - split; [|done]. split; [apply inv_make|constructor].
  - destruct IH as [[Hi Hg] Ei]; [rewrite length_app in Hsz; lia|]. split; [|done].
    destruct (inv_write data s d Hi He Hsz) as [Hi' Hg']. split; [done|]. eapply Forall_impl; [exact Hg|done].
  - destruct (IH Hsz) as [[Hi Hg] Ei]. split; [|done].
    destruct (inv_with_stream data s ByteStream.end_input) as [Hi' Hg'];
      [by auto with sponge|intros; split_and!; auto|done|]. split; [done|]. eapply Forall_impl; [exact Hg|done].
  - destruct (IH Hsz) as [[Hi Hg] Ei]. split; [|done].
    destruct (inv_with_stream data s ByteStream.set_error) as [Hi' Hg'];
      [by auto with sponge|intros; split_and!; auto|done|]. split; [done|]. eapply Forall_impl; [exact Hg|done].
  - destruct (IH Hsz) as [[Hi Hg] Ei]. destruct (fill_window_new data s Hi) as [Hn _].
    split; [split; [by destruct Hn|by eapply sends_new_genuine]|]. by destruct Hn as [_ (-> & _) _ _ _].
  - destruct (IH Hsz) as [[Hi Hg] Ei]. split; [by apply ack_received_inv|]. rewrite <- Ei. by eapply ack_received_isn.
  - destruct (IH Hsz) as [[Hi Hg] Ei]. destruct (inv_tick data s ms Hi) as [Hi' (re & Er & Hre & Hm')].
    split; [|rewrite <- Ei; unfold tick; by repeat (case_match || case_if)].
    split; [done|]. rewrite Er, app_assoc. apply Forall_app. split; (eapply Forall_impl; [done|done]).
  - destruct (IH Hsz) as [[Hi Hg] Ei]. split; [|done]. split; [destruct Hi; by split|].
    cbn. rewrite app_assoc. apply Forall_app. split; [done|].
    constructor; [|constructor]. exists (_next_seqno s). split; [done|]. pose proof (inv_next_range data s Hi). destruct Hi.
    split_and!; try done; lia.
  - destruct (IH Hsz) as [[Hi Hg] Ei]. split; [|done]. split; [destruct Hi; by split|]. rewrite Eq in Hg. cbn.
    by rewrite <- app_assoc.
Qed.

(** C12. Every segment the sender ever puts in its queue, first transmissions,
    retransmissions, probes and empty segments alike, after any sequence of
    writes, acknowledgments (but for one of the SYN before it was sent, see
    [reach]), timer ticks and dequeues, carries exactly the bytes of
    the outgoing stream at the place its sequence number says; SYN is sequence
    number 0 and FIN comes only after the input ended, behind the last byte. *)
Theorem emitted_authentic s data emitted seg :
  reach s data emitted -> zlen data < 2 ^ 62 -> In seg (emitted ++ _segments_out s) ->
  exists start, start <= next_seqno_absolute s /\
    authentic isn0 data (ByteStream.input_ended (stream_in s)) start seg.
Proof using Hcap Hisn.
  intros Hr Hsz Hin. destruct (reach_inv s data emitted Hr Hsz) as [[_ Hg] <-].
  by apply (proj1 (List.Forall_forall _ _) Hg).
Qed.

(** C13. Bookkeeping, in every state of [reach], that is after any calls in
    any order in which no acknowledgment of the SYN arrives before the SYN was
    sent (one that does breaks it: [ack_before_syn]): the next sequence number is 0
    before the SYN and then 1 plus the bytes taken from the stream, plus 1
    for the FIN; the bytes in flight are the numbers sent and not yet
    acknowledged; and the outstanding segments are consecutive, authentic
    segments that cover all of those numbers, none of them wholly
    acknowledged. So what is not acknowledged can always be retransmitted. *)
Theorem sender_bookkeeping s data emitted :
  reach s data emitted -> zlen data < 2 ^ 62 ->
  next_seqno_absolute s =
    (if _next_seqno s =? 0 then 0
     else 1 + ByteStream.bytes_read (stream_in s) + (if fin_sent s then 1 else 0)) /\
  bytes_in_flight s = next_seqno_absolute s - ack_abs s /\
  (bytes_in_flight s = 0 <-> _segments_outstanding s = []) /\
  exists start, 0 <= start <= ack_abs s /\
    chain isn0 data (ByteStream.input_ended (stream_in s)) start
      (_segments_outstanding s) (_seqnos_abs_outstanding s) (next_seqno_absolute s) /\
    Forall (fun e => ack_abs s < e) (_seqnos_abs_outstanding s).
Proof using Hcap Hisn.
  intros Hr Hsz. destruct (reach_inv s data emitted Hr Hsz) as [[[] _] <-].
  unfold next_seqno_absolute, bytes_in_flight, ack_abs, fin_sent, stream_in, ByteStream.bytes_read.
  split_and!; try done.
  - destruct (Z.eqb_spec (_next_seqno s) 0); [done|]. destruct i_next0 as [(? & _)|?]; done.
  - destruct i_chain0 as (start & Hst & Hc & Hall). rewrite i_fly0.
    destruct (_segments_outstanding s) as [|seg segs], (_seqnos_abs_outstanding s) as [|e ends]; try done; cbn in Hc.
    + split; [done|]. lia.
    + destruct Hc as (_ & _ & _ & _ & Hc). apply Forall_inv in Hall.
      destruct (chain_le _ _ _ _ _ _ _ Hc). split; [lia|done].
Qed.
End Reachable.

(** A run for the witnesses: SYN, acknowledgment of it with window 4, "abcdef"
    written, the window filled, the end of the input. *)
Definition isn9 : WrappingInt32 := mkWrappingInt32 (2 ^ 32 - 1).
Definition demo_open : t := ack_received (fill_window (make 64 1000 isn9)) (mkWrappingInt32 0) 4.
Definition demo_data : list byte := [x61; x62; x63; x64; x65; x66].
Definition demo : t :=
  with_stream_in (fill_window (with_stream_in demo_open (fun st => (ByteStream.write st demo_data).1))) ByteStream.end_input.

Lemma demo_open_reach : reach 64 1000 isn9 demo_open [] [].
Proof. apply r_ack; [apply r_fill, r_init| |lia]. split; [cbn; lia|]. by vm_compute. Defined.

Lemma demo_reach : reach 64 1000 isn9 demo demo_data [].
Proof.
  assert (E : [] ++ take (Z.to_nat (ByteStream.write (_stream demo_open) demo_data).2) demo_data = demo_data) by (by vm_compute).
  pose proof (r_write 64 1000 isn9 demo_open [] [] demo_data demo_open_reach ltac:(by vm_compute)) as H.
  rewrite E in H. apply r_end, r_fill. exact H.
Defined.

Lemma emitted_authentic_witness :
  let seg := new_segment (fill_window (make 64 1000 isn9)) false false (Buffer.of_string [x61; x62; x63; x64]) in
  In seg ([] ++ _segments_out demo) /\
  exists start, start <= next_seqno_absolute demo /\ authentic isn9 demo_data true start seg.
Proof.
  intros seg. assert (Hin : In seg ([] ++ _segments_out demo)) by (vm_compute; tauto).
  split; [exact Hin|].
  apply (emitted_authentic 64 1000 isn9 ltac:(lia) ltac:(cbn; lia) demo demo_data [] seg demo_reach);
    [by vm_compute|exact Hin].
Defined.

Lemma sender_bookkeeping_witness :
  bytes_in_flight demo = 4 /\ bytes_in_flight demo = next_seqno_absolute demo - ack_abs demo.
Proof.
  split; [by vm_compute|].
  apply (sender_bookkeeping 64 1000 isn9 ltac:(lia) ltac:(cbn; lia) demo demo_data [] demo_reach). by vm_compute.
Defined.

(** ** Flow control *)

(** C14. [fill_window] in every state of [reach] (no acknowledgment of the SYN
    before it was sent) terminates with its contract:
    what it sends is new, genuine, in segments of at most 1000 bytes that follow
    one another from the next sequence number on (and no resets), recorded as outstanding, and ends within the receiver's window beyond the last
    acknowledgment (within 1 number of it when the window is closed);
    unless it sent the SYN, it leaves the stream empty with the FIN sent if the input has ended, or the window full. *)
Theorem fill_window_spec capacity rto isn0 s data emitted :
  is_u64 capacity -> wi_ok isn0 -> reach capacity rto isn0 s data emitted -> zlen data < 2 ^ 62 ->
  let s' := fill_window s in
  (exists new, _segments_out s' = _segments_out s ++ new /\
     _segments_outstanding s' = _segments_outstanding s ++ new /\
     Forall (fun seg => genuine data s' seg /\ modest seg) new /\
     exists ends, chain (_isn s) data (ByteStream.input_ended (stream_in s)) (_next_seqno s) new ends (_next_seqno s')) /\
  (_next_seqno s' = _next_seqno s \/ _next_seqno s' <= _ack_abs s + Z.max 1 (_window_size s)) /\
  if _next_seqno s =? 0 then _next_seqno s' = 1 else drained_or_full s'.
Proof.
  intros Hc Hi Hr Hsz s'. destruct (reach_inv capacity rto isn0 Hc Hi s data emitted Hr Hsz) as [[Hinv _] _].
  destruct (fill_window_new data s Hinv) as [[_ _ Hn _ Hw] Hd]. done.
Qed.

Lemma fill_window_spec_witness :
  let s := demo_open in
  (_next_seqno (fill_window s) = _next_seqno s \/
   _next_seqno (fill_window s) <= _ack_abs s + Z.max 1 (_window_size s)) /\
  if _next_seqno s =? 0 then _next_seqno (fill_window s) = 1 else drained_or_full (fill_window s).
Proof.
  apply (fill_window_spec 64 1000 isn9 demo_open [] [] ltac:(lia) ltac:(cbn; lia) demo_open_reach). by vm_compute.
Defined.

(** ** Acknowledgments *)

(** C15. [ack_received] in every state of [reach], for any acknowledgment but
    one of the SYN before the SYN was sent (which the code accepts:
    [ack_before_syn]). An acknowledgment beyond the last one and not beyond
    what was sent: the back-off is reset; the bytes in flight are what is left
    unacknowledged; from each of the three queues of what is outstanding
    exactly the [k] entries whose segments end at or before it are removed
    from the front, the rest is kept in order, followed by the segments the
    reopened window lets the sender add, which are also what is queued for
    sending; and the timer of every outstanding segment, kept or new, is
    restarted at the current time. Any other acknowledgment changes nothing
    but the window. *)
Theorem ack_received_spec capacity rto isn0 s data emitted ackno window :
  is_u64 capacity -> wi_ok isn0 -> reach capacity rto isn0 s data emitted -> zlen data < 2 ^ 62 ->
  ack_sane s ackno -> is_u16 window ->
  let s' := ack_received s ackno window in
  let a := ack_of s ackno in
  let k := length (List.filter (fun e => e <=? a) (_seqnos_abs_outstanding s)) in
  (new_ack s a ->
   ack_abs s' = a /\ bytes_in_flight s' = next_seqno_absolute s' - a /\
   consecutive_retransmissions s' = 0 /\ _curr_RTO s' = _initial_retransmission_timeout s' /\
   exists new ends,
     _segments_outstanding s' = drop k (_segments_outstanding s) ++ new /\
     _segments_out s' = _segments_out s ++ new /\
     length ends = length new /\
     _seqnos_abs_outstanding s' = List.filter (fun e => a <? e) (_seqnos_abs_outstanding s) ++ ends /\
     _timestamps_outstanding s' = replicate (length (_segments_outstanding s')) (_time s)) /\
  (~ new_ack s a -> s' = s <| _window_size := window |>).
Proof.
  intros Hc Hi Hr Hsz Hs Hw s' a k. destruct (reach_inv capacity rto isn0 Hc Hi s data emitted Hr Hsz) as [[Hinv _] _].
  destruct (ack_received_eq data s ackno window Hinv Hs) as [[Ha E]|[Ha E]]; fold a s' in Ha, E; (split; [|done]); [|done].
  intros _. pose proof (acked_inv data s a window Hinv Ha Hw) as Hi1. cbv zeta in E. set (s1 := acked s a window) in *.
  destruct (acked_queues data s a window Hinv Ha) as (A1 & A2 & A3 & A4 & A5 & A6 & A7 & A8). fold s1 k in A1, A2, A3, A4, A5, A6, A7, A8.
  assert (Hs' : exists new, appends s1 s' new /\ _ack_abs s' = a /\ _consec_retrans s' = 0 /\
    _curr_RTO s' = _initial_retransmission_timeout s' /\ inv data s').
  { rewrite E. destruct (_ && _); [|by exists []; split; [apply appends_nil|]].
    destruct (fill_window_new data s1 Hi1) as [[Hi2 (_ & B2 & _ & _ & B5 & B6 & B7 & _) _ _ _] _].
    destruct (fill_window_appends s1) as [new Hn]. exists new. split_and!; done || congruence. }
  clear E. destruct Hs' as (new & (N1 & N2 & N3 & N4 & ends & N5 & N6) & B1 & B2 & B3 & Hi2).
  unfold ack_abs, bytes_in_flight, next_seqno_absolute, consecutive_retransmissions. destruct Hi2.
  split_and!; try done; [by rewrite i_fly0, B1|].
  exists new, ends. rewrite N1, N2, N3, N6, A4, A5, A6, A7, A8. split_and!; try done.
  by rewrite length_app, replicate_add.
Qed.

Lemma ack_received_spec_witness :
  let a := mkWrappingInt32 3 in
  let s' := ack_received demo a 2 in
  new_ack demo (ack_of demo a) /\
  ack_abs s' = 4 /\
  exists new ends,
    _segments_outstanding s' = drop 0 (_segments_outstanding demo) ++ new /\
    _segments_out s' = _segments_out demo ++ new /\
    length ends = length new /\
    _seqnos_abs_outstanding s' = List.filter (fun e => 4 <? e) (_seqnos_abs_outstanding demo) ++ ends /\
    _timestamps_outstanding s' = replicate (length (_segments_outstanding s')) (_time demo).
Proof.
  intros a s'. assert (Ha : new_ack demo (ack_of demo a)) by (vm_compute; split; congruence).
  destruct (ack_received_spec 64 1000 isn9 demo demo_data [] a 2 ltac:(lia) ltac:(cbn; lia) demo_reach) as [H _].
  - by vm_compute.
  - split; [cbn; lia|]. by vm_compute.
  - lia.
  - destruct (H Ha) as (E & _ & _ & _ & new & ends & Ea). split; [exact Ha|]. split; [exact E|]. exists new, ends. exact Ea.
Defined.

(** ** The retransmission timer *)

(** The clock does not overflow. *)
Definition clock_ok (s : t) (ms : Z) : Prop := 0 <= ms /\ 0 <= _time s /\ _time s + ms < 2 ^ 64.

(** [k] timeouts in a row: each tick lets the current timeout pass. *)
Fixpoint expire (k : nat) (s : t) : t :=
  match k with O => s | S k => expire k (tick s (_curr_RTO s)) end.

Lemma tick_expires s seg segs t0 ts ms :
  _segments_outstanding s = seg :: segs -> _timestamps_outstanding s = t0 :: ts ->
  0 <= t0 <= _time s -> clock_ok s ms -> _curr_RTO s <= _time s + ms - t0 -> _window_size s <> 0 ->
  tick s ms =
    s <| _time := _time s + ms |> <| _segments_out := _segments_out s ++ [seg] |>
      <| _timestamps_outstanding := (_time s + ms) :: ts |>
      <| _consec_retrans := u32 (_consec_retrans s + 1) |> <| _curr_RTO := u64 (_curr_RTO s * 2) |>.
Proof.
  intros Es Et Ht (? & ? & ?) Hx Hw. unfold tick. rewrite Et. cbn -[u64 u32].
  rewrite (u64_id (_time s + ms)), (u64_id (_time s + ms - t0)) by lia. rewrite Es.
  destruct (Z.leb_spec (_curr_RTO s) (_time s + ms - t0)); [|lia].
  by destruct (Z.eqb_spec (_window_size s) 0).
Qed.

(** C16. Exponential back-off: while nothing is acknowledged and the window is
    open, [k] timeouts in a row retransmit the oldest outstanding segment [k]
    times and nothing else, count [k] consecutive retransmissions and multiply
    the timeout by [2^k]. *)
Theorem backoff k s seg segs ts :
  _segments_outstanding s = seg :: segs -> _timestamps_outstanding s = _time s :: ts ->
  0 < _curr_RTO s -> 0 <= _time s -> _curr_RTO s * 2 ^ Z.of_nat k < 2 ^ 64 ->
  _time s + _curr_RTO s * (2 ^ Z.of_nat k - 1) < 2 ^ 64 ->
  0 <= _consec_retrans s -> _consec_retrans s + Z.of_nat k < 2 ^ 32 -> _window_size s <> 0 ->
  let s' := expire k s in
  _segments_out s' = _segments_out s ++ replicate k seg /\
  _segments_outstanding s' = seg :: segs /\
  consecutive_retransmissions s' = _consec_retrans s + Z.of_nat k /\
  _curr_RTO s' = _curr_RTO s * 2 ^ Z.of_nat k.
Proof.
  revert s. induction k as [|k IH]; intros s Es Et Hr Ht Hov Hov' Hc Hc' Hw; cbn [expire].
  - rewrite app_nil_r, !Z.mul_1_r, Z.add_0_r. done.
  - replace (Z.of_nat (S k)) with (1 + Z.of_nat k) in * by lia. rewrite Z.pow_add_r in * by lia.
    change (2 ^ 1) with 2 in *. assert (0 < 2 ^ Z.of_nat k) by (apply Z.pow_pos_nonneg; lia).
    rewrite (tick_expires s seg segs (_time s) ts (_curr_RTO s)) by (try done; unfold clock_ok; nia).
    rewrite (u32_id (_consec_retrans s + 1)), (u64_id (_curr_RTO s * 2)) by nia.
    set (s1 := setter _ _). destruct (IH s1) as (A & B & C & D); try done; try (cbn -[Z.pow Z.mul Z.add]; nia).
    split_and!; [|done|rewrite C; cbn; lia|rewrite D; cbn; lia].
    rewrite A. cbn. by rewrite <- app_assoc.
Qed.

Lemma backoff_witness :
  let s := fill_window (make 64 1000 isn9) in
  let s' := expire 3 s in
  consecutive_retransmissions s' = 3 /\ _curr_RTO s' = 8000 /\
  _segments_out s' = _segments_out s ++ replicate 3 (new_segment (make 64 1000 isn9) true false Buffer.empty).
Proof.
  intros s s'.
  destruct (backoff 3 s (new_segment (make 64 1000 isn9) true false Buffer.empty) [] []) as (A & _ & B & C);
    try (vm_compute; congruence).
  split; [exact B|]. split; [exact C|exact A].
Defined.

(** The timer never fires early: as long as less than the current timeout
    has passed since the oldest segment was (re)sent, a tick only advances the
    clock. And a closed window never counts against the peer: a probe is
    retransmitted without back-off. *)
Theorem tick_quiet s t0 ts ms :
  _timestamps_outstanding s = t0 :: ts -> 0 <= t0 <= _time s -> clock_ok s ms ->
  (_time s + ms - t0 < _curr_RTO s -> tick s ms = s <| _time := _time s + ms |>) /\
  (_window_size s = 0 -> _curr_RTO (tick s ms) = _curr_RTO s /\ _consec_retrans (tick s ms) = _consec_retrans s).
Proof.
  intros Et Ht (? & ? & ?). unfold tick. rewrite Et. cbn -[u64 u32].
  rewrite (u64_id (_time s + ms)), (u64_id (_time s + ms - t0)) by lia. split.
  - intros Hx. by destruct (Z.leb_spec (_curr_RTO s) (_time s + ms - t0)); [lia|].
  - intros ->. by destruct (_ <=? _).
Qed.

Lemma tick_quiet_witness :
  let s := fill_window (make 64 1000 isn9) in
  tick s 999 = s <| _time := 999 |>.
Proof.
  refine (proj1 (tick_quiet (fill_window (make 64 1000 isn9)) 0 [] 999 eq_refl _ _) _); vm_compute; first [done|split_and!; congruence].
Defined.

(** ** Where the sender goes wrong *)

(** Before its SYN is out the sender takes the acknowledgment of that SYN
    for news: [_bytes_flying] wraps around to [2^64 - 1]. *)
Theorem ack_before_syn :
  bytes_in_flight (ack_received (make 64 1000 (mkWrappingInt32 5)) (mkWrappingInt32 6) 10) = 2 ^ 64 - 1.
Proof. by vm_compute. Qed.

End Sending.
