(* ===== verification/in_order.v ===== *)
(** A receiver on a line that keeps the order: its state is a position in the
    peer's stream. Segments that start at the position advance it, segments that
    end before it (duplicates, retransmissions, acknowledgments) do not, for
    streams of any length. *)

From S2P Require Import prelude std_algorithms wrapping_integers buffer tcp_segment byte_stream stream_reassembler reassembly tcp_receiver tcp_sender sending.

Module InOrder.
Import StreamReassembler.
Abbreviation hdr seg := (TCPSegment.header seg).
Abbreviation body seg := (Buffer.copy (TCPSegment.payload seg)).
Abbreviation b2z := Sending.b2z.

Lemma seg_length seg :
  zlen (body seg) < 2 ^ 62 ->
  TCPSegment.length_in_sequence_space seg = zlen (body seg) + b2z (TCPHeader.syn (hdr seg)) + b2z (TCPHeader.fin (hdr seg)).
Proof.
  intros H. unfold TCPSegment.length_in_sequence_space, Sending.b2z. change (Buffer.copy ?p) with (Buffer.str p) in *.
  destruct (TCPHeader.syn _), (TCPHeader.fin _); rewrite (u64_id (zlen _ + _)) by lia; rewrite u64_id; lia.
Qed.

(** ** Pushes that bring nothing *)

#[local] Opaque push_substring.

(** The fields of the reassembler that a push without news keeps. *)
Definition unmoved (r r' : t) : Prop :=
  wf r' /\ _capacity r' = _capacity r /\ Reassembly.store_empty r' /\ _start_aux r' = _start_aux r /\
  ByteStream.deq (_output r') = ByteStream.deq (_output r).

Lemma push_nil r i eof :
  wf r -> Reassembly.store_empty r ->
  let r' := push_substring r [] i eof in
  unmoved r r' /\ _end_stream r' = _end_stream r /\
  ByteStream._end (_output r') = (_start_aux r =? _end_stream r) || eof || ByteStream._end (_output r).
Proof.
  intros Hwf He. cbv zeta. rewrite Reassembly.push_substring_finish.
  set (r1 := write_to_aux r [] i eof). assert (H1 : wf r1 /\ Reassembly.store_empty r1 /\ _start_aux r1 = _start_aux r /\
    _capacity r1 = _capacity r /\ _end_stream r1 = _end_stream r /\ ByteStream.deq (_output r1) = ByteStream.deq (_output r) /\
    ByteStream._end (_output r1) = eof || ByteStream._end (_output r)).
  { unfold r1. cbn. destruct eof; split_and!; try done. destruct Hwf. split; cbn; auto with sponge. }
  clearbody r1. destruct H1 as (W & S & E1 & E2 & E3 & E4 & E5). rewrite TCPReceiver.write_to_bytestream_idle by done.
  destruct (Reassembly.finish_frame r1 eof) as (F1 & F2 & F3 & F4 & F5).
  assert (Hs : Reassembly.store_empty (Reassembly.finish r1 eof)) by (unfold Reassembly.finish; by repeat case_if).
  unfold unmoved. rewrite F1, F2, F3, F4, F5, E1, E2, E3, E4, E5. split_and!; try done; [by apply Reassembly.finish_wf|].
  by destruct (_start_aux r =? _end_stream r).
Qed.

Lemma push_old r data index eof :
  wf r -> Reassembly.store_empty r -> _start_aux r + _capacity r < 2 ^ 63 -> _end_stream r = 2 ^ 64 - 1 \/ ByteStream._end (_output r) = true ->
  0 <= index -> index + zlen data <= _start_aux r -> (eof = true -> ByteStream._end (_output r) = true) ->
  let r' := push_substring r data index eof in
  unmoved r r' /\ ByteStream._end (_output r') = ByteStream._end (_output r) /\ (eof = false -> _end_stream r' = _end_stream r).
Proof.
  intros Hwf He Hov Hes Hi Hold Heof r'. pose proof (wf_start r Hwf) as Hst. destruct (decide (data = [])) as [->|Hne].
  { destruct (push_nil r index eof Hwf He) as (U & E1 & E2). fold r' in U, E1, E2. split_and!; try done. rewrite E2.
    destruct eof; [by rewrite Heof, orb_true_r|]. destruct Hes as [-> | ->]; [|by rewrite !orb_true_r].
    by destruct (Z.eqb_spec (_start_aux r) (2 ^ 64 - 1)); [lia|]. }
  assert (Hl : 0 < zlen data) by (destruct data; [done|cbn; lia]).
  assert (Hm : forall i, Reassembly.merged r data index i = None).
  { intros i. unfold Reassembly.merged. rewrite decide_False by (unfold copied; lia). by apply Reassembly.store_empty_stored. }
  assert (Haux : aux_safe r data index).
  { left. replace (Z.max _ _) with (_start_aux r) by lia. pose proof (wf_cap r Hwf).
    pose proof (Z.mod_pos_bound (_start_aux r) (_capacity r)). lia. }
  assert (Hsafe : Reassembly.push_safe r data index eof).
  { split_and!; try done; try lia.
    destruct (Reassembly.write_to_aux_stored r data index eof) as (W1 & W2 & W3 & W4 & _ & _ & W7); try done; try lia.
    apply (Reassembly.prefix_drain_safe _ 0); try done; [lia|rewrite W4; destruct Hwf; lia|].
    intros i. rewrite W7. specialize (Hm i). unfold Reassembly.merged in Hm. rewrite Hm. split; [done|lia]. }
  destruct (Reassembly.push_spec r data index eof Hwf Hsafe) as (bs & (P1 & P2 & P3 & P4 & _ & P6) & P7 & P8 & P9).
  fold r' in P1, P2, P3, P6, P7, P8, P9. assert (bs = []) as ->.
  { destruct bs as [|b bs]; [done|]. specialize (P4 0%nat ltac:(cbn; lia)). by rewrite Hm in P4. }
  cbn [length Z.of_nat] in P3. rewrite app_nil_r in P2. rewrite Z.add_0_r in P3. clearbody r'. unfold unmoved. split_and!; try done.
  - apply Reassembly.stored_store_empty; [done|]. intros i. destruct (decide (_start_aux r' <= i)); [by rewrite P6|apply stored_None; lia].
  - rewrite P9, P3. destruct eof; [rewrite Heof by done; by destruct (_start_aux r =? _end_stream r')|]. rewrite P8. cbn [andb].
    destruct Hes as [-> | ->]; [|by destruct (_start_aux r =? _end_stream r)]. by destruct (Z.eqb_spec (_start_aux r) (2 ^ 64 - 1)); [lia|].
  - intros ->. by rewrite P8.
Qed.

(** ** The receiver at a position of the stream *)

Section Receiver.
Context (capacity : Z) (isn0 : WrappingInt32).
Context (Hcap : 0 < capacity < 2 ^ 31) (Hisn : wi_ok isn0).

(** [sent] has arrived, and the FIN if [fin]; the owner has read [delivered]. *)
Record upto (s : TCPReceiver.t) (sent : list byte) (fin : bool) (delivered : list byte) : Prop := {
  up_wf : wf (TCPReceiver._reassembler s);
  up_cap : StreamReassembler._capacity (TCPReceiver._reassembler s) = capacity;
  up_empty : Reassembly.store_empty (TCPReceiver._reassembler s);
  up_end_stream : fin = false -> _end_stream (TCPReceiver._reassembler s) = 2 ^ 64 - 1;
  up_start : _start_aux (TCPReceiver._reassembler s) = zlen sent;
  up_end : ByteStream._end (_output (TCPReceiver._reassembler s)) = fin;
  up_bytes : sent = delivered ++ ByteStream.deq (_output (TCPReceiver._reassembler s));
  up_syn : TCPReceiver._syn s = true;
  up_capacity : TCPReceiver._capacity s = capacity;
  up_isn : TCPReceiver._isn s = isn0;
  up_ckpt : TCPReceiver._ckpt s = zlen sent;
  up_eof : TCPReceiver._eof s = fin;
  up_len : TCPReceiver._len_stream s = if fin then zlen sent else 2 ^ 64 - 1;
  up_ack : TCPReceiver._ack s = wrap (1 + zlen sent + b2z fin) isn0
}.

Lemma upto_established s sent delivered : upto s sent false delivered <-> TCPReceiver.established capacity isn0 s sent delivered.
Proof using Type.
  split; intros []; (split; try done; try (by apply up_end_stream0); try (by intros _)).
  - rewrite up_ack0. f_equal. cbn. lia.
  - rewrite est_ack. f_equal. cbn. lia.
Qed.

Lemma upto_feedback s sent fin delivered :
  upto s sent fin delivered ->
  TCPReceiver.ackno s = Some (wrap (1 + zlen sent + b2z fin) isn0) /\
  TCPReceiver.window_size s = capacity - ByteStream.buffer_size (TCPReceiver.stream_out s) /\
  0 <= ByteStream.buffer_size (TCPReceiver.stream_out s) <= capacity.
Proof using Hcap.
  intros []. unfold TCPReceiver.ackno, TCPReceiver.window_size, TCPReceiver.stream_out, StreamReassembler.stream_out, ByteStream.buffer_size.
  rewrite up_syn0, up_ack0. destruct up_wf0. destruct wf_out0. rewrite u64_id by lia. split_and!; try done; lia.
Qed.

Lemma upto_read s sent fin delivered n :
  upto s sent fin delivered ->
  upto (TCPReceiver.with_stream_out s (fun o => ByteStream.pop_output o n)) sent fin
    (delivered ++ ByteStream.peek_output (TCPReceiver.stream_out s) n).
Proof using Type.
  intros []. split; try done.
  - destruct up_wf0. split; try done. by apply ByteStream.pop_output_wf.
  - cbn. unfold ByteStream.peek_output, TCPReceiver.stream_out, StreamReassembler.stream_out. by rewrite <- app_assoc, take_drop.
Qed.

(** Accepting a segment once its payload has been pushed. *)
Lemma upto_accept s seg r sent fin delivered :
  TCPReceiver._capacity s = capacity ->
  (if TCPHeader.syn (hdr seg) then TCPHeader.seqno (hdr seg) else TCPReceiver._isn s) = isn0 ->
  TCPReceiver._eof s || TCPHeader.fin (hdr seg) = fin ->
  (if TCPHeader.fin (hdr seg) then u64 (TCPReceiver.stream_index s (hdr seg) + TCPReceiver.payload_len seg) else TCPReceiver._len_stream s)
    = (if fin then zlen sent else 2 ^ 64 - 1) ->
  wf r -> StreamReassembler._capacity r = capacity -> Reassembly.store_empty r -> (fin = false -> _end_stream r = 2 ^ 64 - 1) ->
  _start_aux r = zlen sent -> ByteStream._end (_output r) = fin -> sent = delivered ++ ByteStream.deq (_output r) ->
  upto (TCPReceiver.accept_with s seg r) sent fin delivered.
Proof using Hcap.
  intros H1 H2 H3 H4 Hw Hc He Hes Hst Ho Hb. unfold TCPReceiver.accept_with. rewrite H2, H3, H4. pose proof (wf_start r Hw).
  rewrite (wf_written r Hw), Hst. destruct fin.
  - rewrite Z.eqb_refl, u64_id by lia. split; try done; cbn.
    + destruct Hw. split; cbn; auto with sponge.
    + f_equal. lia.
  - destruct (Z.eqb_spec (zlen sent) (2 ^ 64 - 1)); [lia|]. rewrite u64_id by lia. split; try done. cbn. f_equal. lia.
Qed.

(** The SYN. *)
Lemma upto_syn seg :
  TCPHeader.syn (hdr seg) = true -> TCPHeader.fin (hdr seg) = false -> TCPHeader.seqno (hdr seg) = isn0 -> body seg = [] ->
  upto (TCPReceiver.segment_received (TCPReceiver.make capacity) seg) [] false [].
Proof using Hcap. intros. apply upto_established. by apply TCPReceiver.established_syn. Qed.

(** A segment at absolute number [start]. *)
Lemma upto_index s sent fin delivered seg start :
  upto s sent fin delivered -> zlen sent < 2 ^ 62 -> TCPHeader.syn (hdr seg) = false -> TCPHeader.seqno (hdr seg) = wrap start isn0 ->
  1 <= start -> zlen sent - 2 ^ 30 < start < zlen sent + 2 ^ 30 -> TCPReceiver.stream_index s (hdr seg) = start - 1.
Proof using Hisn.
  intros [] Hb Hs Hq H1 H2. unfold TCPReceiver.stream_index. rewrite Hs, Hq, up_isn0, up_ckpt0. rewrite unwrap_near by (done || lia).
  rewrite u64_id; lia.
Qed.

(** The next bytes of the stream, with the FIN or not. *)
Lemma upto_next s sent delivered seg :
  upto s sent false delivered -> zlen sent < 2 ^ 62 -> TCPHeader.syn (hdr seg) = false ->
  TCPHeader.seqno (hdr seg) = wrap (1 + zlen sent) isn0 -> 0 < zlen (body seg) + b2z (TCPHeader.fin (hdr seg)) ->
  zlen (body seg) <= TCPReceiver.window_size s ->
  upto (TCPReceiver.segment_received s seg) (sent ++ body seg) (TCPHeader.fin (hdr seg)) delivered.
Proof using Hcap Hisn.
  intros Hu Hb Hs Hq Hl Hw. destruct (upto_feedback _ _ _ _ Hu) as (Ha & Ew & Hbs).
  rewrite TCPReceiver.segment_received_eq by (unfold TCPReceiver.payload_len; lia). rewrite (up_syn _ _ _ _ Hu). cbn [orb].
  pose proof (upto_index s sent false delivered seg (1 + zlen sent) Hu Hb Hs Hq ltac:(lia) ltac:(lia)) as Hi.
  assert (Hp : let r := TCPReceiver.pushed s seg in let fin := TCPHeader.fin (hdr seg) in
    wf r /\ StreamReassembler._capacity r = capacity /\ Reassembly.store_empty r /\ (fin = false -> _end_stream r = 2 ^ 64 - 1) /\
    _start_aux r = zlen (sent ++ body seg) /\ ByteStream._end (_output r) = fin /\ sent ++ body seg = delivered ++ ByteStream.deq (_output r)).
  { destruct (decide (body seg = [])) as [E|E].
    - unfold TCPReceiver.pushed. destruct Hu. rewrite E, app_nil_r, up_eof0. destruct (TCPHeader.fin (hdr seg)); [|by rewrite E in Hl].
      destruct (push_nil (TCPReceiver._reassembler s) (TCPReceiver.stream_index s (hdr seg)) true) as ((U1 & U2 & U3 & U4 & U5) & _ & E2); try done.
      cbn [orb]. rewrite E2, U2, U4, U5, orb_true_r. by split_and!.
    - apply upto_established in Hu. destruct (TCPReceiver.established_push capacity isn0 Hcap Hisn s sent delivered seg Hu Hb Hs) as (P1 & P2 & P3 & P4 & P5 & P6 & P7).
      + rewrite Ha, Hq. do 2 f_equal. cbn. lia.
      + unfold TCPReceiver.payload_len. destruct (body seg); [done|cbn in *; lia].
      + cbv zeta. split_and!; try done. intros Ef. by rewrite Ef in P4. }
  cbv zeta in Hp. destruct Hp as (P1 & P2 & P3 & P4 & P5 & P6 & P7). unfold TCPReceiver.accept. destruct Hu.
  apply upto_accept; try done; [by rewrite Hs|by rewrite up_eof0|]. rewrite Hi, up_len0.
  destruct (TCPHeader.fin (hdr seg)); [|done]. rewrite length_app, u64_id; unfold TCPReceiver.payload_len; lia.
Qed.

(** What was there before. *)
Lemma upto_old s sent fin delivered seg start :
  upto s sent fin delivered -> zlen sent < 2 ^ 62 -> zlen (body seg) < 2 ^ 62 ->
  (if TCPHeader.syn (hdr seg) then TCPHeader.seqno (hdr seg) = isn0 /\ body seg = [] /\ TCPHeader.fin (hdr seg) = false
   else TCPHeader.seqno (hdr seg) = wrap start isn0 /\ 1 <= start /\ zlen sent - 2 ^ 30 < start /\ start - 1 + zlen (body seg) <= zlen sent) ->
  (TCPHeader.fin (hdr seg) = true -> fin = true /\ start - 1 + zlen (body seg) = zlen sent) ->
  upto (TCPReceiver.segment_received s seg) sent fin delivered.
Proof using Hcap Hisn.
  intros Hu Hb Hl Hseg Hfin. rewrite TCPReceiver.segment_received_eq by done. rewrite (up_syn _ _ _ _ Hu). cbn [orb].
  assert (Hi : TCPHeader.syn (hdr seg) = false -> TCPReceiver.stream_index s (hdr seg) = start - 1).
  { intros E. rewrite E in Hseg. destruct Hseg as (? & ? & ? & ?). eapply upto_index; try done. lia. }
  assert (He : TCPReceiver._eof s || TCPHeader.fin (hdr seg) = fin).
  { rewrite (up_eof _ _ _ _ Hu). destruct fin, (TCPHeader.fin _); try done. by destruct (Hfin eq_refl). }
  assert (Hp : let r := TCPReceiver.pushed s seg in
    unmoved (TCPReceiver._reassembler s) r /\ ByteStream._end (_output r) = fin /\ (fin = false -> _end_stream r = 2 ^ 64 - 1)).
  { unfold TCPReceiver.pushed. rewrite He. destruct Hu. cbv zeta. destruct (TCPHeader.syn (hdr seg)) eqn:Es.
    - destruct Hseg as (_ & -> & _). destruct (push_nil (TCPReceiver._reassembler s) (TCPReceiver.stream_index s (hdr seg)) fin) as (U & E1 & E2); try done.
      rewrite E1, E2, up_end0. split_and!; try done. destruct fin; [by rewrite orb_true_r|]. rewrite up_end_stream0 by done.
      pose proof (wf_start _ up_wf0). by destruct (Z.eqb_spec (_start_aux (TCPReceiver._reassembler s)) (2 ^ 64 - 1)); [lia|].
    - rewrite Hi by done. destruct (push_old (TCPReceiver._reassembler s) (body seg) (start - 1) fin) as (U & E1 & E2); try done; try lia.
      { destruct fin; [by right|left; by apply up_end_stream0]. } { by intros ->. }
      rewrite E1. split_and!; try done. intros E. rewrite E2 by done. by apply up_end_stream0. }
  cbv zeta in Hp. destruct Hp as ((U1 & U2 & U3 & U4 & U5) & P2 & P3). unfold TCPReceiver.accept. destruct Hu.
  apply upto_accept; try done; try congruence.
  - destruct (TCPHeader.syn (hdr seg)); [by destruct Hseg|done].
  - destruct (TCPHeader.fin (hdr seg)) eqn:Ef; [|done]. destruct (Hfin eq_refl) as [-> Hz]. destruct (TCPHeader.syn (hdr seg)); [by destruct Hseg as (_ & _ & ?)|].
    rewrite Hi by done. unfold TCPReceiver.payload_len. rewrite u64_id; lia.
Qed.
End Receiver.
End InOrder.
