(* ===== verification/transfer.v ===== *)
(** From sender to receiver over any network: whatever is lost, duplicated,
    delayed or reordered in between, the receiver hands out a prefix of what was
    written to the sender. *)

From S2P Require Import prelude std_algorithms wrapping_integers buffer tcp_segment byte_stream stream_reassembler reassembly tcp_receiver tcp_sender sending.

Module Transfer.
Import StreamReassembler ReassemblyCore.

(** ** The network and the receiving end *)

Abbreviation hdr seg := (TCPSegment.header seg).
Abbreviation body seg := (Buffer.copy (TCPSegment.payload seg)).

(** What the owner of the receiver does: a segment comes off the network and
    is handed on if it occupies sequence numbers (tcp_connection.cc, lines
    26-28), bytes are read, or the stream is put in error. *)
Inductive arrival :=
  | Deliver (seg : TCPSegment.t)
  | Take (n : nat)
  | Fail.

Definition receive (c : TCPReceiver.t * list byte) (a : arrival) : TCPReceiver.t * list byte :=
  let '(rc, delivered) := c in
  match a with
  | Deliver seg =>
      (if negb (TCPSegment.length_in_sequence_space seg =? 0)
       then TCPReceiver.segment_received rc seg else rc, delivered)
  | Take n =>
      let '(out, str) := ByteStream.read (TCPReceiver.stream_out rc) (Z.of_nat n) in
      (TCPReceiver.with_stream_out rc (fun _ => out), delivered ++ str)
  | Fail => (TCPReceiver.with_stream_out rc ByteStream.set_error, delivered)
  end.
Definition receive_all (capacity : Z) (l : list arrival) : TCPReceiver.t * list byte :=
  fold_left receive l (TCPReceiver.make capacity, []).

(** On the wire the acknowledgment fields are filled in by the connection; what
    concerns the stream is unchanged. *)
Definition same_wire (a b : TCPSegment.t) : Prop :=
  TCPHeader.seqno (hdr a) = TCPHeader.seqno (hdr b) /\ TCPHeader.syn (hdr a) = TCPHeader.syn (hdr b) /\
  TCPHeader.fin (hdr a) = TCPHeader.fin (hdr b) /\ body a = body b.

Section Contents.
Context (capacity : Z) (data : list byte) (isn0 : WrappingInt32) (ended : bool).
Context (Hcap : 0 < capacity < 2 ^ 31) (HS : zlen data <= capacity) (Hisn : wi_ok isn0).
#[local] Opaque push_substring.

(** The arrival carries a segment of [data]. *)
Definition of_stream (a : arrival) : Prop :=
  match a with
  | Deliver seg => exists start, Sending.authentic isn0 data ended start seg
  | _ => True
  end.

(** The receiver's reassembler holds what some pushes of pieces of [data] give. *)
Record holds (c : TCPReceiver.t * list byte) : Prop := {
  h_ops : exists ops r del, Forall (Reassembly.op_ok data) ops /\
    Reassembly.run capacity data ops = (r, del) /\ same_core (TCPReceiver._reassembler c.1) r /\ c.2 = del;
  h_ckpt : TCPReceiver._ckpt c.1 = ByteStream.bytes_written (TCPReceiver.stream_out c.1);
  h_isn : TCPReceiver._syn c.1 = true -> TCPReceiver._isn c.1 = isn0
}.

Lemma holds_make : holds (TCPReceiver.make capacity, []).
Proof using Type. split; [|done|done]. by exists [], (StreamReassembler.make capacity), []. Qed.

Lemma run_snoc ops o :
  Reassembly.run capacity data (ops ++ [o]) = Reassembly.step data (Reassembly.run capacity data ops) o.
Proof using Type. unfold Reassembly.run. by rewrite fold_left_app. Qed.

(** A piece of [data] is located where it belongs, and pushed there. *)
Lemma pushed_same rc r seg start :
  Sending.authentic isn0 data ended start seg ->
  same_core (TCPReceiver._reassembler rc) r -> 0 <= TCPReceiver._ckpt rc <= zlen data ->
  (TCPHeader.syn (hdr seg) = false -> TCPReceiver._isn rc = isn0) ->
  exists index len, (index + len <= length data)%nat /\
    same_core (TCPReceiver.pushed rc seg) (push_substring r (substr data index len) (Z.of_nat index) false).
Proof using Hcap HS Hisn.
  intros (Hseq & Hst & Hsyn & Hbody & Hfin) Hr Hck His.
  destruct (decide (body seg = [])) as [Hb|Hb].
  - exists 0%nat, 0%nat. split; [lia|]. unfold TCPReceiver.pushed, substr. rewrite Hb, take_0.
    rewrite (TCPReceiver.push_nil_index r (Z.of_nat 0) (TCPReceiver.stream_index rc (hdr seg))).
    by apply push_substring_same.
  - destruct (Hbody Hb) as (Hp & Hl & Hs).
    assert (Hns : TCPHeader.syn (hdr seg) = false) by (apply not_true_iff_false; intros E; specialize (Hsyn E); lia).
    exists (Z.to_nat (start - 1)), (length (body seg)). split; [lia|].
    unfold TCPReceiver.pushed, TCPReceiver.stream_index. rewrite Hns, Hseq, His by done.
    assert (0 < zlen (body seg)) by (destruct (body seg); [done|cbn; lia]).
    rewrite unwrap_near by (done || lia). rewrite u64_id, <- Hs by lia.
    replace (Z.of_nat (Z.to_nat (start - 1))) with (start - 1) by lia. by apply push_substring_same.
Qed.

Lemma run_written ops r del :
  Forall (Reassembly.op_ok data) ops -> Reassembly.run capacity data ops = (r, del) ->
  exists n, (n <= length data)%nat /\ del ++ ByteStream.deq (_output r) = take n data /\
    ByteStream.bytes_written (_output r) = Z.of_nat n.
Proof using Hcap HS.
  intros Hok Hrun. destruct (Reassembly.run_any_order capacity data Hcap HS ops r del Hok Hrun) as (R1 & R2 & _).
  exists (Reassembly.first_gap data ops). split; [|done]. unfold Reassembly.first_gap.
  etrans; [apply find_true_le|]. by rewrite length_map, length_seq.
Qed.

Lemma holds_deliver rc delivered seg start :
  holds (rc, delivered) -> Sending.authentic isn0 data ended start seg ->
  holds (TCPReceiver.segment_received rc seg, delivered).
Proof using Hcap HS Hisn.
  intros [(ops & r & del & Hok & Hrun & Hr & <-) Hck His] Ha. cbn [fst snd] in *.
  assert (Hlen : TCPReceiver.payload_len seg < 2 ^ 62).
  { destruct Ha as (_ & _ & _ & Hb & _). unfold TCPReceiver.payload_len.
    destruct (decide (body seg = [])) as [-> | Hne]; [cbn; lia|]. destruct (Hb Hne) as (? & ? & _). lia. }
  rewrite TCPReceiver.segment_received_eq by done.
  destruct (TCPReceiver._syn rc || TCPHeader.syn (hdr seg)) eqn:Hs.
  2: { split; [by exists ops, r, delivered|done|done]. }
  destruct (run_written ops r delivered Hok Hrun) as (n & Hn & _ & Hbw).
  assert (Hck' : 0 <= TCPReceiver._ckpt rc <= zlen data).
  { rewrite Hck. unfold TCPReceiver.stream_out, StreamReassembler.stream_out. destruct Hr as (_ & (_ & E & _) & _).
    unfold ByteStream.bytes_written in *. rewrite E, Hbw. lia. }
  assert (Hi : TCPHeader.syn (hdr seg) = false -> TCPReceiver._isn rc = isn0)
    by (intros E; rewrite E, orb_false_r in Hs; by apply His).
  destruct (pushed_same rc r seg start Ha Hr Hck' Hi) as (index & len & Hil & Hp).
  unfold TCPReceiver.accept. revert Hp. generalize (TCPReceiver.pushed rc seg). intros r1 Hp. split; cbn [fst snd].
  - exists (ops ++ [Reassembly.Push index len false]), (push_substring r (substr data index len) (Z.of_nat index) false), delivered.
    rewrite run_snoc, Hrun. split_and!; try done.
    + apply Forall_app. split; [done|]. by constructor.
    + unfold TCPReceiver.accept_with. cbn [TCPReceiver._reassembler]. by destruct (_ =? _).
  - unfold TCPReceiver.accept_with, TCPReceiver.stream_out, StreamReassembler.stream_out. cbn [TCPReceiver._ckpt TCPReceiver._reassembler].
    by destruct (_ =? _).
  - intros _. unfold TCPReceiver.accept_with. cbn [TCPReceiver._isn]. destruct (TCPHeader.syn (hdr seg)) eqn:E; [|by apply Hi].
    destruct Ha as (-> & _ & H0 & _). rewrite (H0 E). by apply wrap_0.
Qed.

Lemma holds_take rc delivered n : holds (rc, delivered) -> holds (receive (rc, delivered) (Take n)).
Proof using Type.
  intros [(ops & r & del & Hok & Hrun & Hr & <-) Hck His]. cbn [fst snd] in *.
  cbn [receive ByteStream.read]. split; cbn [fst snd]; [|exact Hck|exact His].
  exists (ops ++ [Reassembly.Pop n]), (r <| _output := ByteStream.pop_output (_output r) (Z.of_nat n) |>),
    (delivered ++ ByteStream.peek_output (_output r) (Z.of_nat n)).
  rewrite run_snoc, Hrun. destruct Hr as (A1 & A2 & A3 & A4 & A5 & A6). split_and!; try done.
  - apply Forall_app. split; [done|]. by constructor.
  - split_and!; try done. by apply pop_output_proper.
  - unfold ByteStream.peek_output, TCPReceiver.stream_out, StreamReassembler.stream_out. destruct A2 as (_ & _ & _ & ->). done.
Qed.

Lemma holds_fail rc delivered : holds (rc, delivered) -> holds (receive (rc, delivered) Fail).
Proof using Type.
  intros [(ops & r & del & Hok & Hrun & Hr & <-) Hck His]. split; [|exact Hck|exact His].
  exists ops, r, delivered. split_and!; try done; by destruct Hr as (? & (? & ? & ? & ?) & ? & ? & ? & ?).
Qed.

Lemma holds_all l : Forall of_stream l -> holds (receive_all capacity l).
Proof using Hcap HS Hisn.
  unfold receive_all. induction l as [|a l IH] using rev_ind; intros Hl; [apply holds_make|].
  apply Forall_app in Hl as [Hl Ha%Forall_inv]. specialize (IH Hl). rewrite fold_left_app. cbn [fold_left].
  destruct (fold_left receive l _) as [rc delivered]. destruct a as [seg|n|]; [|by apply holds_take|by apply holds_fail].
  destruct Ha as [start Ha]. cbn [receive]. destruct (negb _); [|done]. by eapply holds_deliver.
Qed.
End Contents.

Lemma authentic_same_wire isn data ended start a b :
  same_wire a b -> Sending.authentic isn data ended start b -> Sending.authentic isn data ended start a.
Proof.
  intros (E1 & E2 & E3 & E4). unfold Sending.authentic. by rewrite E1, E2, E3, E4.
Qed.

Lemma prefix_of_sent scapacity rto isn0 s data emitted capacity l rc delivered :
  is_u64 scapacity -> wi_ok isn0 -> Sending.reach scapacity rto isn0 s data emitted ->
  0 < capacity < 2 ^ 31 -> zlen data <= capacity ->
  (forall seg, In (Deliver seg) l -> exists seg0, In seg0 emitted /\ same_wire seg seg0) ->
  receive_all capacity l = (rc, delivered) ->
  exists n, delivered ++ ByteStream.deq (TCPReceiver.stream_out rc) = take n data /\
            ByteStream.bytes_written (TCPReceiver.stream_out rc) = Z.of_nat n.
Proof.
  intros Hsc Hi Hr Hcap HS Hl Hrun.
  destruct (Sending.reach_inv scapacity rto isn0 Hsc Hi s data emitted Hr ltac:(lia)) as [[_ Hg] Eisn].
  assert (Hof : Forall (of_stream data isn0 (ByteStream._end (TCPSender._stream s))) l).
  { apply List.Forall_forall. intros [seg|n|] Ha; try done. destruct (Hl seg Ha) as (seg0 & Hin & Hw).
    apply (proj1 (List.Forall_forall _ _)) with (x := seg0) in Hg; [|apply in_or_app; by left].
    destruct Hg as (start & _ & Hau). exists start. rewrite Eisn in Hau. by apply (authentic_same_wire _ _ _ _ _ seg0). }
  pose proof (holds_all capacity data isn0 _ Hcap HS Hi l Hof) as Hh. rewrite Hrun in Hh.
  destruct Hh as [(ops & r & del & Hok & Hrun' & Hc & E) _ _]. cbn in Hc, E. subst del.
  destruct (run_written capacity data Hcap HS ops r delivered Hok Hrun') as (n & _ & R1 & R2). exists n.
  unfold TCPReceiver.stream_out, StreamReassembler.stream_out, ByteStream.bytes_written in *.
  destruct Hc as (_ & (_ & -> & _ & ->) & _). done.
Qed.

(** A TCP sender, any network, a TCP receiver. Let the sender be used in
    any way (writes, end of input, acknowledgments and ticks of any kind, in
    any order) and let [emitted] be the segments taken from it. Let the network lose,
    duplicate, delay and reorder them at will and fill in acknowledgment
    fields. Then what the receiving application has read, followed by what it
    can still read, is a prefix of what the sending application wrote: nothing
    is corrupted, invented, skipped or delivered twice. (For streams that fit
    the receiver's capacity, where the reassembler is right.) *)
Theorem delivers_prefix scapacity rto isn0 s data emitted capacity l rc delivered :
  is_u64 scapacity -> wi_ok isn0 -> Sending.reach scapacity rto isn0 s data emitted ->
  0 < capacity < 2 ^ 31 -> zlen data <= capacity ->
  (forall seg, In (Deliver seg) l -> exists seg0, In seg0 emitted /\ same_wire seg seg0) ->
  receive_all capacity l = (rc, delivered) ->
  exists n, delivered ++ ByteStream.deq (TCPReceiver.stream_out rc) = take n data /\
            ByteStream.bytes_written (TCPReceiver.stream_out rc) = Z.of_nat n.
Proof. apply prefix_of_sent. Qed.

(** A network that delivers the segments of [emitted] with the numbers [ks]. *)
Definition deliveries (emitted : list TCPSegment.t) (ks : list (nat + nat)) : list arrival :=
  map (fun k => match k with inl k => Deliver (nth k emitted TCPSegment.default) | inr n => Take n end) ks.

Lemma deliveries_emitted emitted ks :
  Forall (fun k => match k with inl k => (k < length emitted)%nat | inr _ => True end) ks ->
  forall seg, In (Deliver seg) (deliveries emitted ks) -> exists seg0, In seg0 emitted /\ same_wire seg seg0.
Proof.
  intros Hk seg Hin. apply in_map_iff in Hin as ([k|n] & E & Hin); [|discriminate]. injection E as <-.
  apply (proj1 (List.Forall_forall _ _) Hk) in Hin. exists (nth k emitted TCPSegment.default).
  split; [by apply nth_In|repeat split].
Qed.

Lemma delivers_prefix_witness :
  let l := deliveries ([] ++ TCPSender._segments_out Sending.demo) [inl 1; inl 0; inr 1; inl 1; inr 3; inl 1]%nat in
  let '(rc, delivered) := receive_all 8 l in
  exists n, delivered ++ ByteStream.deq (TCPReceiver.stream_out rc) = take n Sending.demo_data /\
            ByteStream.bytes_written (TCPReceiver.stream_out rc) = Z.of_nat n.
Proof.
  intros l. destruct (receive_all 8 l) as [rc delivered] eqn:E.
  apply (delivers_prefix 64 1000 Sending.isn9 (Sending.demo <| TCPSender._segments_out := [] |>)
    Sending.demo_data ([] ++ TCPSender._segments_out Sending.demo) 8 l).
  - lia.
  - cbn. lia.
  - apply Sending.r_dequeue_all, Sending.demo_reach.
  - lia.
  - vm_compute. congruence.
  - apply deliveries_emitted. replace (length _) with 2%nat by (by vm_compute).
    repeat (apply Forall_cons_2 || apply Forall_nil_2); lia || exact I.
  - exact E.
Defined.

End Transfer.
