(* ===== verification/tcp_connection.v ===== *)
(** A TCP endpoint ([libsponge/tcp_connection.{hh,cc}]).

    [TCPConnection.t] has the members of the class that its code uses (four
    flags that no function reads or writes are left out); each operation is the
    method of the same name. *)

From S2P Require Import prelude std_algorithms wrapping_integers buffer tcp_segment byte_stream stream_reassembler reassembly tcp_receiver tcp_sender sending transfer.

Module TCPConnection.

Record t := mk {
  _cfg : TCPConfig.t;
  _receiver : TCPReceiver.t;
  _sender : TCPSender.t;
  _segments_out : list TCPSegment.t;
  _linger_after_streams_finish : bool;
  _time_last_segment_received : Z;
  _time : Z;
  _rst_received : bool;
  _rst_to_send : bool;
  _connect_called : bool
}.

#[global] Instance set_receiver : Setter _receiver := fun f c =>
  mk (_cfg c) (f (_receiver c)) (_sender c) (_segments_out c) (_linger_after_streams_finish c)
     (_time_last_segment_received c) (_time c) (_rst_received c) (_rst_to_send c) (_connect_called c).
#[global] Instance set_sender : Setter _sender := fun f c =>
  mk (_cfg c) (_receiver c) (f (_sender c)) (_segments_out c) (_linger_after_streams_finish c)
     (_time_last_segment_received c) (_time c) (_rst_received c) (_rst_to_send c) (_connect_called c).
#[global] Instance set_segments_out : Setter _segments_out := fun f c =>
  mk (_cfg c) (_receiver c) (_sender c) (f (_segments_out c)) (_linger_after_streams_finish c)
     (_time_last_segment_received c) (_time c) (_rst_received c) (_rst_to_send c) (_connect_called c).
#[global] Instance set_linger_after_streams_finish : Setter _linger_after_streams_finish := fun f c =>
  mk (_cfg c) (_receiver c) (_sender c) (_segments_out c) (f (_linger_after_streams_finish c))
     (_time_last_segment_received c) (_time c) (_rst_received c) (_rst_to_send c) (_connect_called c).
#[global] Instance set_time_last_segment_received : Setter _time_last_segment_received := fun f c =>
  mk (_cfg c) (_receiver c) (_sender c) (_segments_out c) (_linger_after_streams_finish c)
     (f (_time_last_segment_received c)) (_time c) (_rst_received c) (_rst_to_send c) (_connect_called c).
#[global] Instance set_time : Setter _time := fun f c =>
  mk (_cfg c) (_receiver c) (_sender c) (_segments_out c) (_linger_after_streams_finish c)
     (_time_last_segment_received c) (f (_time c)) (_rst_received c) (_rst_to_send c) (_connect_called c).
#[global] Instance set_rst_received : Setter _rst_received := fun f c =>
  mk (_cfg c) (_receiver c) (_sender c) (_segments_out c) (_linger_after_streams_finish c)
     (_time_last_segment_received c) (_time c) (f (_rst_received c)) (_rst_to_send c) (_connect_called c).
#[global] Instance set_rst_to_send : Setter _rst_to_send := fun f c =>
  mk (_cfg c) (_receiver c) (_sender c) (_segments_out c) (_linger_after_streams_finish c)
     (_time_last_segment_received c) (_time c) (_rst_received c) (f (_rst_to_send c)) (_connect_called c).
#[global] Instance set_connect_called : Setter _connect_called := fun f c =>
  mk (_cfg c) (_receiver c) (_sender c) (_segments_out c) (_linger_after_streams_finish c)
     (_time_last_segment_received c) (_time c) (_rst_received c) (_rst_to_send c) (f (_connect_called c)).

(** The constructor; [isn] is the initial sequence number of the sender (the
    configured one, or the random one). *)
Definition make (cfg : TCPConfig.t) (isn : WrappingInt32) : t :=
  mk cfg (TCPReceiver.make (TCPConfig.recv_capacity cfg))
     (TCPSender.make (TCPConfig.send_capacity cfg) (TCPConfig.rt_timeout cfg) isn)
     [] true 0 0 false false false.

Definition remaining_outbound_capacity (c : t) : Z := ByteStream.remaining_capacity (TCPSender.stream_in (_sender c)).
Definition bytes_in_flight (c : t) : Z := TCPSender.bytes_in_flight (_sender c).
Definition unassembled_bytes (c : t) : Z := TCPReceiver.unassembled_bytes (_receiver c).
Definition time_since_last_segment_received (c : t) : Z := u64 (_time c - _time_last_segment_received c).
Definition inbound_stream (c : t) : ByteStream.t := TCPReceiver.stream_out (_receiver c).

Definition active (c : t) : bool :=
  if _rst_received c || _rst_to_send c then false
  else if ByteStream.eof (TCPReceiver.stream_out (_receiver c)) && (bytes_in_flight c =? 0) &&
          ByteStream.eof (TCPSender.stream_in (_sender c)) then
    if negb (_linger_after_streams_finish c) then false
    else if 10 * TCPConfig.rt_timeout (_cfg c) <=? time_since_last_segment_received c then false
    else true
  else true.

(** The body of the loop of [send_segments]: the acknowledgment fields. *)
Definition fill_in (c : t) (seg : TCPSegment.t) : TCPSegment.t :=
  let h := TCPSegment.header seg in
  let h := match TCPReceiver.ackno (_receiver c) with
           | Some a => h <| TCPHeader.ack := true |> <| TCPHeader.ackno := a |>
                         <| TCPHeader.win := u16 (Z.min (TCPReceiver.window_size (_receiver c)) (2 ^ 16 - 1)) |>
           | None => h
           end in
  let h := if _rst_to_send c then h <| TCPHeader.rst := true |> else h in
  seg <| TCPSegment._header := h |>.

(** [send_segments]: front to back through the sender's queue. *)
Fixpoint send_loop (queue : list TCPSegment.t) (c : t) : t :=
  match queue with
  | [] => c
  | seg :: queue =>
      let c := c <| _segments_out := _segments_out c ++ [fill_in c seg] |> in
      send_loop queue (c <| _sender := (_sender c) <| TCPSender._segments_out := queue |> |>)
  end.
Definition send_segments (c : t) : t := send_loop (TCPSender._segments_out (_sender c)) c.

Definition connect (c : t) : t :=
  let c := c <| _connect_called := true |> in
  let c := c <| _sender := TCPSender.fill_window (_sender c) |> in
  send_segments c.

(** [_sender.stream_in().set_error(); _receiver.stream_out().set_error();] *)
Definition set_errors (c : t) : t :=
  let c := c <| _sender := TCPSender.with_stream_in (_sender c) ByteStream.set_error |> in
  c <| _receiver := TCPReceiver.with_stream_out (_receiver c) ByteStream.set_error |>.

(** Lines 44-49: does the segment call for an acknowledgment? *)
Definition wants_ack (c : t) (seg : TCPSegment.t) : bool :=
  match TCPReceiver.ackno (_receiver c) with
  | Some a => (TCPSegment.length_in_sequence_space seg =? 0) &&
              wi_eq (TCPHeader.seqno (TCPSegment.header seg)) (wi_sub a 1)
  | None => false
  end || (0 <? TCPSegment.length_in_sequence_space seg).

Definition segment_received (c : t) (seg : TCPSegment.t) : t :=
  let header := TCPSegment.header seg in
  let c := if TCPHeader.ack header
           then c <| _sender := TCPSender.ack_received (_sender c) (TCPHeader.ackno header) (TCPHeader.win header) |>
           else c in
  let c := if negb (TCPSegment.length_in_sequence_space seg =? 0)
           then c <| _receiver := TCPReceiver.segment_received (_receiver c) seg |> else c in
  if TCPHeader.syn header && negb (TCPHeader.ack header) && negb (_connect_called c) then connect c
  else
  let c := if TCPHeader.rst header && _connect_called c && active c
           then set_errors (c <| _rst_received := true |>) else c in
  let c := c <| _time_last_segment_received := _time c |> in
  let c := if wants_ack c seg then c <| _sender := TCPSender.send_empty_segment (_sender c) |> else c in
  let c := if TCPHeader.fin header && negb (ByteStream.eof (TCPSender.stream_in (_sender c)))
           then c <| _linger_after_streams_finish := false |> else c in
  send_segments c.

Definition write (c : t) (data : list byte) : t * Z :=
  let '(st, ans) := ByteStream.write (TCPSender.stream_in (_sender c)) data in
  let c := c <| _sender := TCPSender.with_stream_in (_sender c) (fun _ => st) |> in
  let c := c <| _sender := TCPSender.fill_window (_sender c) |> in
  (send_segments c, ans).

Definition tick (c : t) (ms_since_last_tick : Z) : t :=
  let c := c <| _time := u64 (_time c + ms_since_last_tick) |> in
  let c := c <| _sender := TCPSender.tick (_sender c) ms_since_last_tick |> in
  let c := if TCPConfig.MAX_RETX_ATTEMPTS <? TCPSender.consecutive_retransmissions (_sender c)
           then set_errors (c <| _rst_to_send := true |>) else c in
  send_segments c.

Definition end_input_stream (c : t) : t :=
  let c := c <| _sender := TCPSender.with_stream_in (_sender c) ByteStream.end_input |> in
  let c := c <| _sender := TCPSender.fill_window (_sender c) |> in
  send_segments c.

(** The destructor. *)
Definition destroy (c : t) : t :=
  if active c then
    let c := set_errors (c <| _rst_to_send := true |>) in
    let c := c <| _sender := TCPSender.send_empty_segment (_sender c) |> in
    send_segments c
  else c.

(** ** Sending *)

Lemma send_loop_eq queue c :
  TCPSender._segments_out (_sender c) = queue ->
  send_loop queue c =
    c <| _segments_out := _segments_out c ++ map (fill_in c) queue |>
      <| _sender := (_sender c) <| TCPSender._segments_out := [] |> |>.
Proof.
  revert c. induction queue as [|seg queue IH]; intros c E; cbn [send_loop map].
  - rewrite app_nil_r. destruct c as [? ? [] ? ? ? ? ? ? ?]. cbn in E. by subst.
  - rewrite IH by done. cbn. rewrite <- app_assoc. done.
Qed.

Lemma send_segments_eq c :
  send_segments c =
    c <| _segments_out := _segments_out c ++ map (fill_in c) (TCPSender._segments_out (_sender c)) |>
      <| _sender := (_sender c) <| TCPSender._segments_out := [] |> |>.
Proof. by apply send_loop_eq. Qed.

(** Filling in the acknowledgment leaves what concerns the stream alone. *)
Lemma fill_in_same_wire c seg : Transfer.same_wire (fill_in c seg) seg.
Proof.
  unfold fill_in, Transfer.same_wire. destruct (TCPReceiver.ackno _), (_rst_to_send c); done.
Qed.

End TCPConnection.
