(* ===== verification/connection.v ===== *)
(** What a TCP endpoint guarantees: its sender and receiver behave as their
    specifications say whatever the owner and the network do, two endpoints
    deliver each other's streams, and connections end when they should. *)

From S2P Require Import prelude std_algorithms wrapping_integers buffer tcp_segment byte_stream stream_reassembler reassembly tcp_receiver tcp_sender sending transfer tcp_connection.

Module Connection.
Import TCPConnection.

Section Endpoint.
Context (cfg : TCPConfig.t) (isn0 : WrappingInt32).

(** [reach c written emitted received delivered]: a state of the endpoint, the
    bytes its owner has written, the segments it has put on the network, the
    segments it was given and the bytes its owner has read, after any
    sequence of calls. *)
Inductive reach : t -> list byte -> list TCPSegment.t -> list TCPSegment.t -> list byte -> Prop :=
  | c_init : reach (make cfg isn0) [] [] [] []
  | c_connect c w e r d : reach c w e r d -> reach (connect c) w e r d
  | c_write c w e r d data :
      reach c w e r d -> ByteStream.input_ended (TCPSender.stream_in (_sender c)) = false ->
      reach (write c data).1 (w ++ take (Z.to_nat (write c data).2) data) e r d
  | c_end c w e r d : reach c w e r d -> reach (end_input_stream c) w e r d
  | c_tick c w e r d ms : reach c w e r d -> 0 <= ms -> reach (tick c ms) w e r d
  | c_segment c w e r d seg :
      reach c w e r d ->
      (TCPHeader.ack (TCPSegment.header seg) = true ->
       Sending.ack_sane (_sender c) (TCPHeader.ackno (TCPSegment.header seg)) /\
       is_u16 (TCPHeader.win (TCPSegment.header seg))) ->
      reach (segment_received c seg) w e (r ++ [seg]) d
  | c_read c w e r d n :
      reach c w e r d ->
      reach (c <| _receiver := TCPReceiver.with_stream_out (_receiver c)
                                 (fun o => ByteStream.pop_output o (Z.of_nat n)) |>) w e r
            (d ++ ByteStream.peek_output (inbound_stream c) (Z.of_nat n))
  | c_destroy c w e r d : reach c w e r d -> reach (destroy c) w e r d
  | c_dequeue c w e r d seg q :
      reach c w e r d -> _segments_out c = seg :: q ->
      reach (c <| _segments_out := q |>) w (e ++ [seg]) r d.

Abbreviation sender_reach := (Sending.reach (TCPConfig.send_capacity cfg) (TCPConfig.rt_timeout cfg) isn0).

(** The sender and the receiver are used the way their own theorems allow. *)
Definition well_used (c : t) (w : list byte) (e r : list TCPSegment.t) (d : list byte) : Prop :=
  (exists em, sender_reach (_sender c) w em /\
     forall seg, In seg (e ++ _segments_out c) -> exists seg0, In seg0 em /\ Transfer.same_wire seg seg0) /\
  (exists arr, Transfer.receive_all (TCPConfig.recv_capacity cfg) arr = (_receiver c, d) /\
     forall seg, In (Transfer.Deliver seg) arr -> In seg r).

Lemma use_sender c w e r d s' w' :
  well_used c w e r d -> (forall em, sender_reach (_sender c) w em -> sender_reach s' w' em) ->
  well_used (c <| _sender := s' |>) w' e r d.
Proof using Type.
  intros [(em & Hs & He) Hr] Hstep. split; [|done]. exists em. split; [by apply Hstep|done].
Qed.

Lemma use_receiver c w e r d a r' d' :
  well_used c w e r d -> (forall seg, a = Transfer.Deliver seg -> In seg r') -> incl r r' ->
  (Transfer.receive (_receiver c, d) a).2 = d' ->
  well_used (c <| _receiver := (Transfer.receive (_receiver c, d) a).1 |>) w e r' d'.
Proof using Type.
  intros [Hs (arr & Er & Hr)] Ha Hi Ed. split; [done|]. exists (arr ++ [a]).
  unfold Transfer.receive_all in *. rewrite fold_left_app. cbn [fold_left]. rewrite Er. split.
  - destruct (Transfer.receive _ _) as [rc d2]. by rewrite <- Ed.
  - intros seg [?|[?|[]]]%in_app_or; [by apply Hi, Hr|by apply Ha].
Qed.

Lemma use_send_segments c w e r d : well_used c w e r d -> well_used (send_segments c) w e r d.
Proof using Type.
  intros [(em & Hs & He) Hr]. rewrite send_segments_eq. split; [|done].
  exists (em ++ TCPSender._segments_out (_sender c)). split; [by apply Sending.r_dequeue_all|]. cbn.
  intros seg Hin. rewrite app_assoc in Hin. apply in_app_or in Hin as [Hin|Hin].
  - destruct (He seg Hin) as (seg0 & ? & ?). exists seg0. split; [apply in_or_app; by left|done].
  - apply in_map_iff in Hin as (seg0 & <- & Hin). exists seg0. split; [apply in_or_app; by right|].
    apply fill_in_same_wire.
Qed.

Lemma use_fill c w e r d : well_used c w e r d -> well_used (c <| _sender := TCPSender.fill_window (_sender c) |>) w e r d.
Proof using Type. intros H. eapply use_sender; [done|]. intros. by apply Sending.r_fill. Qed.

Lemma use_connect c w e r d : well_used c w e r d -> well_used (connect c) w e r d.
Proof using Type. intros H. unfold connect. apply use_send_segments, use_fill. done. Qed.

Lemma use_set_errors c w e r d : well_used c w e r d -> well_used (set_errors c) w e r d.
Proof using Type.
  intros H. unfold set_errors.
  assert (H1 : well_used (c <| _sender := TCPSender.with_stream_in (_sender c) ByteStream.set_error |>) w e r d)
    by (eapply use_sender; [done|]; intros; by apply Sending.r_error).
  apply (use_receiver _ w e r d Transfer.Fail r d) in H1; [exact H1|done|by intros ?|done].
Qed.

Lemma use_empty c w e r d :
  well_used c w e r d -> well_used (c <| _sender := TCPSender.send_empty_segment (_sender c) |>) w e r d.
Proof using Type. intros H. eapply use_sender; [done|]. intros. by apply Sending.r_empty. Qed.

Lemma use_segment c w e r d seg :
  well_used c w e r d ->
  (TCPHeader.ack (TCPSegment.header seg) = true ->
   Sending.ack_sane (_sender c) (TCPHeader.ackno (TCPSegment.header seg)) /\
   is_u16 (TCPHeader.win (TCPSegment.header seg))) ->
  well_used (segment_received c seg) w e (r ++ [seg]) d.
Proof using Type.
  intros H Hack. unfold segment_received. set (h := TCPSegment.header seg) in *.
  set (c1 := if TCPHeader.ack h then _ else c).
  assert (H1 : well_used c1 w e r d).
  { unfold c1. destruct (TCPHeader.ack h); [|done]. destruct (Hack eq_refl).
    eapply use_sender; [done|]. intros. by apply Sending.r_ack. }
  clearbody c1. clear H Hack.
  assert (H2 : well_used (c1 <| _receiver := (Transfer.receive (_receiver c1, d) (Transfer.Deliver seg)).1 |>) w e (r ++ [seg]) d).
  { apply (use_receiver c1 w e r d); [done| |by intros x Hx; apply in_or_app; left|done].
    intros s [= <-]. apply in_or_app. right. by left. }
  cbn [Transfer.receive fst] in H2. set (c2 := if negb (_ =? 0) then c1 <| _receiver := _ |> else c1).
  assert (H3 : well_used c2 w e (r ++ [seg]) d).
  { unfold c2. destruct (negb _); [done|]. by destruct c1. }
  clearbody c2. clear H1 H2. destruct (_ && _ && _); [by apply use_connect|].
  set (c3 := if _ && _ && active c2 then _ else c2).
  assert (H4 : well_used c3 w e (r ++ [seg]) d).
  { unfold c3. destruct (_ && _); [|done]. by apply use_set_errors. }
  clearbody c3. apply use_send_segments. set (c4 := c3 <| _time_last_segment_received := _ |>).
  assert (H5 : well_used c4 w e (r ++ [seg]) d) by done. clearbody c4.
  set (c5 := if wants_ack c4 seg then _ else c4).
  assert (H6 : well_used c5 w e (r ++ [seg]) d) by (unfold c5; destruct (wants_ack _ _); [by apply use_empty|done]).
  clearbody c5. by destruct (_ && _).
Qed.

Lemma reach_well_used c w e r d : reach c w e r d -> well_used c w e r d.
Proof using Type.
  induction 1 as [|c w e r d _ IH|c w e r d data _ IH He|c w e r d _ IH|c w e r d ms _ IH Hms|c w e r d seg _ IH Ha
    |c w e r d n _ IH|c w e r d _ IH|c w e r d seg q _ IH Eq].
  - split; [exists []; split; [apply Sending.r_init|by intros ? []]|]. exists []. split; [done|by intros ? []].
  - by apply use_connect.
  - unfold write. destruct (ByteStream.write _ data) as [st n] eqn:Ew. apply use_send_segments, use_fill.
    eapply use_sender; [done|]. intros em Hs. pose proof (Sending.r_write _ _ _ _ _ _ data Hs He) as Hw.
    unfold TCPSender.with_stream_in in *. unfold TCPSender.stream_in in Ew. by rewrite Ew in Hw.
  - apply use_send_segments, use_fill. eapply use_sender; [done|]. intros. by apply Sending.r_end.
  - unfold tick. apply use_send_segments. set (c1 := c <| _time := _ |> <| _sender := _ |>).
    assert (H1 : well_used c1 w e r d).
    { apply (use_sender (c <| _time := _ |>) w e r d); [done|]. intros. by apply Sending.r_tick. }
    change (c <| _time := _ |> <| _sender := _ |>) with c1. clearbody c1. destruct (_ <? _); [|done]. by apply use_set_errors.
  - by apply use_segment.
  - by apply (use_receiver c w e r d (Transfer.Take n) r _ IH); [done|by intros ?|].
  - unfold destroy. destruct (active c); [|done]. by apply use_send_segments, use_empty, use_set_errors.
  - destruct IH as [(em & Hs & He) Hr]. split; [|done]. exists em. split; [done|]. cbn. rewrite <- app_assoc. by rewrite Eq in He.
Qed.

(** The outbound stream is the sender's of some state its theorems are about. *)
Lemma sender_inv c w e r d :
  is_u64 (TCPConfig.send_capacity cfg) -> wi_ok isn0 -> reach c w e r d -> zlen w < 2 ^ 62 -> Sending.inv w (_sender c).
Proof using Type.
  intros Hc Hi Hr Hw. destruct (reach_well_used _ _ _ _ _ Hr) as [(em & Hs & _) _].
  by destruct (Sending.reach_inv _ _ _ Hc Hi _ _ _ Hs Hw) as [[? _] _].
Qed.
End Endpoint.

(** ** What calls leave alone *)

Abbreviation out_ended c := (ByteStream.input_ended (TCPSender.stream_in (_sender c))).

Lemma send_segments_sender c : _sender (send_segments c) = (_sender c) <| TCPSender._segments_out := [] |>.
Proof. by rewrite send_segments_eq. Qed.

Lemma connect_ended c : out_ended (connect c) = out_ended c.
Proof.
  unfold connect. rewrite send_segments_sender. exact (Sending.fill_window_ended (_sender c)).
Qed.

Lemma set_errors_sender c :
  out_ended (set_errors c) = out_ended c /\ TCPSender._next_seqno (_sender (set_errors c)) = TCPSender._next_seqno (_sender c) /\
  _connect_called (set_errors c) = _connect_called c.
Proof. done. Qed.

Lemma write_ended c data : out_ended (write c data).1 = out_ended c.
Proof.
  unfold write. destruct (ByteStream.write _ data) as [st n] eqn:Ew. cbn [fst]. rewrite send_segments_sender.
  change (ByteStream._end (TCPSender._stream (TCPSender.fill_window (TCPSender.with_stream_in (_sender c) (fun _ => st)))) = out_ended c).
  rewrite Sending.fill_window_ended. unfold ByteStream.write in Ew. injection Ew as <- _. done.
Qed.

Lemma tick_out_ended c ms : out_ended (tick c ms) = out_ended c.
Proof.
  unfold tick. rewrite send_segments_sender. pose proof (Sending.tick_ended (_sender c) ms) as H. by destruct (_ <? _).
Qed.

(** What a received segment does, up to [send_segments]. *)
Lemma segment_received_cases c seg :
  let c1 := if TCPHeader.ack (TCPSegment.header seg)
            then c <| _sender := TCPSender.ack_received (_sender c) (TCPHeader.ackno (TCPSegment.header seg))
                                   (TCPHeader.win (TCPSegment.header seg)) |> else c in
  let c' := segment_received c seg in
  (TCPHeader.syn (TCPSegment.header seg) = true /\ TCPHeader.ack (TCPSegment.header seg) = false /\ _connect_called c = false /\
   exists c2, _sender c2 = _sender c1 /\ c' = connect c2) \/
  ((TCPHeader.syn (TCPSegment.header seg) = true -> TCPHeader.ack (TCPSegment.header seg) = false -> _connect_called c = true) /\
   _connect_called c' = _connect_called c /\ out_ended c' = out_ended c1 /\
   TCPSender._next_seqno (_sender c') = TCPSender._next_seqno (_sender c1)).
Proof.
  intros c1. unfold segment_received. fold c1. set (c2 := if negb (_ =? 0) then _ else c1).
  assert (E2 : _sender c2 = _sender c1 /\ _connect_called c2 = _connect_called c1) by (unfold c2; by destruct (negb _)).
  assert (E1 : _connect_called c1 = _connect_called c) by (unfold c1; by destruct (TCPHeader.ack _)).
  clearbody c2. destruct E2 as [E2 E2'].
  destruct (TCPHeader.syn (TCPSegment.header seg) && negb (TCPHeader.ack (TCPSegment.header seg)) && negb (_connect_called c2)) eqn:Eb.
  - left. apply andb_true_iff in Eb as [[Es Ea]%andb_true_iff Ec]. rewrite negb_true_iff in Ea, Ec. split_and!; try done; [congruence|].
    by exists c2.
  - right. rewrite <- E1, <- E2', <- E2. split.
    { intros Es Ea. rewrite Es, Ea in Eb. by destruct (_connect_called c2). }
    clear. set (c3 := if _ && _ && active c2 then _ else c2).
    assert (E3 : _connect_called c3 = _connect_called c2 /\ out_ended c3 = out_ended c2 /\
      TCPSender._next_seqno (_sender c3) = TCPSender._next_seqno (_sender c2)) by (unfold c3; by destruct (_ && _)).
    clearbody c3. destruct E3 as (<- & <- & <-). rewrite send_segments_eq. set (c4 := setter _ c3).
    assert (E4 : _connect_called c4 = _connect_called c3 /\ _sender c4 = _sender c3) by done. clearbody c4.
    destruct E4 as [<- <-]. by destruct (wants_ack c4 seg), (_ && _).
Qed.

Lemma segment_received_ended c seg : out_ended (segment_received c seg) = out_ended c.
Proof.
  pose proof (segment_received_cases c seg) as H. cbv zeta in H. set (c1 := if TCPHeader.ack _ then _ else c) in H.
  assert (E : out_ended c1 = out_ended c).
  { unfold c1. destruct (TCPHeader.ack _); [|done]. apply Sending.ack_received_ended. }
  clearbody c1. destruct H as [(_ & _ & _ & c2 & E2 & ->)|(_ & _ & -> & _)]; [|done]. by rewrite connect_ended, E2.
Qed.

Section Started.
Context (cfg : TCPConfig.t) (isn0 : WrappingInt32).
Context (Hcap : is_u64 (TCPConfig.send_capacity cfg)) (Hisn : wi_ok isn0).

Lemma sender_fill_started s w em :
  Sending.reach (TCPConfig.send_capacity cfg) (TCPConfig.rt_timeout cfg) isn0 s w em -> zlen w < 2 ^ 62 ->
  TCPSender._next_seqno (TCPSender.fill_window s) <> 0.
Proof using Hcap Hisn.
  intros Hs Hw. destruct (Sending.reach_inv _ _ _ Hcap Hisn _ _ _ Hs Hw) as [[Hi _] _]. by eapply Sending.fill_window_started.
Qed.

(** Every operation that fills the window sends the SYN, and none takes it back. *)
Section Operations.
Context c w e r d (Hr : reach cfg isn0 c w e r d).

Lemma connect_started : zlen w < 2 ^ 62 -> TCPSender._next_seqno (_sender (connect c)) <> 0.
Proof using Hcap Hisn Hr.
  intros Hw. destruct (reach_well_used _ _ _ _ _ _ _ Hr) as [(em & Hs & _) _]. unfold connect. rewrite send_segments_sender.
  exact (sender_fill_started _ _ _ Hs Hw).
Qed.

Lemma write_started data : out_ended c = false -> zlen (w ++ take (Z.to_nat (write c data).2) data) < 2 ^ 62 ->
  TCPSender._next_seqno (_sender (write c data).1) <> 0.
Proof using Hcap Hisn Hr.
  intros He. destruct (reach_well_used _ _ _ _ _ _ _ Hr) as [(em & Hs & _) _].
  pose proof (Sending.r_write _ _ _ _ _ _ data Hs He) as Hs'. unfold write. unfold TCPSender.with_stream_in in *.
  change (TCPSender.stream_in (_sender c)) with (TCPSender._stream (_sender c)).
  destruct (ByteStream.write (TCPSender._stream (_sender c)) data) as [st n]. cbn [fst snd] in *. intros Hw.
  rewrite send_segments_sender. exact (sender_fill_started _ _ _ Hs' Hw).
Qed.

Lemma end_started : zlen w < 2 ^ 62 -> TCPSender._next_seqno (_sender (end_input_stream c)) <> 0.
Proof using Hcap Hisn Hr.
  intros Hw. destruct (reach_well_used _ _ _ _ _ _ _ Hr) as [(em & Hs & _) _]. unfold end_input_stream. rewrite send_segments_sender.
  exact (sender_fill_started _ _ _ (Sending.r_end _ _ _ _ _ _ Hs) Hw).
Qed.

Lemma tick_started ms : TCPSender._next_seqno (_sender (tick c ms)) = TCPSender._next_seqno (_sender c).
Proof using Type.
  unfold tick. rewrite send_segments_sender.
  assert (E : TCPSender._next_seqno (TCPSender.tick (_sender c) ms) = TCPSender._next_seqno (_sender c)).
  { unfold TCPSender.tick. destruct (TCPSender._timestamps_outstanding (_sender c)); [done|]. cbv zeta. by repeat case_if. }
  destruct (_ <? _); exact E.
Qed.

Lemma segment_started seg :
  zlen w < 2 ^ 62 ->
  (TCPHeader.ack (TCPSegment.header seg) = true ->
   Sending.ack_sane (_sender c) (TCPHeader.ackno (TCPSegment.header seg)) /\ is_u16 (TCPHeader.win (TCPSegment.header seg))) ->
  (_connect_called (segment_received c seg) = _connect_called c -> TCPSender._next_seqno (_sender c) <> 0) ->
  TCPSender._next_seqno (_sender (segment_received c seg)) <> 0.
Proof using Hcap Hisn Hr.
  intros Hw Hack Hn. destruct (reach_well_used _ _ _ _ _ _ _ Hr) as [(em & Hs & _) _].
  destruct (Sending.reach_inv _ _ _ Hcap Hisn _ _ _ Hs Hw) as [[Hi _] _].
  pose proof (segment_received_cases c seg) as H. cbv zeta in H. set (c1 := if TCPHeader.ack _ then _ else c) in H.
  assert (Hs1 : Sending.reach (TCPConfig.send_capacity cfg) (TCPConfig.rt_timeout cfg) isn0 (_sender c1) w em).
  { unfold c1. destruct (TCPHeader.ack _); [|done]. destruct (Hack eq_refl). by apply Sending.r_ack. }
  assert (Hn1 : TCPSender._next_seqno (_sender c) <> 0 -> TCPSender._next_seqno (_sender c1) <> 0).
  { intros Hn0. unfold c1. destruct (TCPHeader.ack _); [|done]. destruct (Hack eq_refl). by eapply Sending.ack_received_started. }
  clearbody c1. destruct H as [(_ & _ & _ & c2 & E2 & ->)|(_ & Ec & _ & ->)].
  - unfold connect. rewrite send_segments_sender. rewrite <- E2 in Hs1. exact (sender_fill_started _ _ _ Hs1 Hw).
  - by apply Hn1, Hn.
Qed.
End Operations.

(** A connection on which [connect] was called has sent its SYN. *)
Lemma reach_started c w e r d :
  reach cfg isn0 c w e r d -> zlen w < 2 ^ 62 -> _connect_called c = true -> TCPSender._next_seqno (_sender c) <> 0.
Proof using Hcap Hisn.
  induction 1 as [|c w e r d Hr IH|c w e r d data Hr IH He|c w e r d Hr IH|c w e r d ms Hr IH Hm|c w e r d seg Hr IH Hack
    |c w e r d n Hr IH|c w e r d Hr IH|c w e r d seg q Hr IH Eq]; intros Hw Hc; try (by apply IH); [done|..].
  - by eapply connect_started.
  - by eapply write_started.
  - by eapply end_started.
  - rewrite tick_started. apply IH; [done|]. revert Hc. unfold tick. rewrite send_segments_eq. by destruct (_ <? _).
  - eapply segment_started; [done..|]. intros E. apply IH; [done|congruence].
  - unfold destroy in *. destruct (active c); [|by apply IH]. rewrite send_segments_sender. rewrite send_segments_eq in Hc. by apply IH.
Qed.
End Started.

(** Two endpoints, and a network that delivers only what was sent, up to the
    header fields that do not concern the stream. *)
Lemma endpoints_prefix cfgA isnA cA wA eA rA dA cfgB isnB cB wB eB rB dB :
  reach cfgA isnA cA wA eA rA dA -> reach cfgB isnB cB wB eB rB dB ->
  is_u64 (TCPConfig.send_capacity cfgA) -> wi_ok isnA ->
  0 < TCPConfig.recv_capacity cfgB < 2 ^ 31 -> zlen wA <= TCPConfig.recv_capacity cfgB ->
  (forall seg, In seg rB -> exists seg0, In seg0 eA /\ Transfer.same_wire seg seg0) ->
  exists n, dB ++ ByteStream.deq (inbound_stream cB) = take n wA /\
            ByteStream.bytes_written (inbound_stream cB) = Z.of_nat n.
Proof.
  intros HA HB Hsc Hi Hrc Hlen Hnet.
  destruct (reach_well_used _ _ _ _ _ _ _ HA) as [(em & Hs & He) _].
  destruct (reach_well_used _ _ _ _ _ _ _ HB) as [_ (arr & Er & Hr)].
  eapply (Transfer.prefix_of_sent (TCPConfig.send_capacity cfgA) (TCPConfig.rt_timeout cfgA) isnA (_sender cA) wA em
    (TCPConfig.recv_capacity cfgB) arr); try done.
  intros seg Hin. destruct (Hnet seg (Hr seg Hin)) as (seg1 & H1 & W1).
  destruct (He seg1 ltac:(apply in_or_app; by left)) as (seg0 & H0 & W0). exists seg0. split; [done|].
  destruct W1 as (? & ? & ? & ?), W0 as (? & ? & ? & ?). repeat split; congruence.
Qed.

(** C4. Two TCP endpoints and any network between them. Let each endpoint be
    used in any way (connecting or listening, writing, reading, closing, timer
    ticks, destruction) and let the network deliver to B, any number of times and
    in any order, only segments that A has sent (losing any of them). Then what B's owner
    has read, followed by what it can still read, is a prefix of what A's owner
    wrote. (A's stream fits B's receive capacity; nobody writes after closing;
    an endpoint that has not sent its SYN is not sent an acknowledgment of it.) *)
Theorem endpoints_deliver_prefix cfgA isnA cA wA eA rA dA cfgB isnB cB wB eB rB dB :
  reach cfgA isnA cA wA eA rA dA -> reach cfgB isnB cB wB eB rB dB ->
  is_u64 (TCPConfig.send_capacity cfgA) -> wi_ok isnA ->
  0 < TCPConfig.recv_capacity cfgB < 2 ^ 31 -> zlen wA <= TCPConfig.recv_capacity cfgB ->
  (forall seg, In seg rB -> In seg eA) ->
  exists n, dB ++ ByteStream.deq (inbound_stream cB) = take n wA /\
            ByteStream.bytes_written (inbound_stream cB) = Z.of_nat n.
Proof.
  intros HA HB Hsc Hi Hrc Hlen Hnet. eapply endpoints_prefix; try done.
  intros seg Hin. exists seg. split; [by apply Hnet|repeat split].
Qed.

(** ** The end of a connection *)

(** Anything that can happen to an endpoint. *)
Inductive event :=
  | Connect
  | Write (data : list byte)
  | EndInput
  | Tick (ms : Z)
  | Segment (seg : TCPSegment.t)
  | Read (n : Z)
  | Dequeue
  | Destroy.

Definition step (c : t) (ev : event) : t :=
  match ev with
  | Connect => connect c
  | Write data => (write c data).1
  | EndInput => end_input_stream c
  | Tick ms => tick c ms
  | Segment seg => segment_received c seg
  | Read n => c <| _receiver := TCPReceiver.with_stream_out (_receiver c) (fun o => ByteStream.pop_output o n) |>
  | Dequeue => c <| _segments_out := tail (_segments_out c) |>
  | Destroy => destroy c
  end.
Definition run (c : t) (evs : list event) : t := fold_left step evs c.

(** The flags that survive [send_segments]. *)
Lemma send_segments_frame c :
  _rst_received (send_segments c) = _rst_received c /\ _rst_to_send (send_segments c) = _rst_to_send c /\
  _receiver (send_segments c) = _receiver c /\ _time (send_segments c) = _time c /\ _cfg (send_segments c) = _cfg c /\
  _linger_after_streams_finish (send_segments c) = _linger_after_streams_finish c /\
  _connect_called (send_segments c) = _connect_called c /\
  _time_last_segment_received (send_segments c) = _time_last_segment_received c.
Proof. by rewrite send_segments_eq. Qed.

Definition reset (c : t) : bool := _rst_received c || _rst_to_send c.

Lemma reset_inactive c : reset c = true -> active c = false.
Proof. unfold reset, active. by intros ->. Qed.

Lemma reset_send_segments c : reset (send_segments c) = reset c.
Proof. by rewrite send_segments_eq. Qed.

Lemma reset_step c ev : reset c = true -> reset (step c ev) = true.
Proof.
  intros H. destruct ev as [|data| |ms|seg|n| |]; cbn [step]; try done.
  - unfold connect. by rewrite reset_send_segments.
  - unfold write. destruct (ByteStream.write _ _). cbn [fst]. by rewrite reset_send_segments.
  - unfold end_input_stream. by rewrite reset_send_segments.
  - unfold tick. rewrite reset_send_segments. destruct (_ <? _); [|done].
    unfold reset, set_errors. cbn. apply orb_true_r.
  - unfold segment_received. set (c1 := if TCPHeader.ack _ then _ else c).
    assert (H1 : reset c1 = true) by (unfold c1; by destruct (TCPHeader.ack _)). clearbody c1.
    set (c2 := if negb _ then _ else c1). assert (H2 : reset c2 = true) by (unfold c2; by destruct (negb _)). clearbody c2.
    destruct (_ && _ && _); [unfold connect; by rewrite reset_send_segments|]. rewrite reset_send_segments.
    rewrite (reset_inactive c2 H2), andb_false_r. set (c3 := c2 <| _time_last_segment_received := _ |>).
    assert (H3 : reset c3 = true) by done. clearbody c3.
    set (c4 := if wants_ack c3 seg then _ else c3). assert (H4 : reset c4 = true) by (unfold c4; by destruct (wants_ack _ _)).
    clearbody c4. by destruct (_ && _).
  - unfold destroy. by rewrite reset_inactive.
Qed.

(** Once reset, always dead: after a RST was received or decided, no
    sequence of calls whatsoever makes the connection active again. *)
Theorem reset_is_final c evs : reset c = true -> active (run c evs) = false.
Proof.
  intros H. apply reset_inactive. unfold run. revert c H. induction evs as [|ev evs IH]; intros c H; [done|].
  cbn [fold_left]. by apply IH, reset_step.
Qed.

(** The first lines of [segment_received] (17-28): the acknowledgment relayed
    to the sender and the segment to the receiver. *)
Definition relayed (c : t) (seg : TCPSegment.t) : t :=
  let header := TCPSegment.header seg in
  let c := if TCPHeader.ack header
           then c <| _sender := TCPSender.ack_received (_sender c) (TCPHeader.ackno header) (TCPHeader.win header) |>
           else c in
  if negb (TCPSegment.length_in_sequence_space seg =? 0)
  then c <| _receiver := TCPReceiver.segment_received (_receiver c) seg |> else c.

(** Both streams are over and everything sent is acknowledged. *)
Definition shut_down (c : t) : bool :=
  ByteStream.eof (inbound_stream c) && (bytes_in_flight c =? 0) && ByteStream.eof (TCPSender.stream_in (_sender c)).

Lemma relayed_frame c seg :
  reset (relayed c seg) = reset c /\ _connect_called (relayed c seg) = _connect_called c.
Proof. unfold relayed. by destruct (TCPHeader.ack _), (negb _). Qed.

Lemma inactive_shut_down c : reset c = false -> active c = false -> shut_down c = true.
Proof. unfold reset, active, shut_down, inbound_stream. intros ->. by destruct (_ && _ && _). Qed.

(** C22. Receiving a RST, of whatever kind (with or without acknowledgment,
    payload, SYN or FIN), on a connection that was opened and is alive: once
    the segment's acknowledgment and payload have been taken in, the
    connection is killed: it is reset, not active, and both streams are in
    error. The one exception is a segment whose own acknowledgment or payload
    has just completed a clean shutdown and left the connection inactive: its
    RST flag is ignored. *)
Theorem rst_received c seg :
  TCPHeader.rst (TCPSegment.header seg) = true -> _connect_called c = true -> active c = true ->
  let c' := segment_received c seg in
  if active (relayed c seg)
  then reset c' = true /\ active c' = false /\ ByteStream.error (inbound_stream c') = true /\
       ByteStream.error (TCPSender.stream_in (_sender c')) = true
  else shut_down (relayed c seg) = true /\ reset c' = false.
Proof.
  intros Hr Hc Hact c'. pose proof (relayed_frame c seg) as [F1 F2]. rewrite Hc in F2.
  assert (Hr0 : reset c = false) by (apply not_true_iff_false; intros H%reset_inactive; congruence).
  assert (E : c' = let c1 := relayed c seg in
    let c1 := if active c1 then set_errors (c1 <| _rst_received := true |>) else c1 in
    let c1 := c1 <| _time_last_segment_received := _time c1 |> in
    let c1 := if wants_ack c1 seg then c1 <| _sender := TCPSender.send_empty_segment (_sender c1) |> else c1 in
    let c1 := if TCPHeader.fin (TCPSegment.header seg) && negb (ByteStream.eof (TCPSender.stream_in (_sender c1)))
              then c1 <| _linger_after_streams_finish := false |> else c1 in
    send_segments c1).
  { unfold c', segment_received. fold (relayed c seg). rewrite F2, Hr, andb_false_r. done. }
  rewrite E. clear E c'. revert F1 F2. generalize (relayed c seg). intros c0 F1 F2. cbv zeta.
  set (c1 := if active c0 then _ else c0). set (c2 := c1 <| _time_last_segment_received := _time c1 |>).
  set (c3 := if wants_ack c2 seg then _ else c2). set (c4 := if _ && _ then _ else c3).
  assert (G : reset c4 = reset c1 /\ inbound_stream c4 = inbound_stream c1 /\
    TCPSender.stream_in (_sender c4) = TCPSender.stream_in (_sender c1)).
  { assert (G3 : reset c3 = reset c1 /\ inbound_stream c3 = inbound_stream c1 /\
      TCPSender.stream_in (_sender c3) = TCPSender.stream_in (_sender c1)) by (unfold c3; by destruct (wants_ack c2 seg)).
    unfold c4. by destruct (TCPHeader.fin _ && _). }
  clearbody c4. clear c3 c2. destruct G as (G1 & G2 & G3). subst c1. destruct (active c0) eqn:Ea.
  - assert (Hf : reset (send_segments c4) = true) by (by rewrite reset_send_segments, G1).
    split; [done|]. split; [by apply reset_inactive|]. rewrite send_segments_eq.
    change (inbound_stream (setter _ _)) with (inbound_stream c4).
    change (TCPSender.stream_in (_sender (setter _ _))) with (TCPSender.stream_in (_sender c4)). by rewrite G2, G3.
  - split; [apply inactive_shut_down; [by rewrite F1|done]|]. by rewrite reset_send_segments, G1, F1.
Qed.

(** Time passes, one timeout of the sender at a time. *)
Fixpoint timeouts (k : nat) (c : t) : t :=
  match k with O => c | S k => timeouts k (tick c (TCPSender._curr_RTO (_sender c))) end.

(** [n] timeouts since the last progress: [seg] is the oldest outstanding
    segment, and the peer's window is open. *)
Record waiting (seg : TCPSegment.t) (n : Z) (c : t) : Prop := {
  w_segs : exists segs, TCPSender._segments_outstanding (_sender c) = seg :: segs;
  w_stamps : exists t0 ts, TCPSender._timestamps_outstanding (_sender c) = t0 :: ts /\
             0 <= t0 <= TCPSender._time (_sender c);
  w_count : TCPSender._consec_retrans (_sender c) = n;
  w_time : 0 <= TCPSender._time (_sender c);
  w_rto : 0 < TCPSender._curr_RTO (_sender c);
  w_window : TCPSender._window_size (_sender c) <> 0
}.

(** The clock stays within 64 bits for [k] timeouts. *)
Definition clock_room (k : nat) (c : t) : Prop :=
  TCPSender._curr_RTO (_sender c) * 2 ^ Z.of_nat k < 2 ^ 64 /\
  TCPSender._time (_sender c) + TCPSender._curr_RTO (_sender c) * (2 ^ Z.of_nat k - 1) < 2 ^ 64.

Lemma clock_room_mono m k c :
  0 < TCPSender._curr_RTO (_sender c) -> (k <= m)%nat -> clock_room m c -> clock_room k c.
Proof.
  intros Hr Hk [R1 R2]. assert (2 ^ Z.of_nat k <= 2 ^ Z.of_nat m) by (apply Z.pow_le_mono_r; lia). split; nia.
Qed.

Lemma timeout_step seg n k c :
  waiting seg n c -> clock_room (S k) c -> 0 <= n < 100 ->
  let c' := tick c (TCPSender._curr_RTO (_sender c)) in
  waiting seg (n + 1) c' /\ clock_room k c' /\ bytes_in_flight c' = bytes_in_flight c /\
  (n < 8 -> reset c' = reset c) /\
  (8 <= n -> reset c' = true /\ ByteStream.error (inbound_stream c') = true /\
     ByteStream.error (TCPSender.stream_in (_sender c')) = true /\
     exists q sg, _segments_out c' = q ++ [sg] /\ TCPHeader.rst (TCPSegment.header sg) = true /\ Transfer.same_wire sg seg).
Proof.
  intros [[segs Hs] (t0 & ts & Ht & Ht0) Hn Htm Hr Hw] [R1 R2] Hb c'. replace (Z.of_nat (S k)) with (1 + Z.of_nat k) in * by lia.
  rewrite Z.pow_add_r in * by lia. change (2 ^ 1) with 2 in *. assert (0 < 2 ^ Z.of_nat k) by (apply Z.pow_pos_nonneg; lia).
  unfold c', tick. rewrite send_segments_eq.
  rewrite (Sending.tick_expires (_sender c) seg segs t0 ts) by (try done; unfold Sending.clock_ok; nia).
  rewrite Hn, (u32_id (n + 1)), (u64_id (TCPSender._curr_RTO _ * 2)) by nia.
  change (TCPSender.consecutive_retransmissions _) with (n + 1). unfold TCPConfig.MAX_RETX_ATTEMPTS.
  destruct (Z.ltb_spec 8 (n + 1)).
  - split_and!; try lia; try done.
    + split; cbn -[Z.mul Z.add]; try done; try nia; [by eexists|]. do 2 eexists. split; [done|nia].
    + split; cbn -[Z.mul Z.add Z.pow Z.sub]; nia.
    + intros _. split_and!; try done; [cbn; apply orb_true_r|]. set (c2 := set_errors _).
      assert (Hq : TCPSender._segments_out (_sender c2) = TCPSender._segments_out (_sender c) ++ [seg]) by done.
      assert (Hf : _rst_to_send c2 = true) by done. rewrite Hq, map_app. clearbody c2.
      exists (_segments_out c2 ++ map (fill_in c2) (TCPSender._segments_out (_sender c))), (fill_in c2 seg).
      split; [cbn; by rewrite app_assoc|]. split; [|apply fill_in_same_wire].
      unfold fill_in. rewrite Hf. by destruct (TCPReceiver.ackno _).
  - split_and!; try lia; try done.
    + split; cbn -[Z.mul Z.add]; try done; try nia; [by eexists|]. do 2 eexists. split; [done|nia].
    + split; cbn -[Z.mul Z.add Z.pow Z.sub]; nia.
Qed.

Lemma timeouts_waiting seg k n c :
  waiting seg n c -> clock_room k c -> 0 <= n -> n + Z.of_nat k <= 8 ->
  waiting seg (n + Z.of_nat k) (timeouts k c) /\ bytes_in_flight (timeouts k c) = bytes_in_flight c /\
  reset (timeouts k c) = reset c.
Proof.
  revert n c. induction k as [|k IH]; intros n c Hw Hc Hn Hk; cbn [timeouts]; [by rewrite Z.add_0_r|].
  destruct (timeout_step seg n k c Hw Hc ltac:(lia)) as (A & B & C & D & _). rewrite <- C, <- D by lia.
  replace (n + Z.of_nat (S k)) with (n + 1 + Z.of_nat k) by lia. apply IH; done || lia.
Qed.

Lemma timeouts_last k c :
  timeouts (S k) c = tick (timeouts k c) (TCPSender._curr_RTO (_sender (timeouts k c))).
Proof. revert c. induction k as [|k IH]; intros c; [done|]. exact (IH (tick c (TCPSender._curr_RTO (_sender c)))). Qed.

Lemma clock_room_timeouts seg j k n c :
  waiting seg n c -> clock_room (k + j) c -> 0 <= n -> n + Z.of_nat k <= 8 -> clock_room j (timeouts k c).
Proof.
  revert n c. induction k as [|k IH]; intros n c Hw Hc Hn Hk; cbn [timeouts]; [done|].
  destruct (timeout_step seg n (k + j) c Hw Hc ltac:(lia)) as (A & B & _). apply (IH (n + 1)); done || lia.
Qed.

#[local] Opaque timeouts.

(** A closed window: ticks count no retransmissions, however many there are
    and however long they take. *)
Lemma tick_closed c ms :
  TCPSender._window_size (_sender c) = 0 ->
  TCPSender._consec_retrans (_sender c) <= 8 ->
  let c' := tick c ms in
  TCPSender._window_size (_sender c') = 0 /\
  TCPSender._consec_retrans (_sender c') = TCPSender._consec_retrans (_sender c) /\
  reset c' = reset c /\ bytes_in_flight c' = bytes_in_flight c.
Proof.
  intros Hw Hn c'. unfold c', tick. rewrite send_segments_eq.
  assert (Ht : TCPSender._window_size (TCPSender.tick (_sender c) ms) = 0 /\
    TCPSender._consec_retrans (TCPSender.tick (_sender c) ms) = TCPSender._consec_retrans (_sender c) /\
    TCPSender._bytes_flying (TCPSender.tick (_sender c) ms) = TCPSender._bytes_flying (_sender c)).
  { unfold TCPSender.tick. destruct (TCPSender._timestamps_outstanding _); [done|]. cbn -[u64 u32].
    destruct (_ <=? _); [|done]. by rewrite Hw. }
  destruct Ht as (T1 & T2 & T3). unfold TCPConfig.MAX_RETX_ATTEMPTS, TCPSender.consecutive_retransmissions.
  destruct (Z.ltb_spec 8 (TCPSender._consec_retrans (_sender (setter (fun _ => TCPSender.tick (_sender (setter (fun _ => u64 (_time c + ms)) c)) ms)
    (setter (fun _ => u64 (_time c + ms)) c))))) as [H|H]; [cbn in H; lia|]. done.
Qed.

(** While the peer's window is closed the connection never gives up: whatever
    time passes, in whatever ticks, a connection with something in flight
    stays active. *)
Theorem closed_window_persists c mss :
  TCPSender._window_size (_sender c) = 0 -> TCPSender._consec_retrans (_sender c) <= 8 ->
  bytes_in_flight c <> 0 -> reset c = false -> active (fold_left tick mss c) = true.
Proof.
  revert c. induction mss as [|ms mss IH]; intros c Hw Hn Hf Hr; cbn [fold_left].
  - unfold active. fold (reset c). rewrite Hr. destruct (Z.eqb_spec (bytes_in_flight c) 0); [done|]. by rewrite andb_false_r.
  - destruct (tick_closed c ms Hw Hn) as (A1 & A2 & A3 & A4). apply IH; congruence.
Qed.

(** C21. Giving up: with a segment outstanding, the peer's window open, [n]
    retransmissions counted so far (at most 8) and no acknowledgment, the
    connection survives the [8 - n] timeouts the configuration still allows;
    the next one resets it: both streams are in error, it is not active, and
    the segment it retransmits carries the RST flag. (The timeouts must fit
    the 64-bit clock. A closed window is different: no retransmission is
    counted and the connection never gives up, [closed_window_persists].) *)
Theorem gives_up c seg n :
  waiting seg n c -> 0 <= n <= 8 -> clock_room 9 c -> bytes_in_flight c <> 0 -> reset c = false ->
  let k := Z.to_nat (8 - n) in
  active (timeouts k c) = true /\
  let c' := timeouts (S k) c in
  active c' = false /\ ByteStream.error (inbound_stream c') = true /\
  ByteStream.error (TCPSender.stream_in (_sender c')) = true /\
  exists q sg, _segments_out c' = q ++ [sg] /\ TCPHeader.rst (TCPSegment.header sg) = true /\ Transfer.same_wire sg seg.
Proof.
  intros Hw Hn Hc Hf Hr k. assert (Hk : (k <= 8)%nat /\ n + Z.of_nat k = 8) by lia. destruct Hk as [Hk En].
  assert (H9 : clock_room (k + 1) c) by (destruct Hw; apply (clock_room_mono 9); done || lia).
  assert (H8 : clock_room k c) by (destruct Hw; apply (clock_room_mono 9); done || lia). clearbody k.
  destruct (timeouts_waiting seg k n c Hw H8) as (A & B & D); [lia|lia|].
  pose proof (clock_room_timeouts seg 1 k n c Hw H9 ltac:(lia) ltac:(lia)) as Hl. rewrite En in A. split.
  - unfold active. fold (reset (timeouts k c)). rewrite D, Hr, B. destruct (Z.eqb_spec (bytes_in_flight c) 0); [done|].
    by rewrite andb_false_r.
  - cbv zeta. rewrite (timeouts_last k c). generalize dependent (timeouts k c). intros c8 A B D Hl.
    destruct (timeout_step seg 8 0 c8 A Hl) as (_ & _ & _ & _ & E); [lia|].
    destruct (E ltac:(lia)) as (E1 & E2 & E3 & E4). split; [by apply reset_inactive|done].
Qed.

(** Both streams have ended and everything sent is acknowledged. *)
Definition finished (c : t) : Prop :=
  reset c = false /\ ByteStream.eof (inbound_stream c) = true /\
  ByteStream.eof (TCPSender.stream_in (_sender c)) = true /\
  bytes_in_flight c = 0 /\ TCPSender._timestamps_outstanding (_sender c) = [] /\
  TCPSender._consec_retrans (_sender c) = 0 /\
  0 <= _time_last_segment_received c <= _time c.

(** A tick of a finished connection. *)
Lemma tick_finished c ms :
  finished c -> 0 <= ms -> _time c + ms < 2 ^ 64 ->
  active (tick c ms) =
    _linger_after_streams_finish c &&
    (_time c + ms - _time_last_segment_received c <? 10 * TCPConfig.rt_timeout (_cfg c)) /\
  _receiver (tick c ms) = _receiver c /\ _sender (tick c ms) = (_sender c) <| TCPSender._segments_out := [] |> /\
  _linger_after_streams_finish (tick c ms) = _linger_after_streams_finish c.
Proof.
  intros (Hr & Hi & Ho & Hf & Ht & Hc & Htm) Hms Hov.
  assert (Et : TCPSender.tick (_sender c) ms = _sender c) by (unfold TCPSender.tick; by rewrite Ht).
  unfold tick. change (_sender (setter _ c)) with (_sender c). rewrite Et.
  set (c1 := setter _ (setter _ c)). assert (E1 : TCPSender.consecutive_retransmissions (_sender c1) = 0) by exact Hc.
  rewrite E1. change (TCPConfig.MAX_RETX_ATTEMPTS <? 0) with false. cbv iota. subst c1.
  rewrite send_segments_eq. split; [|done]. unfold reset, inbound_stream, bytes_in_flight, TCPSender.bytes_in_flight in *.
  unfold active, bytes_in_flight, TCPSender.bytes_in_flight, time_since_last_segment_received.
  cbn -[u64 ByteStream.eof Z.mul]. unfold TCPSender.stream_in in *. cbn -[u64 ByteStream.eof Z.mul].
  rewrite Hr, Hi, Hf, Ho. cbn [andb Z.eqb]. rewrite (u64_id (_time c + ms)), u64_id by lia.
  destruct (_linger_after_streams_finish c); cbn [negb andb]; [|done].
  destruct (Z.leb_spec (10 * TCPConfig.rt_timeout (_cfg c)) (_time c + ms - _time_last_segment_received c)),
    (Z.ltb_spec (_time c + ms - _time_last_segment_received c) (10 * TCPConfig.rt_timeout (_cfg c))); done || lia.
Qed.


(** ** The three-way handshake *)

#[local] Opaque TCPReceiver.segment_received TCPSender.ack_received.

(** The owner has taken every queued segment. *)
Definition drained (c : t) : t := c <| _segments_out := [] |>.

(** A sender whose SYN is out, and one whose SYN is acknowledged with window [w]. *)
Definition syn_of (isn : WrappingInt32) : TCPSegment.t :=
  TCPSegment.mk (TCPHeader.default <| TCPHeader.syn := true |> <| TCPHeader.seqno := isn |>) Buffer.empty.
Definition syn_sent (cfg : TCPConfig.t) (isn : WrappingInt32) (out : list TCPSegment.t) : TCPSender.t :=
  TCPSender.mk isn out (TCPConfig.rt_timeout cfg) (ByteStream.make (TCPConfig.send_capacity cfg)) 1
    (TCPConfig.rt_timeout cfg) [syn_of isn] [1] [0] 1 1 0 0 0 0 false.
Definition syn_acked (cfg : TCPConfig.t) (isn : WrappingInt32) (w : Z) : TCPSender.t :=
  TCPSender.mk isn [] (TCPConfig.rt_timeout cfg) (ByteStream.make (TCPConfig.send_capacity cfg)) 1
    (TCPConfig.rt_timeout cfg) [] [] [] 0 w 0 1 0 0 false.

Lemma fill_window_syn cfg isn :
  TCPSender.fill_window (TCPSender.make (TCPConfig.send_capacity cfg) (TCPConfig.rt_timeout cfg) isn)
  = syn_sent cfg isn [syn_of isn].
Proof. done. Qed.

Lemma ack_received_syn cfg isn w :
  wi_ok isn -> is_u16 w -> TCPSender.ack_received (syn_sent cfg isn []) (wrap 1 isn) w = syn_acked cfg isn w.
Proof.
  #[local] Transparent TCPSender.ack_received.
  intros Hi Hw. unfold TCPSender.ack_received. cbn [syn_sent TCPSender._isn TCPSender._stream ByteStream.bytes_read ByteStream.bytes_readed ByteStream.make].
  rewrite unwrap_near by (done || lia). cbn -[TCPSender.fill_window u64].
  rewrite !(u64_id (_ + _)), !(u64_id (_ - _)) by (rewrite ?u64_id; lia).
  change ((0 + 2 <? 1) || false || (0 + 1 <? 1)) with false. cbv iota. assert (E : TCPSender.fill_window (syn_acked cfg isn w) = syn_acked cfg isn w).
  { unfold TCPSender.fill_window. cbn. by destruct w. }
  unfold syn_acked in E. destruct (_ || _); [exact E|done].
Qed.

#[local] Opaque TCPSender.ack_received.

(** A receiver that has got the bare SYN of [isn]. *)
Record listening (rc : TCPReceiver.t) (cap : Z) (isn : WrappingInt32) : Prop := {
  l_ackno : TCPReceiver.ackno rc = Some (wrap 1 isn);
  l_window : TCPReceiver.window_size rc = cap;
  l_open : ByteStream.eof (TCPReceiver.stream_out rc) = false;
  l_ended : ByteStream.input_ended (TCPReceiver.stream_out rc) = false
}.

Lemma syn_received cap seg :
  0 < cap < 2 ^ 31 -> wi_ok (TCPHeader.seqno (TCPSegment.header seg)) -> TCPHeader.syn (TCPSegment.header seg) = true ->
  TCPHeader.fin (TCPSegment.header seg) = false -> Buffer.copy (TCPSegment.payload seg) = [] ->
  listening (TCPReceiver.segment_received (TCPReceiver.make cap) seg) cap (TCPHeader.seqno (TCPSegment.header seg)).
Proof.
  intros Hc Hi Hs Hf Hp.
  pose proof (TCPReceiver.established_syn cap (TCPHeader.seqno (TCPSegment.header seg)) Hc seg Hs Hf eq_refl Hp) as He.
  destruct (TCPReceiver.established_window cap (TCPHeader.seqno (TCPSegment.header seg)) Hc _ _ _ He) as [Ew _].
  revert He Ew. generalize (TCPReceiver.segment_received (TCPReceiver.make cap) seg). intros rc He Ew. destruct He. split.
  - unfold TCPReceiver.ackno. by rewrite est_syn, est_ack.
  - rewrite Ew. destruct est_wf. unfold StreamReassembler.stream_out. rewrite ByteStream.remaining_capacity_eq by done.
    cbn in est_bytes. rewrite <- est_bytes. cbn. lia.
  - unfold ByteStream.eof, ByteStream.input_ended, TCPReceiver.stream_out, StreamReassembler.stream_out.
    rewrite est_open. apply andb_false_r.
  - exact est_open.
Qed.

(** The two segments that answer a SYN; [w] is the window they announce. *)
Definition window_of (cfg : TCPConfig.t) : Z := u16 (Z.min (TCPConfig.recv_capacity cfg) (2 ^ 16 - 1)).
Definition synack_of (w : Z) (isnA isnB : WrappingInt32) : TCPSegment.t :=
  TCPSegment.mk (TCPHeader.default <| TCPHeader.syn := true |> <| TCPHeader.seqno := isnB |>
     <| TCPHeader.ack := true |> <| TCPHeader.ackno := wrap 1 isnA |> <| TCPHeader.win := w |>) Buffer.empty.
Definition ack_of (w : Z) (isnA isnB : WrappingInt32) : TCPSegment.t :=
  TCPSegment.mk (TCPHeader.default <| TCPHeader.seqno := wrap 1 isnA |>
     <| TCPHeader.ack := true |> <| TCPHeader.ackno := wrap 1 isnB |> <| TCPHeader.win := w |>) Buffer.empty.

(** The receiver after the peer's SYN. *)
Definition received_syn (cfg : TCPConfig.t) (seg : TCPSegment.t) : TCPReceiver.t :=
  TCPReceiver.segment_received (TCPReceiver.make (TCPConfig.recv_capacity cfg)) seg.

(** An acknowledgment without RST and FIN on a connection. *)
Lemma segment_received_ack c seg sn rc :
  TCPHeader.ack (TCPSegment.header seg) = true -> TCPHeader.rst (TCPSegment.header seg) = false ->
  TCPHeader.fin (TCPSegment.header seg) = false ->
  TCPSender.ack_received (_sender c) (TCPHeader.ackno (TCPSegment.header seg)) (TCPHeader.win (TCPSegment.header seg)) = sn ->
  (if negb (TCPSegment.length_in_sequence_space seg =? 0) then TCPReceiver.segment_received (_receiver c) seg else _receiver c) = rc ->
  let c1 := c <| _sender := sn |> <| _receiver := rc |> <| _time_last_segment_received := _time c |> in
  segment_received c seg =
    send_segments (if wants_ack c1 seg then c1 <| _sender := TCPSender.send_empty_segment sn |> else c1).
Proof.
  intros Ha Hr Hf <- <-. unfold segment_received. rewrite Ha, Hr, Hf, andb_false_r. cbn [andb].
  by destruct (negb (TCPSegment.length_in_sequence_space seg =? 0)).
Qed.

Section Handshake.
Context (cfgA cfgB : TCPConfig.t) (isnA isnB : WrappingInt32) (wA wB : Z).
Context (HA : wi_ok isnA) (HB : wi_ok isnB) (HwA : is_u16 wA) (HwB : is_u16 wB).
Context (EwA : window_of cfgA = wA) (EwB : window_of cfgB = wB).
Context (rA rB : TCPReceiver.t).
Context (LA : listening rA (TCPConfig.recv_capacity cfgA) isnB) (LB : listening rB (TCPConfig.recv_capacity cfgB) isnA).
Context (ErB : received_syn cfgB (syn_of isnA) = rB) (ErA : received_syn cfgA (synack_of wB isnA isnB) = rA).

Lemma after_connect :
  connect (make cfgA isnA) = mk cfgA (TCPReceiver.make (TCPConfig.recv_capacity cfgA)) (syn_sent cfgA isnA [])
     [syn_of isnA] true 0 0 false false true.
Proof using Type. done. Qed.

Lemma after_syn :
  segment_received (make cfgB isnB) (syn_of isnA) =
    mk cfgB rB (syn_sent cfgB isnB []) [synack_of wB isnA isnB] true 0 0 false false true.
Proof using LB ErB EwB.
  destruct LB as [L1 L2 _ _]. unfold received_syn in ErB. unfold window_of in EwB.
  unfold segment_received, connect. change (TCPSegment.length_in_sequence_space (syn_of isnA)) with 1.
  rewrite send_segments_eq. cbn -[fill_in TCPReceiver.make TCPReceiver.ackno TCPReceiver.window_size]. rewrite ErB.
  unfold fill_in. cbn -[TCPReceiver.make TCPReceiver.ackno TCPReceiver.window_size u16 Z.min]. by rewrite L1, L2, EwB.
Qed.

Lemma after_synack a1 :
  a1 = mk cfgA (TCPReceiver.make (TCPConfig.recv_capacity cfgA)) (syn_sent cfgA isnA []) [] true 0 0 false false true ->
  segment_received a1 (synack_of wB isnA isnB) =
    mk cfgA rA (syn_acked cfgA isnA wB) [ack_of wA isnA isnB] true 0 0 false false true.
Proof using HA HwB LA ErA EwA.
  intros ->. destruct LA as [L1 L2 _ _]. unfold window_of in EwA.
  rewrite (segment_received_ack
    (mk cfgA (TCPReceiver.make (TCPConfig.recv_capacity cfgA)) (syn_sent cfgA isnA []) [] true 0 0 false false true) (synack_of wB isnA isnB) (syn_acked cfgA isnA wB) rA eq_refl eq_refl eq_refl (ack_received_syn cfgA isnA wB HA HwB) ErA).
  unfold wants_ack. rewrite orb_true_r, send_segments_eq. unfold fill_in.
  cbn -[TCPReceiver.ackno TCPReceiver.window_size u16 Z.min]. by rewrite L1, L2, EwA.
Qed.

Lemma after_ack b1 :
  b1 = mk cfgB rB (syn_sent cfgB isnB []) [] true 0 0 false false true ->
  segment_received b1 (ack_of wA isnA isnB) = mk cfgB rB (syn_acked cfgB isnB wA) [] true 0 0 false false true.
Proof using HB HwA LB.
  intros ->. destruct LB as [L1 _ _ _].
  rewrite (segment_received_ack (mk cfgB rB (syn_sent cfgB isnB []) [] true 0 0 false false true) (ack_of wA isnA isnB) (syn_acked cfgB isnB wA) rB eq_refl eq_refl eq_refl (ack_received_syn cfgB isnB wA HB HwA) eq_refl).
  assert (E : wi_eq (wrap 1 isnA) (wrap (1 - 1) isnA) = false).
  { apply not_true_iff_false. intros H%wi_eq_spec%wrap_inj_iff. by vm_compute in H. }
  unfold wants_ack. cbn [_receiver setter set_receiver set_sender set_time_last_segment_received]. rewrite L1, wi_sub_wrap.
  cbn [TCPSegment.header ack_of TCPHeader.seqno setter]. 
  rewrite send_segments_eq. cbn -[wi_eq wrap]. by rewrite E.
Qed.
End Handshake.

Lemma window_of_eq cfg : 0 < TCPConfig.recv_capacity cfg -> window_of cfg = Z.min (TCPConfig.recv_capacity cfg) 65535.
Proof. intros H. unfold window_of. apply u16_id. lia. Qed.

(** The states of a handshake. *)
Lemma handshake_run cfgA cfgB isnA isnB :
  wi_ok isnA -> wi_ok isnB ->
  0 < TCPConfig.recv_capacity cfgA < 2 ^ 31 -> 0 < TCPConfig.recv_capacity cfgB < 2 ^ 31 ->
  let syn := syn_of isnA in
  let synack := synack_of (window_of cfgB) isnA isnB in
  let ack := ack_of (window_of cfgA) isnA isnB in
  let a1 := connect (make cfgA isnA) in
  let b1 := segment_received (make cfgB isnB) syn in
  exists rA rB, listening rA (TCPConfig.recv_capacity cfgA) isnB /\ listening rB (TCPConfig.recv_capacity cfgB) isnA /\
    rA = received_syn cfgA synack /\ rB = received_syn cfgB syn /\
    a1 = mk cfgA (TCPReceiver.make (TCPConfig.recv_capacity cfgA)) (syn_sent cfgA isnA []) [syn] true 0 0 false false true /\
    b1 = mk cfgB rB (syn_sent cfgB isnB []) [synack] true 0 0 false false true /\
    segment_received (drained a1) synack = mk cfgA rA (syn_acked cfgA isnA (window_of cfgB)) [ack] true 0 0 false false true /\
    segment_received (drained b1) ack = mk cfgB rB (syn_acked cfgB isnB (window_of cfgA)) [] true 0 0 false false true.
Proof.
  intros HA HB HcA HcB syn synack ack a1 b1.
  pose proof (syn_received _ syn HcB HA eq_refl eq_refl eq_refl) as LB.
  pose proof (syn_received _ synack HcA HB eq_refl eq_refl eq_refl) as LA.
  assert (HwA : is_u16 (window_of cfgA)) by apply u16_range. assert (HwB : is_u16 (window_of cfgB)) by apply u16_range.
  exists (received_syn cfgA synack), (received_syn cfgB syn).
  split; [exact LA|]. split; [exact LB|]. do 2 (split; [done|]). split; [exact (after_connect cfgA isnA)|].
  split; [exact (after_syn cfgB isnA isnB _ eq_refl _ LB eq_refl)|].
  split; [exact (after_synack cfgA isnA isnB _ _ HA HwB eq_refl _ LA eq_refl _ (f_equal drained (after_connect cfgA isnA)))|].
  exact (after_ack cfgB isnA isnB _ HB HwA _ LB _ (f_equal drained (after_syn cfgB isnA isnB _ eq_refl _ LB eq_refl))).
Qed.

(** C20. The three-way handshake, for every pair of initial sequence numbers
    and every configuration (with receive capacities between 1 byte and 2 GiB):
    one segment each way and a final acknowledgment,
    after which both senders have nothing in flight, each receiver
    acknowledges the peer's SYN, each sender knows the peer's window, nothing
    more is sent, and both connections are active. *)
Theorem handshake cfgA cfgB isnA isnB :
  wi_ok isnA -> wi_ok isnB ->
  0 < TCPConfig.recv_capacity cfgA < 2 ^ 31 -> 0 < TCPConfig.recv_capacity cfgB < 2 ^ 31 ->
  exists syn synack ack,
  let a1 := connect (make cfgA isnA) in
  let b1 := segment_received (make cfgB isnB) syn in
  let a2 := segment_received (drained a1) synack in
  let b2 := segment_received (drained b1) ack in
  _segments_out a1 = [syn] /\ _segments_out b1 = [synack] /\ _segments_out a2 = [ack] /\ _segments_out b2 = [] /\
  bytes_in_flight a2 = 0 /\ bytes_in_flight b2 = 0 /\
  TCPReceiver.ackno (_receiver a2) = Some (wrap 1 isnB) /\ TCPReceiver.ackno (_receiver b2) = Some (wrap 1 isnA) /\
  TCPSender._window_size (_sender a2) = Z.min (TCPConfig.recv_capacity cfgB) 65535 /\
  TCPSender._window_size (_sender b2) = Z.min (TCPConfig.recv_capacity cfgA) 65535 /\
  active a2 = true /\ active b2 = true.
Proof.
  intros HA HB HcA HcB.
  destruct (handshake_run cfgA cfgB isnA isnB HA HB HcA HcB) as (rA & rB & [LA1 _ LA3 _] & [LB1 _ LB3 _] & _ & _ & -> & E1 & E2 & E3).
  exists (syn_of isnA), (synack_of (window_of cfgB) isnA isnB), (ack_of (window_of cfgA) isnA isnB). cbv zeta.
  rewrite E2, E3, E1. clear E1 E2 E3.
  split_and!; try done; try (apply window_of_eq; lia); unfold active; cbn -[ByteStream.eof]; rewrite ?LA3, ?LB3; done.
Qed.

#[local] Transparent TCPReceiver.segment_received TCPSender.ack_received.

(** ** Witnesses *)

Definition cfg8 : TCPConfig.t := TCPConfig.mk 1000 8 8 None.
Definition isn5 : WrappingInt32 := mkWrappingInt32 5.
Definition isn7 : WrappingInt32 := mkWrappingInt32 (2 ^ 32 - 7).
Definition bare_rst : TCPSegment.t := TCPSegment.mk (TCPHeader.default <| TCPHeader.rst := true |>) Buffer.empty.

Lemma reset_is_final_witness :
  active (run (segment_received (connect (make cfg8 isn5)) bare_rst) [Tick 5; Connect; Write [x61]; EndInput]) = false.
Proof. apply reset_is_final. by vm_compute. Defined.

Lemma rst_received_witness :
  let c := connect (make cfg8 isn5) in
  let seg := fill_in (segment_received (make cfg8 isn7) (syn_of isn5)) bare_rst in
  TCPHeader.ack (TCPSegment.header seg) = true /\
  let c' := segment_received c seg in
  if active (relayed c seg)
  then reset c' = true /\ active c' = false /\ ByteStream.error (inbound_stream c') = true /\
       ByteStream.error (TCPSender.stream_in (_sender c')) = true
  else shut_down (relayed c seg) = true /\ reset c' = false.
Proof. intros c seg. split; [by vm_compute|]. apply (rst_received c seg); by vm_compute. Defined.

Lemma gives_up_witness :
  active (timeouts 8 (drained (connect (make cfg8 isn5)))) = true /\
  active (timeouts 9 (drained (connect (make cfg8 isn5)))) = false.
Proof.
  assert (Hw : waiting (syn_of isn5) 0 (drained (connect (make cfg8 isn5)))).
  { split; try (by vm_compute); [by eexists|]. do 2 eexists. split; [reflexivity|]. by vm_compute. }
  assert (Hc : clock_room 9 (drained (connect (make cfg8 isn5)))) by (split; by vm_compute).
  assert (Hf : bytes_in_flight (drained (connect (make cfg8 isn5))) <> 0) by (by vm_compute).
  assert (Hr : reset (drained (connect (make cfg8 isn5))) = false) by (by vm_compute).
  pose proof (gives_up _ _ 0 Hw ltac:(lia) Hc Hf Hr) as H. exact (conj (proj1 H) (proj1 (proj2 H))).
Defined.


Lemma handshake_witness :
  exists syn synack, _segments_out (connect (make cfg8 isn5)) = [syn] /\
    _segments_out (segment_received (make cfg8 isn7) syn) = [synack].
Proof.
  destruct (handshake cfg8 cfg8 isn5 isn7) as (syn & synack & ack & H1 & H2 & _);
    [vm_compute; split; congruence..|]. exists syn, synack. exact (conj H1 H2).
Defined.

(** Taking everything that is queued. *)
Lemma c_dequeue_all cfg isn c w e r d :
  reach cfg isn c w e r d -> reach cfg isn (drained c) w (e ++ _segments_out c) r d.
Proof.
  unfold drained. remember (_segments_out c) as q eqn:Eq. revert c e Eq. induction q as [|seg q IH]; intros c e Eq Hr.
  - rewrite app_nil_r. replace (c <| _segments_out := [] |>) with c; [done|]. rewrite Eq. by destruct c.
  - pose proof (c_dequeue cfg isn c w e r d seg q Hr (eq_sym Eq)) as H1.
    specialize (IH (c <| _segments_out := q |>) _ eq_refl H1). by rewrite <- app_assoc in IH.
Qed.

(** A connects, B answers, A writes "abc", B gets the data twice. *)
Definition a1 : t := connect (make cfg8 isn5).
Definition b1 : t := segment_received (make cfg8 isn7) (syn_of isn5).
Definition synack : TCPSegment.t := hd TCPSegment.default (_segments_out b1).
Definition a2 : t := (write (segment_received (drained a1) synack) [x61; x62; x63]).1.
Definition data_seg : TCPSegment.t := nth 1 (_segments_out a2) TCPSegment.default.
Definition b2 : t := segment_received (segment_received (drained b1) data_seg) data_seg.

Lemma a2_reach :
  reach cfg8 isn5 (drained a2) [x61; x62; x63] (([] ++ _segments_out a1) ++ _segments_out a2) ([] ++ [synack]) [].
Proof.
  assert (Ew : ([] ++ take (Z.to_nat (write (segment_received (drained a1) synack) [x61; x62; x63]).2) [x61; x62; x63])
    = [x61; x62; x63]) by (by vm_compute). rewrite <- Ew.
  apply c_dequeue_all, c_write; [|by vm_compute]. apply c_segment; [apply c_dequeue_all, c_connect, c_init|].
  intros _. split; [|vm_compute; split; congruence]. split; [vm_compute; split; congruence|by vm_compute].
Qed.

Lemma b2_reach :
  reach cfg8 isn7 b2 [] ([] ++ _segments_out b1) ((([] ++ [syn_of isn5]) ++ [data_seg]) ++ [data_seg]) [].
Proof.
  apply c_segment; [apply c_segment; [apply c_dequeue_all, c_segment; [apply c_init|by vm_compute]|]|].
  all: intros _; (split; [|vm_compute; split; congruence]); (split; [vm_compute; split; congruence|by vm_compute]).
Qed.

Lemma data_seg_sent : In data_seg (_segments_out a2).
Proof.
  assert (H : (1 < length (_segments_out a2))%nat) by (apply Nat.ltb_lt; by vm_compute).
  exact (nth_In (_segments_out a2) TCPSegment.default H).
Qed.

Lemma syn_sent_first : In (syn_of isn5) ([] ++ _segments_out a1).
Proof. assert (E : _segments_out a1 = [syn_of isn5]) by (by vm_compute). rewrite E. by left. Qed.

Lemma b2_from_a2 seg :
  In seg ((([] ++ [syn_of isn5]) ++ [data_seg]) ++ [data_seg]) -> In seg (([] ++ _segments_out a1) ++ _segments_out a2).
Proof.
  pose proof data_seg_sent as Hd. pose proof syn_sent_first as Hs. revert Hd Hs. generalize data_seg (_segments_out a2).
  intros x l Hd Hs Hin. apply in_or_app. destruct Hin as [<-|[<-|[<-|[]]]]; [by left|by right|by right].
Qed.

Lemma endpoints_deliver_prefix_witness :
  ByteStream.deq (inbound_stream b2) = [x61; x62; x63] /\
  exists n, [] ++ ByteStream.deq (inbound_stream b2) = take n [x61; x62; x63] /\
            ByteStream.bytes_written (inbound_stream b2) = Z.of_nat n.
Proof.
  split; [by vm_compute|].
  refine (endpoints_deliver_prefix cfg8 isn5 _ _ _ _ _ cfg8 isn7 b2 _ _ _ [] a2_reach b2_reach _ _ _ _ b2_from_a2);
    try (vm_compute; split; congruence). by vm_compute.
Defined.

End Connection.
