(* ===== verification/progress.v ===== *)
(** Two connections on a line that loses nothing and keeps the order: everything
    that is written arrives, whatever its length, and the connections finish.

    The queue of a connection is a [flow] of its stream: segments that carry the
    stream on from where the peer stands, and segments that repeat what the peer
    has. The first part is about a sender, the second about a connection that is
    handed such a flow. *)

From S2P Require Import prelude std_algorithms wrapping_integers buffer tcp_segment byte_stream stream_reassembler reassembly tcp_receiver tcp_sender sending in_order transfer tcp_connection connection.

Module Progress.
Import InOrder.
Abbreviation seg_len seg := (TCPSegment.length_in_sequence_space seg).
Abbreviation next s := (TCPSender._next_seqno s).
Abbreviation ack s := (TCPSender._ack_abs s).
Abbreviation stream_ended s := (ByteStream._end (TCPSender._stream s)).

(** How far back a repeated segment or acknowledgment may lie. *)
Definition recent : Z := 2 ^ 20.

(** ** Flows *)

(** The segment of the stream at [start]. *)
Definition piece (isn : WrappingInt32) (data : list byte) (ended : bool) (start : Z) (seg : TCPSegment.t) : Prop :=
  Sending.authentic isn data ended start seg /\ (start = 0 -> TCPHeader.syn (hdr seg) = true).

(** [q] takes a receiver from position [r] to position [n]. *)
Fixpoint flow (isn : WrappingInt32) (data : list byte) (ended : bool) (r : Z) (q : list TCPSegment.t) (n : Z) : Prop :=
  match q with
  | [] => r = n
  | seg :: q => exists start, piece isn data ended start seg /\ r - recent <= start /\
      (start = r \/ start + seg_len seg <= r) /\ flow isn data ended (Z.max r (start + seg_len seg)) q n
  end.

Lemma seg_len_range seg : is_u64 (seg_len seg).
Proof. unfold TCPSegment.length_in_sequence_space. apply u64_range. Qed.

Section Flow.
Context (isn : WrappingInt32) (data : list byte) (ended : bool).

Lemma flow_le r q n : flow isn data ended r q n -> r <= n.
Proof using Type.
  revert r. induction q as [|seg q IH]; intros r; cbn; [lia|]. intros (st & _ & _ & _ & H). apply IH in H. lia.
Qed.

Lemma flow_app r q m q' n : flow isn data ended r q m -> flow isn data ended m q' n -> flow isn data ended r (q ++ q') n.
Proof using Type.
  revert r. induction q as [|seg q IH]; intros r; cbn; [by intros ->|].
  intros (st & ? & ? & ? & H) H'. exists st. split_and!; try done. by apply IH.
Qed.

Lemma flow_chain r q ends n : Sending.chain isn data ended r q ends n -> flow isn data ended r q n.
Proof using Type.
  revert r ends. induction q as [|seg q IH]; intros r [|e ends]; cbn; try done.
  intros (Ha & Hs & -> & Hlt & H). exists r. rewrite Z.max_r by lia. split_and!; try done; [unfold recent; lia|by left|]. by eapply IH.
Qed.

(** A segment that brings nothing new. *)
Lemma flow_old n seg start :
  piece isn data ended start seg -> n - recent <= start -> start + seg_len seg <= n -> flow isn data ended n [seg] n.
Proof using Type.
  intros Hp Hr He. exists start. rewrite Z.max_l by lia. split_and!; try done. by right.
Qed.

Lemma flow_impl data' ended' r q n :
  (forall st seg, Sending.authentic isn data ended st seg -> Sending.authentic isn data' ended' st seg) ->
  flow isn data ended r q n -> flow isn data' ended' r q n.
Proof using Type.
  intros Hi. revert r. induction q as [|seg q IH]; intros r; cbn; [done|].
  intros (st & [Hp Hs] & ? & ? & H). exists st. split_and!; try done; [split; auto|by apply IH].
Qed.

Lemma same_wire_len a b : Transfer.same_wire a b -> seg_len a = seg_len b.
Proof using Type.
  intros (_ & E1 & E2 & E3). unfold TCPSegment.length_in_sequence_space. change (Buffer.copy ?p) with (Buffer.str p) in E3. by rewrite E1, E2, E3.
Qed.

Lemma flow_map f r q n :
  (forall seg, Transfer.same_wire (f seg) seg) -> flow isn data ended r q n -> flow isn data ended r (map f q) n.
Proof using Type.
  intros Hf. revert r. induction q as [|seg q IH]; intros r; cbn; [done|]. intros (st & [Hp Hs] & ? & ? & H).
  exists st. rewrite (same_wire_len _ _ (Hf seg)). split_and!; try done; [split; [by eapply Transfer.authentic_same_wire|]|by apply IH].
  intros E. destruct (Hf seg) as (_ & -> & _). auto.
Qed.
End Flow.

(** ** The sender *)

Section Sender.
Context (wmax : Z) (Hwmax : 1 <= wmax < 2 ^ 16).

(** A sender that has nothing in flight has nothing to send. *)
Definition nostall (s : TCPSender.t) : Prop :=
  next s = ack s -> ByteStream.deq (TCPSender._stream s) = [] /\ (stream_ended s = true -> TCPSender._fin_sent s = true).

Record sender_ok (data : list byte) (s : TCPSender.t) : Prop := {
  s_inv : Sending.inv data s;
  s_started : 1 <= next s;
  s_flying : next s <= ack s + wmax;
  s_window : TCPSender._window_size s <= wmax;
  s_short : Forall Sending.modest (TCPSender._segments_outstanding s);
  s_nostall : nostall s;
  s_room : 0 < ByteStream.cap (TCPSender._stream s)
}.

(** What no operation here changes. *)
Definition same_stream (s s' : TCPSender.t) : Prop := TCPSender._isn s' = TCPSender._isn s /\ stream_ended s' = stream_ended s.

Lemma fill_window_nostall data s : Sending.inv data s -> 1 <= next s -> nostall (TCPSender.fill_window s).
Proof using Type.
  intros Hi Hn E. destruct (Sending.fill_window_new data s Hi) as [[Hi' (_ & Ea & Ew & _) _ Hle _] Hd].
  destruct (Z.eqb_spec (next s) 0); [lia|]. destruct Hd as [Hd|Hd]; [done|]. pose proof Hi as []. pose proof Hi' as [].
  assert (Hz : TCPSender._window_size s = 0 /\ TCPSender._bytes_flying s = 0) by lia. destruct Hz as [Ez Ef]. clear Hd.
  revert E. unfold TCPSender.fill_window. rewrite Ez, Ef. destruct (Z.eqb_spec (next s) 0); [lia|]. cbn [andb orb Z.eqb Z.ltb Z.compare].
  destruct (ByteStream.eof (TCPSender._stream s) && negb (TCPSender._fin_sent s)) eqn:Eb; cbn [andb].
  { rewrite (Sending.send_fin_eq data s Hi). cbn. lia. }
  unfold ByteStream.buffer_size. destruct (Z.ltb_spec 0 (zlen (ByteStream.deq (TCPSender._stream s)))) as [Hb|Hb]; cbn [andb].
  { rewrite (Sending.send_probe_eq data s Hi) by done. cbn. lia. }
  assert (Hd : ByteStream.deq (TCPSender._stream s) = []) by (apply nil_length_inv; lia). rewrite Hd.
  change (TCPSender.fill_loop _ s) with s.
  intros _. split; [done|]. intros He. apply not_false_iff_true. intros Hf. rewrite Hf, andb_true_r in Eb.
  by rewrite (proj2 (Sending.eof_spec _) (conj Hd He)) in Eb.
Qed.

(** Filling the window, after the stream has been written to or ended, or after an
    acknowledgment. *)
Lemma fill_step data s :
  Sending.inv data s -> 1 <= next s -> next s <= ack s + wmax -> TCPSender._window_size s <= wmax ->
  Forall Sending.modest (TCPSender._segments_outstanding s) -> 0 < ByteStream.cap (TCPSender._stream s) ->
  let s' := TCPSender.fill_window s in
  sender_ok data s' /\ same_stream s s' /\ ack s' = ack s /\ TCPSender._consec_retrans s' = TCPSender._consec_retrans s /\ next s <= next s' /\
  exists new, TCPSender._segments_out s' = TCPSender._segments_out s ++ new /\ Forall Sending.modest new /\
    flow (TCPSender._isn s) data (stream_ended s) (next s) new (next s').
Proof using Hwmax.
  intros Hi Hn Hf Hw Hs Hrm s'. destruct (Sending.fill_window_new data s Hi) as [[Hi' (E1 & E2 & E3 & _ & _ & E6 & _ & E8 & E9) (new & N1 & N2 & N3 & ends & N4) Hle Hwin] _].
  fold s' in Hi', E1, E2, E3, E6, E8, E9, N1, N2, N4, Hle, Hwin.
  assert (N5 : Forall Sending.modest new) by (eapply Forall_impl; [exact N3|]; by intros seg [_ ?]). split.
  - split; try done; try lia; [|by eapply fill_window_nostall]. rewrite N2. by apply Forall_app.
  - split_and!; try done. exists new. split_and!; try done. by eapply flow_chain.
Qed.

(** An acknowledgment of [k]. *)
Lemma ack_step data s k win :
  sender_ok data s -> 1 <= k <= next s -> next s - recent <= k -> 0 <= win <= wmax ->
  let s' := TCPSender.ack_received s (wrap k (TCPSender._isn s)) win in
  sender_ok data s' /\ same_stream s s' /\ ack s' = Z.max (ack s) k /\ next s <= next s' /\
  (ack s < k -> TCPSender._consec_retrans s' = 0) /\
  (k <= ack s -> next s' = next s /\ TCPSender._consec_retrans s' = TCPSender._consec_retrans s /\ TCPSender._segments_out s' = TCPSender._segments_out s) /\
  exists new, TCPSender._segments_out s' = TCPSender._segments_out s ++ new /\ Forall Sending.modest new /\
    flow (TCPSender._isn s) data (stream_ended s) (next s) new (next s').
Proof using Hwmax.
  intros [Hi Hn Hf Hw Hs Hst Hrm] Hk Hr Hwin s'. unfold recent in *. pose proof (Sending.inv_next_range data s Hi) as Hnr. pose proof Hi as [].
  assert (Hrd : next s - 2 <= ByteStream.bytes_readed (TCPSender._stream s) < next s)
    by (destruct i_next as [(? & _)|E]; [lia|destruct (TCPSender._fin_sent s); lia]).
  assert (Ek : Sending.ack_of s (wrap k (TCPSender._isn s)) = k).
  { unfold Sending.ack_of, ByteStream.bytes_read. apply unwrap_near; [done|lia..]. }
  assert (Hsane : Sending.ack_sane s (wrap k (TCPSender._isn s))) by (split; [apply wrap_ok|lia]).
  destruct (Sending.ack_received_eq data s (wrap k (TCPSender._isn s)) win Hi Hsane) as [[Ha E]|[Ha E]]; rewrite Ek in Ha; rewrite ?Ek in E; fold s' in E.
  2: { rewrite E. unfold Sending.new_ack in Ha. split; [split; try done; [|cbn; lia]|].
       - by apply Sending.inv_window; [|lia].
       - cbn. split_and!; try done; try lia. exists []. by rewrite app_nil_r. }
  assert (Hu : is_u16 win) by lia. pose proof (Sending.acked_inv data s k win Hi Ha Hu) as Hi1. cbv zeta in E. set (s1 := Sending.acked s k win) in *.
  assert (H1 : next s1 = next s /\ ack s1 = k /\ TCPSender._window_size s1 = win /\ TCPSender._isn s1 = TCPSender._isn s /\
    TCPSender._stream s1 = TCPSender._stream s /\ TCPSender._fin_sent s1 = TCPSender._fin_sent s /\ TCPSender._segments_out s1 = TCPSender._segments_out s /\
    TCPSender._consec_retrans s1 = 0 /\ Forall Sending.modest (TCPSender._segments_outstanding s1)).
  { unfold s1, Sending.acked, Sending.new_ack in *. destruct i_chain as (start & Hstart & Hc & _).
    destruct (Sending.pop_acked_chain _ _ _ _ _ _ _ (TCPSender._timestamps_outstanding s) k Hc)
      as (st & sg & en & sp & -> & _ & _ & _ & _ & _ & ->); [lia|done|]. split_and!; try done. by apply Forall_drop. }
  clearbody s1. destruct H1 as (A1 & A2 & A3 & A4 & A5 & A6 & A7 & A8 & A9).
  assert (Hrm1 : 0 < ByteStream.cap (TCPSender._stream s1)) by (by rewrite A5). unfold Sending.new_ack in Ha.
  rewrite Z.max_r by lia. clearbody s'.
  match type of E with _ = (if ?b then _ else _) => destruct b eqn:Eb end.
  - destruct (fill_step data s1) as (Hok & [Hi2 He2] & Hack & Hc2 & Hle & new & N1 & N2 & N3); try done; try lia.
    rewrite <- E in *. split; [done|]. rewrite Hack, A2, Hc2, A8, N1, A7. rewrite A1, A4, A5 in *.
    split_and!; try done; try lia; [by congruence..|]. by exists new.
  - rewrite E. split.
    + split; try done; try lia. intros E0. rewrite A1, A2 in E0. rewrite A5, A6. pose proof Hi1 as [].
      assert (Hfin : TCPSender._fin_sent s = true).
      { apply andb_false_iff in Eb as [Eb|Eb]; [|by apply negb_false_iff in Eb]. exfalso.
        apply orb_false_iff in Eb as [Eb1 Eb2]. apply Z.ltb_ge in Eb1. rewrite andb_false_iff, !Z.eqb_neq in Eb2. lia. }
      split; [by eapply Sending.fin_sent_drained|done].
    + rewrite A1, A2, A7, A8. split_and!; try done; try lia; [by split; [|rewrite A5]|]. exists []. by rewrite app_nil_r.
Qed.

(** A tick repeats at most the oldest segment. *)
Lemma tick_step data s ms :
  sender_ok data s -> 0 <= TCPSender._consec_retrans s < 2 ^ 31 ->
  let s' := TCPSender.tick s ms in
  sender_ok data s' /\ same_stream s s' /\ ack s' = ack s /\ next s' = next s /\
  0 <= TCPSender._consec_retrans s' <= TCPSender._consec_retrans s + 1 /\
  (next s = ack s -> TCPSender._consec_retrans s' = TCPSender._consec_retrans s /\ TCPSender._segments_out s' = TCPSender._segments_out s) /\
  exists new, TCPSender._segments_out s' = TCPSender._segments_out s ++ new /\ Forall Sending.modest new /\
    flow (TCPSender._isn s) data (stream_ended s) (next s) new (next s).
Proof using Hwmax.
  intros [Hi Hn Hf Hw Hs Hst Hrm] Hc s'. pose proof (Sending.inv_tick data s ms Hi) as [Hi' _]. fold s' in Hi'. pose proof Hi as [].
  unfold s', TCPSender.tick in *. destruct (TCPSender._timestamps_outstanding s) as [|t0 ts] eqn:Et.
  { split; [done|]. split_and!; try done; try lia. exists []. by rewrite app_nil_r. }
  destruct (TCPSender._segments_outstanding s) as [|seg segs] eqn:Eo; [done|]. destruct i_chain as (start & Hstart & Hch & Hall).
  destruct (TCPSender._seqnos_abs_outstanding s) as [|e ends]; [done|]. destruct Hch as (Ha & Hsyn & -> & Hlt & Hch).
  apply Sending.chain_le in Hch as [Hch _]. apply Forall_inv in Hall. destruct (Forall_inv Hs) as [Hs1 Hs2].
  assert (Hlen : seg_len seg <= 1002).
  { unfold TCPConfig.MAX_PAYLOAD_SIZE in Hs1. rewrite seg_length by lia. unfold Sending.b2z. destruct (TCPHeader.syn _), (TCPHeader.fin _); lia. }
  cbv zeta in *. cbn -[u64 u32 flow Z.leb Z.eqb] in *.
  destruct (Z.leb _ _); [destruct (negb _)|].
  3: { split; [split; cbn; rewrite ?Eo; done|]. cbn. split_and!; try done; try lia. exists []. by rewrite app_nil_r. }
  all: split; [split; [exact Hi'|done|done|done|rewrite <- Eo in Hs; exact Hs|exact Hst|exact Hrm]|]; cbn -[u64 u32 flow]; rewrite ?(u32_id (_ + _)) by lia; (split_and!; try done; try lia).
  all: exists [seg]; split_and!; [cbn; by rewrite ?Eo|by repeat constructor|]; apply (flow_old _ _ _ _ _ start); [by split|unfold recent; lia|lia].
Qed.
End Sender.

(** ** The receiver *)

(** The position of a receiver in the stream [data] of the peer. *)
Definition pos (sent : list byte) (fin : bool) : Z := 1 + zlen sent + b2z fin.
Definition within (data : list byte) (ended : bool) (sent : list byte) (fin : bool) : Prop :=
  sent `prefix_of` data /\ (fin = true -> sent = data /\ ended = true).

Lemma within_step (data sent : list byte) (start : Z) (p : list byte) :
  sent `prefix_of` data -> start = 1 + zlen sent -> p = substr data (Z.to_nat (start - 1)) (length p) -> (sent ++ p) `prefix_of` data.
Proof.
  intros [k ->] -> Hp. apply prefix_app. rewrite Hp. unfold substr. replace (Z.to_nat _) with (length sent) by lia.
  rewrite drop_app_length. apply prefix_take.
Qed.

Section Receiver.
Context (cap : Z) (isn : WrappingInt32) (Hcap : 0 < cap < 2 ^ 31) (Hisn : wi_ok isn).
Context (data : list byte) (ended : bool) (Hdata : zlen data < 2 ^ 62).

(** A segment of a flow moves the receiver on. *)
Lemma upto_arrive rc sent fin d start seg :
  upto cap isn rc sent fin d -> within data ended sent fin -> piece isn data ended start seg ->
  pos sent fin - recent <= start -> (start = pos sent fin \/ start + seg_len seg <= pos sent fin) ->
  start + seg_len seg - pos sent fin <= TCPReceiver.window_size rc -> 0 < seg_len seg ->
  exists sent' fin', upto cap isn (TCPReceiver.segment_received rc seg) sent' fin' d /\ within data ended sent' fin' /\
    pos sent' fin' = Z.max (pos sent fin) (start + seg_len seg).
Proof using Hcap Hisn Hdata.
  intros Hu [Hpre Hall] [(Hq & Hs0 & Hsyn & Hbody & Hfin) Hz] Hr Hst Hw Hl. pose proof (prefix_length _ _ Hpre) as Hle.
  assert (Hb1 : 0 < zlen (body seg) -> 0 < start /\ start - 1 + zlen (body seg) <= zlen data).
  { intros H. destruct Hbody as (? & ? & _); [|done]. intros E. rewrite E in H. cbn in H. lia. }
  assert (Hb : zlen (body seg) < 2 ^ 62) by (destruct (Z.eq_dec (zlen (body seg)) 0); lia).
  rewrite (seg_length seg Hb) in *. unfold pos, recent in *.
  assert (Hs1 : TCPHeader.syn (hdr seg) = true -> start = 0 /\ zlen (body seg) = 0 /\ TCPHeader.fin (hdr seg) = false).
  { intros E. specialize (Hsyn E). destruct (TCPHeader.fin (hdr seg)); [destruct (Hfin eq_refl); lia|]. split_and!; try done.
    destruct (Z.eq_dec (zlen (body seg)) 0); [done|lia]. }
  destruct (decide (start + (zlen (body seg) + b2z (TCPHeader.syn (hdr seg)) + b2z (TCPHeader.fin (hdr seg))) <= 1 + zlen sent + b2z fin)) as [Hold|Hnew].
  - exists sent, fin. split; [|split; [done|lia]]. apply (upto_old cap isn Hcap Hisn rc sent fin d seg start); try done; [lia|..].
    + destruct (TCPHeader.syn (hdr seg)) eqn:Es.
      * destruct (Hs1 eq_refl) as (-> & E & ?). split_and!; try done; [|apply nil_length_inv; lia]. rewrite Hq. by apply wrap_0.
      * assert (start <> 0) by (intros E; by specialize (Hz E)). unfold Sending.b2z in *. split_and!; try done; [lia|destruct fin; lia|].
        destruct (TCPHeader.fin (hdr seg)); [destruct fin; lia|]. destruct fin; [rewrite (proj1 (Hall eq_refl)) in *|]; lia.
    + intros E. destruct (Hfin E) as (? & _ & ?). rewrite E in *. unfold Sending.b2z in *. destruct (TCPHeader.syn (hdr seg)); [by destruct (Hs1 eq_refl) as (_ & _ & ?)|].
      destruct fin; [by rewrite (proj1 (Hall eq_refl)) in *|lia].
  - destruct Hst as [Hst|]; [|lia]. assert (Hns : TCPHeader.syn (hdr seg) = false).
    { apply not_true_iff_false. intros E. destruct (Hs1 E). unfold Sending.b2z in *. destruct fin; lia. }
    rewrite Hns in *. change (b2z false) with 0 in *.
    assert (Hnf : fin = false).
    { apply not_true_iff_false. intros ->. rewrite (proj1 (Hall eq_refl)) in *. change (b2z true) with 1 in *.
      destruct (TCPHeader.fin (hdr seg)); [destruct (Hfin eq_refl); lia|]. cbn [Sending.b2z] in *. lia. }
    subst fin. change (b2z false) with 0 in *. rewrite Z.add_0_r in *.
    assert (Hp : (sent ++ body seg) `prefix_of` data).
    { destruct (body seg) eqn:E; [by rewrite app_nil_r|]. rewrite <- E in *. apply (within_step _ _ start); [done|lia|].
      apply Hbody. by rewrite E. }
    exists (sent ++ body seg), (TCPHeader.fin (hdr seg)). split; [|split; [split; [done|]|rewrite length_app; lia]].
    + unfold Sending.b2z in *. apply (upto_next cap isn Hcap Hisn); [done|lia|done|by rewrite Hq, Hst|..];
        unfold Sending.b2z in *; destruct (TCPHeader.fin (hdr seg)); lia.
    + intros E. destruct (Hfin E) as (_ & He & Hend). split; [|done]. apply prefix_length_eq; [done|]. rewrite length_app. lia.
Qed.
End Receiver.

(** ** The connection *)

Import TCPConnection.

Section Connection.
Context (cap : Z) (Hcap : 0 < cap < 2 ^ 31).
Definition wmax : Z := Z.min cap 65535.

(** [seg] acknowledges number [k] of the peer's stream, whose first number is [isn]. *)
Definition acks (isn : WrappingInt32) (k : Z) (seg : TCPSegment.t) : Prop :=
  TCPHeader.ack (hdr seg) = true /\ TCPHeader.rst (hdr seg) = false /\ TCPHeader.ackno (hdr seg) = wrap k isn /\ 0 <= TCPHeader.win (hdr seg) <= wmax.
Definition acks_in (isn : WrappingInt32) (lo hi : Z) (seg : TCPSegment.t) : Prop := exists k, lo <= k <= hi /\ acks isn k seg.

(** An acknowledgment without anything else, at number [n]. *)
Definition idle (isn : WrappingInt32) (n : Z) (seg : TCPSegment.t) : Prop := TCPHeader.seqno (hdr seg) = wrap n isn /\ seg_len seg = 0.

Abbreviation sn c := (_sender c).
Abbreviation retrans c := (TCPSender._consec_retrans (_sender c)).

(** A connection whose sender is at number [isn] with the stream [data], and which
    has received [sent] (and the FIN if [fin]) of the stream that starts at [isn']. *)
Record conn_ok (isn isn' : WrappingInt32) (data : list byte) (c : t) (sent : list byte) (fin : bool) (d : list byte) : Prop := {
  k_sender : sender_ok wmax data (sn c);
  k_isn : TCPSender._isn (sn c) = isn;
  k_out : TCPSender._segments_out (sn c) = [];
  k_receiver : upto cap isn' (_receiver c) sent fin d;
  k_reset : Connection.reset c = false
}.

(** From [c] to [c'] the peer's stream has been received from [r] to [r'], number
    [a] of the own stream was acknowledged, and [new] is the answer. *)
Record answers (isn isn' : WrappingInt32) (data : list byte) (r r' a : Z) (new : list TCPSegment.t) (c c' : t) : Prop := {
  a_le : r <= r';
  a_queue : _segments_out c' = _segments_out c ++ new;
  a_flow : flow isn data (stream_ended (sn c)) (next (sn c)) new (next (sn c'));
  a_acks : Forall (acks_in isn' r r') new;
  a_last : r < r' -> Exists (acks isn' r') new;
  a_ack : ack (sn c') = Z.max (ack (sn c)) a;
  a_retrans : ack (sn c) < a -> retrans c' = 0;
  a_same : a <= ack (sn c) -> next (sn c') = next (sn c) /\ retrans c' = retrans c /\ Forall (idle isn (next (sn c))) new;
  a_ended : stream_ended (sn c') = stream_ended (sn c);
  a_cfg : _cfg c' = _cfg c;
  a_time : _time c' = _time c /\ (_time_last_segment_received c' = _time_last_segment_received c \/ _time_last_segment_received c' = _time c)
}.

Lemma acks_in_weaken isn lo hi lo' hi' seg : lo' <= lo -> hi <= hi' -> acks_in isn lo hi seg -> acks_in isn lo' hi' seg.
Proof using Type. intros ? ? (k & ? & ?). exists k. split; [lia|done]. Qed.

Lemma answers_refl isn isn' data r a c : a <= ack (sn c) -> answers isn isn' data r r a [] c c.
Proof using Type. intros H. split; try done; try lia; try (by rewrite app_nil_r); try (by split; [|left]). Qed.

Lemma answers_trans isn isn' data r r1 r2 a1 a2 n1 n2 c c1 c2 :
  answers isn isn' data r r1 a1 n1 c c1 -> answers isn isn' data r1 r2 a2 n2 c1 c2 ->
  answers isn isn' data r r2 (Z.max a1 a2) (n1 ++ n2) c c2.
Proof using Type.
  intros [L1 Q1 F1 A1 E1 K1 R1 S1 D1 C1 [T1 P1]] [L2 Q2 F2 A2 E2 K2 R2 S2 D2 C2 [T2 P2]]. split; try congruence; try lia.
  - by rewrite Q2, Q1, app_assoc.
  - rewrite D1 in F2. by eapply flow_app.
  - apply Forall_app. split; (eapply Forall_impl; [eassumption|]); intros seg; by apply acks_in_weaken; lia.
  - intros H. apply Exists_app. destruct (Z.eq_dec r1 r2) as [->|]; [left; by apply E1|right; apply E2; lia].
  - intros H. destruct S1 as (X1 & X2 & X3); [lia|]. destruct S2 as (Y1 & Y2 & Y3); [lia|]. split_and!; [congruence..|].
    apply Forall_app. by rewrite X1 in Y3.
Qed.

(** The acknowledgment fields that a connection fills in. *)
Lemma fill_in_acks isn' c sent fin d seg :
  upto cap isn' (_receiver c) sent fin d -> Connection.reset c = false -> TCPHeader.rst (hdr seg) = false ->
  acks isn' (pos sent fin) (fill_in c seg).
Proof using Hcap.
  intros Hu Hr Hs. destruct (upto_feedback cap isn' Hcap _ _ _ _ Hu) as (Ha & Hw & Hb). unfold Connection.reset in Hr.
  apply orb_false_iff in Hr as [_ Hr]. unfold fill_in, acks. rewrite Ha, Hr. cbn -[u16]. split_and!; try done.
  all: unfold wmax; rewrite u16_id; lia.
Qed.

Lemma wmax_range : 1 <= wmax < 2 ^ 16.
Proof using Hcap. unfold wmax. lia. Qed.

(** Does an acknowledgment at the position of the receiver call for an answer? *)
Lemma idle_unanswered isn' c sent fin d seg :
  upto cap isn' (_receiver c) sent fin d -> idle isn' (pos sent fin) seg -> wants_ack c seg = false.
Proof using Hcap.
  intros Hu [Hq Hl]. destruct (upto_feedback cap isn' Hcap _ _ _ _ Hu) as (Ha & _ & _). unfold wants_ack. rewrite Ha, Hl, Hq, wi_sub_wrap.
  cbn [Z.eqb andb Z.ltb Z.compare]. rewrite orb_false_r. apply not_true_iff_false. intros H%wi_eq_spec%wrap_inj_iff.
  unfold pos in H. revert H. unfold u32. Z.div_mod_to_equations. lia.
Qed.

(** What [segment_received] does with a segment that acknowledges, up to its answer. *)
Lemma segment_received_acking c seg :
  TCPHeader.ack (hdr seg) = true -> TCPHeader.rst (hdr seg) = false ->
  let rc := if 0 <? seg_len seg then TCPReceiver.segment_received (_receiver c) seg else _receiver c in
  let s1 := TCPSender.ack_received (sn c) (TCPHeader.ackno (hdr seg)) (TCPHeader.win (hdr seg)) in
  exists linger,
  let c1 := mk (_cfg c) rc s1 (_segments_out c) linger (_time c) (_time c) (_rst_received c) (_rst_to_send c) (_connect_called c) in
  segment_received c seg = send_segments (if wants_ack c1 seg then c1 <| _sender := TCPSender.send_empty_segment s1 |> else c1).
Proof using Type.
  intros Ha Hr rc s1. pose proof (seg_len_range seg) as Hl.
  assert (Eb : negb (seg_len seg =? 0) = (0 <? seg_len seg)) by (destruct (Z.eqb_spec (seg_len seg) 0), (Z.ltb_spec 0 (seg_len seg)); done || lia).
  unfold segment_received. rewrite Ha, Hr, Eb, andb_false_r. cbn [andb]. fold s1.
  assert (Ec : (if 0 <? seg_len seg then c <| _sender := s1 |> <| _receiver := TCPReceiver.segment_received (_receiver c) seg |> else c <| _sender := s1 |>)
    = c <| _sender := s1 |> <| _receiver := rc |>) by (unfold rc; by destruct (0 <? seg_len seg)).
  change (_receiver (setter _ c)) with (_receiver c). rewrite Ec. clear Ec. clearbody rc s1.
  set (b := TCPHeader.fin (hdr seg) && negb (ByteStream.eof (TCPSender._stream s1))).
  exists (if b then false else _linger_after_streams_finish c). unfold wants_ack, TCPSender.stream_in. cbn -[TCPSegment.length_in_sequence_space u64 TCPReceiver.ackno].
  generalize (match TCPReceiver.ackno rc with Some a => (seg_len seg =? 0) && wi_eq (TCPHeader.seqno (hdr seg)) (wi_sub a 1) | None => false end || (0 <? seg_len seg)).
  intros w. destruct w; cbn; fold b; by destruct b.
Qed.

(** The empty segment with which a connection answers. *)
Definition empty_at (s : TCPSender.t) : TCPSegment.t :=
  TCPSegment.mk (TCPHeader.default <| TCPHeader.seqno := TCPSender.next_seqno s |>) Buffer.empty.

Lemma empty_flow data s : 1 <= next s -> flow (TCPSender._isn s) data (stream_ended s) (next s) [empty_at s] (next s).
Proof using Type.
  intros H. apply (flow_old _ _ _ _ _ (next s)); [|unfold recent; lia|change (seg_len (empty_at s)) with 0; lia].
  split; [|lia]. split_and!; try done. lia.
Qed.

Lemma sender_ok_out data s q : sender_ok wmax data s -> sender_ok wmax data (s <| TCPSender._segments_out := q |>).
Proof using Type. intros [[] ? ? ? ? ? ?]. by split. Qed.

(** One segment of the peer's flow. *)
Section Step.
Context (isn isn' : WrappingInt32) (Hisn' : wi_ok isn') (data pdata : list byte) (pended : bool) (Hp : zlen pdata < 2 ^ 62).

Lemma segment_step c sent fin d start seg k :
  conn_ok isn isn' data c sent fin d -> within pdata pended sent fin -> piece isn' pdata pended start seg ->
  pos sent fin - recent <= start -> (start = pos sent fin \/ start + seg_len seg <= pos sent fin) ->
  start + seg_len seg - pos sent fin <= TCPReceiver.window_size (_receiver c) ->
  acks isn k seg -> 1 <= k <= next (sn c) -> next (sn c) - recent <= k ->
  let c' := segment_received c seg in
  exists sent' fin' new, conn_ok isn isn' data c' sent' fin' d /\ within pdata pended sent' fin' /\
    pos sent' fin' = Z.max (pos sent fin) (start + seg_len seg) /\ answers isn isn' data (pos sent fin) (pos sent' fin') k new c c' /\
    (idle isn' (pos sent fin) seg -> k <= ack (sn c) -> new = []).
Proof using Hcap Hisn' Hp.
  intros [Hs <- Ho Hu Hr] Hwi Hpi Hre Hst Hw (Ha & Hrst & Hano & Hwin) Hk Hkr. pose proof (seg_len_range seg) as Hl.
  destruct (segment_received_acking c seg Ha Hrst) as (linger & E). cbv zeta in E. rewrite Hano in E.
  set (rc := if 0 <? seg_len seg then _ else _) in E. set (s1 := TCPSender.ack_received _ _ _) in E.
  destruct (ack_step wmax wmax_range data (sn c) k (TCPHeader.win (hdr seg)) Hs Hk Hkr Hwin)
    as (Hs1 & [Ei Ee] & Ek & Hle & R1 & R2 & new1 & N1 & N2 & N3). fold s1 in Hs1, Ei, Ee, Ek, Hle, R1, R2, N1, N3. rewrite Ho in N1. cbn [app] in N1.
  assert (Hrc : exists sent' fin', upto cap isn' rc sent' fin' d /\ within pdata pended sent' fin' /\ pos sent' fin' = Z.max (pos sent fin) (start + seg_len seg)).
  { unfold rc. destruct (Z.ltb_spec 0 (seg_len seg)); [by eapply upto_arrive|]. exists sent, fin. split_and!; try done. lia. }
  clearbody rc s1. destruct Hrc as (sent' & fin' & Hu' & Hwi' & Epos).
  set (c1 := mk _ rc s1 _ linger _ _ _ _ _) in E. set (reply := if wants_ack c1 seg then [empty_at s1] else []).
  set (c2 := if wants_ack c1 seg then _ else c1) in E.
  assert (E2 : _sender c2 = s1 <| TCPSender._segments_out := new1 ++ reply |> /\ _receiver c2 = rc /\ Connection.reset c2 = false /\
    _segments_out c2 = _segments_out c /\ _cfg c2 = _cfg c /\ _time c2 = _time c /\ _time_last_segment_received c2 = _time c).
  { unfold c2, reply. rewrite <- N1. destruct (wants_ack c1 seg); [by split_and!|]. rewrite app_nil_r. split_and!; try done. by destruct s1. }
  assert (Ereply : (0 < seg_len seg -> reply <> []) /\ (idle isn' (pos sent fin) seg -> reply = [])).
  { unfold reply. split.
    - intros H. assert (Ew : wants_ack c1 seg = true) by (unfold wants_ack; rewrite (proj2 (Z.ltb_lt _ _) H); apply orb_true_r). by rewrite Ew.
    - intros Hid. rewrite (idle_unanswered isn' c1 sent' fin' d); try done. rewrite Epos. destruct Hid as [Hq Hz]. rewrite Hz in *.
      by replace (Z.max _ _) with (pos sent fin) by lia. }
  assert (Hreply : Forall Sending.modest reply /\ Forall (idle (TCPSender._isn s1) (next s1)) reply /\
    flow (TCPSender._isn (sn c)) data (stream_ended (sn c)) (next s1) reply (next s1)).
  { unfold reply. destruct (wants_ack c1 seg); [|done]. rewrite <- Ei, <- Ee. split_and!; [by repeat constructor..|]. apply empty_flow. by destruct Hs1. }
  clearbody c2 reply. clear c1. rewrite send_segments_eq in E. destruct E2 as (S1 & S2 & S3 & S4 & S5 & S6 & S7). destruct Hreply as (M1 & M2 & M3).
  destruct Ereply as [P1 P2]. rewrite S1, S4 in E. cbn [TCPSender._segments_out setter TCPSender.set_segments_out] in E.
  set (new := map (fill_in c2) (new1 ++ reply)) in E. exists sent', fin', new.
  assert (Hnew : Forall (acks isn' (pos sent' fin')) new).
  { unfold new. apply List.Forall_map. eapply Forall_impl; [apply Forall_app; split; [exact N2|exact M1]|]. intros sg [_ Hsg].
    apply (fill_in_acks isn' c2 sent' fin' d); try done. by rewrite S2. }
  rewrite E. split_and!; [|done|done| |].
  - split; cbn; try done; [by apply sender_ok_out, sender_ok_out|by rewrite S2].
  - split; cbn; try done; try lia.
    + unfold new. apply flow_map; [intros; apply fill_in_same_wire|]. by eapply flow_app.
    + eapply Forall_impl; [exact Hnew|]. intros sg Hsg. exists (pos sent' fin'). split; [lia|done].
    + intros H. destruct new as [|sg q] eqn:En; [|apply Forall_inv in Hnew; by constructor]. exfalso. apply P1; [lia|].
      unfold new in En. apply map_eq_nil, app_eq_nil in En as [_ ?]. done.
    + intros H. destruct (R2 H) as (X1 & X2 & X3). split_and!; try done. rewrite X3, Ho in N1. subst new1. unfold new. cbn [app].
      apply List.Forall_map. eapply Forall_impl; [exact M2|]. intros sg [Hq Hz]. rewrite X1, Ei in *.
      pose proof (fill_in_same_wire c2 sg) as Hsw. split; [destruct Hsw as [-> _]; by rewrite Hq|by rewrite (same_wire_len _ _ Hsw)].
  - intros Hid H. destruct (R2 H) as (_ & _ & X3). rewrite X3, Ho in N1. subst new1. unfold new. by rewrite (P2 Hid).
Qed.

(** What is received fills the window by no more than what is received. *)
Lemma window_step rc rc' sent fin sent' fin' d :
  upto cap isn' rc sent fin d -> upto cap isn' rc' sent' fin' d -> within pdata pended sent fin -> within pdata pended sent' fin' -> pos sent fin <= pos sent' fin' ->
  TCPReceiver.window_size rc - (pos sent' fin' - pos sent fin) <= TCPReceiver.window_size rc'.
Proof using Hcap.
  intros Hu Hu' [_ Ha] [Hpre _] Hle. destruct (upto_feedback cap isn' Hcap _ _ _ _ Hu) as (_ & -> & _), (upto_feedback cap isn' Hcap _ _ _ _ Hu') as (_ & -> & _).
  destruct Hu as [_ _ _ _ _ _ Hb _ _ _ _ _ _ _], Hu' as [_ _ _ _ _ _ Hb' _ _ _ _ _ _ _].
  apply (f_equal length) in Hb, Hb'. rewrite length_app in Hb, Hb'. apply prefix_length in Hpre.
  unfold ByteStream.buffer_size, TCPReceiver.stream_out, StreamReassembler.stream_out, pos, Sending.b2z in *.
  destruct fin; [destruct (Ha eq_refl) as [-> _]|]; destruct fin'; lia.
Qed.

(** The whole flow; [b] says that the last acknowledgment is in it. *)
Lemma deliver q n lo hi M b c sent fin d :
  conn_ok isn isn' data c sent fin d -> within pdata pended sent fin -> flow isn' pdata pended (pos sent fin) q n ->
  n - pos sent fin <= TCPReceiver.window_size (_receiver c) ->
  Forall (acks_in isn lo hi) q -> (b = true -> Exists (acks isn hi) q) ->
  1 <= lo -> hi <= next (sn c) -> hi <= M -> ack (sn c) <= M -> M + wmax - recent <= lo ->
  let c' := fold_left segment_received q c in
  exists sent' fin' a new, conn_ok isn isn' data c' sent' fin' d /\ within pdata pended sent' fin' /\ pos sent' fin' = n /\
    answers isn isn' data (pos sent fin) n a new c c' /\ a <= hi /\ (b = true -> a = hi) /\
    (Forall (idle isn' (pos sent fin)) q -> hi <= ack (sn c) -> new = []).
Proof using Hcap Hisn' Hp.
  revert c sent fin b. induction q as [|seg q IH]; intros c sent fin b Hc Hwi Hfl Hw Hacks Hb Hlo Hhi HhM HM Hrec; cbn [fold_left].
  { cbn in Hfl. exists sent, fin, (Z.min hi (ack (sn c))), []. rewrite Hfl. split_and!; try done; [|lia|].
    - apply answers_refl. lia.
    - intros E. by apply Hb, Exists_nil in E. }
  destruct Hfl as (start & Hpi & Hre & Hst & Hfl). apply Forall_cons_1 in Hacks as [Hak Hacks].
  assert (Hk : exists k b', lo <= k <= hi /\ acks isn k seg /\ (b' = true -> Exists (acks isn hi) q) /\ (b = true -> b' = true \/ k = hi)).
  { destruct b; [|destruct Hak as (k & ? & ?); by exists k, false].
    specialize (Hb eq_refl). apply Exists_cons in Hb as [Hb|Hb].
    - exists hi, false. destruct Hak as (k & ? & _). split_and!; try done; try lia; by right.
    - destruct Hak as (k & ? & ?). exists k, true. split_and!; try done; try lia; by left. }
  destruct Hk as (k & b' & Hk & Hks & Hb' & Hbb). pose proof (flow_le _ _ _ _ _ _ Hfl) as Hle. pose proof Hc as [[_ _ Hfly _ _ _ _] _ _ Hu _].
  destruct (segment_step c sent fin d start seg k Hc Hwi Hpi Hre Hst ltac:(lia) Hks ltac:(lia) ltac:(lia)) as (sent1 & fin1 & new1 & Hc1 & Hwi1 & Epos & Hans & Hid).
  pose proof Hc1 as [_ _ _ Hu1 _]. pose proof (window_step _ _ _ _ _ _ _ Hu Hu1 Hwi Hwi1 ltac:(lia)) as Hw1.
  rewrite <- Epos in *. pose proof Hans as [_ _ Hf1 _ _ Hack _ Hsame _ _ _]. apply flow_le in Hf1.
  destruct (IH (segment_received c seg) sent1 fin1 b' Hc1 Hwi1 Hfl) as (sent' & fin' & a & new & Hc' & Hwi' & Epos' & Hans' & Hahi & Ha & Hidle); try done; try lia.
  exists sent', fin', (Z.max k a), (new1 ++ new). split_and!; try done; try lia.
  - by eapply answers_trans.
  - intros E. destruct (Hbb E) as [E'|]; [specialize (Ha E')|]; lia.
  - intros Hall Hq. apply Forall_cons_1 in Hall as [Hi1 Hi2]. rewrite (Hid Hi1) by lia. apply Hidle.
    + replace (pos sent1 fin1) with (pos sent fin); [done|]. destruct Hi1 as [_ Hz]. rewrite Hz in Epos. lia.
    + rewrite Hack. lia.
Qed.

(** A flow that acknowledges everything up to [hi]. *)
Lemma deliver_all q n lo hi c sent fin d :
  conn_ok isn isn' data c sent fin d -> within pdata pended sent fin -> flow isn' pdata pended (pos sent fin) q n ->
  n - pos sent fin <= TCPReceiver.window_size (_receiver c) ->
  Forall (acks_in isn lo hi) q -> (ack (sn c) < hi -> Exists (acks isn hi) q) ->
  1 <= lo -> ack (sn c) <= hi <= next (sn c) -> hi + wmax - recent <= lo ->
  let c' := fold_left segment_received q c in
  exists sent' fin' new, conn_ok isn isn' data c' sent' fin' d /\ within pdata pended sent' fin' /\ pos sent' fin' = n /\
    answers isn isn' data (pos sent fin) n hi new c c' /\ (Forall (idle isn' (pos sent fin)) q -> ack (sn c) = hi -> new = []).
Proof using Hcap Hisn' Hp.
  intros Hc Hwi Hfl Hw Hacks Hex Hlo Hhi Hrec.
  destruct (deliver q n lo hi hi (ack (sn c) <? hi) c sent fin d) as (sent' & fin' & a & new & Hc' & Hwi' & Hpos & Hans & Ha & Hb & Hid); try done; try lia.
  { intros E%Z.ltb_lt. auto. }
  exists sent', fin', new. split_and!; try done; [|intros; apply Hid; [done|lia]].
  destruct (Z.ltb_spec (ack (sn c)) hi) as [Hlt|Hge]; [by rewrite <- (Hb eq_refl)|].
  destruct Hans as [L Q F A E K R S D C T]. split; try done; try lia.
  intros _. apply S. lia.
Qed.
End Step.

(** What a connection sends by itself: [new] segments, none of the peer's consumed. *)
Record emits (isn isn' : WrappingInt32) (data : list byte) (r : Z) (new : list TCPSegment.t) (c c' : t) : Prop := {
  e_queue : _segments_out c' = _segments_out c ++ new;
  e_flow : flow isn data (stream_ended (sn c')) (next (sn c)) new (next (sn c'));
  e_acks : Forall (acks isn' r) new;
  e_ack : ack (sn c') = ack (sn c);
  e_receiver : _receiver c' = _receiver c;
  e_cfg : _cfg c' = _cfg c;
  e_last : _time_last_segment_received c' = _time_last_segment_received c;
  e_linger : _linger_after_streams_finish c' = _linger_after_streams_finish c
}.

Lemma emits_trans isn isn' data data' r n1 n2 c c1 c2 :
  emits isn isn' data r n1 c c1 -> emits isn isn' data' r n2 c1 c2 ->
  (forall st seg, Sending.authentic isn data (stream_ended (sn c1)) st seg -> Sending.authentic isn data' (stream_ended (sn c2)) st seg) ->
  emits isn isn' data' r (n1 ++ n2) c c2.
Proof using Type.
  intros [Q1 F1 A1 E1 R1 C1 L1 G1] [Q2 F2 A2 E2 R2 C2 L2 G2] Hi. split; try congruence.
  - by rewrite Q2, Q1, app_assoc.
  - eapply flow_app; [|exact F2]. by eapply flow_impl.
  - by apply Forall_app.
Qed.

(** The sender of a connection does something and its segments are sent. *)
Lemma emits_send isn isn' data c c1 s new1 sent fin d :
  conn_ok isn isn' data c sent fin d -> _receiver c1 = _receiver c -> _segments_out c1 = _segments_out c -> Connection.reset c1 = false ->
  _cfg c1 = _cfg c -> _time_last_segment_received c1 = _time_last_segment_received c -> _linger_after_streams_finish c1 = _linger_after_streams_finish c ->
  _sender c1 = s -> TCPSender._segments_out s = new1 -> Forall Sending.modest new1 -> ack s = ack (sn c) -> TCPSender._isn s = isn ->
  forall data', sender_ok wmax data' s -> flow isn data' (stream_ended s) (next (sn c)) new1 (next s) ->
  let c' := send_segments c1 in
  conn_ok isn isn' data' c' sent fin d /\ emits isn isn' data' (pos sent fin) (map (fill_in c1) new1) c c' /\
  next (sn c') = next s /\ retrans c' = TCPSender._consec_retrans s /\ stream_ended (sn c') = stream_ended s /\ _time c' = _time c1.
Proof using Hcap.
  intros [Hs Hi Ho Hu Hr] E1 E2 E3 E4 E5 E6 <- <- Hm Ea Ei data' Hs' Hf. cbv zeta. rewrite send_segments_eq, E2. split_and!; try done.
  - split; cbn; try done; [by apply sender_ok_out|by rewrite E1].
  - split; cbn; try done.
    + apply flow_map; [intros; apply fill_in_same_wire|done].
    + apply List.Forall_map. eapply Forall_impl; [exact Hm|]. intros seg [_ Hseg]. apply (fill_in_acks isn' c1 sent fin d); try done. by rewrite E1.
Qed.

Section Owner.
Context (isn isn' : WrappingInt32) (data : list byte) (c : t) (sent : list byte) (fin : bool) (d : list byte).
Context (Hc : conn_ok isn isn' data c sent fin d).

(** Changing the stream and filling the window. *)
Lemma refill_conn data' f :
  let s1 := TCPSender.with_stream_in (sn c) f in
  Sending.inv data' s1 -> 0 < ByteStream.cap (TCPSender._stream s1) ->
  let c' := send_segments (c <| _sender := TCPSender.fill_window s1 |>) in
  exists new, conn_ok isn isn' data' c' sent fin d /\ emits isn isn' data' (pos sent fin) new c c' /\
    retrans c' = retrans c /\ next (sn c) <= next (sn c') /\ stream_ended (sn c') = stream_ended s1 /\ _time c' = _time c.
Proof using Hcap Hc.
  intros s1 Hi Hrm c'. pose proof Hc as [[Hi0 Hn Hf Hw Hm Hst _] Ei Ho Hu Hr].
  destruct (fill_step wmax wmax_range data' s1 Hi Hn Hf Hw Hm Hrm) as (Hok & [E1 E2] & E3 & E4 & Hle & new & N1 & N2 & N3).
  change (TCPSender._segments_out s1) with (TCPSender._segments_out (sn c)) in N1. rewrite Ho in N1. cbn [app] in N1.
  change (TCPSender._isn s1) with (TCPSender._isn (sn c)) in N3, E1. rewrite Ei in *. rewrite <- E2 in N3.
  destruct (emits_send isn isn' data c (c <| _sender := TCPSender.fill_window s1 |>) (TCPSender.fill_window s1) new sent fin d Hc)
    with (data' := data') as (A & B & D1 & D2 & D3 & T); try done.
  exists (map (fill_in (c <| _sender := TCPSender.fill_window s1 |>)) new). fold c' in A, B, D1, D2, D3, T. rewrite D1, D2, D3, T. split_and!; try done.
Qed.

(** Writing. *)
Lemma write_conn bytes :
  let taken := take (Z.to_nat (write c bytes).2) bytes in
  stream_ended (sn c) = false -> zlen (data ++ taken) < 2 ^ 62 ->
  exists new, conn_ok isn isn' (data ++ taken) (write c bytes).1 sent fin d /\
    emits isn isn' (data ++ taken) (pos sent fin) new c (write c bytes).1 /\ retrans (write c bytes).1 = retrans c /\
    next (sn c) <= next (sn (write c bytes).1) /\ stream_ended (sn (write c bytes).1) = false /\ _time (write c bytes).1 = _time c.
Proof using Hcap Hc.
  unfold write. cbv zeta. pose proof Hc as [[Hi _ _ _ _ _ Hrm] _ _ _ _]. intros He Hz.
  assert (E2 : (let '(st, ans) := ByteStream.write (TCPSender.stream_in (sn c)) bytes in
    (send_segments (c <| _sender := TCPSender.with_stream_in (sn c) (fun _ => st) |> <| _sender := TCPSender.fill_window (sn (c <| _sender := TCPSender.with_stream_in (sn c) (fun _ => st) |>)) |>), ans)) =
    (send_segments (c <| _sender := TCPSender.fill_window (TCPSender.with_stream_in (sn c) (fun st => (ByteStream.write st bytes).1)) |>), (ByteStream.write (TCPSender._stream (sn c)) bytes).2)) by done.
  rewrite E2 in *. cbn [fst snd] in *. destruct (Sending.inv_write data (sn c) bytes Hi He Hz) as [Hi' _].
  destruct (refill_conn _ _ Hi' Hrm) as (new & A & B & D & E & F & T). exists new. rewrite F. split_and!; try done.
Qed.

(** Ending the stream. *)
Lemma end_conn :
  exists new, conn_ok isn isn' data (end_input_stream c) sent fin d /\
    emits isn isn' data (pos sent fin) new c (end_input_stream c) /\ retrans (end_input_stream c) = retrans c /\
    next (sn c) <= next (sn (end_input_stream c)) /\ stream_ended (sn (end_input_stream c)) = true /\ _time (end_input_stream c) = _time c.
Proof using Hcap Hc.
  pose proof Hc as [[Hi _ _ _ _ _ Hrm] _ _ _ _].
  destruct (Sending.inv_with_stream data (sn c) ByteStream.end_input) as [Hi' _]; [by auto with sponge|intros; split_and!; auto|done|].
  by destruct (refill_conn _ _ Hi' Hrm) as (new & A & B & D & E & F & T); exists new.
Qed.

(** The passing of time. *)
Lemma tick_conn ms :
  0 <= retrans c <= 7 ->
  exists new, conn_ok isn isn' data (tick c ms) sent fin d /\ emits isn isn' data (pos sent fin) new c (tick c ms) /\
    0 <= retrans (tick c ms) <= retrans c + 1 /\ (next (sn c) = ack (sn c) -> retrans (tick c ms) = retrans c /\ new = []) /\
    next (sn (tick c ms)) = next (sn c) /\ stream_ended (sn (tick c ms)) = stream_ended (sn c) /\ _time (tick c ms) = u64 (_time c + ms).
Proof using Hcap Hc.
  intros Hret. pose proof Hc as [Hs Ei Ho Hu Hr].
  destruct (tick_step wmax wmax_range data (sn c) ms Hs ltac:(lia)) as (Hok & [E1 E2] & E3 & E4 & E5 & E6 & new & N1 & N2 & N3).
  rewrite Ho in *. cbn [app] in N1. rewrite Ei in *. rewrite <- E2 in N3. rewrite <- E4 in N3 at 2. unfold tick.
  change (_sender (setter _ c)) with (sn c). set (s1 := TCPSender.tick (sn c) ms) in *. clearbody s1.
  assert (Eb : (TCPConfig.MAX_RETX_ATTEMPTS <? TCPSender.consecutive_retransmissions (_sender (c <| _time := u64 (_time c + ms) |> <| _sender := s1 |>))) = false).
  { apply Z.ltb_ge. unfold TCPConfig.MAX_RETX_ATTEMPTS. cbn. unfold TCPSender.consecutive_retransmissions. lia. }
  rewrite Eb. set (c1 := c <| _time := _ |> <| _sender := s1 |>).
  destruct (emits_send isn isn' data c c1 s1 new sent fin d Hc) with (data' := data) as (A & B & D1 & D2 & D3 & T); try done.
  exists (map (fill_in c1) new). rewrite D1, D2, D3, T. split_and!; try done; try lia.
  intros H. destruct (E6 H) as [X1 X2]. split; [done|]. by rewrite <- N1, X2.
Qed.
End Owner.
End Connection.
End Progress.
