(* ===== verification/tcp_state.v ===== *)
(** Summaries of a connection's state ([libsponge/tcp_helpers/tcp_state.{hh,cc}]):
    the official TCP states as sender and receiver summaries, how a connection is
    summarised, and the states a connection goes through in a handshake, when it
    gives up and when it closes. *)

From S2P Require Import prelude std_algorithms wrapping_integers buffer tcp_segment byte_stream stream_reassembler reassembly tcp_receiver tcp_sender transfer tcp_connection connection.

(** The summaries are compared as strings. *)
Module TCPReceiverStateSummary.
Definition ERROR : string := "error (connection was reset)".
Definition LISTEN : string := "waiting for SYN: ackno is empty".
Definition SYN_RECV : string := "SYN received (ackno exists), and input to stream hasn't ended".
Definition FIN_RECV : string := "input to stream has ended".
End TCPReceiverStateSummary.

Module TCPSenderStateSummary.
Definition ERROR : string := "error (connection was reset)".
Definition CLOSED : string := "waiting for stream to begin (no SYN sent)".
Definition SYN_SENT : string := "stream started but nothing acknowledged".
Definition SYN_ACKED : string := "stream ongoing".
Definition FIN_SENT : string := "stream finished (FIN sent) but not fully acknowledged".
Definition FIN_ACKED : string := "stream finished and fully acknowledged".
End TCPSenderStateSummary.

Module TCPState.

(** [enum class State] *)
Inductive State :=
  | LISTEN | SYN_RCVD | SYN_SENT | ESTABLISHED | CLOSE_WAIT | LAST_ACK
  | FIN_WAIT_1 | FIN_WAIT_2 | CLOSING | TIME_WAIT | CLOSED | RESET.

#[export] Instance State_eq_dec : EqDecision State.
Proof. solve_decision. Defined.

Record t := mk {
  _sender : string;
  _receiver : string;
  _active : bool;
  _linger_after_streams_finish : bool
}.

(** [operator==] *)
Definition eqb (a b : t) : bool :=
  Bool.eqb (_active a) (_active b) && Bool.eqb (_linger_after_streams_finish a) (_linger_after_streams_finish b) &&
  String.eqb (_sender a) (_sender b) && String.eqb (_receiver a) (_receiver b).

Definition neqb (a b : t) : bool := negb (eqb a b).

(** [to_string(bool)]: the boolean is promoted to an integer. *)
Definition bool_to_string (b : bool) : string := if b then "1" else "0".

Definition name (s : t) : string :=
  "sender=`" +:+ _sender s +:+ "`, receiver=`" +:+ _receiver s +:+ "`, active=" +:+ bool_to_string (_active s) +:+
  ", linger_after_streams_finish=" +:+ bool_to_string (_linger_after_streams_finish s).

(** [TCPState(State)] *)
Definition of_state (state : State) : t :=
  match state with
  | LISTEN => mk TCPSenderStateSummary.CLOSED TCPReceiverStateSummary.LISTEN true true
  | SYN_RCVD => mk TCPSenderStateSummary.SYN_SENT TCPReceiverStateSummary.SYN_RECV true true
  | SYN_SENT => mk TCPSenderStateSummary.SYN_SENT TCPReceiverStateSummary.LISTEN true true
  | ESTABLISHED => mk TCPSenderStateSummary.SYN_ACKED TCPReceiverStateSummary.SYN_RECV true true
  | CLOSE_WAIT => mk TCPSenderStateSummary.SYN_ACKED TCPReceiverStateSummary.FIN_RECV true false
  | LAST_ACK => mk TCPSenderStateSummary.FIN_SENT TCPReceiverStateSummary.FIN_RECV true false
  | CLOSING => mk TCPSenderStateSummary.FIN_SENT TCPReceiverStateSummary.FIN_RECV true true
  | FIN_WAIT_1 => mk TCPSenderStateSummary.FIN_SENT TCPReceiverStateSummary.SYN_RECV true true
  | FIN_WAIT_2 => mk TCPSenderStateSummary.FIN_ACKED TCPReceiverStateSummary.SYN_RECV true true
  | TIME_WAIT => mk TCPSenderStateSummary.FIN_ACKED TCPReceiverStateSummary.FIN_RECV true true
  | RESET => mk TCPSenderStateSummary.ERROR TCPReceiverStateSummary.ERROR false false
  | CLOSED => mk TCPSenderStateSummary.FIN_ACKED TCPReceiverStateSummary.FIN_RECV false false
  end.

(** [state_summary(const TCPReceiver &)] *)
Definition receiver_summary (receiver : TCPReceiver.t) : string :=
  if ByteStream.error (TCPReceiver.stream_out receiver) then TCPReceiverStateSummary.ERROR
  else match TCPReceiver.ackno receiver with
       | None => TCPReceiverStateSummary.LISTEN
       | Some _ => if ByteStream.input_ended (TCPReceiver.stream_out receiver)
                   then TCPReceiverStateSummary.FIN_RECV else TCPReceiverStateSummary.SYN_RECV
       end.

(** [state_summary(const TCPSender &)] *)
Definition sender_summary (sender : TCPSender.t) : string :=
  if ByteStream.error (TCPSender.stream_in sender) then TCPSenderStateSummary.ERROR
  else if TCPSender.next_seqno_absolute sender =? 0 then TCPSenderStateSummary.CLOSED
  else if TCPSender.next_seqno_absolute sender =? TCPSender.bytes_in_flight sender then TCPSenderStateSummary.SYN_SENT
  else if negb (ByteStream.eof (TCPSender.stream_in sender)) then TCPSenderStateSummary.SYN_ACKED
  else if TCPSender.next_seqno_absolute sender <? u64 (ByteStream.bytes_written (TCPSender.stream_in sender) + 2)
  then TCPSenderStateSummary.SYN_ACKED
  else if negb (TCPSender.bytes_in_flight sender =? 0) then TCPSenderStateSummary.FIN_SENT
  else TCPSenderStateSummary.FIN_ACKED.

(** [TCPState(sender, receiver, active, linger)] *)
Definition make (sender : TCPSender.t) (receiver : TCPReceiver.t) (active linger : bool) : t :=
  mk (sender_summary sender) (receiver_summary receiver) active (if active then linger else false).

(** [TCPConnection::state()] *)
Definition state (c : TCPConnection.t) : t :=
  make (TCPConnection._sender c) (TCPConnection._receiver c) (TCPConnection.active c)
    (TCPConnection._linger_after_streams_finish c).

(** [c] is in an official state. *)
Abbreviation in_state c st := (eqb (state c) (of_state st) = true).

Lemma eqb_spec a b : reflect (a = b) (eqb a b).
Proof.
  destruct a as [s1 r1 a1 l1], b as [s2 r2 a2 l2]. unfold eqb. cbn.
  destruct (Bool.eqb_spec a1 a2), (Bool.eqb_spec l1 l2), (String.eqb_spec s1 s2), (String.eqb_spec r1 r2); cbn; constructor; congruence.
Qed.

Lemma in_state_eq c st : state c = of_state st -> in_state c st.
Proof. intros E. by destruct (eqb_spec (state c) (of_state st)). Qed.

(** The twelve official states are told apart: [operator==] on two of them
    holds exactly for the same state. *)
Theorem official_states_distinct a b : eqb (of_state a) (of_state b) = true <-> a = b.
Proof. split; [by destruct a, b|]. intros ->. by destruct (eqb_spec (of_state b) (of_state b)). Qed.

(** ** The states of a connection *)

(** Segments do not set the error flag of the inbound stream. *)
Lemma push_substring_error r data index eof :
  ByteStream.error (StreamReassembler._output (StreamReassembler.push_substring r data index eof)) =
  ByteStream.error (StreamReassembler._output r).
Proof.
  unfold StreamReassembler.push_substring. set (r1 := StreamReassembler.write_to_aux r data index eof).
  assert (H1 : ByteStream.error (StreamReassembler._output r1) = ByteStream.error (StreamReassembler._output r)).
  { unfold r1, StreamReassembler.write_to_aux. by repeat case_if. }
  clearbody r1. rewrite <- H1. clear. set (r2 := StreamReassembler.write_to_bytestream r1).
  assert (H2 : ByteStream.error (StreamReassembler._output r2) = ByteStream.error (StreamReassembler._output r1)).
  { unfold r2, StreamReassembler.write_to_bytestream, ByteStream.write. cbv beta iota zeta. by destruct (_ =? _)%nat. }
  clearbody r2. rewrite <- H2. clear. by repeat case_if.
Qed.

#[local] Opaque StreamReassembler.push_substring.

Lemma segment_received_error s seg :
  TCPReceiver.payload_len seg < 2 ^ 62 ->
  ByteStream.error (TCPReceiver.stream_out (TCPReceiver.segment_received s seg)) = ByteStream.error (TCPReceiver.stream_out s).
Proof.
  intros H. rewrite TCPReceiver.segment_received_eq by done. destruct (_ || _); [|done].
  unfold TCPReceiver.accept, TCPReceiver.stream_out, StreamReassembler.stream_out.
  pose proof (push_substring_error (TCPReceiver._reassembler s) (Buffer.copy (TCPSegment.payload seg))
    (TCPReceiver.stream_index s (TCPSegment.header seg)) (TCPReceiver._eof s || TCPHeader.fin (TCPSegment.header seg))) as E.
  change (ByteStream.error (StreamReassembler._output (TCPReceiver.pushed s seg)) =
    ByteStream.error (StreamReassembler._output (TCPReceiver._reassembler s))) in E.
  rewrite <- E. clear E. generalize (TCPReceiver.pushed s seg). intros r.
  unfold TCPReceiver.accept_with. cbv zeta. by destruct (_ =? _).
Qed.

#[local] Transparent StreamReassembler.push_substring.

(** A receiver that has got a bare SYN, and the senders of the handshake. *)
Lemma receiver_summary_syn cfg seg isn :
  Connection.listening (Connection.received_syn cfg seg) (TCPConfig.recv_capacity cfg) isn ->
  TCPReceiver.payload_len seg < 2 ^ 62 ->
  receiver_summary (Connection.received_syn cfg seg) = TCPReceiverStateSummary.SYN_RECV.
Proof.
  intros [L1 _ _ L4] Hp. unfold receiver_summary. unfold Connection.received_syn at 1.
  rewrite segment_received_error by done. change (ByteStream.error _) with false. cbv iota. by rewrite L1, L4.
Qed.

(** The states of a three-way handshake: a fresh connection is in LISTEN;
    connecting puts it in SYN_SENT, which is what [TCPSpongeSocket::connect]
    insists on; the peer that gets the SYN is in SYN_RCVD; and after the SYN/ACK
    and the final acknowledgment both are in ESTABLISHED. *)
Theorem handshake_states cfgA cfgB isnA isnB :
  wi_ok isnA -> wi_ok isnB ->
  0 < TCPConfig.recv_capacity cfgA < 2 ^ 31 -> 0 < TCPConfig.recv_capacity cfgB < 2 ^ 31 ->
  exists syn synack ack,
  let a0 := TCPConnection.make cfgA isnA in
  let b0 := TCPConnection.make cfgB isnB in
  let a1 := TCPConnection.connect a0 in
  let b1 := TCPConnection.segment_received b0 syn in
  let a2 := TCPConnection.segment_received (Connection.drained a1) synack in
  let b2 := TCPConnection.segment_received (Connection.drained b1) ack in
  TCPConnection._segments_out a1 = [syn] /\ TCPConnection._segments_out b1 = [synack] /\
  TCPConnection._segments_out a2 = [ack] /\
  in_state a0 LISTEN /\ in_state b0 LISTEN /\ in_state a1 SYN_SENT /\ in_state b1 SYN_RCVD /\
  in_state a2 ESTABLISHED /\ in_state b2 ESTABLISHED.
Proof.
  intros HA HB HcA HcB.
  destruct (Connection.handshake_run cfgA cfgB isnA isnB HA HB HcA HcB) as (rA & rB & LA & LB & ErA & ErB & E0 & E1 & E2 & E3).
  set (synack := Connection.synack_of (Connection.window_of cfgB) isnA isnB) in *.
  exists (Connection.syn_of isnA), synack, (Connection.ack_of (Connection.window_of cfgA) isnA isnB). cbv zeta.
  assert (SA : receiver_summary rA = TCPReceiverStateSummary.SYN_RECV) by (subst rA; by eapply receiver_summary_syn).
  assert (SB : receiver_summary rB = TCPReceiverStateSummary.SYN_RECV) by (subst rB; by eapply receiver_summary_syn).
  destruct LA as [_ _ LA _], LB as [_ _ LB _]. clear ErA ErB.
  rewrite E2, E3, E1, E0. clear E0 E1 E2 E3.
  split_and!; try done; apply in_state_eq; unfold state, make; cbn [TCPConnection._receiver TCPConnection._sender].
  all: rewrite ?SA, ?SB; unfold TCPConnection.active; cbn -[ByteStream.eof]; rewrite ?LA, ?LB; done.
Qed.

Lemma handshake_states_witness :
  exists syn, TCPConnection._segments_out (TCPConnection.connect (TCPConnection.make Connection.cfg8 Connection.isn5)) = [syn] /\
    in_state (TCPConnection.segment_received (TCPConnection.make Connection.cfg8 Connection.isn7) syn) SYN_RCVD.
Proof.
  destruct (handshake_states Connection.cfg8 Connection.cfg8 Connection.isn5 Connection.isn7)
    as (syn & synack & ack & H1 & _ & _ & _ & _ & _ & H2 & _); [vm_compute; split; congruence..|].
  exists syn. exact (conj H1 H2).
Defined.

(** The end of a connection: when both streams have ended and everything,
    the FIN included, is acknowledged, every tick leaves the connection in
    TIME_WAIT while it lingers, and in CLOSED from then on; a connection that
    need not linger is in CLOSED at once. *)
Theorem closing_states c ms :
  Connection.finished c -> 0 <= ms -> TCPConnection._time c + ms < 2 ^ 64 ->
  TCPReceiver.ackno (TCPConnection._receiver c) <> None ->
  ByteStream.error (TCPConnection.inbound_stream c) = false ->
  ByteStream.error (TCPSender.stream_in (TCPConnection._sender c)) = false ->
  0 <= ByteStream.bytes_written (TCPSender.stream_in (TCPConnection._sender c)) < 2 ^ 63 ->
  TCPSender.next_seqno_absolute (TCPConnection._sender c) =
    ByteStream.bytes_written (TCPSender.stream_in (TCPConnection._sender c)) + 2 ->
  let lingering := TCPConnection._linger_after_streams_finish c &&
    (TCPConnection._time c + ms - TCPConnection._time_last_segment_received c <? 10 * TCPConfig.rt_timeout (TCPConnection._cfg c)) in
  in_state (TCPConnection.tick c ms) (if lingering then TIME_WAIT else CLOSED).
Proof.
  intros Hf Hms Hov Ha Hei Heo Hw Hn lingering. destruct (Connection.tick_finished c ms Hf Hms Hov) as (Ea & Er & Es & El).
  apply in_state_eq. unfold state. fold lingering in Ea. rewrite Ea, Er, Es, El. destruct Hf as (_ & Hi & Ho & Hfl & _).
  unfold make, sender_summary, receiver_summary, TCPConnection.bytes_in_flight, TCPConnection.inbound_stream in *.
  change (TCPSender.stream_in (setter _ _)) with (TCPSender.stream_in (TCPConnection._sender c)).
  change (TCPSender.next_seqno_absolute (setter _ _)) with (TCPSender.next_seqno_absolute (TCPConnection._sender c)).
  change (TCPSender.bytes_in_flight (setter _ _)) with (TCPSender.bytes_in_flight (TCPConnection._sender c)).
  rewrite Hei, Heo, Ho, Hfl, Hn, u64_id, Z.ltb_irrefl by lia.
  destruct (Z.eqb_spec (ByteStream.bytes_written (TCPSender.stream_in (TCPConnection._sender c)) + 2) 0); [lia|].
  apply andb_true_iff in Hi as [_ Hi]. fold (ByteStream.input_ended) in Hi. rewrite Hi.
  destruct (TCPReceiver.ackno (TCPConnection._receiver c)); [|done]. unfold lingering.
  destruct (TCPConnection._linger_after_streams_finish c); cbn [andb negb Z.eqb]; [by destruct (_ <? _)|done].
Qed.


(** A whole conversation without data: A connects, B answers, A closes, B
    closes. *)
Definition deliver (c from : TCPConnection.t) : TCPConnection.t :=
  fold_left TCPConnection.segment_received (TCPConnection._segments_out from) (Connection.drained c).
Definition talk_a0 : TCPConnection.t := TCPConnection.connect (TCPConnection.make Connection.cfg8 Connection.isn5).
Definition talk_b0 : TCPConnection.t := deliver (TCPConnection.make Connection.cfg8 Connection.isn7) talk_a0.
Definition talk_a1 : TCPConnection.t := TCPConnection.end_input_stream (deliver talk_a0 talk_b0).
Definition talk_b1 : TCPConnection.t := TCPConnection.end_input_stream (deliver talk_b0 talk_a1).
Definition talk_a2 : TCPConnection.t := deliver talk_a1 talk_b1.

Lemma closing_states_witness :
  in_state talk_a1 FIN_WAIT_1 /\ in_state (TCPConnection.tick talk_a2 9999) TIME_WAIT /\
  in_state (TCPConnection.tick talk_a2 10000) CLOSED.
Proof.
  split; [by vm_compute|].
  assert (Hf : Connection.finished talk_a2) by (unfold Connection.finished; split_and!; by vm_compute).
  assert (Ha : TCPReceiver.ackno (TCPConnection._receiver talk_a2) <> None) by (by vm_compute).
  split.
  - refine (closing_states talk_a2 9999 Hf _ _ Ha _ _ _ _); vm_compute; try split; congruence.
  - refine (closing_states talk_a2 10000 Hf _ _ Ha _ _ _ _); vm_compute; try split; congruence.
Defined.

End TCPState.
