(* ===== verification/address.v ===== *)
(** Socket addresses ([libsponge/util/address.{hh,cc}]).

    The wrapped [sockaddr_storage] is its family and the bytes behind it (for
    IPv4: port and address in network order). [getaddrinfo] and [getnameinfo] are
    parameters, the class [Resolver]; what they document for numeric addresses is
    its law. The components that use addresses rely on [AddressText] only, which
    the functions here implement. *)

From Stdlib Require Import Ascii.
From S2P Require Import prelude std_strings.

Module Address.

(** [AF_INET], [sizeof(sockaddr_in)] and [sizeof(sockaddr_storage)] of Linux;
    the family takes two bytes. *)
Definition AF_INET : Z := 2.
Definition SIZEOF_SOCKADDR_IN : Z := 16.
Definition SIZEOF_STORAGE : Z := 128.

Record t := mk {
  _size : Z;
  ss_family : Z;
  ss_data : list byte
}.

Definition size (a : t) : Z := _size a.

(** [Address(const sockaddr *, size_t)]: [data] is what follows the family. *)
Definition of_sockaddr (family : Z) (data : list byte) (size : Z) : result t :=
  if SIZEOF_STORAGE <? size then Throw runtime_error
  else
    let copied := take (Z.to_nat (size - 2)) data in
    Ok (mk size family (copied ++ replicate (Z.to_nat (SIZEOF_STORAGE - 2) - length copied) x00)).

Definition ipv4_numeric (a : t) : result Z :=
  if negb (ss_family a =? AF_INET) || negb (_size a =? SIZEOF_SOCKADDR_IN) then Throw runtime_error
  else Ok (be_combine (take 4 (drop 2 (ss_data a)))).

(** [sin_port] is 0 and [sin_zero] is 8 zeros. *)
Definition from_ipv4_numeric (ip_address : Z) : result t :=
  of_sockaddr AF_INET (replicate 2 x00 ++ be_split 4 ip_address ++ replicate 8 x00) SIZEOF_SOCKADDR_IN.

(** [operator==]: the sizes and the first [_size] bytes. *)
Definition eqb (a b : t) : bool :=
  (_size a =? _size b) && (ss_family a =? ss_family b) &&
  bool_decide (take (Z.to_nat (_size a - 2)) (ss_data a) = take (Z.to_nat (_size a - 2)) (ss_data b)).

(** The address made from a number. *)
Definition of_ip (ip : Z) : t :=
  mk SIZEOF_SOCKADDR_IN AF_INET
     ((replicate 2 x00 ++ be_split 4 ip ++ replicate 8 x00) ++ replicate 112 x00).

Lemma from_ipv4_numeric_eq ip : from_ipv4_numeric ip = Ok (of_ip ip).
Proof.
  unfold from_ipv4_numeric, of_sockaddr, of_ip. change (SIZEOF_STORAGE <? SIZEOF_SOCKADDR_IN) with false. cbv iota.
  change (Z.to_nat (SIZEOF_SOCKADDR_IN - 2)) with 14%nat.
  rewrite take_ge by (rewrite !length_app, length_be_split, !length_replicate; lia).
  by rewrite !length_app, length_be_split.
Qed.

Lemma ipv4_numeric_of_ip ip : is_u32 ip -> ipv4_numeric (of_ip ip) = Ok ip.
Proof.
  intros H. unfold ipv4_numeric, of_ip. cbn [ss_family _size ss_data negb orb Z.eqb Pos.eqb AF_INET SIZEOF_SOCKADDR_IN].
  rewrite <- app_assoc. rewrite drop_app_length' by done.
  rewrite <- app_assoc, take_app_length' by (by rewrite length_be_split).
  rewrite be_combine_split, Z.mod_small by done. done.
Qed.

(** A numeric IPv4 address survives the conversion to a socket address and
    back; reading any other kind of address as IPv4 throws. *)
Theorem ipv4_numeric_roundtrip ip :
  is_u32 ip ->
  (let* a := from_ipv4_numeric ip in ipv4_numeric a) = Ok ip /\
  forall a, (ss_family a <> AF_INET \/ size a <> SIZEOF_SOCKADDR_IN) -> ipv4_numeric a = Throw runtime_error.
Proof.
  intros H. split; [rewrite from_ipv4_numeric_eq; by apply ipv4_numeric_of_ip|].
  intros a Ha. unfold ipv4_numeric, size in *.
  destruct (Z.eqb_spec (ss_family a) AF_INET), (Z.eqb_spec (_size a) SIZEOF_SOCKADDR_IN); try done. by destruct Ha.
Qed.

Lemma ipv4_numeric_roundtrip_witness :
  (let* a := from_ipv4_numeric 0x12f30001 in ipv4_numeric a) = Ok 0x12f30001.
Proof. apply ipv4_numeric_roundtrip. lia. Defined.

(** ** Names and text *)

(** The members of [addrinfo] that the hints set. *)
Record hints := make_hints { ai_flags : Z; ai_family : Z }.

Definition AI_NUMERICHOST : Z := 0x4.
Definition AI_ALL : Z := 0x10.
Definition AI_NUMERICSERV : Z := 0x400.
Definition NI_NUMERIC : Z := Z.lor 0x1 0x2.

(** [getaddrinfo]: its result and the first address, with its family, the bytes
    behind it and its length. [getnameinfo]: its result, host and service. *)
Class Resolver := {
  getaddrinfo : string -> string -> hints -> Z * option (Z * list byte * Z);
  getnameinfo : t -> Z -> Z * (string * string)
}.

(** A [sockaddr_in] behind its family. *)
Definition sockaddr_in (ip p : Z) : list byte := be_split 2 p ++ be_split 4 ip ++ replicate 8 x00.

(** The flags this class passes. *)
Definition used_flags (flags : Z) : Prop := flags = AI_ALL \/ flags = Z.lor AI_NUMERICHOST AI_NUMERICSERV.

Lemma used_flags_all : used_flags AI_ALL.
Proof. by left. Qed.
Lemma used_flags_numeric : used_flags (Z.lor AI_NUMERICHOST AI_NUMERICSERV).
Proof. by right. Qed.

(** What [getaddrinfo(3)] and [getnameinfo(3)] document for a dotted quad and a
    decimal port, with these flags. *)
Class ResolverLaw (R : Resolver) : Prop := {
  getaddrinfo_numeric : forall ip p flags, is_u32 ip -> is_u16 p -> used_flags flags ->
    getaddrinfo (inet_ntoa ip) (to_string p) (make_hints flags AF_INET) = (0, Some (AF_INET, sockaddr_in ip p, SIZEOF_SOCKADDR_IN));
  getnameinfo_numeric : forall a ip p, is_u32 ip -> is_u16 p ->
    _size a = SIZEOF_SOCKADDR_IN -> ss_family a = AF_INET -> take 14 (ss_data a) = sockaddr_in ip p ->
    getnameinfo a NI_NUMERIC = (0, (inet_ntoa ip, to_string p))
}.

Section Text.
Context `{Resolver}.

(** [Address(node, service, hints)] *)
Definition resolve (node service : string) (h : hints) : result t :=
  let '(gai_ret, resolved_address) := getaddrinfo node service h in
  if negb (gai_ret =? 0) then Throw (gai_error gai_ret) else
  match resolved_address with
  | None => Throw runtime_error
  | Some (family, data, addrlen) => of_sockaddr family data addrlen
  end.

(** [Address(hostname, service)] and [Address(ip, port)]; the port is a [uint16_t]. *)
Definition of_host (hostname service : string) : result t := resolve hostname service (make_hints AI_ALL AF_INET).
Definition of_numeric (ip : string) (p : Z) : result t :=
  resolve ip (to_string p) (make_hints (Z.lor AI_NUMERICHOST AI_NUMERICSERV) AF_INET).

Definition ip_port (a : t) : result (string * Z) :=
  let '(gni_ret, (ip, p)) := getnameinfo a NI_NUMERIC in
  if negb (gni_ret =? 0) then Throw (gai_error gni_ret) else
  let* n := stoi p in Ok (ip, u16 n).
Definition ip (a : t) : result string := let* x := ip_port a in Ok x.1.
Definition port (a : t) : result Z := let* x := ip_port a in Ok x.2.
Definition text (a : t) : result string := let* x := ip_port a in Ok (x.1 +:+ ":" +:+ to_string x.2).

(** *** Round trip *)

Context {Law : ResolverLaw _}.

(** The address of a numeric host and port. *)
Definition of_pair (ip p : Z) : t := mk SIZEOF_SOCKADDR_IN AF_INET (sockaddr_in ip p ++ replicate 112 x00).

Lemma length_sockaddr_in ip p : length (sockaddr_in ip p) = 14%nat.
Proof using Type. unfold sockaddr_in. by rewrite !length_app, !length_be_split. Qed.

Lemma resolve_numeric ip p flags :
  is_u32 ip -> is_u16 p -> used_flags flags -> resolve (inet_ntoa ip) (to_string p) (make_hints flags AF_INET) = Ok (of_pair ip p).
Proof using Law.
  intros Hi Hp Hf. unfold resolve. rewrite getaddrinfo_numeric by done. cbn [negb Z.eqb]. unfold of_sockaddr.
  change (SIZEOF_STORAGE <? SIZEOF_SOCKADDR_IN) with false. cbv iota. change (Z.to_nat (SIZEOF_SOCKADDR_IN - 2)) with 14%nat.
  rewrite take_ge by (by rewrite length_sockaddr_in). by rewrite length_sockaddr_in.
Qed.

Lemma ipv4_numeric_of_pair ip p : is_u32 ip -> ipv4_numeric (of_pair ip p) = Ok ip.
Proof using Type.
  intros Hi. unfold ipv4_numeric, of_pair, sockaddr_in.
  cbn [ss_family _size ss_data negb orb Z.eqb Pos.eqb AF_INET SIZEOF_SOCKADDR_IN].
  rewrite <- app_assoc, drop_app_length' by (by rewrite length_be_split).
  rewrite <- app_assoc, take_app_length' by (by rewrite length_be_split). by rewrite be_combine_split, Z.mod_small.
Qed.

Lemma ip_port_of_pair ip p : is_u32 ip -> is_u16 p -> ip_port (of_pair ip p) = Ok (inet_ntoa ip, p).
Proof using Law.
  intros Hi Hp. unfold ip_port. rewrite (getnameinfo_numeric (of_pair ip p) ip p) by
    (done || (cbn [ss_data of_pair]; by rewrite take_app_length' by (by rewrite length_sockaddr_in))).
  cbn [negb Z.eqb]. rewrite stoi_to_string by lia. cbn [result_bind]. by rewrite u16_id.
Qed.
End Text.

(** An address survives the way through text: the address made of a dotted quad
    and a port, or of the same text as host and service, has that number, that
    text and that port, and is rendered as both with a colon between. *)
Theorem address_text_roundtrip `{ResolverLaw} (n p : Z) :
  is_u32 n -> is_u16 p ->
  exists a, of_numeric (inet_ntoa n) p = Ok a /\ of_host (inet_ntoa n) (to_string p) = Ok a /\
    ipv4_numeric a = Ok n /\ ip a = Ok (inet_ntoa n) /\ port a = Ok p /\
    text a = Ok (inet_ntoa n +:+ ":" +:+ to_string p).
Proof.
  intros Hn Hp. exists (of_pair n p). unfold of_numeric, of_host, ip, port, text.
  rewrite !resolve_numeric, ipv4_numeric_of_pair, ip_port_of_pair by (done || apply used_flags_all || apply used_flags_numeric). done.
Qed.

End Address.

(** ** Addresses with ports

    [Address::port] and the constructor from a dotted address and a port go
    through [getnameinfo], [getaddrinfo] and [inet_ntoa]. They are parameters;
    the law is what these functions document for IPv4 addresses. *)

Class AddressText := {
  port : Address.t -> result Z;
  of_ip_port : Z -> Z -> result Address.t
}.

Class AddressTextLaw (A : AddressText) :=
  of_ip_port_spec : forall ip p, is_u32 ip -> is_u16 p ->
    exists a, of_ip_port ip p = Ok a /\ Address.ipv4_numeric a = Ok ip /\ port a = Ok p.

(** The functions of [Address] implement this interface. *)
Definition resolver_text `{Address.Resolver} : AddressText :=
  {| port := Address.port; of_ip_port ip p := Address.of_numeric (inet_ntoa ip) p |}.

#[global] Instance resolver_text_law `{Address.ResolverLaw} : AddressTextLaw resolver_text.
Proof.
  intros ip p Hi Hp. exists (Address.of_pair ip p). cbn [of_ip_port port resolver_text].
  unfold Address.of_numeric, Address.port. rewrite Address.resolve_numeric by (done || apply Address.used_flags_numeric).
  split; [done|]. split; [by apply Address.ipv4_numeric_of_pair|]. by rewrite Address.ip_port_of_pair.
Qed.

(** ** A resolver for numeric addresses *)

Module NumericResolver.
(** At most [k] more dots and numbers. *)
Fixpoint read_quad (k : nat) (s : string) (acc : Z) : option Z :=
  let '(n, rest) := read_digits 10 s 0 in
  match k, rest with
  | _, EmptyString => Some (acc * 256 + n)
  | S k, String c rest => if Ascii.eqb c "."%char then read_quad k rest (acc * 256 + n) else None
  | _, _ => None
  end.

Definition EAI_NONAME : Z := -2.
Definition EAI_FAMILY : Z := -6.

Definition lookup (node service : string) (h : Address.hints) : Z * option (Z * list byte * Z) :=
  match read_quad 3 node 0, read_number 10 service with
  | Some ip, Some p => (0, Some (Address.AF_INET, Address.sockaddr_in ip p, Address.SIZEOF_SOCKADDR_IN))
  | _, _ => (EAI_NONAME, None)
  end.
Definition name (a : Address.t) (flags : Z) : Z * (string * string) :=
  if (Address.ss_family a =? Address.AF_INET) && (Address._size a =? Address.SIZEOF_SOCKADDR_IN)
  then (0, (inet_ntoa (be_combine (take 4 (drop 2 (Address.ss_data a)))), to_string (be_combine (take 2 (Address.ss_data a)))))
  else (EAI_FAMILY, (EmptyString, EmptyString)).

Definition numeric_resolver : Address.Resolver := {| Address.getaddrinfo := lookup; Address.getnameinfo := name |}.

Lemma read_quad_last n acc : 0 <= n -> read_quad 0 (to_string n) acc = Some (acc * 256 + n).
Proof. intros Hn. unfold read_quad. by rewrite <- (string_app_nil_r (to_string n)), read_to_string. Qed.

Lemma read_quad_dot k n s acc : 0 <= n -> read_quad (S k) (to_string n +:+ "." +:+ s) acc = read_quad k s (acc * 256 + n).
Proof. intros Hn. cbn [read_quad]. by rewrite read_to_string. Qed.

Lemma read_inet_ntoa ip : is_u32 ip -> read_quad 3 (inet_ntoa ip) 0 = Some ip.
Proof.
  intros Hi. unfold inet_ntoa. rewrite !read_quad_dot, read_quad_last by (apply Z.mod_pos_bound || apply Z.div_pos; lia).
  f_equal. Z.div_mod_to_equations. lia.
Qed.

Lemma numeric_resolver_law : Address.ResolverLaw numeric_resolver.
Proof.
  split; cbn [Address.getaddrinfo Address.getnameinfo numeric_resolver].
  - intros ip p flags Hi Hp _. unfold lookup. rewrite read_inet_ntoa by done.
    by rewrite <- (string_app_nil_r (to_string p)), read_number_to_string by (done || lia).
  - intros a ip p Hi Hp Hs Hf Hd. unfold name. rewrite Hs, Hf. cbn [andb Z.eqb Pos.eqb Address.AF_INET Address.SIZEOF_SOCKADDR_IN].
    assert (E1 : take 2 (Address.ss_data a) = be_split 2 p).
    { replace (take 2 (Address.ss_data a)) with (take 2 (take 14 (Address.ss_data a))) by (by rewrite take_take). rewrite Hd. unfold Address.sockaddr_in.
      by rewrite take_app_length' by (by rewrite length_be_split). }
    assert (E2 : take 4 (drop 2 (Address.ss_data a)) = be_split 4 ip).
    { replace (take 4 (drop 2 (Address.ss_data a))) with (take 4 (drop 2 (take 14 (Address.ss_data a)))).
      - rewrite Hd. unfold Address.sockaddr_in. rewrite drop_app_length' by (by rewrite length_be_split).
        by rewrite take_app_length' by (by rewrite length_be_split).
      - by rewrite skipn_firstn_comm, take_take. }
    by rewrite E1, E2, !be_combine_split, !Z.mod_small by done.
Qed.

Lemma address_text_roundtrip_witness :
  exists a, @Address.of_numeric numeric_resolver "18.243.0.1" 80 = Ok a /\ @Address.ip numeric_resolver a = Ok "18.243.0.1"%string /\
    @Address.text numeric_resolver a = Ok "18.243.0.1:80"%string.
Proof.
  destruct (@Address.address_text_roundtrip numeric_resolver numeric_resolver_law 0x12f30001 80) as (a & E1 & _ & _ & E2 & _ & E3); [lia|lia|].
  exists a. exact (conj E1 (conj E2 E3)).
Defined.
End NumericResolver.

(** ** An implementation of the address functions for [sockaddr_in] *)

Module SockaddrIn.
Definition sockaddr_port (a : Address.t) : result Z :=
  if (Address.ss_family a =? Address.AF_INET) && (Address._size a =? Address.SIZEOF_SOCKADDR_IN)
  then Ok (be_combine (take 2 (Address.ss_data a))) else Throw runtime_error.

Definition sockaddr_of (ip p : Z) : Address.t :=
  Address.mk Address.SIZEOF_SOCKADDR_IN Address.AF_INET (be_split 2 p ++ be_split 4 ip ++ replicate 120 x00).

#[export] Instance sockaddr_text : AddressText := {| port := sockaddr_port; of_ip_port ip p := Ok (sockaddr_of ip p) |}.

Lemma sockaddr_of_port ip p : is_u16 p -> sockaddr_port (sockaddr_of ip p) = Ok p.
Proof.
  intros Hp. unfold sockaddr_port, sockaddr_of. cbn [Address.ss_family Address._size Address.ss_data Z.eqb Pos.eqb andb
    Address.AF_INET Address.SIZEOF_SOCKADDR_IN].
  rewrite take_app_length' by (by rewrite length_be_split). by rewrite be_combine_split, Z.mod_small.
Qed.

Lemma sockaddr_of_ip ip p : is_u32 ip -> Address.ipv4_numeric (sockaddr_of ip p) = Ok ip.
Proof.
  intros Hi. unfold Address.ipv4_numeric, sockaddr_of. cbn [Address.ss_family Address._size Address.ss_data Z.eqb Pos.eqb negb orb
    Address.AF_INET Address.SIZEOF_SOCKADDR_IN].
  rewrite drop_app_length' by (by rewrite length_be_split).
  rewrite take_app_length' by (by rewrite length_be_split). by rewrite be_combine_split, Z.mod_small.
Qed.

#[export] Instance sockaddr_text_law : AddressTextLaw sockaddr_text.
Proof. intros ip p Hi Hp. eexists. split; [done|]. split; [by apply sockaddr_of_ip|by apply sockaddr_of_port]. Qed.
End SockaddrIn.
