(* ===== verification/network_interface.v ===== *)
(** The network interface between IP and Ethernet
    ([libsponge/network_interface.{hh,cc}]).

    [NetworkInterface.t] has the private members of the class, the maps as
    [gmap]s and the queues with their front at the head of the list. A method
    that can throw returns the state it leaves and the exception. *)

From S2P Require Import prelude buffer parser ethernet ipv4 address.

Module NetworkInterface.

Abbreviation datagram := IPv4Datagram.t.
Abbreviation frame := EthernetFrame.t.

Record t := mk {
  ip2eth : gmap Z EthernetAddress;
  ip2dgrams : gmap Z (list datagram);
  timestamps_arp : gmap Z Z;
  timestamps_pair : list (Z * EthernetAddress * Z);
  _time : Z;
  _ethernet_address : EthernetAddress;
  _ip_address : Address.t;
  _frames_out : list frame
}.

#[global] Instance set_ip2eth : Setter ip2eth := fun f s =>
  mk (f (ip2eth s)) (ip2dgrams s) (timestamps_arp s) (timestamps_pair s) (_time s) (_ethernet_address s) (_ip_address s) (_frames_out s).
#[global] Instance set_ip2dgrams : Setter ip2dgrams := fun f s =>
  mk (ip2eth s) (f (ip2dgrams s)) (timestamps_arp s) (timestamps_pair s) (_time s) (_ethernet_address s) (_ip_address s) (_frames_out s).
#[global] Instance set_timestamps_arp : Setter timestamps_arp := fun f s =>
  mk (ip2eth s) (ip2dgrams s) (f (timestamps_arp s)) (timestamps_pair s) (_time s) (_ethernet_address s) (_ip_address s) (_frames_out s).
#[global] Instance set_timestamps_pair : Setter timestamps_pair := fun f s =>
  mk (ip2eth s) (ip2dgrams s) (timestamps_arp s) (f (timestamps_pair s)) (_time s) (_ethernet_address s) (_ip_address s) (_frames_out s).
#[global] Instance set_time : Setter _time := fun f s =>
  mk (ip2eth s) (ip2dgrams s) (timestamps_arp s) (timestamps_pair s) (f (_time s)) (_ethernet_address s) (_ip_address s) (_frames_out s).
#[global] Instance set_frames_out : Setter _frames_out := fun f s =>
  mk (ip2eth s) (ip2dgrams s) (timestamps_arp s) (timestamps_pair s) (_time s) (_ethernet_address s) (_ip_address s) (f (_frames_out s)).

(** The constructor. *)
Definition make (ethernet_address : EthernetAddress) (ip_address : Address.t) : t :=
  mk ∅ ∅ ∅ [] 0 ethernet_address ip_address [].

(** [constexpr EthernetAddress ADDR_BROADCAST = {0, 0, 0, 0, 0, 0}] *)
Definition ADDR_BROADCAST : EthernetAddress := replicate 6 x00.

Definition push_frame (s : t) (f : frame) : t := s <| _frames_out := _frames_out s ++ [f] |>.

(** The frame that carries a datagram: lines 27-31 and 73-78. *)
Definition ipv4_frame (s : t) (dst : EthernetAddress) (payload : BufferList.t) : frame :=
  EthernetFrame.mk (EthernetHeader.mk dst (_ethernet_address s) EthernetHeader.TYPE_IPv4) payload.

Definition send_arp (s : t) (opcode target_ip : Z) (target_eth : EthernetAddress) : t * result unit :=
  let dst := if opcode =? ARPMessage.OPCODE_REPLY then target_eth else ETHERNET_BROADCAST in
  let header := EthernetHeader.mk dst (_ethernet_address s) EthernetHeader.TYPE_ARP in
  match Address.ipv4_numeric (_ip_address s) with
  | Throw e => (s, Throw e)
  | Ok ip =>
      let d := ARPMessage.default in
      let msg := ARPMessage.mk (ARPMessage.hardware_type d) (ARPMessage.protocol_type d)
                   (ARPMessage.hardware_address_size d) (ARPMessage.protocol_address_size d)
                   opcode (_ethernet_address s) ip target_eth target_ip in
      match ARPMessage.serialize msg with
      | Throw e => (s, Throw e)
      | Ok str => (push_frame s (EthernetFrame.mk header (BufferList.of_string str)), Ok tt)
      end
  end.

Definition send_datagram (s : t) (dgram : datagram) (next_hop : Address.t) : t * result unit :=
  match Address.ipv4_numeric next_hop with
  | Throw e => (s, Throw e)
  | Ok next_hop_ip =>
      match ip2eth s !! next_hop_ip with
      | Some eth =>
          match IPv4Datagram.serialize dgram with
          | Throw e => (s, Throw e)
          | Ok payload => (push_frame s (ipv4_frame s eth payload), Ok tt)
          end
      | None =>
          let queue := default [] (ip2dgrams s !! next_hop_ip) in
          let s := s <| ip2dgrams := <[next_hop_ip := queue ++ [dgram]]> (ip2dgrams s) |> in
          let waiting := match timestamps_arp s !! next_hop_ip with
                         | Some sent => u64 (_time s - sent) <? 5000
                         | None => false
                         end in
          if waiting then (s, Ok tt)
          else
            let s := s <| timestamps_arp := <[next_hop_ip := _time s]> (timestamps_arp s) |> in
            send_arp s ARPMessage.OPCODE_REQUEST next_hop_ip ADDR_BROADCAST
      end
  end.

(** The loop of lines 72-81 over the queue of datagrams waiting for [ip]; a
    datagram that cannot be serialized stays at the front. *)
Fixpoint flush (s : t) (ip : Z) (eth : EthernetAddress) (queue : list datagram) : t * result unit :=
  match queue with
  | [] => (s <| ip2dgrams := <[ip := []]> (ip2dgrams s) |>, Ok tt)
  | dgram :: rest =>
      match IPv4Datagram.serialize dgram with
      | Throw e => (s <| ip2dgrams := <[ip := queue]> (ip2dgrams s) |>, Throw e)
      | Ok payload => flush (push_frame s (ipv4_frame s eth payload)) ip eth rest
      end
  end.

(** Lines 65-68: a mapping is recorded if there is none. *)
Definition learn (s : t) (ip : Z) (eth : EthernetAddress) : t :=
  match ip2eth s !! ip with
  | Some _ => s
  | None => s <| timestamps_pair := timestamps_pair s ++ [(ip, eth, _time s)] |>
              <| ip2eth := <[ip := eth]> (ip2eth s) |>
  end.

(** Lines 69-82. *)
Definition flush_waiting (s : t) (ip : Z) : t * result unit :=
  match timestamps_arp s !! ip with
  | None => (s, Ok tt)
  | Some _ =>
      let s := s <| timestamps_arp := delete ip (timestamps_arp s) |> in
      flush s ip (default (replicate 6 x00) (ip2eth s !! ip)) (default [] (ip2dgrams s !! ip))
  end.

Definition recv_frame (s : t) (f : frame) : t * result (option datagram) :=
  let header := EthernetFrame.header f in
  let payload := Buffer.of_string (BufferList.concatenate (EthernetFrame.payload f)) in
  if (EthernetHeader.type header =? EthernetHeader.TYPE_IPv4) &&
     bool_decide (EthernetHeader.dst header = _ethernet_address s) then
    let '(dgram, r) := IPv4Datagram.parse IPv4Datagram.default payload in
    (s, Ok (if decide (r = NoError) then Some dgram else None))
  else
    let '(msg, r) := ARPMessage.parse ARPMessage.default payload in
    if decide (r = NoError) then
      let ip := ARPMessage.sender_ip_address msg in
      let s := learn s ip (ARPMessage.sender_ethernet_address msg) in
      let '(s, r) := flush_waiting s ip in
      match r with
      | Throw e => (s, Throw e)
      | Ok _ =>
          if ARPMessage.opcode msg =? ARPMessage.OPCODE_REQUEST then
            match Address.ipv4_numeric (_ip_address s) with
            | Throw e => (s, Throw e)
            | Ok my_ip =>
                if ARPMessage.target_ip_address msg =? my_ip then
                  let '(s, r) := send_arp s ARPMessage.OPCODE_REPLY (ARPMessage.sender_ip_address msg)
                                   (ARPMessage.sender_ethernet_address msg) in
                  (s, let* _ := r in Ok None)
                else (s, Ok None)
            end
          else (s, Ok None)
      end
    else (s, Ok None).

(** Lines 111-120: the loop over the queue of learned mappings. *)
Fixpoint expire (pairs : list (Z * EthernetAddress * Z)) (s : t) : t :=
  match pairs with
  | [] => s <| timestamps_pair := [] |>
  | (ip, eth, learned) :: rest =>
      if 30000 <? u64 (_time s - learned)
      then expire rest (s <| ip2eth := delete ip (ip2eth s) |>)
      else s <| timestamps_pair := pairs |>
  end.

Definition tick (s : t) (ms_since_last_tick : Z) : t :=
  let s := s <| _time := u64 (_time s + ms_since_last_tick) |> in
  expire (timestamps_pair s) s.

End NetworkInterface.
