(* ===== verification/arp_cache.v ===== *)
(** What the network interface guarantees: its address mappings live for 30
    seconds, ARP requests are not repeated within 5, datagrams wait in order for
    their mapping, and two hosts on one Ethernet deliver datagrams to each
    other. *)

From Stdlib Require Import Sorting.Sorted.
From S2P Require Import prelude buffer parser ethernet ipv4 address network_interface.

Module ArpCache.
Import NetworkInterface.

(** ** The lifetime of mappings *)

Abbreviation entry := (Z * EthernetAddress * Z)%type.
Definition e_ip (e : entry) : Z := e.1.1.
Definition e_eth (e : entry) : EthernetAddress := e.1.2.
Definition e_time (e : entry) : Z := e.2.

(** The map holds exactly the queued mappings, one per address, in the order
    they were learned. *)
Record inv (s : t) : Prop := {
  i_nodup : NoDup (map e_ip (timestamps_pair s));
  i_map : forall ip eth, ip2eth s !! ip = Some eth <-> exists learned, (ip, eth, learned) ∈ timestamps_pair s;
  i_order : StronglySorted (fun a b => e_time a <= e_time b) (timestamps_pair s);
  i_past : Forall (fun e => 0 <= e_time e <= _time s) (timestamps_pair s);
  i_time : is_u64 (_time s)
}.

(** The components of the state the mappings depend on. *)
Definition same_cache (a b : t) : Prop :=
  ip2eth a = ip2eth b /\ timestamps_pair a = timestamps_pair b /\ _time a = _time b.

Lemma inv_same a b : same_cache a b -> inv a -> inv b.
Proof. intros (E1 & E2 & E3) []. split; by rewrite <- ?E1, <- ?E2, <- ?E3. Qed.

Lemma send_arp_cache s op ip eth : same_cache s (send_arp s op ip eth).1.
Proof. unfold send_arp. destruct (Address.ipv4_numeric _); [|done]. by destruct (ARPMessage.serialize _). Qed.

Lemma send_datagram_cache s dgram hop : same_cache s (send_datagram s dgram hop).1.
Proof.
  unfold send_datagram. destruct (Address.ipv4_numeric hop); [|done].
  destruct (ip2eth s !! a); [by destruct (IPv4Datagram.serialize dgram)|].
  destruct (timestamps_arp _ !! a) as [sent|]; [destruct (_ <? 5000); [done|]|].
  all: match goal with |- same_cache _ (send_arp ?s1 ?o ?i ?e).1 => exact (send_arp_cache s1 o i e) end.
Qed.

Lemma flush_cache s ip eth queue : same_cache s (flush s ip eth queue).1.
Proof.
  revert s. induction queue as [|d queue IH]; intros s; cbn [flush]; [done|].
  destruct (IPv4Datagram.serialize d); [|done]. exact (IH (push_frame s _)).
Qed.

Lemma learn_inv s ip eth : inv s -> inv (learn s ip eth).
Proof.
  intros Hi. unfold learn. destruct (ip2eth s !! ip) as [e|] eqn:E; [done|]. destruct Hi.
  assert (Hnew : ip ∉ map e_ip (timestamps_pair s)).
  { intros ([[ip' eth'] t'] & -> & Hin)%list_elem_of_fmap. cbn in E.
    assert (ip2eth s !! ip' = Some eth') by (apply i_map0; by eexists). congruence. }
  split; cbn; try done.
  - rewrite map_app. apply NoDup_app. split_and!; [done| |apply NoDup_singleton].
    intros x Hx ->%list_elem_of_singleton. done.
  - intros ip' eth'. rewrite lookup_insert_Some. setoid_rewrite elem_of_app. setoid_rewrite list_elem_of_singleton.
    rewrite i_map0. split.
    + intros [[<- <-]|[Hne [lt Hin]]]; [exists (_time s); by right|exists lt; by left].
    + intros [lt [Hin|[= -> -> ->]]]; [|by left]. right. split; [|by exists lt].
      intros <-. apply Hnew. apply list_elem_of_fmap. by exists (ip, eth', lt).
  - clear - i_order0 i_past0. induction i_order0 as [|e l Hl IH Hall]; [by repeat constructor|].
    apply Forall_cons_1 in i_past0 as [Hp Hps]. cbn. constructor; [by apply IH|].
    apply Forall_app. split; [done|]. constructor; [cbn; lia|constructor].
  - apply Forall_app. split; [done|]. constructor; [cbn; lia|constructor].
Qed.

(** Is the mapping still alive? *)
Definition alive (now : Z) (e : entry) : bool := now - e_time e <=? 30000.

Lemma filter_all {A} (f : A -> bool) (l : list A) : Forall (fun x => f x = true) l -> List.filter f l = l.
Proof. induction 1 as [|x l Hx _ IH]; [done|]. cbn. by rewrite Hx, IH. Qed.

Lemma expire_spec pairs s :
  inv (s <| timestamps_pair := pairs |>) ->
  inv (expire pairs s) /\ timestamps_pair (expire pairs s) = List.filter (alive (_time s)) pairs /\
  _time (expire pairs s) = _time s /\ _frames_out (expire pairs s) = _frames_out s /\
  ip2dgrams (expire pairs s) = ip2dgrams s /\ timestamps_arp (expire pairs s) = timestamps_arp s.
Proof.
  revert s. induction pairs as [|[[ip eth] lt] pairs IH]; intros s Hi; cbn [expire List.filter]; [done|].
  pose proof Hi as []. cbn in *. apply Forall_cons_1 in i_past0 as [Hp Hps]. cbn in Hp.
  apply NoDup_cons in i_nodup0 as [Hnin Hnd]. apply StronglySorted_inv in i_order0 as [Hso Hle].
  rewrite u64_id by lia. unfold alive at 1. change (e_time (ip, eth, lt)) with lt.
  destruct (Z.ltb_spec 30000 (_time s - lt)), (Z.leb_spec (_time s - lt) 30000); try lia.
  - specialize (IH (s <| ip2eth := delete ip (ip2eth s) |>)). apply IH. split; cbn; try done.
    intros ip' eth'. rewrite lookup_delete_Some, i_map0. setoid_rewrite elem_of_cons. split.
    + intros [Hne [lt' [[= -> -> ->]|Hin]]]; [done|by exists lt'].
    + intros [lt' Hin]. split; [|exists lt'; by right]. intros ->. apply Hnin. apply list_elem_of_fmap.
      by exists (ip', eth', lt').
  - split; [exact Hi|]. split_and!; try done. cbn. f_equal. symmetry. apply filter_all.
    eapply Forall_impl; [exact Hle|]. cbn. intros e He. apply Z.leb_le. lia.
Qed.

(** Everything that can happen to an interface; the clock does not overflow. *)
Inductive reach (eth0 : EthernetAddress) (ip0 : Address.t) : t -> Prop :=
  | n_init : reach eth0 ip0 (make eth0 ip0)
  | n_send s dgram hop : reach eth0 ip0 s -> reach eth0 ip0 (send_datagram s dgram hop).1
  | n_recv s f : reach eth0 ip0 s -> reach eth0 ip0 (recv_frame s f).1
  | n_tick s ms : reach eth0 ip0 s -> 0 <= ms -> _time s + ms < 2 ^ 64 -> reach eth0 ip0 (tick s ms)
  | n_dequeue s f q : reach eth0 ip0 s -> _frames_out s = f :: q -> reach eth0 ip0 (s <| _frames_out := q |>).

Lemma recv_frame_inv s f : inv s -> inv (recv_frame s f).1.
Proof.
  intros Hi. unfold recv_frame. destruct (_ && _); [by destruct (IPv4Datagram.parse _ _)|].
  destruct (ARPMessage.parse _ _) as [msg r]. case_decide; [|done].
  set (ip := ARPMessage.sender_ip_address msg). pose proof (learn_inv s ip (ARPMessage.sender_ethernet_address msg) Hi) as H1.
  set (s1 := learn _ _ _) in *. clearbody s1.
  assert (H2 : inv (flush_waiting s1 ip).1).
  { unfold flush_waiting. destruct (timestamps_arp s1 !! ip); [|done].
    eapply inv_same; [|exact H1].
    match goal with |- same_cache _ (flush ?s2 ?i ?e ?q).1 => exact (flush_cache s2 i e q) end. }
  destruct (flush_waiting s1 ip) as [s2 [u|e]]; [|done]. cbn [fst] in H2.
  destruct (_ =? _); [|done]. destruct (Address.ipv4_numeric _); [|done]. destruct (_ =? _); [|done].
  match goal with |- context [send_arp ?a ?b ?c ?d] => pose proof (send_arp_cache a b c d) as Hs; destruct (send_arp a b c d) as [s3 r3] end.
  by eapply inv_same.
Qed.

Lemma tick_spec s ms :
  inv s -> 0 <= ms -> _time s + ms < 2 ^ 64 ->
  inv (tick s ms) /\ timestamps_pair (tick s ms) = List.filter (alive (_time s + ms)) (timestamps_pair s) /\
  _time (tick s ms) = _time s + ms.
Proof.
  intros [] Hms Hov. unfold tick. rewrite u64_id by lia. set (s1 := s <| _time := _ |>).
  destruct (expire_spec (timestamps_pair s1) s1) as (A & B & C & _).
  { split; cbn; try done; [|lia]. eapply Forall_impl; [exact i_past0|]. cbn. lia. }
  split_and!; [exact A|by rewrite B|by rewrite C].
Qed.

Lemma arp_reach_inv eth0 ip0 s : reach eth0 ip0 s -> inv s.
Proof.
  induction 1 as [|s dgram hop _ IH|s f _ IH|s ms _ IH Hms Hov|s f q _ IH E].
  - split; cbn; try done; try (by constructor). intros ip eth. rewrite lookup_empty. split; [done|].
    intros [lt Hin]. by apply not_elem_of_nil in Hin.
  - eapply inv_same; [apply send_datagram_cache|done].
  - by apply recv_frame_inv.
  - by apply tick_spec.
  - by apply (inv_same s).
Qed.

(** *** The history of an interface *)

Inductive event :=
  | SendDatagram (dgram : datagram) (hop : Address.t)
  | RecvFrame (f : frame)
  | Pass (ms : Z)
  | TakeFrame.

Definition step (s : t) (e : event) : t :=
  match e with
  | SendDatagram dgram hop => (send_datagram s dgram hop).1
  | RecvFrame f => (recv_frame s f).1
  | Pass ms => tick s ms
  | TakeFrame => s <| _frames_out := tail (_frames_out s) |>
  end.

(** How much time the events take. *)
Fixpoint elapsed (evs : list event) : Z :=
  match evs with
  | [] => 0
  | Pass ms :: evs => ms + elapsed evs
  | _ :: evs => elapsed evs
  end.
Definition event_ok (e : event) : Prop := match e with Pass ms => 0 <= ms | _ => True end.

(** The pair of addresses a frame announces to the interface [mine]: that of
    the sender of an ARP message. (IPv4 datagrams for this interface are not
    looked at; any other frame is, see [foreign_frame_learned].) *)
Definition announces (mine : EthernetAddress) (f : frame) : option (Z * EthernetAddress) :=
  let header := EthernetFrame.header f in
  if (EthernetHeader.type header =? EthernetHeader.TYPE_IPv4) && bool_decide (EthernetHeader.dst header = mine) then None
  else
    let '(msg, r) := ARPMessage.parse ARPMessage.default (Buffer.of_string (BufferList.concatenate (EthernetFrame.payload f))) in
    if decide (r = NoError) then Some (ARPMessage.sender_ip_address msg, ARPMessage.sender_ethernet_address msg) else None.

(** A frame adds the pair it announces, with the time of its arrival, if no
    mapping for the address is known. *)
Lemma recv_frame_cache s f :
  same_cache (match announces (_ethernet_address s) f with Some (ip, eth) => learn s ip eth | None => s end) (recv_frame s f).1.
Proof.
  unfold announces, recv_frame. destruct (_ && _); [by destruct (IPv4Datagram.parse _ _)|].
  destruct (ARPMessage.parse _ _) as [msg r]. case_decide; [|done].
  set (s1 := learn s _ _). clearbody s1. set (ip := ARPMessage.sender_ip_address msg).
  assert (H2 : same_cache s1 (flush_waiting s1 ip).1).
  { unfold flush_waiting. destruct (timestamps_arp s1 !! ip); [|done].
    match goal with |- same_cache _ (flush ?s2 ?i ?e ?q).1 => exact (flush_cache s2 i e q) end. }
  destruct (flush_waiting s1 ip) as [s2 [u|e]]; [|done]. cbn [fst] in H2.
  destruct (_ =? _); [|done]. destruct (Address.ipv4_numeric _); [|done]. destruct (_ =? _); [|done].
  match goal with |- context [send_arp ?a ?b ?c ?d] => pose proof (send_arp_cache a b c d) as Hs; destruct (send_arp a b c d) as [s3 r3] end.
  cbn [fst] in *. destruct H2 as (A1 & A2 & A3), Hs as (B1 & B2 & B3). split_and!; congruence.
Qed.

Lemma flush_address s ip eth queue : _ethernet_address (flush s ip eth queue).1 = _ethernet_address s.
Proof.
  revert s. induction queue as [|d queue IH]; intros s; cbn [flush]; [done|].
  destruct (IPv4Datagram.serialize d); [|done]. exact (IH (push_frame s _)).
Qed.

Lemma send_arp_address s op ip eth : _ethernet_address (send_arp s op ip eth).1 = _ethernet_address s.
Proof. unfold send_arp. destruct (Address.ipv4_numeric _); [|done]. by destruct (ARPMessage.serialize _). Qed.

Lemma expire_address pairs s : _ethernet_address (expire pairs s) = _ethernet_address s.
Proof.
  revert s. induction pairs as [|[[ip eth] lt] pairs IH]; intros s; cbn [expire]; [done|].
  destruct (_ <? _); [|done]. by rewrite IH.
Qed.

Lemma step_address s e : _ethernet_address (step s e) = _ethernet_address s.
Proof.
  destruct e as [dgram hop|f|ms|]; cbn [step]; [| |exact (expire_address _ _)|done].
  - unfold send_datagram. destruct (Address.ipv4_numeric hop); [|done].
    destruct (ip2eth s !! a); [by destruct (IPv4Datagram.serialize dgram)|].
    match goal with |- context [if ?b then (?x, _) else _] => destruct b; [done|] end. exact (send_arp_address _ _ _ _).
  - unfold recv_frame. destruct (_ && _); [by destruct (IPv4Datagram.parse _ _)|].
    destruct (ARPMessage.parse _ _) as [msg r]. case_decide; [|done].
    assert (H1 : forall ip eth, _ethernet_address (learn s ip eth) = _ethernet_address s)
      by (intros; unfold learn; by destruct (ip2eth s !! ip)).
    rewrite <- (H1 (ARPMessage.sender_ip_address msg) (ARPMessage.sender_ethernet_address msg)).
    generalize (learn s (ARPMessage.sender_ip_address msg) (ARPMessage.sender_ethernet_address msg)). intros s1.
    set (ip := ARPMessage.sender_ip_address msg).
    assert (H2 : _ethernet_address (flush_waiting s1 ip).1 = _ethernet_address s1).
    { unfold flush_waiting. destruct (timestamps_arp s1 !! ip); [|done]. exact (flush_address _ _ _ _). }
    rewrite <- H2. destruct (flush_waiting s1 ip) as [s2 [u|e]]; [|done]. cbn [fst].
    destruct (_ =? _); [|done]. destruct (Address.ipv4_numeric _); [|done]. destruct (_ =? _); [|done].
    match goal with |- context [send_arp ?a ?b ?c ?d] => pose proof (send_arp_address a b c d) as Hs; destruct (send_arp a b c d) as [s3 r3] end.
    exact Hs.
Qed.

Lemma elapsed_app a b : elapsed (a ++ b) = elapsed a + elapsed b.
Proof. induction a as [|[] a IH]; cbn; lia. Qed.
Lemma elapsed_nonneg evs : Forall event_ok evs -> 0 <= elapsed evs.
Proof. induction 1 as [|[] evs He _ IH]; cbn in *; lia. Qed.

Section History.
Context (eth0 : EthernetAddress) (ip0 : Address.t).

Definition run (evs : list event) : t := fold_left step evs (make eth0 ip0).

(** [(ip, eth)] was announced, with no mapping for [ip] known, [age]
    milliseconds before the end of the history. *)
Definition learned (evs : list event) (ip : Z) (eth : EthernetAddress) (age : Z) : Prop :=
  exists before f after, evs = before ++ RecvFrame f :: after /\
    announces eth0 f = Some (ip, eth) /\ ip2eth (run before) !! ip = None /\ age = elapsed after.

Lemma history_snoc evs e : run (evs ++ [e]) = step (run evs) e.
Proof using Type. unfold run. by rewrite fold_left_app. Qed.

Lemma run_address evs : _ethernet_address (run evs) = eth0.
Proof using Type.
  induction evs as [|e evs IH] using rev_ind; [done|]. by rewrite history_snoc, step_address.
Qed.

(** One more event: what was learned is that much older; a frame may add to it. *)
Lemma learned_snoc evs e ip eth age :
  learned (evs ++ [e]) ip eth age <->
  learned evs ip eth (age - elapsed [e]) \/
  (exists f, e = RecvFrame f /\ announces eth0 f = Some (ip, eth) /\ ip2eth (run evs) !! ip = None /\ age = 0).
Proof using Type.
  split.
  - intros (before & f & after & E & Ha & Hn & Hage). destruct after as [|e' after _] using rev_ind.
    + apply app_inj_tail in E as [-> ->]. right. by exists f.
    + rewrite app_comm_cons, app_assoc in E. apply app_inj_tail in E as [-> ->].
      left. exists before, f, after. split_and!; try done. rewrite elapsed_app in Hage. lia.
  - intros [(before & f & after & -> & Ha & Hn & Hage)|(f & -> & Ha & Hn & ->)].
    + exists before, f, (after ++ [e]). rewrite <- app_assoc. split_and!; try done. rewrite elapsed_app. lia.
    + by exists evs, f, [].
Qed.

(** The queue of mappings is the part of the history that is at most 30
    seconds old, each with the time at which it was learned. *)
Lemma history_inv evs :
  Forall event_ok evs -> elapsed evs < 2 ^ 64 ->
  inv (run evs) /\ _time (run evs) = elapsed evs /\
  forall ip eth t, (ip, eth, t) ∈ timestamps_pair (run evs) <-> elapsed evs - t <= 30000 /\ learned evs ip eth (elapsed evs - t).
Proof using Type.
  induction evs as [|e evs IH] using rev_ind; intros Hok Hov.
  - split; [apply (arp_reach_inv eth0 ip0), n_init|]. split; [done|]. intros ip eth t. cbn. rewrite elem_of_nil.
    split; [done|]. intros (_ & before & f & after & E & _). by destruct before.
  - apply Forall_app in Hok as [Hok He%Forall_inv]. rewrite elapsed_app in Hov |- *.
    assert (Hnn : 0 <= elapsed [e]) by (apply elapsed_nonneg; by repeat constructor).
    destruct (IH Hok ltac:(lia)) as (Hi & Ht & Hp). rewrite history_snoc. clear IH.
    setoid_rewrite learned_snoc.
    assert (Hsame : (forall f, e <> RecvFrame f) -> elapsed [e] = 0 -> same_cache (run evs) (step (run evs) e) ->
      inv (step (run evs) e) /\ _time (step (run evs) e) = elapsed evs + elapsed [e] /\
      forall ip eth t, (ip, eth, t) ∈ timestamps_pair (step (run evs) e) <-> elapsed evs + elapsed [e] - t <= 30000 /\
        (learned evs ip eth (elapsed evs + elapsed [e] - t - elapsed [e]) \/
         exists f, e = RecvFrame f /\ announces eth0 f = Some (ip, eth) /\ ip2eth (run evs) !! ip = None /\ elapsed evs + elapsed [e] - t = 0)).
    { intros Hne E0 Hs. split; [by eapply inv_same|]. destruct Hs as (_ & Hs2 & Hs3). rewrite <- Hs2, <- Hs3.
      split; [lia|]. intros ip eth t. rewrite Hp, E0, Z.add_0_r, Z.sub_0_r. split; [tauto|].
      intros [Hle [Hl|(f & Hf & _)]]; [done|]. by destruct (Hne f). }
    destruct e as [dgram hop|f|ms|]; cbn [event_ok] in He.
    + apply Hsame; [done|done|apply send_datagram_cache].
    + cbn [step elapsed] in *. pose proof (recv_frame_cache (run evs) f) as Hc. rewrite run_address in Hc.
      split; [by apply recv_frame_inv|]. destruct Hc as (_ & Hc2 & Hc3). rewrite <- Hc2, <- Hc3.
      split. { destruct (announces eth0 f) as [[ip eth]|]; [|lia]. unfold learn. destruct (_ !! _); cbn; lia. }
      intros ip eth t. rewrite Z.add_0_r, Z.sub_0_r.
      assert (E : (ip, eth, t) ∈ timestamps_pair (match announces eth0 f with Some (ip1, eth1) => learn (run evs) ip1 eth1 | None => run evs end)
        <-> (ip, eth, t) ∈ timestamps_pair (run evs) \/
            (announces eth0 f = Some (ip, eth) /\ ip2eth (run evs) !! ip = None /\ t = elapsed evs)).
      { destruct (announces eth0 f) as [[ip1 eth1]|]; [|intuition congruence]. unfold learn.
        destruct (ip2eth (run evs) !! ip1) eqn:E1.
        - split; [tauto|]. intros [H|([= <- <-] & H & _)]; [done|congruence].
        - cbn. rewrite elem_of_app, list_elem_of_singleton, Ht. split.
          + intros [H|[= -> -> ->]]; [by left|by right].
          + intros [H|([= <- <-] & _ & ->)]; [by left|by right]. }
      rewrite E, Hp. split.
      * intros [[H1 H2]|(H1 & H2 & ->)]; [tauto|]. split; [lia|]. right. exists f. split_and!; try done. lia.
      * intros [H1 [H2|(f' & [= <-] & H2 & H3 & H4)]]; [tauto|]. right. split_and!; try done. lia.
    + cbn [step elapsed] in *. rewrite Z.add_0_r in *.
      destruct (tick_spec (run evs) ms Hi He ltac:(lia)) as (A & B & C). split; [done|]. rewrite C. split; [lia|].
      intros ip eth t. rewrite B, !list_elem_of_In, filter_In, <- list_elem_of_In, Hp. unfold alive, e_time. rewrite Z.leb_le, Ht. cbn [snd].
      replace (elapsed evs + ms - t - ms) with (elapsed evs - t) by lia. split.
      * intros [[H1 H2] H3]. split; [lia|]. by left.
      * intros [H1 [H2|(f & [=] & _)]]. split; [|lia]. split; [lia|done].
    + apply Hsame; done.
Qed.
End History.

(** C26. Mappings live for 30 seconds from the moment they are learned. After
    any history of the interface (datagrams sent, arbitrary frames received,
    time passing, frames taken from its queue; the 64-bit clock does not
    overflow) it maps [ip] to [eth] exactly if some frame announced this pair
    at a time when no mapping for [ip] was known, and no more than 30000 ms
    have passed since that frame. *)
Theorem mapping_lifetime eth0 ip0 evs ip eth :
  Forall event_ok evs -> elapsed evs < 2 ^ 64 ->
  ip2eth (run eth0 ip0 evs) !! ip = Some eth <->
  exists before f after, evs = before ++ RecvFrame f :: after /\
    announces eth0 f = Some (ip, eth) /\ ip2eth (run eth0 ip0 before) !! ip = None /\ elapsed after <= 30000.
Proof.
  intros Hok Hov. destruct (history_inv eth0 ip0 evs Hok Hov) as ([] & _ & Hp). rewrite i_map0. split.
  - intros [t Hin]. apply Hp in Hin as [Hle (before & f & after & E & Ha & Hn & Hage)].
    exists before, f, after. split_and!; try done. lia.
  - intros (before & f & after & E & Ha & Hn & Hle). exists (elapsed evs - elapsed after). apply Hp.
    replace (elapsed evs - (elapsed evs - elapsed after)) with (elapsed after) by lia. split; [done|].
    by exists before, f, after.
Qed.

Lemma mapping_lifetime_witness :
  let eth := replicate 6 x0a in
  let msg := match ARPMessage.serialize (ARPMessage.mk 1 0x800 6 4 2 (replicate 6 x02) 7 eth 9) with Ok m => m | Throw _ => [] end in
  let f := EthernetFrame.mk (EthernetHeader.mk eth (replicate 6 x02) EthernetHeader.TYPE_ARP) (BufferList.of_string msg) in
  ip2eth (run eth (Address.of_ip 9) [Pass 5; RecvFrame f; Pass 20000; Pass 10000]) !! 7 = Some (replicate 6 x02) /\
  ip2eth (run eth (Address.of_ip 9) [Pass 5; RecvFrame f; Pass 20000; Pass 10001]) !! 7 = None.
Proof.
  intros eth msg f. split; [|by vm_compute].
  apply (mapping_lifetime eth (Address.of_ip 9)).
  - repeat (apply Forall_cons_2 || apply Forall_nil_2); cbn; done || lia.
  - by vm_compute.
  - exists [Pass 5], f, [Pass 20000; Pass 10000]. split_and!; reflexivity || (by vm_compute).
Defined.

(** ** Address resolution *)

(** Frames are what their header and bytes say. *)
Lemma recv_frame_ext i f f' :
  EthernetFrame.header f = EthernetFrame.header f' ->
  BufferList.concatenate (EthernetFrame.payload f) = BufferList.concatenate (EthernetFrame.payload f') ->
  recv_frame i f = recv_frame i f'.
Proof. intros E1 E2. unfold recv_frame. by rewrite E1, E2. Qed.

(** [f] is an ARP frame that carries the message [m]. *)
Definition carries_arp (f : frame) (m : ARPMessage.t) : Prop :=
  EthernetHeader.type (EthernetFrame.header f) = EthernetHeader.TYPE_ARP /\
  ARPMessage.serialize m = Ok (BufferList.concatenate (EthernetFrame.payload f)).

(** The ARP message the interface [eth]/[ip] sends. *)
Definition arp_message (op : Z) (eth : EthernetAddress) (ip : Z) (target_eth : EthernetAddress) (target_ip : Z) : ARPMessage.t :=
  ARPMessage.mk 1 0x800 6 4 op eth ip target_eth target_ip.

(** The frame can be put on the wire. *)
Definition well_framed (f : frame) : Prop :=
  EthernetHeader.wf (EthernetFrame.header f) /\ zlen (BufferList.concatenate (EthernetFrame.payload f)) < 2 ^ 16.

Lemma arp_message_wf op eth ip teth tip :
  1 <= op <= 2 -> eth_ok eth -> is_u32 ip -> eth_ok teth -> is_u32 tip -> ARPMessage.wf (arp_message op eth ip teth tip).
Proof.
  intros Hop. repeat split; try done; try (cbn; lia). unfold ARPMessage.supported. cbn -[Z.eqb].
  unfold ARPMessage.OPCODE_REQUEST, ARPMessage.OPCODE_REPLY. destruct (Z.eqb_spec op 1), (Z.eqb_spec op 2); done || lia.
Qed.

Lemma send_arp_eq s my_ip op tip teth :
  Address.ipv4_numeric (_ip_address s) = Ok my_ip ->
  ARPMessage.wf (arp_message op (_ethernet_address s) my_ip teth tip) ->
  exists f, send_arp s op tip teth = (push_frame s f, Ok tt) /\
    carries_arp f (arp_message op (_ethernet_address s) my_ip teth tip) /\
    EthernetHeader.dst (EthernetFrame.header f) = (if op =? 2 then teth else ETHERNET_BROADCAST) /\ well_framed f.
Proof.
  intros Hmine Hwf. unfold send_arp. rewrite Hmine.
  destruct (ARPMessage.arp_parse_serialize _ ARPMessage.default Hwf) as (str & Es & Hlen & _).
  unfold arp_message in *. cbn [ARPMessage.hardware_type ARPMessage.protocol_type ARPMessage.hardware_address_size
    ARPMessage.protocol_address_size ARPMessage.default]. change ARPMessage.TYPE_ETHERNET with 1.
  change EthernetHeader.TYPE_IPv4 with 0x800. rewrite Es. eexists. split; [done|]. split; [done|].
  split; [done|]. destruct Hwf as (_ & He1 & _ & He2 & _). split; [|unfold EthernetFrame.payload; rewrite BufferList.concatenate_of_string; lia].
  split; [|done]. cbn. by destruct (_ =? _).
Qed.

(** Receiving an ARP message: learn, flush, and answer a request for us. *)
Lemma recv_arp s f m :
  carries_arp f m -> ARPMessage.wf m ->
  recv_frame s f =
    (let ip := ARPMessage.sender_ip_address m in
     let '(s, r) := flush_waiting (learn s ip (ARPMessage.sender_ethernet_address m)) ip in
     match r with
     | Throw e => (s, Throw e)
     | Ok _ =>
         if ARPMessage.opcode m =? ARPMessage.OPCODE_REQUEST then
           match Address.ipv4_numeric (_ip_address s) with
           | Throw e => (s, Throw e)
           | Ok my_ip =>
               if ARPMessage.target_ip_address m =? my_ip then
                 let '(s, r) := send_arp s ARPMessage.OPCODE_REPLY ip (ARPMessage.sender_ethernet_address m) in
                 (s, let* _ := r in Ok None)
               else (s, Ok None)
           end
         else (s, Ok None)
     end).
Proof.
  intros [Ht Hs] Hwf. unfold recv_frame. rewrite Ht. cbn [andb EthernetHeader.TYPE_ARP EthernetHeader.TYPE_IPv4 Z.eqb Pos.eqb].
  destruct (ARPMessage.arp_parse_serialize m ARPMessage.default Hwf) as (str & Es & _ & Ep).
  rewrite Hs in Es. apply Ok_inj in Es. rewrite Es, Ep. by rewrite decide_True.
Qed.

(** [f] carries the datagram [d] to [dst] in an IPv4 frame. *)
Definition carries_datagram (src dst : EthernetAddress) (f : frame) (d : datagram) : Prop :=
  IPv4Datagram.serialize d = Ok (EthernetFrame.payload f) /\
  EthernetFrame.header f = EthernetHeader.mk dst src EthernetHeader.TYPE_IPv4.

Lemma flush_eq s ip eth queue :
  Forall IPv4Datagram.wf queue ->
  exists fs, flush s ip eth queue =
      (s <| _frames_out := _frames_out s ++ fs |> <| ip2dgrams := <[ip := []]> (ip2dgrams s) |>, Ok tt) /\
    Forall2 (carries_datagram (_ethernet_address s) eth) fs queue.
Proof.
  intros Hq. revert s. induction Hq as [|d queue Hd _ IH]; intros s; cbn [flush].
  - exists []. split; [|constructor]. rewrite app_nil_r. by destruct s.
  - destruct (IPv4Datagram.ipv4_datagram_serialize_eq d Hd) as (str & _ & Es). rewrite Es.
    destruct (IH (push_frame s (ipv4_frame s eth (BufferList.of_string str ++ IPv4Datagram._payload d)))) as (fs & Ef & F2).
    rewrite Ef. eexists. split.
    + unfold push_frame. cbn. rewrite <- app_assoc. reflexivity.
    + constructor; [by split|exact F2].
Qed.

(** ** Datagrams that wait for an address *)

(** What a host does while it waits: send datagrams to one next hop, and let
    time pass. *)
Inductive act := Send (d : datagram) | Wait (ms : Z).

Definition act_step (ip : Z) (s : t) (a : act) : t :=
  match a with
  | Send d => (send_datagram s d (Address.of_ip ip)).1
  | Wait ms => tick s ms
  end.

Definition run_acts (ip : Z) (s : t) (acts : list act) : t := fold_left (act_step ip) acts s.

Fixpoint sent (acts : list act) : list datagram :=
  match acts with [] => [] | Send d :: acts => d :: sent acts | Wait _ :: acts => sent acts end.

Fixpoint waited (acts : list act) : Z :=
  match acts with [] => 0 | Send _ :: acts => waited acts | Wait ms :: acts => ms + waited acts end.

Definition act_ok (a : act) : Prop := match a with Send d => IPv4Datagram.wf d | Wait ms => 0 <= ms end.

Lemma waited_nonneg acts : Forall act_ok acts -> 0 <= waited acts.
Proof. induction 1 as [|[d|ms] acts Ha _ IH]; cbn in *; lia. Qed.

(** A request for [ip] was sent at [t0], and [queue] waits for the answer. *)
Record waiting (ip : Z) (t0 : Z) (queue : list datagram) (s : t) : Prop := {
  w_unknown : ip2eth s !! ip = None;
  w_asked : timestamps_arp s !! ip = Some t0;
  w_queue : ip2dgrams s !! ip = Some queue
}.

Lemma send_waiting ip t0 queue s d :
  is_u32 ip -> waiting ip t0 queue s -> 0 <= _time s - t0 < 5000 ->
  let s' := (send_datagram s d (Address.of_ip ip)).1 in
  waiting ip t0 (queue ++ [d]) s' /\ _time s' = _time s /\ _frames_out s' = _frames_out s /\
  _ethernet_address s' = _ethernet_address s /\ _ip_address s' = _ip_address s.
Proof.
  intros Hip [Hn Ha Hq] Ht. unfold send_datagram. rewrite Address.ipv4_numeric_of_ip by done. rewrite Hn.
  cbn [timestamps_arp setter set_ip2dgrams]. rewrite Ha. cbn [_time setter set_ip2dgrams].
  rewrite u64_id by lia. destruct (Z.ltb_spec (_time s - t0) 5000); [|lia]. split; [|done].
  split; cbn; [done..|]. by rewrite lookup_insert_eq, Hq.
Qed.

Lemma expire_keeps pairs s ip :
  ip2eth s !! ip = None ->
  let s' := expire pairs s in
  ip2eth s' !! ip = None /\ timestamps_arp s' = timestamps_arp s /\ ip2dgrams s' = ip2dgrams s /\ _time s' = _time s /\
  _frames_out s' = _frames_out s /\ _ethernet_address s' = _ethernet_address s /\ _ip_address s' = _ip_address s.
Proof.
  revert s. induction pairs as [|[[ip' eth] lt] pairs IH]; intros s Hn; cbv zeta; cbn [expire]; [done|].
  destruct (_ <? _); [|done]. exact (IH (s <| ip2eth := delete ip' (ip2eth s) |>) (proj2 (lookup_delete_None _ _ _) (or_intror Hn))).
Qed.

Lemma run_waiting ip t0 queue s acts :
  is_u32 ip -> waiting ip t0 queue s -> Forall act_ok acts ->
  0 <= _time s - t0 -> _time s + waited acts - t0 < 5000 -> 0 <= t0 -> _time s + waited acts < 2 ^ 64 ->
  let s' := run_acts ip s acts in
  waiting ip t0 (queue ++ sent acts) s' /\ _frames_out s' = _frames_out s /\ _time s' = _time s + waited acts /\
  _ethernet_address s' = _ethernet_address s /\ _ip_address s' = _ip_address s.
Proof.
  intros Hip Hw Hok. revert queue s Hw. induction Hok as [|[d|ms] acts Ha Hok IH]; intros queue s Hw H0 H1 H2 H3.
  - cbn. rewrite app_nil_r, Z.add_0_r. done.
  - cbn [waited sent] in *. pose proof (waited_nonneg _ Hok).
    destruct (send_waiting ip t0 queue s d Hip Hw) as (W & T & F & E & I); [lia|].
    unfold run_acts. cbn [fold_left act_step]. rewrite <- T in *. 
    destruct (IH (queue ++ [d]) _ W) as (W' & F' & T' & E' & I'); try lia.
    rewrite <- app_assoc in W'. unfold run_acts in *. split_and!; [done|exact (eq_trans F' F)|lia|exact (eq_trans E' E)|exact (eq_trans I' I)].
  - cbn [waited sent act_ok] in *. pose proof (waited_nonneg _ Hok).
    unfold run_acts. cbn [fold_left act_step]. unfold tick. rewrite u64_id by lia.
    set (s0 := s <| _time := _time s + ms |>).
    destruct Hw as [Wn Wa Wq].
    destruct (expire_keeps (timestamps_pair s0) s0 ip Wn) as (N & A & Q & T & F & E & I).
    set (s1 := expire _ _) in *. change (_time s0) with (_time s + ms) in T.
    destruct (IH queue s1) as (W' & F' & T' & E' & I'); try lia.
    { split; [done|by rewrite A|by rewrite Q]. }
    unfold run_acts in *. split_and!; [done|exact (eq_trans F' F)|lia|exact (eq_trans E' E)|exact (eq_trans I' I)].
Qed.

(** The answer of [ip] flushes what waits for it. *)
Lemma answer_flushes ip t0 queue s f m :
  waiting ip t0 queue s -> Forall IPv4Datagram.wf queue ->
  carries_arp f m -> ARPMessage.wf m -> ARPMessage.opcode m = ARPMessage.OPCODE_REPLY ->
  ARPMessage.sender_ip_address m = ip ->
  exists s' fs, recv_frame s f = (s', Ok None) /\
    _frames_out s' = _frames_out s ++ fs /\
    Forall2 (carries_datagram (_ethernet_address s) (ARPMessage.sender_ethernet_address m)) fs queue /\
    ip2eth s' !! ip = Some (ARPMessage.sender_ethernet_address m) /\
    timestamps_arp s' !! ip = None /\ ip2dgrams s' !! ip = Some [].
Proof.
  intros [Hn Ha Hq] Hwf Hf Hm Hop Hip. rewrite (recv_arp s f m Hf Hm). rewrite Hop, Hip. cbv zeta.
  unfold learn. rewrite Hn. unfold flush_waiting. cbn [timestamps_arp setter set_ip2eth set_timestamps_pair]. rewrite Ha.
  cbn [ip2eth ip2dgrams setter set_ip2eth set_timestamps_pair set_timestamps_arp].
  rewrite lookup_insert_eq, Hq. cbn [default from_option id].
  match goal with |- context [flush ?s1 ip ?e queue] => destruct (flush_eq s1 ip e queue Hwf) as (fs & Ef & F2) end.
  rewrite Ef. cbn [ARPMessage.OPCODE_REPLY ARPMessage.OPCODE_REQUEST Z.eqb Pos.eqb].
  eexists _, fs. split_and!; [done|done|exact F2| | |]; cbn.
  - by rewrite lookup_insert_eq.
  - by rewrite lookup_delete_eq.
  - by rewrite lookup_insert_eq.
Qed.

(** The first datagram to an unknown next hop. *)
Lemma send_first ip my_ip s d :
  is_u32 ip -> is_u32 my_ip -> Address.ipv4_numeric (_ip_address s) = Ok my_ip -> eth_ok (_ethernet_address s) ->
  ip2eth s !! ip = None -> timestamps_arp s !! ip = None -> default [] (ip2dgrams s !! ip) = [] ->
  let s' := (send_datagram s d (Address.of_ip ip)).1 in
  waiting ip (_time s) [d] s' /\
  exists f, s' = push_frame (s <| ip2dgrams := <[ip := [d]]> (ip2dgrams s) |>
                               <| timestamps_arp := <[ip := _time s]> (timestamps_arp s) |>) f /\
    carries_arp f (arp_message ARPMessage.OPCODE_REQUEST (_ethernet_address s) my_ip ADDR_BROADCAST ip) /\
    EthernetHeader.dst (EthernetFrame.header f) = ETHERNET_BROADCAST /\ well_framed f.
Proof.
  intros Hip Hmy Hmine Heth Hn Ha Hq. unfold send_datagram. rewrite Address.ipv4_numeric_of_ip by done.
  rewrite Hn. cbn [timestamps_arp setter set_ip2dgrams]. rewrite Ha, Hq. cbn [app _time setter set_ip2dgrams].
  match goal with |- context [send_arp ?s1 _ _ _] => set (s1' := s1) end.
  destruct (send_arp_eq s1' my_ip ARPMessage.OPCODE_REQUEST ip ADDR_BROADCAST) as (f & Ef & Hf & Hd & Hwf); [done| |].
  { apply arp_message_wf; try done. }
  rewrite Ef. cbn [fst]. split; [|by exists f]. split; cbn; [done| |]; by rewrite lookup_insert_eq.
Qed.

(** C25. Address resolution loses nothing and asks once: datagrams sent to an
    unresolved next hop within five seconds cause exactly one broadcast ARP
    request and wait in order; the ARP reply teaches the mapping and sends
    exactly those datagrams, in the order they were given, to the address that
    answered. *)
Theorem resolve_and_flush s ip my_ip d acts f m :
  is_u32 ip -> is_u32 my_ip -> Address.ipv4_numeric (_ip_address s) = Ok my_ip -> eth_ok (_ethernet_address s) ->
  ip2eth s !! ip = None -> timestamps_arp s !! ip = None -> default [] (ip2dgrams s !! ip) = [] ->
  Forall act_ok (Send d :: acts) -> waited acts < 5000 -> is_u64 (_time s) -> _time s + waited acts < 2 ^ 64 ->
  carries_arp f m -> ARPMessage.wf m -> ARPMessage.opcode m = ARPMessage.OPCODE_REPLY ->
  ARPMessage.sender_ip_address m = ip ->
  let s1 := run_acts ip s (Send d :: acts) in
  (exists q, _frames_out s1 = _frames_out s ++ [q] /\
     carries_arp q (arp_message ARPMessage.OPCODE_REQUEST (_ethernet_address s) my_ip ADDR_BROADCAST ip) /\
     EthernetHeader.dst (EthernetFrame.header q) = ETHERNET_BROADCAST) /\
  exists s2 fs, recv_frame s1 f = (s2, Ok None) /\
    _frames_out s2 = _frames_out s1 ++ fs /\
    Forall2 (carries_datagram (_ethernet_address s) (ARPMessage.sender_ethernet_address m)) fs (d :: sent acts) /\
    ip2eth s2 !! ip = Some (ARPMessage.sender_ethernet_address m).
Proof.
  intros Hip Hmy Hmine Heth Hn Ha Hq [Hd Hok]%Forall_cons_1 Hw Ht Hov Hf Hm Hop Hs s1.
  destruct (send_first ip my_ip s d Hip Hmy Hmine Heth Hn Ha Hq) as (W & q & Es & Hq' & Hb & _).
  change s1 with (run_acts ip (send_datagram s d (Address.of_ip ip)).1 acts).
  destruct (run_waiting ip (_time s) [d] _ acts Hip W Hok) as (W' & F & _ & E & _); try (rewrite ?Es; cbn; lia).
  split; [exists q; by rewrite F, Es|].
  assert (Hall : Forall IPv4Datagram.wf ([d] ++ sent acts)).
  { constructor; [exact Hd|]. clear - Hok. induction Hok as [|[x|ms] acts Ha _ IH]; cbn in *; [constructor|by constructor|done]. }
  destruct (answer_flushes ip _ _ _ f m W' Hall Hf Hm Hop Hs) as (s2 & fs & R & Fo & F2 & Hl & _).
  exists s2, fs. split_and!; [exact R|exact Fo| |exact Hl]. rewrite E, Es in F2. exact F2.
Qed.

(** ** Two hosts *)

(** The exchange of [arp_exchange_delivers], with what the wire needs. *)
Lemma arp_exchange ethA ipA ethB ipB d :
  eth_ok ethA -> eth_ok ethB -> is_u32 ipA -> is_u32 ipB -> IPv4Datagram.wf d ->
  exists sA1 request sB1 reply sA2 data d' b',
    send_datagram (make ethA (Address.of_ip ipA)) d (Address.of_ip ipB) = (sA1, Ok tt) /\ _frames_out sA1 = [request] /\
    carries_arp request (arp_message ARPMessage.OPCODE_REQUEST ethA ipA ADDR_BROADCAST ipB) /\
    recv_frame (make ethB (Address.of_ip ipB)) request = (sB1, Ok None) /\ _frames_out sB1 = [reply] /\
    ip2eth sB1 !! ipA = Some ethA /\
    recv_frame (sA1 <| _frames_out := [] |>) reply = (sA2, Ok None) /\ _frames_out sA2 = [data] /\
    ip2eth sA2 !! ipB = Some ethB /\
    recv_frame (sB1 <| _frames_out := [] |>) data = (sB1 <| _frames_out := [] |>, Ok (Some d')) /\
    IPv4Datagram._header d' = (IPv4Datagram._header d) <| IPv4Header.cksum := IPv4Datagram.header_cksum (IPv4Datagram._header d) |> /\
    BufferList.concatenate (IPv4Datagram._payload d') = BufferList.concatenate (IPv4Datagram._payload d) /\
    IPv4Datagram._payload d' = BufferList.of_buffer b' /\ Buffer.wf b' /\
    well_framed request /\ well_framed reply /\ well_framed data.
Proof.
  intros HA HB HiA HiB Hd.
  pose proof (Address.ipv4_numeric_of_ip ipA HiA) as NA. pose proof (Address.ipv4_numeric_of_ip ipB HiB) as NB.
  set (A := make ethA (Address.of_ip ipA)). set (B := make ethB (Address.of_ip ipB)).
  destruct (send_first ipB ipA A d HiB HiA NA HA eq_refl eq_refl eq_refl) as (W & q & Es & Hq & Hb & Hqf).
  assert (Hmq : ARPMessage.wf (arp_message ARPMessage.OPCODE_REQUEST ethA ipA ADDR_BROADCAST ipB)) by (by apply arp_message_wf).
  set (sB0 := learn B ipA ethA).
  destruct (send_arp_eq sB0 ipB ARPMessage.OPCODE_REPLY ipA ethA NB) as (r & Er & Hr & Hrd & Hrf); [by apply arp_message_wf|].
  assert (RB : recv_frame B q = (push_frame sB0 r, Ok None)).
  { rewrite (recv_arp B q _ Hq Hmq). cbv zeta. unfold flush_waiting.
    cbn [arp_message ARPMessage.sender_ip_address ARPMessage.sender_ethernet_address ARPMessage.opcode ARPMessage.target_ip_address].
    change (learn B ipA (_ethernet_address A)) with sB0. change (timestamps_arp sB0 !! ipA) with (@None Z). cbv iota beta.
    rewrite Z.eqb_refl. change (_ip_address sB0) with (Address.of_ip ipB). rewrite NB, Z.eqb_refl.
    change (_ethernet_address A) with ethA. rewrite Er. done. }
  set (sB1 := push_frame sB0 r) in *. set (sA1 := (send_datagram A d (Address.of_ip ipB)).1) in *.
  assert (SA : send_datagram A d (Address.of_ip ipB) = (sA1, Ok tt)).
  { unfold sA1. rewrite (surjective_pairing (send_datagram _ _ _)). by f_equal. }
  destruct (answer_flushes ipB _ [d] (sA1 <| _frames_out := [] |>) r _ ltac:(destruct W; by split)
    (proj2 (Forall_singleton _ _) Hd) Hr ltac:(by apply arp_message_wf) eq_refl eq_refl) as (sA2 & fs & RA & Fo & F2 & Hl & _).
  apply Forall2_cons_inv_r in F2 as (data & fs' & [Hds Hdh] & F2' & ->). apply Forall2_nil_inv_r in F2' as ->.
  destruct (IPv4Datagram.ipv4_datagram_parse_serialize d IPv4Datagram.default Hd) as (l & Hl1 & Hl2 & p' & b' & _ & Ep & Hwb & Hpl).
  rewrite Hds in Hl1. apply Ok_inj in Hl1. subst l. set (d' := IPv4Datagram.mk _ _) in Ep.
  exists sA1, q, sB1, r, sA2, data, d', b'. split_and!; try done.
  - by rewrite Es.
  - exact (lookup_insert_eq (∅ : gmap Z EthernetAddress) ipA ethA).
  - unfold recv_frame. rewrite Hdh. cbn [EthernetHeader.type EthernetHeader.dst]. rewrite Z.eqb_refl, bool_decide_true by done.
    cbn [andb]. rewrite Ep. by rewrite decide_True.
  - split; [by rewrite Hdh|]. rewrite Hl2. destruct Hd as [[] _]. lia.
Qed.

(** Two fresh hosts on one Ethernet deliver a datagram to each other: the
    first host's request makes the second one answer and learn the first one's
    address; the answer releases the datagram; and the second host hands up the
    header (with its checksum computed) and the payload that were sent. *)
Theorem arp_exchange_delivers ethA ipA ethB ipB d :
  eth_ok ethA -> eth_ok ethB -> is_u32 ipA -> is_u32 ipB -> IPv4Datagram.wf d ->
  exists sA1 request sB1 reply sA2 data d',
    send_datagram (make ethA (Address.of_ip ipA)) d (Address.of_ip ipB) = (sA1, Ok tt) /\ _frames_out sA1 = [request] /\
    carries_arp request (arp_message ARPMessage.OPCODE_REQUEST ethA ipA ADDR_BROADCAST ipB) /\
    recv_frame (make ethB (Address.of_ip ipB)) request = (sB1, Ok None) /\ _frames_out sB1 = [reply] /\
    ip2eth sB1 !! ipA = Some ethA /\
    recv_frame (sA1 <| _frames_out := [] |>) reply = (sA2, Ok None) /\ _frames_out sA2 = [data] /\
    ip2eth sA2 !! ipB = Some ethB /\
    recv_frame (sB1 <| _frames_out := [] |>) data = (sB1 <| _frames_out := [] |>, Ok (Some d')) /\
    IPv4Datagram._header d' = (IPv4Datagram._header d) <| IPv4Header.cksum := IPv4Datagram.header_cksum (IPv4Datagram._header d) |> /\
    BufferList.concatenate (IPv4Datagram._payload d') = BufferList.concatenate (IPv4Datagram._payload d).
Proof.
  intros HA HB HiA HiB Hd.
  destruct (arp_exchange ethA ipA ethB ipB d HA HB HiA HiB Hd) as (sA1 & q & sB1 & r & sA2 & data & d' & b' & H).
  exists sA1, q, sB1, r, sA2, data, d'. destruct H as (H1 & H2 & H3 & H4 & H5 & H6 & H7 & H8 & H9 & H10 & H11 & H12 & _). split_and!; assumption.
Qed.

(** A datagram of two bytes. *)
Definition sample_dgram (payload : list byte) : datagram :=
  IPv4Datagram.mk (IPv4Header.mk 4 5 0 (20 + zlen payload) 7 true false 0 64 6 0 0x0a000001 0x0a000002)
    (BufferList.of_string payload).

Lemma sample_dgram_wf payload : zlen payload <= 100 -> IPv4Datagram.wf (sample_dgram payload).
Proof.
  intros H. pose proof (Zle_0_nat (length payload)) as H0. split.
  - unfold sample_dgram. generalize dependent (zlen payload). intros n Hn Hp. split; done || (cbn -[Z.add]; lia).
  - cbn [sample_dgram IPv4Datagram._header IPv4Datagram._payload IPv4Header.len IPv4Header.hlen].
    rewrite BufferList.concatenate_of_string. lia.
Qed.

Lemma arp_exchange_delivers_witness :
  exists sA1 request sB1, send_datagram (make (replicate 6 x0a) (Address.of_ip 1)) (sample_dgram [x01; x02]) (Address.of_ip 2) = (sA1, Ok tt) /\
    _frames_out sA1 = [request] /\ recv_frame (make (replicate 6 x0b) (Address.of_ip 2)) request = (sB1, Ok None).
Proof.
  destruct (arp_exchange_delivers (replicate 6 x0a) 1 (replicate 6 x0b) 2 (sample_dgram [x01; x02]))
    as (sA1 & request & sB1 & _ & _ & _ & _ & H1 & H2 & _ & H3 & _); try done; try lia.
  by exists sA1, request, sB1.
Defined.

(** The acts and the answer of the witness below. *)
Definition sample_acts : list act := [Wait 1000; Send (sample_dgram [x03]); Wait 3999; Send (sample_dgram [])].
Definition sample_reply : ARPMessage.t := arp_message ARPMessage.OPCODE_REPLY (replicate 6 x0b) 2 (replicate 6 x0a) 1.

Definition sample_reply_frame : frame :=
  EthernetFrame.mk (EthernetHeader.mk (replicate 6 x0a) (replicate 6 x0b) EthernetHeader.TYPE_ARP)
    (BufferList.of_string (match ARPMessage.serialize sample_reply with Ok m => m | Throw _ => [] end)).

Lemma sample_acts_ok : Forall act_ok (Send (sample_dgram [x01]) :: sample_acts).
Proof.
  repeat apply Forall_cons_2; try apply Forall_nil_2; try (apply sample_dgram_wf; cbn; lia); cbn; lia.
Qed.

Lemma sample_reply_ok : carries_arp sample_reply_frame sample_reply /\ ARPMessage.wf sample_reply.
Proof. split; [by vm_compute|by apply arp_message_wf]. Qed.

Lemma resolve_and_flush_witness :
  let s1 := run_acts 2 (make (replicate 6 x0a) (Address.of_ip 1)) (Send (sample_dgram [x01]) :: sample_acts) in
  exists s2 fs, recv_frame s1 sample_reply_frame = (s2, Ok None) /\ _frames_out s2 = _frames_out s1 ++ fs /\ length fs = 3%nat.
Proof.
  destruct (resolve_and_flush (make (replicate 6 x0a) (Address.of_ip 1)) 2 1 (sample_dgram [x01]) sample_acts
    sample_reply_frame sample_reply ltac:(lia) ltac:(lia) ltac:(by vm_compute) eq_refl eq_refl eq_refl eq_refl
    sample_acts_ok ltac:(by vm_compute) ltac:(cbn; lia) ltac:(by vm_compute) (proj1 sample_reply_ok) (proj2 sample_reply_ok)
    eq_refl eq_refl) as (_ & s2 & fs & R & F & F2 & _).
  exists s2, fs. split; [exact R|]. split; [exact F|]. exact (Forall2_length _ _ _ F2).
Defined.

(** ** What the code does not do *)

(** A defect: a frame is "intended for it" only by its IPv4 branch. Any other
    frame, such as an IPv4 frame for another host, is parsed as ARP, and its
    sender is learned. *)
Theorem foreign_frame_learned :
  exists s f, reach (replicate 6 x0a) (Address.of_ip 1) s /\
    EthernetHeader.type (EthernetFrame.header f) = EthernetHeader.TYPE_IPv4 /\
    EthernetHeader.dst (EthernetFrame.header f) <> _ethernet_address s /\
    EthernetHeader.dst (EthernetFrame.header f) <> ETHERNET_BROADCAST /\
    ip2eth s !! 2 = None /\ ip2eth (recv_frame s f).1 !! 2 = Some (replicate 6 x0b).
Proof.
  exists (make (replicate 6 x0a) (Address.of_ip 1)),
    (EthernetFrame.mk (EthernetHeader.mk (replicate 6 x0c) (replicate 6 x0b) EthernetHeader.TYPE_IPv4)
       (EthernetFrame.payload sample_reply_frame)).
  split; [constructor|]. by vm_compute.
Qed.

(** A mapping is never replaced: while a host's mapping is alive, no frame
    changes it, not even an ARP message in which that host announces another
    Ethernet address. *)
Theorem mapping_not_refreshed s f ip eth :
  ip2eth s !! ip = Some eth -> ip2eth (recv_frame s f).1 !! ip = Some eth.
Proof.
  intros H. unfold recv_frame. destruct (_ && _); [by destruct (IPv4Datagram.parse _ _)|].
  destruct (ARPMessage.parse _ _) as [msg r]. case_decide; [|done].
  set (ip' := ARPMessage.sender_ip_address msg).
  assert (H1 : ip2eth (learn s ip' (ARPMessage.sender_ethernet_address msg)) !! ip = Some eth).
  { unfold learn. destruct (ip2eth s !! ip') eqn:E; [done|]. cbn. rewrite lookup_insert_ne by congruence. done. }
  set (s1 := learn _ _ _) in *. clearbody s1.
  assert (H2 : ip2eth (flush_waiting s1 ip').1 !! ip = Some eth).
  { unfold flush_waiting. destruct (timestamps_arp s1 !! ip'); [|done].
    match goal with |- ip2eth (flush ?s2 ?i ?e ?q).1 !! _ = _ => destruct (flush_cache s2 i e q) as [<- _] end. done. }
  destruct (flush_waiting s1 ip') as [s2 [u|e]]; [|done]. cbn [fst] in H2.
  destruct (_ =? _); [|done]. destruct (Address.ipv4_numeric _); [|done]. destruct (_ =? _); [|done].
  match goal with |- context [send_arp ?a ?b ?c ?d] => pose proof (send_arp_cache a b c d) as [Hs _]; destruct (send_arp a b c d) as [s3 r3] end.
  cbn [fst] in *. by rewrite <- Hs.
Qed.

Lemma mapping_not_refreshed_witness :
  let s := (make (replicate 6 x0a) (Address.of_ip 1)) <| ip2eth := {[2 := replicate 6 x0c]} |> in
  ip2eth (recv_frame s sample_reply_frame).1 !! 2 = Some (replicate 6 x0c).
Proof. intros s. apply mapping_not_refreshed. by vm_compute. Defined.

End ArpCache.
