(* ===== verification/router.v ===== *)
(** The router ([libsponge/router.{hh,cc}]): interfaces that keep what they
    receive, a binary trie of routes, and the loop that moves datagrams from one
    interface to another. The trie is shown to compute the longest-prefix match
    of the list of routes. *)

From S2P Require Import prelude buffer parser ethernet ipv4 address network_interface.

Module AsyncNetworkInterface.

(** The base class and the queue of received datagrams. *)
Record t := mk {
  base : NetworkInterface.t;
  _datagrams_out : list IPv4Datagram.t
}.
#[global] Instance set_base : Setter base := fun f s => mk (f (base s)) (_datagrams_out s).
#[global] Instance set_datagrams_out : Setter _datagrams_out := fun f s => mk (base s) (f (_datagrams_out s)).

Definition make (interface : NetworkInterface.t) : t := mk interface [].

Definition recv_frame (s : t) (f : EthernetFrame.t) : t * result unit :=
  let '(b, r) := NetworkInterface.recv_frame (base s) f in
  let s := s <| base := b |> in
  match r with
  | Throw e => (s, Throw e)
  | Ok None => (s, Ok tt)
  | Ok (Some dgram) => (s <| _datagrams_out := _datagrams_out s ++ [dgram] |>, Ok tt)
  end.

End AsyncNetworkInterface.

(** ** The trie *)

Module BST.

(** [struct Node]; [Null] is the null pointer. *)
Inductive node :=
  | Null
  | Node (num_interface : Z) (data : option Address.t) (has_data : bool) (l r : node).

(** [new Node] *)
Definition new_node : node := Node 0 None false Null Null.

Definition or_new (n : node) : node := match n with Null => new_node | _ => n end.

Definition has_data (n : node) : bool := match n with Null => false | Node _ _ h _ _ => h end.

(** What a route stores: the interface and the next hop. *)
Definition info (n : node) : Z * option Address.t :=
  match n with Null => (0, None) | Node num data _ _ _ => (num, data) end.

(** [BST::Insert]; [len] counts down to 0. *)
Fixpoint Insert (root : node) (prefix : Z) (len : nat) (num : Z) (addr : option Address.t) : node :=
  match root with
  | Null => Null
  | Node num0 data0 has0 l r =>
      match len with
      | O => Node num addr true l r
      | S len =>
          if Z.shiftr prefix 31 =? 0
          then Node num0 data0 has0 (Insert (or_new l) (u32 (Z.shiftl prefix 1)) len num addr) r
          else Node num0 data0 has0 l (Insert (or_new r) (u32 (Z.shiftl prefix 1)) len num addr)
      end
  end.

(** The loop of [Router::route_one_datagram] over the bits [i - 1], ..., 0 of
    [ip]: the node it ends at. *)
Fixpoint walk (ip : Z) (i : nat) (curr valid_parent : node) : node :=
  match i, curr with
  | O, _ | _, Null => curr
  | S i, Node _ _ _ l r =>
      if Z.land ip (Z.shiftl 1 (Z.of_nat i)) =? 0 then
        match l, r with
        | Null, Null => curr
        | Null, _ => valid_parent
        | _, _ => walk ip i l (if has_data l then l else valid_parent)
        end
      else
        match r, l with
        | Null, Null => curr
        | Null, _ => valid_parent
        | _, _ => walk ip i r (if has_data r then r else valid_parent)
        end
  end.

(** *** Bit paths *)

(** Bit [i] of a 32-bit word, counted from the most significant one. *)
Definition msb (x : Z) (i : nat) : bool := Z.testbit x (31 - Z.of_nat i).

(** The first [n] bits. *)
Definition path (n : nat) (x : Z) : list bool := map (msb x) (seq 0 n).

Definition child (b : bool) (l r : node) : node := if b then r else l.

(** Insertion and lookup along a path. *)
Fixpoint insert_path (p : list bool) (v : Z * option Address.t) (t : node) : node :=
  match t with
  | Null => Null
  | Node num data has l r =>
      match p with
      | [] => Node v.1 v.2 true l r
      | b :: p =>
          let sub := insert_path p v (or_new (child b l r)) in
          if b then Node num data has l sub else Node num data has sub r
      end
  end.

Fixpoint walk_path (bs : list bool) (curr valid_parent : node) : node :=
  match bs, curr with
  | [], _ | _, Null => curr
  | b :: bs, Node _ _ _ l r =>
      match child b l r with
      | Null => match child (negb b) l r with Null => curr | _ => valid_parent end
      | next => walk_path bs next (if has_data next then next else valid_parent)
      end
  end.

Lemma path_S n x : path (S n) x = msb x 0 :: path n (u32 (Z.shiftl x 1)).
Proof.
  unfold path. cbn [seq map]. f_equal. rewrite <- seq_shift, map_map. apply map_ext_in.
  intros i _. unfold msb, u32. destruct (Z.neg_nonneg_cases (31 - Z.of_nat i)) as [H|H].
  - rewrite !Z.testbit_neg_r by lia. done.
  - rewrite Z.mod_pow2_bits_low, Z.shiftl_spec by lia. f_equal. lia.
Qed.

Lemma length_path n x : length (path n x) = n.
Proof. unfold path. by rewrite length_map, length_seq. Qed.

Lemma top_bit x : is_u32 x -> (Z.shiftr x 31 =? 0) = negb (msb x 0).
Proof.
  intros H. unfold msb. change (31 - Z.of_nat 0) with 31. rewrite Z.testbit_eqb, Z.shiftr_div_pow2 by lia.
  assert (0 <= x / 2 ^ 31 < 2) by dlia. destruct (Z.eqb_spec (x / 2 ^ 31) 0) as [->|]; [done|].
  replace (x / 2 ^ 31) with 1 by lia. done.
Qed.

Lemma Insert_path root prefix len num addr :
  is_u32 prefix -> Insert root prefix len num addr = insert_path (path len prefix) (num, addr) root.
Proof.
  revert root prefix. induction len as [|len IH]; intros [|num0 data0 has0 l r] prefix Hp; try done.
  rewrite path_S. cbn [Insert insert_path]. rewrite top_bit by done. rewrite IH by apply u32_range.
  rewrite IH by apply u32_range. by destruct (msb prefix 0).
Qed.

Lemma walk_walk_path ip i curr vp :
  walk ip i curr vp = walk_path (map (fun k => Z.testbit ip (Z.of_nat k)) (rev (seq 0 i))) curr vp.
Proof.
  revert curr vp. induction i as [|i IH]; intros [|num data has l r] vp; try done.
  { by rewrite seq_S, rev_app_distr. }
  rewrite seq_S, rev_app_distr. cbn [rev app map walk_path walk Nat.add].
  pose proof (flag_bit ip (Z.of_nat i) ltac:(lia)) as Hb. rewrite <- Z.shiftl_1_l in Hb.
  rewrite <- Hb. destruct (Z.land ip (Z.shiftl 1 (Z.of_nat i)) =? 0); cbn [negb child];
    destruct l, r; rewrite ?IH; done.
Qed.

Lemma walk_path_32 ip curr vp : walk ip 32 curr vp = walk_path (path 32 ip) curr vp.
Proof. rewrite walk_walk_path. f_equal. Qed.

(** *** The longest match of a trie *)

(** The deepest node with data on a path: its depth and what it stores. *)
Fixpoint best (bs : list bool) (t : node) {struct t} : option (nat * (Z * option Address.t)) :=
  match t with
  | Null => None
  | Node num data has l r =>
      let below := match bs with [] => None | b :: bs => best bs (child b l r) end in
      match below with
      | Some (n, v) => Some (S n, v)
      | None => if has then Some (O, (num, data)) else None
      end
  end.

(** Every leaf has data, and no path is longer than [n]. *)
Fixpoint trim (n : nat) (t : node) {struct t} : Prop :=
  match t with
  | Null => True
  | Node _ _ has l r =>
      (l = Null -> r = Null -> has = true) /\
      match n with O => l = Null /\ r = Null | S n => trim n l /\ trim n r end
  end.

Lemma trim_child n b l r num data has : trim (S n) (Node num data has l r) -> trim n (child b l r).
Proof. intros (_ & Hl & Hr). by destruct b. Qed.

Lemma insert_trim p v n t :
  t <> Null -> (length p <= n)%nat -> t = new_node \/ trim n t -> trim n (insert_path p v t).
Proof.
  revert n t. induction p as [|b p IH]; intros n [|num data has l r] Hn Hlen Ht; try done.
  - destruct Ht as [[= _ _ _ -> ->]|Ht]; [by destruct n|].
    destruct n; destruct Ht as (_ & H1 & H2); by cbn.
  - destruct n as [|n]; cbn [length] in Hlen; [lia|].
    assert (Hs : trim n (insert_path p v (or_new (child b l r)))).
    { apply IH; [by destruct (child b l r)|lia|]. destruct Ht as [[= _ _ _ -> ->]|Ht]; [left; by destruct b|].
      apply trim_child with (b := b) in Ht. destruct (child b l r); [by left|by right]. }
    assert (Hne : insert_path p v (or_new (child b l r)) <> Null)
      by (destruct (child b l r), p; cbn; try done; by destruct b0).
    assert (Ho : trim n (child (negb b) l r)).
    { destruct Ht as [[= _ _ _ -> ->]|Ht]; [by destruct b|]. by apply trim_child with (b := negb b) in Ht. }
    cbn [insert_path]. destruct b; cbn [negb child] in *; split; done.
Qed.

Lemma best_new bs : best bs new_node = None.
Proof. by destruct bs as [|[] bs]. Qed.

(** Is [p] a prefix of [bs], and at least as long as the best match so far? *)
Definition improves (p bs : list bool) (old : option (nat * (Z * option Address.t))) : bool :=
  bool_decide (p `prefix_of` bs) && match old with Some (n, _) => (n <=? length p)%nat | None => true end.

Lemma best_insert p v bs t :
  t <> Null ->
  best bs (insert_path p v t) = if improves p bs (best bs t) then Some (length p, v) else best bs t.
Proof.
  revert bs t. induction p as [|b p IH]; intros bs [|num data has l r] Hn; try done.
  - unfold improves. rewrite bool_decide_true by apply prefix_nil. cbn [insert_path best andb length].
    destruct bs as [|b bs]; [by destruct has, v|]. destruct (best bs (child b l r)) as [[n w]|]; [done|]. by destruct has, v.
  - destruct bs as [|b' bs].
    { unfold improves. rewrite bool_decide_false by apply prefix_nil_not. by destruct b. }
    destruct (decide (b = b')) as [<-|Hne].
    + set (c := child b l r). set (c' := insert_path p v (or_new c)).
      assert (E : best bs c' = if improves p bs (best bs c) then Some (length p, v) else best bs c).
      { unfold c'. rewrite IH by (by destruct c). destruct c; [|done]. cbn [or_new]. by rewrite best_new. }
      transitivity (match best bs c' with Some (n, w) => Some (S n, w) | None => if has then Some (O, (num, data)) else None end).
      { cbn [insert_path]. fold c c'. by destruct b. }
      rewrite E. cbn [best]. fold c. unfold improves.
      assert (Hd : bool_decide (b :: p `prefix_of` b :: bs) = bool_decide (p `prefix_of` bs)).
      { apply bool_decide_ext. split; [apply prefix_cons_inv_2|by apply prefix_cons]. }
      rewrite Hd. destruct (bool_decide (p `prefix_of` bs)); [|done]. cbn [andb length].
      destruct (best bs c) as [[n w]|]; [by destruct (n <=? length p)%nat eqn:El; cbn; rewrite El|]. by destruct has.
    + unfold improves. rewrite bool_decide_false by (by intros ?%prefix_cons_inv_1). by destruct b, b'.
Qed.

(** The walk ends at the longest match, if there is one. *)
Lemma walk_best bs t vp :
  t <> Null -> trim (length bs) t -> (has_data t = true -> vp = t) ->
  info (walk_path bs t vp) = from_option snd (info vp) (best bs t).
Proof.
  revert t vp. induction bs as [|b bs IH]; intros [|num data has l r] vp Hn Ht Hv; try done.
  - destruct Ht as [Hh [-> ->]]. cbn. by rewrite Hh.
  - pose proof (trim_child _ b _ _ _ _ _ Ht) as Hc. cbn [length] in *. destruct Ht as [Hh _].
    cbn [walk_path best]. destruct (child b l r) as [|cn cd ch cl cr] eqn:Ec.
    + cbn [best]. replace (match bs with [] | _ => None end) with (@None (nat * (Z * option Address.t))) by (by destruct bs).
      destruct (child (negb b) l r) as [|on od oh ol or] eqn:Eo.
      * destruct b; cbn in Ec, Eo; subst; by rewrite Hh.
      * destruct has; [|done]. by rewrite Hv.
    + rewrite IH; [|done|done|by intros ->]. set (c := Node cn cd ch cl cr).
      destruct (best bs c) as [[n w]|] eqn:Eb; [done|].
      assert (Hch : ch = false).
      { unfold c in Eb. destruct ch; [|done]. destruct bs; cbn in Eb; [done|]. by repeat case_match. }
      change (has_data c) with ch. rewrite Hch. destruct has; [|done]. by rewrite Hv.
Qed.
End BST.

(** ** The router *)

Module Router.
Import BST.

Abbreviation datagram := IPv4Datagram.t.
Abbreviation iface := AsyncNetworkInterface.t.

Record t := mk {
  _bst : node;
  _interfaces : list iface
}.
#[global] Instance set_bst : Setter _bst := fun f s => mk (f (_bst s)) (_interfaces s).
#[global] Instance set_interfaces : Setter _interfaces := fun f s => mk (_bst s) (f (_interfaces s)).

Definition make : t := mk new_node [].

Definition add_interface (s : t) (interface : iface) : t * Z :=
  let s := s <| _interfaces := _interfaces s ++ [interface] |> in
  (s, u64 (zlen (_interfaces s) - 1)).

(** [_interfaces.at(N)] *)
Definition interface (s : t) (N : Z) : result iface :=
  match _interfaces s !! Z.to_nat N with Some i => Ok i | None => Throw out_of_range end.

Definition set_interface (s : t) (N : Z) (i : iface) : t :=
  s <| _interfaces := <[Z.to_nat N := i]> (_interfaces s) |>.

Definition add_route (s : t) (route_prefix prefix_length : Z) (next_hop : option Address.t) (interface_num : Z) : t :=
  s <| _bst := Insert (_bst s) route_prefix (Z.to_nat prefix_length) interface_num next_hop |>.

(** [interface(num_interface).send_datagram(dgram, hop)] *)
Definition send_on (s : t) (num_interface : Z) (dgram : datagram) (hop : Address.t) : t * result unit :=
  match interface s num_interface with
  | Throw e => (s, Throw e)
  | Ok i =>
      let '(b, r) := NetworkInterface.send_datagram (AsyncNetworkInterface.base i) dgram hop in
      (set_interface s num_interface (i <| AsyncNetworkInterface.base := b |>), r)
  end.

(** [dgram] is a reference: its time to live is decremented in place. *)
Definition route_one_datagram (s : t) (dgram : datagram) : t * datagram * result unit :=
  let ip := IPv4Header.dst (IPv4Datagram._header dgram) in
  let '(num_interface, next_hop) := info (walk ip 32 (_bst s) (_bst s)) in
  let ttl := IPv4Header.ttl (IPv4Datagram._header dgram) in
  if ttl <? 2 then (s, dgram, Ok tt)
  else
    let dgram := dgram <| IPv4Datagram._header := (IPv4Datagram._header dgram) <| IPv4Header.ttl := u8 (ttl - 1) |> |> in
    match next_hop with
    | Some hop => let '(s, r) := send_on s num_interface dgram hop in (s, dgram, r)
    | None =>
        match Address.from_ipv4_numeric ip with
        | Throw e => (s, dgram, Throw e)
        | Ok hop => let '(s, r) := send_on s num_interface dgram hop in (s, dgram, r)
        end
    end.

Definition set_queue (s : t) (k : nat) (queue : list datagram) : t :=
  s <| _interfaces := alter (fun i => i <| AsyncNetworkInterface._datagrams_out := queue |>) k (_interfaces s) |>.

(** The [while] loop of [route] over the queue of interface [k]; the datagram
    being routed is the front of the queue until it is popped. *)
Fixpoint route_queue (s : t) (k : nat) (queue : list datagram) : t * result unit :=
  match queue with
  | [] => (s, Ok tt)
  | dgram :: rest =>
      let '(s, dgram, r) := route_one_datagram s dgram in
      match r with
      | Throw e => (set_queue s k (dgram :: rest), Throw e)
      | Ok _ => route_queue (set_queue s k rest) k rest
      end
  end.

Fixpoint route_interfaces (s : t) (ks : list nat) : t * result unit :=
  match ks with
  | [] => (s, Ok tt)
  | k :: ks =>
      match _interfaces s !! k with
      | None => (s, Ok tt)
      | Some i =>
          let '(s, r) := route_queue s k (AsyncNetworkInterface._datagrams_out i) in
          match r with Throw e => (s, Throw e) | Ok _ => route_interfaces s ks end
      end
  end.

Definition route (s : t) : t * result unit := route_interfaces s (seq 0 (length (_interfaces s))).

(** *** The routing table as a list of routes *)

Record rule := mk_rule {
  route_prefix : Z;
  prefix_length : Z;
  next_hop : option Address.t;
  interface_num : Z
}.

Definition rule_ok (r : rule) : Prop := is_u32 (route_prefix r) /\ 0 <= prefix_length r <= 32.

(** The high-order [prefix_length] bits agree. *)
Definition matches (ip : Z) (r : rule) : bool :=
  Z.shiftr ip (32 - prefix_length r) =? Z.shiftr (route_prefix r) (32 - prefix_length r).

Definition better (ip : Z) (old : option rule) (r : rule) : option rule :=
  if matches ip r && match old with Some o => prefix_length o <=? prefix_length r | None => true end then Some r else old.

(** The reference: the matching route with the longest prefix, the latest one
    among equals. *)
Definition longest_prefix_match (rules : list rule) (ip : Z) : option rule := fold_left (better ip) rules None.

Definition table (rules : list rule) : node :=
  fold_left (fun t r => Insert t (route_prefix r) (Z.to_nat (prefix_length r)) (interface_num r) (next_hop r)) rules new_node.

Definition rule_path (r : rule) : list bool := path (Z.to_nat (prefix_length r)) (route_prefix r).

(** Two words agree on their [n] high bits iff their paths do. *)
Lemma path_eq n x y :
  0 <= n <= 32 -> is_u32 x -> is_u32 y ->
  path (Z.to_nat n) x = path (Z.to_nat n) y <-> Z.shiftr x (32 - n) = Z.shiftr y (32 - n).
Proof.
  intros Hn Hx Hy. split.
  - intros H. apply Z.bits_inj'. intros j Hj. rewrite !Z.shiftr_spec by done.
    destruct (Z.lt_ge_cases (j + (32 - n)) 32).
    + apply (f_equal (fun l => l !! Z.to_nat (n - 1 - j))) in H. unfold path in H. rewrite !list_lookup_fmap in H.
      rewrite lookup_seq_lt in H by lia. cbn in H. injection H as H. unfold msb in H.
      replace (j + (32 - n)) with (31 - Z.of_nat (Z.to_nat (n - 1 - j))) by lia. done.
    + by rewrite (proj1 (Z.bounded_iff_bits_nonneg 32 x ltac:(lia) ltac:(lia))), (proj1 (Z.bounded_iff_bits_nonneg 32 y ltac:(lia) ltac:(lia))) by lia.
  - intros H. unfold path. apply map_ext_in. intros i [_ Hi]%in_seq. unfold msb.
    apply (f_equal (fun z => Z.testbit z (n - 1 - Z.of_nat i))) in H. rewrite !Z.shiftr_spec in H by lia.
    replace (31 - Z.of_nat i) with (n - 1 - Z.of_nat i + (32 - n)) by lia. done.
Qed.

Lemma take_path n ip : (n <= 32)%nat -> take n (path 32 ip) = path n ip.
Proof. intros H. unfold path. change (@map) with (@list_fmap). rewrite <- fmap_take, take_seq. by rewrite Nat.min_l. Qed.

Lemma matches_path ip r :
  is_u32 ip -> rule_ok r -> matches ip r = bool_decide (rule_path r `prefix_of` path 32 ip).
Proof.
  intros Hip [Hp Hl]. unfold matches, rule_path. set (n := prefix_length r) in *.
  pose proof (path_eq n ip (route_prefix r) Hl Hip Hp) as He.
  destruct (Z.eqb_spec (Z.shiftr ip (32 - n)) (Z.shiftr (route_prefix r) (32 - n))) as [E|E]; symmetry.
  - apply bool_decide_true. apply He in E. rewrite <- E, <- (take_path (Z.to_nat n) ip) by lia. apply prefix_take.
  - apply bool_decide_false. intros [k Hk]. apply E, He.
    rewrite <- (take_path (Z.to_nat n) ip), Hk by lia. rewrite take_app_length'; [done|by rewrite length_path].
Qed.

Lemma table_snoc rules r :
  rule_ok r -> table (rules ++ [r]) = insert_path (rule_path r) (interface_num r, next_hop r) (table rules).
Proof. intros [Hp _]. unfold table. rewrite fold_left_app. cbn [fold_left]. by rewrite Insert_path. Qed.

Lemma insert_path_not_null p v t : t <> Null -> insert_path p v t <> Null.
Proof. by destruct t, p as [|[] p]. Qed.

Lemma table_not_null rules : Forall rule_ok rules -> table rules <> Null.
Proof.
  induction rules as [|r rules IH] using rev_ind; [intros _; discriminate|]. intros [H1 [H2 _]%Forall_cons_1]%Forall_app.
  rewrite table_snoc by done. by apply insert_path_not_null, IH.
Qed.

Lemma table_trim rules : Forall rule_ok rules -> table rules = new_node \/ trim 32 (table rules).
Proof.
  induction rules as [|r rules IH] using rev_ind; [by left|]. intros [H1 [H2 _]%Forall_cons_1]%Forall_app. right.
  rewrite table_snoc by done. apply insert_trim; [by apply table_not_null| |by apply IH].
  unfold rule_path. rewrite length_path. destruct H2 as [_ H]. lia.
Qed.

(** The trie's best match is the reference. *)
Lemma table_best rules ip :
  is_u32 ip -> Forall rule_ok rules ->
  best (path 32 ip) (table rules) =
    (fun r => (Z.to_nat (prefix_length r), (interface_num r, next_hop r))) <$> longest_prefix_match rules ip.
Proof.
  intros Hip. induction rules as [|r rules IH] using rev_ind; [intros _; exact (best_new _)|]. intros [H1 [H2 _]%Forall_cons_1]%Forall_app.
  rewrite table_snoc, best_insert by (done || by apply table_not_null). rewrite IH by done.
  unfold longest_prefix_match. rewrite fold_left_app. cbn [fold_left]. fold (longest_prefix_match rules ip).
  unfold better, improves. rewrite <- matches_path by done. unfold rule_path. rewrite length_path.
  destruct (matches ip r); [|done]. cbn [andb]. destruct H2 as [_ H2].
  destruct (longest_prefix_match rules ip) as [o|] eqn:Eo; cbn; [|done].
  destruct (Nat.leb_spec (Z.to_nat (prefix_length o)) (Z.to_nat (prefix_length r))),
    (Z.leb_spec (prefix_length o) (prefix_length r)); try done; lia.
Qed.

(** The root keeps its initial contents until a default route is added. *)
Lemma table_root rules : Forall rule_ok rules -> has_data (table rules) = false -> info (table rules) = (0, None).
Proof.
  induction rules as [|r rules IH] using rev_ind; [done|]. intros [H1 [H2 _]%Forall_cons_1]%Forall_app.
  rewrite table_snoc by done. specialize (IH H1). destruct (table rules) as [|n d h l r0], (rule_path r) as [|[] p]; cbn in *; done.
Qed.

(** What the trie of a list of routes answers. *)
Lemma table_walk rules ip :
  is_u32 ip -> Forall rule_ok rules ->
  info (walk ip 32 (table rules) (table rules)) =
    match longest_prefix_match rules ip with Some r => (interface_num r, next_hop r) | None => (0, None) end.
Proof.
  intros Hip Hr. rewrite walk_path_32. destruct (table_trim rules Hr) as [E|Ht].
  - pose proof (table_best rules ip Hip Hr) as Hb. rewrite E, best_new in Hb. rewrite E.
    destruct (longest_prefix_match rules ip); [done|]. by destruct (path 32 ip) as [|[] bs].
  - rewrite walk_best; [|by apply table_not_null|done|done]. rewrite table_best by done.
    destruct (longest_prefix_match rules ip) as [r|] eqn:El; [done|].
    assert (Hd : has_data (table rules) = false).
    { pose proof (table_best rules ip Hip Hr) as Hb. rewrite El in Hb. destruct (table rules) as [|n d h l r]; [done|].
      cbn [has_data]. destruct h; [|done]. cbn in Hb. by repeat case_match. }
    by apply table_root.
Qed.

End Router.
