(* ===== verification/routing.v ===== *)
(** What the router guarantees: every reachable router forwards along the
    longest matching prefix of the routes it was given, and [route] empties the
    interfaces' queues, forwarding every datagram once and in order. *)

From S2P Require Import prelude buffer parser ethernet ipv4 address network_interface arp_cache router.

Module Routing.
Import BST Router.

(** Everything that can happen to a router that was given [rules]; [r_base]
    stands for any call of the owner on the base interface (sending, the passage
    of time, taking frames out). *)
Inductive reach : list rule -> Router.t -> Prop :=
  | r_init : reach [] Router.make
  | r_interface rules s i : reach rules s -> reach rules (add_interface s i).1
  | r_route rules s r : reach rules s -> rule_ok r ->
      reach (rules ++ [r]) (add_route s (route_prefix r) (prefix_length r) (next_hop r) (interface_num r))
  | r_recv rules s k i f : reach rules s -> interface s k = Ok i ->
      reach rules (set_interface s k (AsyncNetworkInterface.recv_frame i f).1)
  | r_base rules s k i b : reach rules s -> interface s k = Ok i ->
      reach rules (set_interface s k (i <| AsyncNetworkInterface.base := b |>))
  | r_routed rules s : reach rules s -> reach rules (route s).1.

(** The routing table is not changed by traffic. *)
Lemma send_on_bst s n d hop : _bst (send_on s n d hop).1 = _bst s.
Proof. unfold send_on. destruct (interface s n); [|done]. by destruct (NetworkInterface.send_datagram _ _ _). Qed.

Lemma route_one_bst s d : _bst (route_one_datagram s d).1.1 = _bst s.
Proof.
  unfold route_one_datagram. destruct (info _) as [n [hop|]]; destruct (_ <? 2); try done; [|rewrite Address.from_ipv4_numeric_eq].
  all: match goal with |- context [send_on ?s ?n ?d ?h] => pose proof (send_on_bst s n d h) as E; destruct (send_on s n d h) end; done.
Qed.

Lemma route_queue_bst s k q : _bst (route_queue s k q).1 = _bst s.
Proof.
  revert s. induction q as [|d q IH]; intros s; [done|]. cbn [route_queue].
  pose proof (route_one_bst s d) as E. destruct (route_one_datagram s d) as [[s1 d1] [u|e]]; [|done]. by rewrite IH.
Qed.

Lemma route_interfaces_bst s ks : _bst (route_interfaces s ks).1 = _bst s.
Proof.
  revert s. induction ks as [|k ks IH]; intros s; [done|]. cbn [route_interfaces]. destruct (_interfaces s !! k) as [i|]; [|done].
  pose proof (route_queue_bst s k (AsyncNetworkInterface._datagrams_out i)) as E.
  destruct (route_queue _ _ _) as [s1 [u|e]]; [|done]. rewrite IH. done.
Qed.

(** The trie is the table of the routes that were added. *)
Lemma reach_table rules s : reach rules s -> _bst s = table rules /\ Forall rule_ok rules.
Proof.
  induction 1 as [|? ? ? ? IH|rules s r _ [IH Hf] Hr|? ? ? ? ? ? IH|? ? ? ? ? ? IH|? s ? IH]; try done.
  - split; [|apply Forall_app; split; [done|by constructor]]. unfold add_route. cbn. rewrite IH. unfold table. by rewrite fold_left_app.
  - unfold route. by rewrite route_interfaces_bst.
Qed.

(** ** Forwarding one datagram *)

(** The datagram with its time to live decremented. *)
Definition hop_less (d : IPv4Datagram.t) : IPv4Datagram.t :=
  d <| IPv4Datagram._header := (IPv4Datagram._header d)
         <| IPv4Header.ttl := IPv4Header.ttl (IPv4Datagram._header d) - 1 |> |>.

Abbreviation ttl_of d := (IPv4Header.ttl (IPv4Datagram._header d)).
Abbreviation dst_of d := (IPv4Header.dst (IPv4Datagram._header d)).

(** The interface and next hop of a datagram under a list of routes. The default
    is what the code does where no route matches. *)
Definition decision (rules : list rule) (ip : Z) : Z * Address.t :=
  match longest_prefix_match rules ip with
  | Some r => (interface_num r, default (Address.of_ip ip) (next_hop r))
  | None => (0, Address.of_ip ip)
  end.

(** The trie holds [rules]. *)
Definition tabled (rules : list rule) (s : Router.t) : Prop := _bst s = table rules /\ Forall rule_ok rules.

Lemma route_one_eq rules s d :
  tabled rules s -> is_u32 (dst_of d) -> is_u8 (ttl_of d) ->
  route_one_datagram s d =
    if ttl_of d <? 2 then (s, d, Ok tt)
    else let '(s', r) := send_on s (decision rules (dst_of d)).1 (hop_less d) (decision rules (dst_of d)).2 in (s', hop_less d, r).
Proof.
  intros [Eb Hok] Hip Ht. unfold route_one_datagram, decision.
  rewrite Eb, table_walk by done. rewrite Address.from_ipv4_numeric_eq.
  destruct (Z.ltb_spec (ttl_of d) 2). { by destruct (longest_prefix_match rules (dst_of d)) as [r|]. }
  unfold hop_less. rewrite u8_id by lia.
  destruct (longest_prefix_match rules (dst_of d)) as [r|]; [|done]. by destruct (next_hop r).
Qed.

(** C23. The router does longest-prefix-match routing: in every router reached
    by adding interfaces and routes and handling traffic, a datagram with time
    to live 0 or 1 is dropped, and any other one leaves, with its time to live
    decremented, through the interface of the matching route with the longest
    prefix (the latest such route), towards that route's next hop, or towards
    the destination itself where the route has none. *)
Theorem forwards_longest_prefix rules s d r :
  reach rules s -> is_u32 (dst_of d) -> is_u8 (ttl_of d) -> longest_prefix_match rules (dst_of d) = Some r ->
  route_one_datagram s d =
    if ttl_of d <? 2 then (s, d, Ok tt)
    else let '(s', res) := send_on s (interface_num r) (hop_less d) (default (Address.of_ip (dst_of d)) (next_hop r)) in
         (s', hop_less d, res).
Proof. intros Hr Hip Ht El. rewrite (route_one_eq rules) by (done || by apply reach_table). unfold decision. by rewrite El. Qed.

(** A defect: a datagram no route matches is not dropped. It is sent through
    interface 0, directly to its destination. *)
Theorem no_route_interface_0 rules s d :
  reach rules s -> is_u32 (dst_of d) -> 2 <= ttl_of d < 2 ^ 8 -> longest_prefix_match rules (dst_of d) = None ->
  (route_one_datagram s d).1.1 = (send_on s 0 (hop_less d) (Address.of_ip (dst_of d))).1.
Proof.
  intros Hr Hip Ht El. rewrite (route_one_eq rules) by (done || lia || by apply reach_table). unfold decision. rewrite El.
  destruct (Z.ltb_spec (ttl_of d) 2); [lia|]. cbn [fst snd]. by destruct (send_on _ _ _ _).
Qed.

(** ** Forwarding everything *)

Definition bases (s : Router.t) : list NetworkInterface.t := AsyncNetworkInterface.base <$> _interfaces s.
Definition queues (s : Router.t) : list (list IPv4Datagram.t) := AsyncNetworkInterface._datagrams_out <$> _interfaces s.

(** The abstract router: what forwarding a datagram does to the interfaces. *)
Definition forward (rules : list rule) (nics : list NetworkInterface.t) (d : IPv4Datagram.t) : list NetworkInterface.t :=
  if ttl_of d <? 2 then nics
  else let '(n, hop) := decision rules (dst_of d) in
       alter (fun nic => (NetworkInterface.send_datagram nic (hop_less d) hop).1) (Z.to_nat n) nics.

Definition addr_ok (a : Address.t) : Prop := exists ip, Address.ipv4_numeric a = Ok ip.
Definition nic_ok (nic : NetworkInterface.t) : Prop := addr_ok (NetworkInterface._ip_address nic).

(** Every route names an interface that exists and an IPv4 next hop. *)
Definition routable (rules : list rule) (n : nat) : Prop :=
  (0 < n)%nat /\
  Forall (fun r => (Z.to_nat (interface_num r) < n)%nat /\ forall hop, next_hop r = Some hop -> addr_ok hop) rules.

Lemma lpm_in rules ip r : longest_prefix_match rules ip = Some r -> r ∈ rules.
Proof.
  unfold longest_prefix_match. induction rules as [|r' rules IH] using rev_ind; [done|].
  rewrite fold_left_app. cbn [fold_left]. unfold better. case_match; intros E.
  - injection E as <-. apply elem_of_app. right. by apply list_elem_of_singleton.
  - apply elem_of_app. left. by apply IH.
Qed.

Lemma decision_ok rules n ip :
  routable rules n -> is_u32 ip ->
  (Z.to_nat (decision rules ip).1 < n)%nat /\ addr_ok (decision rules ip).2.
Proof.
  intros [Hn Hr] Hip. unfold decision.
  assert (Hd : addr_ok (Address.of_ip ip)) by (exists ip; by apply Address.ipv4_numeric_of_ip).
  destruct (longest_prefix_match rules ip) as [r|] eqn:E; [|done]. apply lpm_in in E.
  destruct (proj1 (Forall_forall _ _) Hr r E) as [Hi Hh]. split; [done|]. cbn. destruct (next_hop r) as [hop|]; [by apply Hh|done].
Qed.

Lemma send_datagram_ok nic d hop :
  nic_ok nic -> addr_ok hop -> IPv4Datagram.wf d ->
  (NetworkInterface.send_datagram nic d hop).2 = Ok tt /\ nic_ok (NetworkInterface.send_datagram nic d hop).1.
Proof.
  intros [my Hm] [ip Hip] Hd. unfold NetworkInterface.send_datagram. rewrite Hip.
  destruct (IPv4Datagram.ipv4_datagram_serialize_eq d Hd) as (str & _ & ->).
  destruct (_ !! ip); [split; [done|by exists my]|]. cbv zeta.
  destruct (match _ with Some _ => _ | None => _ end); [split; [done|by exists my]|].
  unfold NetworkInterface.send_arp. cbn [NetworkInterface._ip_address setter NetworkInterface.set_timestamps_arp NetworkInterface.set_ip2dgrams].
  rewrite Hm. split; [done|by exists my].
Qed.

Lemma hop_less_wf d : IPv4Datagram.wf d -> 2 <= ttl_of d -> IPv4Datagram.wf (hop_less d).
Proof. intros [[] Hl] Ht. split; [split; cbn; done || lia|exact Hl]. Qed.

Lemma forward_ok rules nics d :
  routable rules (length nics) -> Forall nic_ok nics -> IPv4Datagram.wf d ->
  length (forward rules nics d) = length nics /\ Forall nic_ok (forward rules nics d).
Proof.
  intros Hr Hn Hd. unfold forward. destruct (Z.ltb_spec (ttl_of d) 2); [done|].
  destruct (decision_ok rules _ (dst_of d) Hr) as [Hlt Ha]; [apply Hd|]. destruct (decision rules (dst_of d)) as [n hop].
  split; [apply length_alter|]. apply Forall_alter; [done|]. intros nic _ Hnic. apply send_datagram_ok; [done|done|by apply hop_less_wf].
Qed.

(** Same queues, same table. *)
Definition same_rest (a b : Router.t) : Prop := _bst a = _bst b /\ queues a = queues b.

Lemma route_one_forward rules s d :
  tabled rules s -> routable rules (length (bases s)) -> Forall nic_ok (bases s) -> IPv4Datagram.wf d ->
  exists s' d', route_one_datagram s d = (s', d', Ok tt) /\ bases s' = forward rules (bases s) d /\ same_rest s' s.
Proof.
  intros Ht Hr Hn Hd. rewrite (route_one_eq rules) by (done || apply Hd). unfold forward.
  destruct (Z.ltb_spec (ttl_of d) 2); [by exists s, d|].
  destruct (decision_ok rules _ (dst_of d) Hr) as [Hlt Ha]; [apply Hd|].
  destruct (decision rules (dst_of d)) as [n hop]. cbn [fst snd] in *. unfold send_on, interface.
  destruct (_interfaces s !! Z.to_nat n) as [i|] eqn:Ei.
  2: { apply lookup_ge_None in Ei. unfold bases in Hlt. rewrite length_fmap in Hlt. lia. }
  assert (Hnic : nic_ok (AsyncNetworkInterface.base i)).
  { rewrite Forall_forall in Hn. apply Hn. apply list_elem_of_fmap. exists i. split; [done|]. by eapply list_elem_of_lookup_2. }
  destruct (send_datagram_ok _ _ hop Hnic Ha (hop_less_wf d Hd ltac:(lia))) as [E _].
  destruct (NetworkInterface.send_datagram _ _ _) as [b r] eqn:Es. cbn in E. subst r.
  eexists _, _. split; [done|]. unfold bases, queues, same_rest, set_interface. cbn. split_and!; [|done|].
  - apply list_eq. intros j. rewrite list_lookup_fmap. destruct (decide (j = Z.to_nat n)) as [->|Hne].
    + rewrite list_lookup_insert_eq by (by eapply lookup_lt_Some). rewrite list_lookup_alter_eq, list_lookup_fmap, Ei. cbn. by rewrite Es.
    + by rewrite list_lookup_insert_ne, list_lookup_alter_ne, list_lookup_fmap by done.
  - rewrite list_fmap_insert. rewrite list_insert_id; [done|]. rewrite list_lookup_fmap, Ei. done.
Qed.

Lemma set_queue_eq s k q : bases (set_queue s k q) = bases s /\ queues (set_queue s k q) = alter (fun _ => q) k (queues s) /\
  _bst (set_queue s k q) = _bst s.
Proof.
  unfold bases, queues, set_queue. cbn. split_and!; [| |done].
  all: apply list_eq; intros j; rewrite !list_lookup_fmap; destruct (decide (j = k)) as [->|Hne].
  all: rewrite ?list_lookup_alter_eq, ?list_lookup_alter_ne, ?list_lookup_fmap by done; try done; by destruct (_interfaces s !! k).
Qed.

(** The interfaces can take any datagram routed by [rules]. *)
Definition ready (rules : list rule) (s : Router.t) : Prop :=
  tabled rules s /\ routable rules (length (bases s)) /\ Forall nic_ok (bases s).

Lemma route_queue_forward rules s k q :
  ready rules s -> queues s !! k = Some q -> Forall IPv4Datagram.wf q ->
  exists s', route_queue s k q = (s', Ok tt) /\ bases s' = fold_left (forward rules) q (bases s) /\
    queues s' = <[k := []]> (queues s) /\ ready rules s'.
Proof.
  intros Hs Hq Hw. revert s Hs Hq. induction Hw as [|d q Hd Hw IH]; intros s (Ht & Hr & Hn) Hq; cbn [route_queue fold_left].
  - exists s. split_and!; try done. by rewrite list_insert_id.
  - destruct (route_one_forward rules s d Ht Hr Hn Hd) as (s1 & d1 & -> & Eb & E1 & E2).
    destruct (set_queue_eq s1 k q) as (Sb & Sq & St). set (s2 := set_queue s1 k q) in *.
    destruct (forward_ok rules (bases s) d Hr Hn Hd) as [Hl Hf].
    destruct (IH s2) as (s' & Es & Fb & Fq & Fr).
    { unfold ready, tabled. rewrite St, E1, Sb, Eb, Hl. by destruct Ht. }
    { by rewrite Sq, E2, list_lookup_alter_eq, Hq. }
    exists s'. split_and!; [done|by rewrite Fb, Sb, Eb| |done]. rewrite Fq, Sq, E2.
    apply list_eq. intros j. destruct (decide (j = k)) as [->|Hne].
    + apply lookup_lt_Some in Hq. by rewrite !list_lookup_insert_eq by (by rewrite ?length_alter).
    + by rewrite !list_lookup_insert_ne, list_lookup_alter_ne by done.
Qed.

Lemma route_interfaces_forward rules s pre qs :
  ready rules s -> queues s = pre ++ qs -> Forall (Forall IPv4Datagram.wf) qs ->
  exists s', route_interfaces s (seq (length pre) (length qs)) = (s', Ok tt) /\
    bases s' = fold_left (forward rules) (concat qs) (bases s) /\
    queues s' = pre ++ replicate (length qs) [] /\ ready rules s'.
Proof.
  intros Hs Hq Hw. revert pre s Hs Hq. induction Hw as [|q qs Hd Hw IH]; intros pre s Hs Hq; cbn [length seq concat route_interfaces replicate].
  - exists s. by split_and!.
  - assert (Hk : queues s !! length pre = Some q) by (rewrite Hq; by apply list_lookup_middle).
    destruct (_interfaces s !! length pre) as [i|] eqn:Ei.
    2: { unfold queues in Hk. by rewrite list_lookup_fmap, Ei in Hk. }
    assert (Hi : AsyncNetworkInterface._datagrams_out i = q) by (unfold queues in Hk; rewrite list_lookup_fmap, Ei in Hk; by injection Hk).
    rewrite Hi. destruct (route_queue_forward rules s _ q Hs Hk Hd) as (s1 & -> & Eb & Eq & Hr1).
    destruct (IH (pre ++ [[]]) s1 Hr1) as (s' & Es & Fb & Fq & Fr).
    { rewrite Eq, Hq, <- app_assoc, insert_app_r_alt by lia. by rewrite Nat.sub_diag. }
    rewrite length_app in Es. cbn [length] in Es. rewrite Nat.add_1_r in Es. rewrite Es.
    exists s'. split_and!; [done|by rewrite Fb, Eb, fold_left_app| |done]. by rewrite Fq, <- app_assoc.
Qed.

(** C24. [route] is total and loses nothing: when every route names an existing
    interface and every queued datagram can be serialized, [route] returns
    normally, leaves every queue of received datagrams empty, and has forwarded
    exactly the queued datagrams, interface by interface and each queue in
    order. *)
Theorem route_drains rules s :
  reach rules s -> routable rules (length (_interfaces s)) -> Forall nic_ok (bases s) ->
  Forall (Forall IPv4Datagram.wf) (queues s) ->
  exists s', route s = (s', Ok tt) /\
    bases s' = fold_left (forward rules) (concat (queues s)) (bases s) /\
    queues s' = replicate (length (_interfaces s)) [].
Proof.
  intros Hr Hro Hn Hw. unfold route.
  assert (Hlen : length (_interfaces s) = length (queues s)) by (unfold queues; by rewrite length_fmap).
  destruct (route_interfaces_forward rules s [] (queues s)) as (s' & Es & Eb & Eq & _); [|done|done|].
  { split; [by apply reach_table|]. unfold bases at 1. by rewrite length_fmap. }
  exists s'. rewrite Hlen. by split_and!.
Qed.

(** *** One datagram in the whole router *)

Definition empty_queue (s : Router.t) (k : nat) : Prop :=
  forall i, _interfaces s !! k = Some i -> AsyncNetworkInterface._datagrams_out i = [].

Lemma route_interfaces_idle s ks : Forall (empty_queue s) ks -> route_interfaces s ks = (s, Ok tt).
Proof.
  induction 1 as [|k ks Hk _ IH]; [done|]. cbn [route_interfaces].
  destruct (_interfaces s !! k) as [i|] eqn:E; [|done]. rewrite (Hk i E). exact IH.
Qed.

Lemma route_interfaces_single s ks k i d s1 d1 :
  NoDup ks -> k ∈ ks -> _interfaces s !! k = Some i -> AsyncNetworkInterface._datagrams_out i = [d] ->
  (forall k', k' ∈ ks -> k' <> k -> empty_queue s k' /\ empty_queue (set_queue s1 k []) k') ->
  (forall k', k' ∈ ks -> is_Some (_interfaces s !! k')) ->
  route_one_datagram s d = (s1, d1, Ok tt) -> route_interfaces s ks = (set_queue s1 k [], Ok tt).
Proof.
  intros Hnd Hin Hi Hq He Hex Hr. induction ks as [|k' ks IH]; [by apply not_elem_of_nil in Hin|].
  apply NoDup_cons in Hnd as [Hn Hnd]. cbn [route_interfaces]. destruct (decide (k' = k)) as [->|Hne].
  - rewrite Hi, Hq. cbn [route_queue]. rewrite Hr. cbn [route_queue]. apply route_interfaces_idle.
    apply Forall_forall. intros k' Hk'. apply He; [by right|]. by intros ->.
  - destruct (Hex k' ltac:(by left)) as [j Ej]. rewrite Ej. destruct (He k' ltac:(by left) Hne) as [He1 _].
    rewrite (He1 j Ej). cbn [route_queue]. apply IH; [done| |intros; apply He; [by right|done]|intros; apply Hex; by right].
    apply elem_of_cons in Hin as [->|]; done.
Qed.

(** *** Witnesses *)

(** Two routes and two interfaces. *)
Definition sample_rules : list rule :=
  [mk_rule 0x0a000000 8 (Some (Address.of_ip 0x0a0000fe)) 0; mk_rule 0x0a010000 16 None 1].

Definition sample_nic (n : Z) (b : byte) : NetworkInterface.t := NetworkInterface.make (replicate 6 b) (Address.of_ip n).

Definition sample_router : Router.t :=
  let s := (add_interface Router.make (AsyncNetworkInterface.make (sample_nic 1 x0a))).1 in
  let s := (add_interface s (AsyncNetworkInterface.mk (sample_nic 2 x0b)
              [ArpCache.sample_dgram [x01; x02]; ArpCache.sample_dgram []])).1 in
  fold_left (fun s r => add_route s (route_prefix r) (prefix_length r) (next_hop r) (interface_num r)) sample_rules s.

Lemma sample_reach : reach sample_rules sample_router.
Proof.
  unfold sample_router. cbn [fold_left sample_rules].
  apply (r_route [_] _ (mk_rule 0x0a010000 16 None 1)); [|unfold rule_ok; cbn; lia].
  apply (r_route [] _ (mk_rule 0x0a000000 8 _ 0)); [|unfold rule_ok; cbn; lia].
  do 2 apply r_interface. apply r_init.
Qed.

Lemma forwards_longest_prefix_witness :
  (route_one_datagram sample_router (ArpCache.sample_dgram [])).1.2 = hop_less (ArpCache.sample_dgram []).
Proof.
  rewrite (forwards_longest_prefix sample_rules sample_router (ArpCache.sample_dgram []) (mk_rule 0x0a000000 8 (Some (Address.of_ip 0x0a0000fe)) 0)
    sample_reach ltac:(cbn; lia) ltac:(cbn; lia) eq_refl).
  change (ttl_of (ArpCache.sample_dgram []) <? 2) with false. cbv iota. by destruct (send_on _ _ _ _).
Defined.

(** A router with one interface and no route. *)
Definition bare_router : Router.t := (add_interface Router.make (AsyncNetworkInterface.make (sample_nic 1 x0a))).1.

Lemma no_route_interface_0_witness :
  exists i, interface (route_one_datagram bare_router (ArpCache.sample_dgram [])).1.1 0 = Ok i /\
    length (NetworkInterface._frames_out (AsyncNetworkInterface.base i)) = 1%nat.
Proof.
  rewrite (no_route_interface_0 [] bare_router (ArpCache.sample_dgram []) (r_interface [] _ _ r_init) ltac:(cbn; lia)
    ltac:(cbn; lia) eq_refl).
  eexists. by vm_compute.
Defined.

Lemma route_drains_witness : exists s', route sample_router = (s', Ok tt) /\ queues s' = [[]; []].
Proof.
  destruct (route_drains sample_rules sample_router sample_reach) as (s' & Es & _ & Eq).
  - split; [cbn; lia|]. repeat constructor; cbn; try lia; try done. intros hop [= <-]. by eexists.
  - repeat constructor; by eexists.
  - repeat apply Forall_cons_2; try apply Forall_nil_2; apply ArpCache.sample_dgram_wf; cbn; lia.
  - exists s'. exact (conj Es Eq).
Defined.

End Routing.
