(* ===== verification/network_simulator.v ===== *)
(** The network simulator ([apps/network_simulator.cc]): hosts and a router on
    simulated Ethernet links, and the program that checks where datagrams end up.

    Objects the source passes by reference are named by a port of the network:
    an interface of the router, or the interface of a host. The generator [rd] is
    an unconstrained sequence. Names and printed summaries are left out, but for
    the names that select a host. *)

From stdpp Require Import pretty.
From S2P Require Import prelude effects buffer parser ethernet ipv4 address network_interface router.

Module NetworkSimulator.

Abbreviation datagram := IPv4Datagram.t.
Abbreviation frame := EthernetFrame.t.
Abbreviation iface := AsyncNetworkInterface.t.

(** ** Interfaces *)

Definition frames_out (i : iface) : list frame := NetworkInterface._frames_out (AsyncNetworkInterface.base i).
Definition set_frames_out (i : iface) (q : list frame) : iface :=
  i <| AsyncNetworkInterface.base := (AsyncNetworkInterface.base i) <| NetworkInterface._frames_out := q |> |>.

(** The loop of [deliver] over its copy of the queue. *)
Fixpoint deliver (to_send : list frame) : M iface unit :=
  match to_send with
  | [] => ret tt
  | f :: to_send =>
      (fun dst => AsyncNetworkInterface.recv_frame dst
         (EthernetFrame.mk (EthernetFrame.header f) (BufferList.of_string (BufferList.concatenate (EthernetFrame.payload f)))));;
      deliver to_send
  end.

(** [clear(queue1, queue2)] with [queue2] the queue of an interface: a pop of
    both for every element of [queue1]. *)
Fixpoint clear (queue1 : list frame) (i : iface) : iface :=
  match queue1 with
  | [] => i
  | _ :: queue1 => clear queue1 (set_frames_out i (tail (frames_out i)))
  end.

(** ** Hosts *)

Module Host.

Record t := mk {
  _name : string;
  _my_address : Address.t;
  _interface : iface;
  _next_hop : Address.t;
  _expecting_to_receive : list datagram
}.
#[global] Instance set_interface : Setter _interface := fun f h =>
  mk (_name h) (_my_address h) (f (_interface h)) (_next_hop h) (_expecting_to_receive h).
#[global] Instance set_expecting_to_receive : Setter _expecting_to_receive := fun f h =>
  mk (_name h) (_my_address h) (_interface h) (_next_hop h) (f (_expecting_to_receive h)).

(** [x.serialize().concatenate() == expected.serialize().concatenate()] *)
Definition same_bytes (x expected : datagram) : result bool :=
  let* a := IPv4Datagram.serialize x in
  let* b := IPv4Datagram.serialize expected in
  Ok (bool_decide (BufferList.concatenate a = BufferList.concatenate b)).

Fixpoint expecting_in (l : list datagram) (expected : datagram) : result bool :=
  match l with
  | [] => Ok false
  | x :: l => let* b := same_bytes x expected in if b : bool then Ok true else expecting_in l expected
  end.
Definition expecting (h : t) (expected : datagram) : result bool := expecting_in (_expecting_to_receive h) expected.

Fixpoint erase_first (l : list datagram) (expected : datagram) : result (list datagram) :=
  match l with
  | [] => Ok []
  | x :: l =>
      let* b := same_bytes x expected in
      if b : bool then Ok l else let* l := erase_first l expected in Ok (x :: l)
  end.
Definition remove_expectation (expected : datagram) : M t unit :=
  h <- get;;
  l <- lift (erase_first (_expecting_to_receive h) expected);;
  modify (fun h => h <| _expecting_to_receive := l |>).

(** The constructor, given the Ethernet address that was drawn. *)
Definition make (name : string) (eth : EthernetAddress) (my_address next_hop : Address.t) : t :=
  mk name my_address (AsyncNetworkInterface.make (NetworkInterface.make eth my_address)) next_hop [].

(** The text of the payload. *)
Definition payload_text (random : Z) : list byte :=
  String.list_byte_of_string (("random payload: {" +:+ pretty (Z.to_N (u32 random)) +:+ "}")%string).

Definition send_to (random : Z) (destination : Address.t) (ttl : Z) : M t datagram :=
  h <- get;;
  src <- lift (Address.ipv4_numeric (_my_address h));;
  dst <- lift (Address.ipv4_numeric destination);;
  let payload := BufferList.of_string (payload_text random) in
  let header := IPv4Header.default <| IPv4Header.src := src |> <| IPv4Header.dst := dst |> in
  let header := header <| IPv4Header.len := u16 (IPv4Header.hlen header * 4 + BufferList.size payload) |>
                       <| IPv4Header.ttl := ttl |> in
  let dgram := IPv4Datagram.mk header payload in
  zoom (fun h => AsyncNetworkInterface.base (_interface h))
    (fun b h => h <| _interface := (_interface h) <| AsyncNetworkInterface.base := b |> |>)
    (fun i => NetworkInterface.send_datagram i dgram (_next_hop h));;
  ret dgram.

Definition expect (expected : datagram) (h : t) : t :=
  h <| _expecting_to_receive := _expecting_to_receive h ++ [expected] |>.

(** The loop of [check] over the received datagrams. *)
Fixpoint check_received (queue : list datagram) : M t unit :=
  match queue with
  | [] => ret tt
  | dgram_received :: queue =>
      h <- get;;
      ok <- lift (expecting h dgram_received);;
      if negb ok then throw runtime_error else
      remove_expectation dgram_received;;
      modify (fun h => h <| _interface := (_interface h) <| AsyncNetworkInterface._datagrams_out := queue |> |>);;
      check_received queue
  end.
Definition check : M t unit :=
  h <- get;;
  check_received (AsyncNetworkInterface._datagrams_out (_interface h));;
  h <- get;;
  if negb (bool_decide (length (_expecting_to_receive h) = 0%nat)) then throw runtime_error else ret tt.
End Host.

(** ** The network *)

Module Network.

Record t := mk {
  rd : nat -> Z;
  _router : Router.t;
  _hosts : list (string * Host.t)
}.
#[global] Instance set_rd : Setter rd := fun f n => mk (f (rd n)) (_router n) (_hosts n).
#[global] Instance set_router : Setter _router := fun f n => mk (rd n) (f (_router n)) (_hosts n).
#[global] Instance set_hosts : Setter _hosts := fun f n => mk (rd n) (_router n) (f (_hosts n)).

Definition draw : M t Z :=
  n <- get;; modify (fun n => n <| rd := fun k => rd n (S k) |>);; ret (rd n 0%nat).

Fixpoint draw_bytes (k : nat) : M t (list byte) :=
  match k with
  | O => ret []
  | S k => x <- draw;; l <- draw_bytes k;; ret (byte_of_Z (u8 x) :: l)
  end.

Definition random_host_ethernet_address : M t EthernetAddress :=
  addr <- draw_bytes 6;;
  ret (match addr with
       | b :: rest => byte_of_Z (Z.land (Z.lor (byte_to_Z b) 0x02) 0xfe) :: rest
       | [] => []
       end).
Definition random_router_ethernet_address : M t EthernetAddress :=
  addr <- draw_bytes 6;; ret ([x02; x00; x00] ++ drop 3 addr).

(** [_hosts.find(name)->second] *)
Fixpoint find_host (name : string) (l : list (string * Host.t)) : option Host.t :=
  match l with
  | [] => None
  | (key, h) :: l => if String.eqb key name then Some h else find_host name l
  end.
Fixpoint put_host (name : string) (h : Host.t) (l : list (string * Host.t)) : list (string * Host.t) :=
  match l with
  | [] => []
  | (key, h0) :: l => if String.eqb key name then (key, h) :: l else (key, h0) :: put_host name h l
  end.

Definition host (name : string) : M t Host.t :=
  n <- get;;
  match find_host name (_hosts n) with
  | None => throw runtime_error
  | Some h => if negb (String.eqb (Host._name h) name) then throw runtime_error else ret h
  end.

(** A method of [host(name)]. *)
Definition on_host {B} (name : string) (m : M Host.t B) : M t B :=
  h <- host name;;
  zoom (fun _ => h) (fun h n => n <| _hosts := put_host name h (_hosts n) |>) m.

(** The interfaces that are passed by reference. *)
Inductive port := RouterPort (id : Z) | HostPort (name : string).

Definition get_iface (p : port) : M t iface :=
  match p with
  | RouterPort id => n <- get;; lift (Router.interface (_router n) id)
  | HostPort name => h <- host name;; ret (Host._interface h)
  end.
Definition put_iface (p : port) (i : iface) : M t unit :=
  match p with
  | RouterPort id => modify (fun n => n <| _router := Router.set_interface (_router n) id i |>)
  | HostPort name => on_host name (modify (fun h => h <| Host._interface := i |>))
  end.
Definition on_iface {B} (p : port) (m : M iface B) : M t B :=
  i <- get_iface p;;
  let '(i, r) := m i in
  put_iface p i;;
  lift r.

Definition exchange_frames (x y : port) : M t unit :=
  x_frames <- on_iface x (fun i => (i, Ok (frames_out i)));;
  y_frames <- on_iface y (fun i => (i, Ok (frames_out i)));;
  on_iface y (deliver x_frames);;
  on_iface x (deliver y_frames);;
  on_iface x (modify (clear x_frames));;
  on_iface y (modify (clear y_frames)).

Definition exchange_frames3 (x y z : port) : M t unit :=
  x_frames <- on_iface x (fun i => (i, Ok (frames_out i)));;
  y_frames <- on_iface y (fun i => (i, Ok (frames_out i)));;
  z_frames <- on_iface z (fun i => (i, Ok (frames_out i)));;
  on_iface y (deliver x_frames);;
  on_iface z (deliver x_frames);;
  on_iface x (deliver y_frames);;
  on_iface z (deliver y_frames);;
  on_iface x (deliver z_frames);;
  on_iface y (deliver z_frames);;
  on_iface x (modify (clear x_frames));;
  on_iface y (modify (clear y_frames));;
  on_iface z (modify (clear z_frames)).

(** The interfaces, in the order they are added. *)
Definition default_id : Z := 0.
Definition eth0_id : Z := 1.
Definition eth1_id : Z := 2.
Definition eth2_id : Z := 3.
Definition uun3_id : Z := 4.
Definition hs4_id : Z := 5.
Definition mit5_id : Z := 6.

Section Construction.
Context `{AddressText}.

(** An address written as a dotted quad. *)
Definition quad (a b c d : Z) : Z := be_combine (map byte_of_Z [a; b; c; d]).
Definition address (ip : Z) : result Address.t := of_ip_port ip 0.

Definition add_interface (ip : Z) : M t unit :=
  eth <- random_router_ethernet_address;;
  a <- lift (address ip);;
  modify (fun n => n <| _router := (Router.add_interface (_router n)
    (AsyncNetworkInterface.make (NetworkInterface.make eth a))).1 |>).

Definition insert_host (name : string) (ip next_hop : Z) : M t unit :=
  my_address <- lift (address ip);;
  next_hop <- lift (address next_hop);;
  eth <- random_host_ethernet_address;;
  modify (fun n => n <| _hosts := _hosts n ++ [(name, Host.make name eth my_address next_hop)] |>).

Definition add_route (prefix length : Z) (next_hop : option Address.t) (id : Z) : M t unit :=
  modify (fun n => n <| _router := Router.add_route (_router n) prefix length next_hop id |>).

(** The constructor, from a network that has only its generator. *)
Definition construct : M t unit :=
  add_interface (quad 171 67 76 46);;
  add_interface (quad 10 0 0 1);;
  add_interface (quad 172 16 0 1);;
  add_interface (quad 192 168 0 1);;
  add_interface (quad 198 178 229 1);;
  add_interface (quad 143 195 0 2);;
  add_interface (quad 128 30 76 255);;
  insert_host "applesauce" (quad 10 0 0 2) (quad 10 0 0 1);;
  insert_host "default_router" (quad 171 67 76 1) 0;;
  insert_host "cherrypie" (quad 192 168 0 2) (quad 192 168 0 1);;
  insert_host "hs_router" (quad 143 195 0 1) 0;;
  insert_host "dm42" (quad 198 178 229 42) (quad 198 178 229 1);;
  insert_host "dm43" (quad 198 178 229 43) (quad 198 178 229 1);;
  default_router <- host "default_router";;
  add_route (quad 0 0 0 0) 0 (Some (Host._my_address default_router)) default_id;;
  add_route (quad 10 0 0 0) 8 None eth0_id;;
  add_route (quad 172 16 0 0) 16 None eth1_id;;
  add_route (quad 192 168 0 0) 24 None eth2_id;;
  add_route (quad 198 178 229 0) 24 None uun3_id;;
  hs_router <- host "hs_router";;
  add_route (quad 143 195 0 0) 17 (Some (Host._my_address hs_router)) hs4_id;;
  add_route (quad 143 195 128 0) 18 (Some (Host._my_address hs_router)) hs4_id;;
  add_route (quad 143 195 192 0) 19 (Some (Host._my_address hs_router)) hs4_id;;
  mit <- lift (address (quad 128 30 0 1));;
  add_route (quad 128 30 76 255) 16 (Some mit) mit5_id.

Definition simulate_physical_connections : M t unit :=
  exchange_frames (RouterPort default_id) (HostPort "default_router");;
  exchange_frames (RouterPort eth0_id) (HostPort "applesauce");;
  exchange_frames (RouterPort eth2_id) (HostPort "cherrypie");;
  exchange_frames (RouterPort hs4_id) (HostPort "hs_router");;
  exchange_frames3 (RouterPort uun3_id) (HostPort "dm42") (HostPort "dm43").

(** The body of the loop of [simulate]. *)
Definition round : M t unit :=
  zoom _router (fun r n => n <| _router := r |>) Router.route;;
  simulate_physical_connections.

Fixpoint repeat (k : nat) : M t unit :=
  match k with O => ret tt | S k => round;; repeat k end.

(** The second loop of [simulate]: the order of the hosts is that of insertion. *)
Fixpoint check_hosts (names : list string) : M t unit :=
  match names with [] => ret tt | name :: names => on_host name Host.check;; check_hosts names end.

Definition simulate : M t unit :=
  repeat 256;;
  n <- get;;
  check_hosts (map fst (_hosts n)).

(** ** The program *)

(** [network.host(name).send_to(destination, ttl)] *)
Definition send_to (name : string) (destination : Address.t) (ttl : Z) : M t datagram :=
  random <- draw;;
  on_host name (Host.send_to random destination ttl).

(** [dgram_sent.header().ttl--] *)
Definition decrement_ttl (d : datagram) : datagram :=
  d <| IPv4Datagram._header := (IPv4Datagram._header d)
         <| IPv4Header.ttl := u8 (IPv4Header.ttl (IPv4Datagram._header d) - 1) |> |>.

(** One test: a host sends, another one expects the datagram, the network runs. *)
Definition test_delivery (sender : string) (destination : Address.t) (receiver : string) : M t unit :=
  dgram_sent <- send_to sender destination 64;;
  on_host receiver (modify (Host.expect (decrement_ttl dgram_sent)));;
  simulate.

(** One test of [ttl]: nobody expects the datagram. *)
Definition test_expiration (sender : string) (destination : Address.t) (ttl : Z) : M t unit :=
  send_to sender destination ttl;;
  simulate.

Definition address_of (name : string) : M t Address.t := h <- host name;; ret (Host._my_address h).

Definition network_simulator : M t unit :=
  construct;;
  cherrypie <- address_of "cherrypie";;
  test_delivery "applesauce" cherrypie "cherrypie";;
  applesauce <- address_of "applesauce";;
  test_delivery "cherrypie" applesauce "applesauce";;
  internet <- lift (address (quad 1 2 3 4));;
  test_delivery "applesauce" internet "default_router";;
  hs1 <- lift (address (quad 143 195 131 17));;
  test_delivery "applesauce" hs1 "hs_router";;
  hs2 <- lift (address (quad 143 195 193 52));;
  test_delivery "cherrypie" hs2 "hs_router";;
  hs3 <- lift (address (quad 143 195 223 255));;
  test_delivery "cherrypie" hs3 "hs_router";;
  out <- lift (address (quad 143 195 224 0));;
  test_delivery "cherrypie" out "default_router";;
  dm43 <- address_of "dm43";;
  test_delivery "dm42" dm43 "dm43";;
  test_expiration "applesauce" internet 1;;
  test_expiration "applesauce" internet 0.

End Construction.

(** A network that has only its generator. *)
Definition empty (random : nat -> Z) : t := mk random Router.make [].
End Network.

End NetworkSimulator.
