(* ===== verification/ethernet_link.v ===== *)
(** Interfaces on one Ethernet link: how a datagram that one of them sends
    reaches another, whatever the two have already learned, and what the other
    interfaces on the link make of the frames that go by. The address plan of the
    link is a partial function [plan] from IPv4 to Ethernet addresses. *)

From S2P Require Import prelude buffer parser ethernet ipv4 address network_interface arp_cache.

Module EthernetLink.
Import NetworkInterface ArpCache.

Section Link.
Context (plan : Z -> option EthernetAddress).

(** An interface with address [ip] and [eth] that knows nothing wrong. *)
Record truthful (ip : Z) (eth : EthernetAddress) (i : t) : Prop := {
  t_addr : Address.ipv4_numeric (_ip_address i) = Ok ip;
  t_ip : is_u32 ip;
  t_eth : _ethernet_address i = eth;
  t_eth_ok : eth_ok eth;
  t_cache : forall x e, ip2eth i !! x = Some e -> plan x = Some e
}.

(** ... and has nothing to send and nothing that waits. *)
Record quiet (ip : Z) (eth : EthernetAddress) (i : t) : Prop := {
  q_truthful : truthful ip eth i;
  q_frames : _frames_out i = [];
  q_asked : timestamps_arp i = ∅;
  q_waiting : forall x, default [] (ip2dgrams i !! x) = []
}.

(** ... or waits for the address of [target], to send [d]. *)
Record asking (ip : Z) (eth : EthernetAddress) (target : Z) (d : datagram) (i : t) : Prop := {
  a_truthful : truthful ip eth i;
  a_frames : _frames_out i = [];
  a_asked : timestamps_arp i = {[target := _time i]};
  a_unknown : ip2eth i !! target = None;
  a_queue : ip2dgrams i !! target = Some [d];
  a_others : forall x, x <> target -> default [] (ip2dgrams i !! x) = []
}.

Definition unsent (i : t) : t := i <| _frames_out := [] |>.

(** Only the number of the next hop matters. *)
Lemma send_datagram_addr i d a ip :
  is_u32 ip -> Address.ipv4_numeric a = Ok ip -> send_datagram i d a = send_datagram i d (Address.of_ip ip).
Proof. intros Hip Ha. unfold send_datagram. by rewrite Ha, Address.ipv4_numeric_of_ip. Qed.

(** Sending: the datagram itself if the address is known, else a request. *)
Lemma send_quiet ip eth i d a target teth :
  quiet ip eth i -> IPv4Datagram.wf d -> is_u32 target -> Address.ipv4_numeric a = Ok target -> plan target = Some teth ->
  exists i1 f, send_datagram i d a = (i1, Ok tt) /\ _frames_out i1 = [f] /\
    ((carries_datagram eth teth f d /\ quiet ip eth (unsent i1)) \/
     (carries_arp f (arp_message ARPMessage.OPCODE_REQUEST eth ip ADDR_BROADCAST target) /\ asking ip eth target d (unsent i1))).
Proof.
  intros [[Ha Hi He Hok Hc] Hf Hq Hw] Hd Ht Hta Hp. rewrite (send_datagram_addr i d a target) by done.
  destruct (ip2eth i !! target) as [e|] eqn:Ek.
  - apply Hc in Ek as Ep. rewrite Hp in Ep. injection Ep as <-.
    destruct (IPv4Datagram.ipv4_datagram_serialize_eq d Hd) as (str & _ & Es).
    unfold send_datagram. rewrite Address.ipv4_numeric_of_ip, Ek, Es by done. eexists _, _. split; [done|].
    cbn. rewrite Hf. split; [done|]. left. split; [split; [done|unfold ipv4_frame; cbn; by rewrite He]|]. by split; [split|..].
  - assert (Ha0 : timestamps_arp i !! target = None) by (by rewrite Hq, lookup_empty).
    destruct (send_first target ip i d Ht Hi Ha ltac:(by rewrite He) Ek Ha0 (Hw target)) as (_ & f & Es & Hca & _).
    assert (Hr : (send_datagram i d (Address.of_ip target)).2 = Ok tt).
    { unfold send_datagram. rewrite Address.ipv4_numeric_of_ip, Ek by done. cbn [timestamps_arp setter set_ip2dgrams].
      rewrite Ha0. unfold send_arp. cbn [_ip_address setter set_ip2dgrams set_timestamps_arp]. by rewrite Ha. }
    rewrite He in Hca. eexists _, f. split; [by rewrite (surjective_pairing (send_datagram _ _ _)), Es, Hr|].
    cbn. rewrite Hf. split; [done|]. right. split; [done|]. split; cbn; try done.
    + by rewrite Hq.
    + by rewrite lookup_insert_eq.
    + intros x Hx. by rewrite lookup_insert_ne.
Qed.

Lemma learn_truthful ip eth i x e :
  truthful ip eth i -> plan x = Some e -> truthful ip eth (learn i x e).
Proof.
  intros [Ha Hi He Hok Hc] Hp. unfold learn. destruct (ip2eth i !! x) eqn:E; [by split|]. split; cbn; try done.
  intros y e'. rewrite lookup_insert_Some. intros [[<- <-]|[_ H]]; [done|by apply Hc].
Qed.

Lemma learn_quiet ip eth i x e : quiet ip eth i -> plan x = Some e -> quiet ip eth (learn i x e).
Proof.
  intros [Ht Hf Hq Hw] Hp. pose proof (learn_truthful ip eth i x e Ht Hp).
  split; [done|..]; unfold learn; by destruct (ip2eth i !! x).
Qed.

(** An ARP message at a quiet interface. *)
Lemma recv_arp_quiet ip eth i f m :
  quiet ip eth i -> carries_arp f m -> ARPMessage.wf m ->
  plan (ARPMessage.sender_ip_address m) = Some (ARPMessage.sender_ethernet_address m) ->
  let i1 := learn i (ARPMessage.sender_ip_address m) (ARPMessage.sender_ethernet_address m) in
  quiet ip eth i1 /\
  recv_frame i f =
    if (ARPMessage.opcode m =? ARPMessage.OPCODE_REQUEST) && (ARPMessage.target_ip_address m =? ip) then
      let '(s, r) := send_arp i1 ARPMessage.OPCODE_REPLY (ARPMessage.sender_ip_address m) (ARPMessage.sender_ethernet_address m) in
      (s, let* _ := r in Ok None)
    else (i1, Ok None).
Proof.
  intros Hq Hf Hm Hp i1. assert (H1 : quiet ip eth i1) by (by apply learn_quiet). split; [done|].
  rewrite (recv_arp i f m Hf Hm). cbv zeta. fold i1. unfold flush_waiting. destruct H1 as [[Ha _ _ _ _] _ -> _].
  rewrite lookup_empty, Ha. by destruct (ARPMessage.opcode m =? _), (ARPMessage.target_ip_address m =? ip).
Qed.

(** The target of a request answers it. *)
Lemma recv_request ip eth i f sip seth :
  quiet ip eth i -> is_u32 sip -> eth_ok seth -> plan sip = Some seth ->
  carries_arp f (arp_message ARPMessage.OPCODE_REQUEST seth sip ADDR_BROADCAST ip) ->
  exists i1 g, recv_frame i f = (i1, Ok None) /\ _frames_out i1 = [g] /\
    carries_arp g (arp_message ARPMessage.OPCODE_REPLY eth ip seth sip) /\ quiet ip eth (unsent i1).
Proof.
  intros Hq Hs Hse Hp Hf. pose proof Hq as [[_ Hi _ Hok _] _ _ _].
  destruct (recv_arp_quiet ip eth i f _ Hq Hf ltac:(by apply arp_message_wf) Hp) as [H1 ->].
  cbn [arp_message ARPMessage.opcode ARPMessage.sender_ip_address ARPMessage.sender_ethernet_address ARPMessage.target_ip_address] in *.
  rewrite !Z.eqb_refl. cbn [andb]. set (i1 := learn i sip seth) in *. pose proof H1 as [[Ha _ He _ _] Hfr _ _].
  destruct (send_arp_eq i1 ip ARPMessage.OPCODE_REPLY sip seth Ha) as (g & -> & Hg & _); [rewrite He; by apply arp_message_wf|].
  eexists _, g. split; [done|]. cbn. rewrite Hfr. split; [done|]. rewrite He in Hg. split; [done|].
  destruct H1 as [[] _ ? ?]. by split; [split|..].
Qed.

(** Everyone else only learns. *)
Lemma recv_arp_bystander ip eth i f m :
  quiet ip eth i -> carries_arp f m -> ARPMessage.wf m ->
  plan (ARPMessage.sender_ip_address m) = Some (ARPMessage.sender_ethernet_address m) ->
  ARPMessage.opcode m = ARPMessage.OPCODE_REPLY \/ ARPMessage.target_ip_address m <> ip ->
  exists i1, recv_frame i f = (i1, Ok None) /\ quiet ip eth i1.
Proof.
  intros Hq Hf Hm Hp Ho. destruct (recv_arp_quiet ip eth i f m Hq Hf Hm Hp) as [H1 ->]. eexists. split; [|exact H1].
  destruct (Z.eqb_spec (ARPMessage.opcode m) ARPMessage.OPCODE_REQUEST) as [E|]; [|done].
  destruct (Z.eqb_spec (ARPMessage.target_ip_address m) ip); [|done]. exfalso. destruct Ho as [Ho|]; [|done]. by rewrite Ho in E.
Qed.

(** The answer releases the datagram. *)
Lemma recv_reply ip eth target teth d i f :
  asking ip eth target d i -> IPv4Datagram.wf d -> is_u32 target -> eth_ok teth -> plan target = Some teth ->
  carries_arp f (arp_message ARPMessage.OPCODE_REPLY teth target eth ip) ->
  exists i1 g, recv_frame i f = (i1, Ok None) /\ _frames_out i1 = [g] /\
    carries_datagram eth teth g d /\ quiet ip eth (unsent i1).
Proof.
  intros [Ht Hf Hq Hn Hw Ho] Hd Hta Hte Hp Hc. pose proof Ht as [Ha Hi He Hok Hca].
  rewrite (recv_arp i f _ Hc ltac:(by apply arp_message_wf)). cbv zeta.
  cbn [arp_message ARPMessage.opcode ARPMessage.sender_ip_address ARPMessage.sender_ethernet_address].
  pose proof (learn_truthful ip eth i target teth Ht Hp) as Hl. unfold learn in *. rewrite Hn in *.
  unfold flush_waiting. cbn [timestamps_arp setter set_ip2eth set_timestamps_pair]. rewrite Hq, lookup_singleton_eq.
  cbn [ip2eth ip2dgrams setter set_ip2eth set_timestamps_pair set_timestamps_arp]. rewrite lookup_insert_eq, Hw. cbn [default from_option id].
  match goal with |- context [flush ?s1 target ?e [d]] => destruct (flush_eq s1 target e [d] (proj2 (Forall_singleton _ _) Hd)) as (fs & -> & F2) end.
  apply Forall2_cons_inv_r in F2 as (g & fs' & Hg & F2 & ->). apply Forall2_nil_inv_r in F2 as ->.
  cbn [ARPMessage.OPCODE_REPLY ARPMessage.OPCODE_REQUEST Z.eqb Pos.eqb]. eexists _, g. split; [done|]. cbn. rewrite Hf. split; [done|].
  split; [by rewrite <- He|]. destruct Hl. split; [by split|done|cbn; by rewrite delete_singleton_eq|].
  intros x. cbn. destruct (decide (x = target)) as [->|]; [by rewrite lookup_insert_eq|rewrite lookup_insert_ne by done; by apply Ho].
Qed.

End Link.

(** ** The datagram itself *)

(** What arrives: the header with its checksum and the bytes of the payload. *)
Definition delivered (d d' : datagram) : Prop :=
  IPv4Datagram._header d' = (IPv4Datagram._header d) <| IPv4Header.cksum := IPv4Datagram.header_cksum (IPv4Datagram._header d) |> /\
  BufferList.concatenate (IPv4Datagram._payload d') = BufferList.concatenate (IPv4Datagram._payload d).

(** Datagrams that differ in the checksum field and in how the payload is cut. *)
Definition alike (d d' : datagram) : Prop :=
  (IPv4Datagram._header d') <| IPv4Header.cksum := 0 |> = (IPv4Datagram._header d) <| IPv4Header.cksum := 0 |> /\
  BufferList.concatenate (IPv4Datagram._payload d') = BufferList.concatenate (IPv4Datagram._payload d).

#[global] Instance alike_equiv : Equivalence alike.
Proof.
  split.
  - done.
  - intros d d' [E1 E2]. split; [by symmetry|by symmetry].
  - intros d1 d2 d3 [E1 E2] [E3 E4]. split; [by etransitivity|by etransitivity].
Qed.

Lemma delivered_alike d d' : IPv4Datagram.wf d -> delivered d d' -> alike d d'.
Proof. intros _ [E1 E2]. split; [by rewrite E1|done]. Qed.

Lemma delivered_wf d d' : IPv4Datagram.wf d -> delivered d d' -> IPv4Datagram.wf d'.
Proof.
  intros [Hh Hl] [E1 E2]. split; [rewrite E1; by apply IPv4Datagram.header_cksum_wf|]. by rewrite E1, E2.
Qed.

(** They have the same bytes on the wire. *)
Lemma alike_bytes d d' :
  alike d d' -> IPv4Datagram.wf d -> IPv4Datagram.wf d' ->
  exists l l', IPv4Datagram.serialize d = Ok l /\ IPv4Datagram.serialize d' = Ok l' /\ BufferList.concatenate l = BufferList.concatenate l'.
Proof.
  intros [E1 E2] Hd Hd'. destruct (IPv4Datagram.ipv4_datagram_serialize_eq d Hd) as (x & Ex & Sx).
  destruct (IPv4Datagram.ipv4_datagram_serialize_eq d' Hd') as (y & Ey & Sy). eexists _, _. split; [done|]. split; [done|].
  rewrite !BufferList.concatenate_app, !BufferList.concatenate_of_string, E2. f_equal.
  rewrite (IPv4Header.ipv4_header_serialize_eq _ (IPv4Datagram.header_cksum_wf _ (proj1 Hd))) in Ex.
  rewrite (IPv4Header.ipv4_header_serialize_eq _ (IPv4Datagram.header_cksum_wf _ (proj1 Hd'))) in Ey.
  apply Ok_inj in Ex, Ey. subst. clear - E1. destruct (IPv4Datagram._header d), (IPv4Datagram._header d'). cbn in E1. injection E1. intros. by subst.
Qed.

(** The interface with the frame's address hands the datagram up. *)
Lemma recv_data i f d seth :
  IPv4Datagram.wf d -> carries_datagram seth (_ethernet_address i) f d ->
  exists d', recv_frame i f = (i, Ok (Some d')) /\ delivered d d'.
Proof.
  intros Hd [Hds Hdh].
  destruct (IPv4Datagram.ipv4_datagram_parse_serialize d IPv4Datagram.default Hd) as (l & Hl1 & Hl2 & p' & b' & _ & Ep & Hwb & Hpl).
  rewrite Hds in Hl1. apply Ok_inj in Hl1. subst l. eexists. split.
  - unfold recv_frame. rewrite Hdh. cbn [EthernetHeader.type EthernetHeader.dst]. rewrite Z.eqb_refl, bool_decide_true by done.
    cbn [andb]. rewrite Ep. by rewrite decide_True.
  - by split.
Qed.

(** IPv4 does not pass for ARP. *)
Lemma ipv4_is_not_arp d l :
  IPv4Datagram.wf d -> IPv4Datagram.serialize d = Ok l ->
  (ARPMessage.parse ARPMessage.default (Buffer.of_string (BufferList.concatenate l))).2 <> NoError.
Proof.
  intros Hd El. destruct (IPv4Datagram.ipv4_datagram_parse_serialize d IPv4Datagram.default Hd) as (l' & El' & Hlen & _).
  rewrite El in El'. apply Ok_inj in El'. subst l'.
  destruct (IPv4Datagram.ipv4_datagram_serialize_eq d Hd) as (str & Es & El'). rewrite El in El'. apply Ok_inj in El'. subst l.
  pose proof (IPv4Datagram.header_cksum_wf _ (proj1 Hd)) as Hc. rewrite (IPv4Header.ipv4_header_serialize_eq _ Hc) in Es. apply Ok_inj in Es.
  rewrite BufferList.concatenate_app, BufferList.concatenate_of_string in *. set (s := str ++ _) in *.
  assert (R : NetParser.ready (NetParser.make (Buffer.of_string s)) s).
  { apply NetParser.ready_make. destruct Hd as [[] _]. lia. }
  unfold ARPMessage.parse. destruct (_ <? _); [done|].
  destruct (IPv4Header.first_byte_fields _ Hc) as (Hb & Hs4 & _). set (h := setter _ _) in *.
  set (rest := be_split 2 _ ++ _) in Es.
  assert (Hs : s = (be_split 1 (IPv4Header.first_byte h) ++ be_split 1 (IPv4Header.tos h)) ++ drop 2 s).
  { rewrite <- (take_drop 2 s) at 1. f_equal. unfold s. rewrite <- Es. unfold IPv4Header.before_cksum. rewrite <- !app_assoc.
    by rewrite app_assoc, take_app_length'. }
  revert R. generalize (NetParser.make (Buffer.of_string s)). intros p0 R. rewrite Hs in R.
  set (bs := be_split 1 _ ++ _) in R.
  destruct (NetParser.parse_int_ready 2 p0 bs _ ltac:(unfold bs; by rewrite length_app, !length_be_split) R) as (p1 & E1 & _).
  unfold NetParser.u16 at 1. rewrite E1. 
  assert (Hht : be_combine bs <> 1).
  { unfold bs. change (be_split 1 (IPv4Header.tos h)) with [byte_of_Z (IPv4Header.tos h / 2 ^ 0)]. rewrite be_combine_snoc, be_combine_split.
    change (2 ^ (8 * Z.of_nat 1)) with (2 ^ 8). rewrite Z.mod_small by done. pose proof (byte_to_Z_range (byte_of_Z (IPv4Header.tos h / 2 ^ 0))).
    rewrite Z.shiftr_div_pow2 in Hs4 by lia. dlia. }
  destruct (NetParser.u16 p1) as [x1 q1], (NetParser.u8 q1) as [x2 q2], (NetParser.u8 q2) as [x3 q3], (NetParser.u16 q3) as [x4 q4].
  match goal with |- context [ARPMessage.supported ?m] => destruct (ARPMessage.supported m) eqn:Esup end; [|done].
  by apply ARPMessage.supported_fields in Esup as [Esup _].
Qed.

(** Other interfaces drop the frame. *)
Lemma recv_data_bystander i f d seth teth :
  IPv4Datagram.wf d -> carries_datagram seth teth f d -> teth <> _ethernet_address i -> recv_frame i f = (i, Ok None).
Proof.
  intros Hd [Hds Hdh] Hne. unfold recv_frame. rewrite Hdh. cbn [EthernetHeader.type EthernetHeader.dst].
  rewrite bool_decide_false, andb_false_r by done. pose proof (ipv4_is_not_arp d _ Hd Hds) as H.
  destruct (ARPMessage.parse _ _) as [msg r]. by rewrite decide_False.
Qed.
End EthernetLink.
