(* ===== verification/provenance.v ===== *)
(** Where datagrams come from: interfaces and routers invent nothing. If a property
    of datagrams survives the wire and the decrement of the time to live, and
    everything that is given to an interface or a router to send or in a frame has
    it, then everything that comes out has it.

    The property is a parameter. [genuine_frame] and the predicates on interfaces,
    routers and adapters say that all datagrams inside have it. *)

From S2P Require Import prelude effects buffer parser ethernet ipv4 address network_interface router ethernet_link.

Module Provenance.
Import NetworkInterface EthernetLink.

(** A property that the network cannot tell from the datagrams themselves. *)
Record closed (P : datagram -> Prop) : Prop := {
  closed_wf : forall d, P d -> IPv4Datagram.wf d;
  closed_wire : forall d d', P d -> delivered d d' -> P d';
  closed_ttl : forall d ttl, P d -> is_u8 ttl ->
    P (d <| IPv4Datagram._header := (IPv4Datagram._header d) <| IPv4Header.ttl := ttl |> |>)
}.

Section Property.
Context (P : datagram -> Prop).

(** The frame can be put on a wire, and if it is an IPv4 frame, its datagram is one
    of ours. *)
Record genuine_frame (f : frame) : Prop := {
  gf_header : EthernetHeader.wf (EthernetFrame.header f);
  gf_length : zlen (BufferList.concatenate (EthernetFrame.payload f)) < 2 ^ 62;
  gf_datagram : EthernetHeader.type (EthernetFrame.header f) = EthernetHeader.TYPE_IPv4 ->
    forall d, IPv4Datagram.parse IPv4Datagram.default (Buffer.of_string (BufferList.concatenate (EthernetFrame.payload f))) = (d, NoError) ->
      P d /\ BufferList.wf (IPv4Datagram._payload d)
}.

(** The bytes of a frame. *)
Definition genuine_bytes (bytes : list byte) : Prop :=
  forall f, EthernetFrame.parse EthernetFrame.empty (Buffer.of_string bytes) = (f, NoError) -> genuine_frame f.

Record genuine (i : NetworkInterface.t) : Prop := {
  g_own : eth_ok (_ethernet_address i);
  g_known : forall ip eth, ip2eth i !! ip = Some eth -> eth_ok eth;
  g_waiting : forall ip q, ip2dgrams i !! ip = Some q -> Forall P q;
  g_frames : Forall genuine_frame (_frames_out i)
}.

Context (C : closed P).

(** ** Interfaces *)

Lemma frame_of_datagram i eth d payload :
  eth_ok (_ethernet_address i) -> eth_ok eth -> P d -> IPv4Datagram.serialize d = Ok payload -> genuine_frame (ipv4_frame i eth payload).
Proof using C.
  intros Hi He Hd Es. pose proof (closed_wf P C d Hd) as Hw.
  destruct (IPv4Datagram.ipv4_datagram_parse_serialize d IPv4Datagram.default Hw) as (l & El & Hl & p' & b' & _ & Ep & Wb & Eb).
  rewrite Es in El. apply Ok_inj in El. subst l. split; cbn [ipv4_frame EthernetFrame.header EthernetFrame.payload].
  - split_and!; cbn; done || lia.
  - rewrite Hl. destruct Hw as [[] _]. lia.
  - intros _ d' E. rewrite Ep in E. injection E as <-. split; [|by constructor]. apply (closed_wire P C d); [done|]. by split.
Qed.

Lemma push_frame_genuine i f : genuine i -> genuine_frame f -> genuine (push_frame i f).
Proof using Type. intros [] Hf. split; try done. cbn. apply Forall_app. split; [done|]. by constructor. Qed.

Lemma arp_serialize_length m s :
  ARPMessage.serialize m = Ok s -> eth_ok (ARPMessage.sender_ethernet_address m) -> eth_ok (ARPMessage.target_ethernet_address m) ->
  length s = 28%nat.
Proof using Type.
  unfold ARPMessage.serialize. destruct (negb _); [done|]. intros [= <-] H1 H2. unparse_simpl.
  rewrite !length_app, !length_be_split. lia.
Qed.

Lemma send_arp_genuine i op ip eth : genuine i -> eth_ok eth -> genuine (send_arp i op ip eth).1.
Proof using Type.
  intros Hi He. unfold send_arp. destruct (Address.ipv4_numeric _) as [my|]; [|done].
  destruct (ARPMessage.serialize _) as [s|] eqn:Es; [|done]. apply push_frame_genuine; [done|].
  apply arp_serialize_length in Es; [|apply Hi|done]. split; cbn [EthernetFrame.header EthernetFrame.payload].
  - split; [by destruct (op =? _)|]. split; [apply Hi|done].
  - rewrite BufferList.concatenate_of_string, Es. lia.
  - done.
Qed.

Lemma send_datagram_genuine i d hop : genuine i -> P d -> genuine (send_datagram i d hop).1.
Proof using C.
  intros Hi Hd. pose proof Hi as [Ho Hk Hw Hf]. unfold send_datagram. destruct (Address.ipv4_numeric hop) as [ip|]; [|done].
  destruct (ip2eth i !! ip) as [eth|] eqn:Ee.
  - destruct (IPv4Datagram.serialize d) as [payload|] eqn:Es; [|done]. apply push_frame_genuine; [done|].
    eapply frame_of_datagram; [done|by eapply Hk|done|done].
  - set (i1 := i <| ip2dgrams := _ |>). assert (H1 : genuine i1).
    { split; cbn; try done. intros ip' q. rewrite lookup_insert_Some. intros [[<- <-]|[_ H]]; [|by eapply Hw].
      apply Forall_app. split; [|by constructor]. destruct (ip2dgrams i !! ip) as [q|] eqn:Eq; [by eapply Hw|by constructor]. }
    clearbody i1. destruct (match timestamps_arp i1 !! ip with Some _ => _ | None => _ end); [done|].
    apply send_arp_genuine; [|done]. by destruct H1.
Qed.

Lemma learn_genuine i ip eth : genuine i -> eth_ok eth -> genuine (learn i ip eth).
Proof using Type.
  intros Hi He. unfold learn. destruct (ip2eth i !! ip); [done|]. destruct Hi as [Ho Hk Hw Hf]. split; cbn; try done.
  intros ip' eth'. rewrite lookup_insert_Some. intros [[_ <-]|[_ H]]; [done|by eapply Hk].
Qed.

Lemma set_waiting_genuine i ip q : genuine i -> Forall P q -> genuine (i <| ip2dgrams := <[ip := q]> (ip2dgrams i) |>).
Proof using Type.
  intros [Ho Hk Hw Hf] Hq. split; cbn; try done. intros ip' q'. rewrite lookup_insert_Some. intros [[_ <-]|[_ H]]; [done|by eapply Hw].
Qed.

Lemma flush_genuine i ip eth q : genuine i -> eth_ok eth -> Forall P q -> genuine (flush i ip eth q).1.
Proof using C.
  intros Hi He Hq. revert i Hi. induction Hq as [|d q Hd Hq IH]; intros i Hi; cbn [flush]; [by apply set_waiting_genuine|].
  destruct (IPv4Datagram.serialize d) as [payload|] eqn:Es; [|by apply set_waiting_genuine; [|constructor]].
  apply IH, push_frame_genuine; [done|]. by eapply frame_of_datagram; [apply Hi|..].
Qed.

Lemma flush_waiting_genuine i ip : genuine i -> genuine (flush_waiting i ip).1.
Proof using C.
  intros Hi. unfold flush_waiting. destruct (timestamps_arp i !! ip); [|done]. pose proof Hi as [Ho Hk Hw Hf].
  apply flush_genuine; cbn; [by split|..].
  - destruct (ip2eth i !! ip) as [eth|] eqn:E; [by eapply Hk|done].
  - destruct (ip2dgrams i !! ip) as [q|] eqn:E; [by eapply Hw|by constructor].
Qed.

(** A parsed message has addresses of six bytes. *)
Lemma bytes_length k p : length (NetParser.bytes k p).1 = k.
Proof using Type.
  revert p. induction k as [|k IH]; intros p; cbn [NetParser.bytes]; [done|].
  destruct (NetParser.u8 p) as [b p1]. specialize (IH p1). destruct (NetParser.bytes k p1). cbn in *. by rewrite IH.
Qed.

Lemma arp_sender_ok b m : ARPMessage.parse ARPMessage.default b = (m, NoError) -> eth_ok (ARPMessage.sender_ethernet_address m).
Proof using Type.
  unfold ARPMessage.parse. destruct (_ <? _); [done|].
  repeat (destruct (NetParser.u16 _) as [? ?] || destruct (NetParser.u8 _) as [? ?]). destruct (negb _); [done|].
  pose proof (bytes_length 6) as Hl.
  match goal with |- context [NetParser.bytes 6 ?p] => specialize (Hl p); destruct (NetParser.bytes 6 p) as [eth p1] end.
  destruct (NetParser.u32 p1) as [? p2]. destruct (NetParser.bytes 6 p2) as [? p3]. destruct (NetParser.u32 p3). by intros [= <- _].
Qed.

(** The part of [recv_frame] that reads the frame as ARP. *)
Definition recv_arp_part (i : NetworkInterface.t) (payload : Buffer.t) : NetworkInterface.t * result (option datagram) :=
  let '(msg, r) := ARPMessage.parse ARPMessage.default payload in
  if decide (r = NoError) then
    let ip := ARPMessage.sender_ip_address msg in
    let '(s, r) := flush_waiting (learn i ip (ARPMessage.sender_ethernet_address msg)) ip in
    match r with
    | Throw e => (s, Throw e)
    | Ok _ =>
        if ARPMessage.opcode msg =? ARPMessage.OPCODE_REQUEST then
          match Address.ipv4_numeric (_ip_address s) with
          | Throw e => (s, Throw e)
          | Ok my_ip =>
              if ARPMessage.target_ip_address msg =? my_ip then
                let '(s, r) := send_arp s ARPMessage.OPCODE_REPLY (ARPMessage.sender_ip_address msg) (ARPMessage.sender_ethernet_address msg) in
                (s, let* _ := r in Ok None)
              else (s, Ok None)
          end
        else (s, Ok None)
    end
  else (i, Ok None).

Lemma recv_arp_genuine i payload :
  genuine i -> genuine (recv_arp_part i payload).1 /\ forall d, (recv_arp_part i payload).2 = Ok (Some d) -> P d /\ BufferList.wf (IPv4Datagram._payload d).
Proof using C.
  intros Hi. unfold recv_arp_part. destruct (ARPMessage.parse _ _) as [msg r] eqn:Ep. case_decide; [|done]. subst r.
  apply arp_sender_ok in Ep. set (ip := ARPMessage.sender_ip_address msg).
  pose proof (flush_waiting_genuine _ ip (learn_genuine i ip _ Hi Ep)) as H1.
  destruct (flush_waiting _ ip) as [i1 [u|e]]; cbn [fst] in H1; [|done]. destruct (_ =? _); [|done].
  destruct (Address.ipv4_numeric _) as [my|]; [|done]. destruct (_ =? my); [|done].
  pose proof (send_arp_genuine i1 ARPMessage.OPCODE_REPLY ip _ H1 Ep) as H2. fold ip.
  destruct (send_arp _ _ _ _) as [i2 [u2|e]]; cbn [fst snd result_bind] in *; by split.
Qed.

Lemma recv_frame_genuine i f :
  genuine i -> genuine_frame f ->
  genuine (recv_frame i f).1 /\ forall d, (recv_frame i f).2 = Ok (Some d) -> P d /\ BufferList.wf (IPv4Datagram._payload d).
Proof using C.
  intros Hi [Hh Hl Hd]. unfold recv_frame.
  destruct (Z.eqb_spec (EthernetHeader.type (EthernetFrame.header f)) EthernetHeader.TYPE_IPv4) as [Et|];
    [destruct (bool_decide _)|]; cbn [andb].
  - destruct (IPv4Datagram.parse _ _) as [d r] eqn:Ep. split; [done|]. cbn [snd]. case_decide; [|done].
    intros d' [= <-]. subst r. by apply Hd.
  - exact (recv_arp_genuine i _ Hi).
  - exact (recv_arp_genuine i _ Hi).
Qed.
Lemma expire_genuine pairs i : genuine i -> genuine (expire pairs i).
Proof using Type.
  revert i. induction pairs as [|[[ip eth] learned] pairs IH]; intros i Hi; cbn [expire]; [by destruct Hi; split|].
  destruct (_ <? _); [|by destruct Hi; split]. apply IH. destruct Hi as [Ho Hk Hw Hf]. split; cbn; try done.
  intros ip' eth' [_ H]%lookup_delete_Some. by eapply Hk.
Qed.

Lemma tick_genuine i ms : genuine i -> genuine (tick i ms).
Proof using Type. intros []. unfold tick. by apply expire_genuine. Qed.

Lemma make_genuine eth ip : eth_ok eth -> genuine (make eth ip).
Proof using Type. intros He. by split. Qed.

Lemma set_frames_genuine i q : genuine i -> Forall genuine_frame q -> genuine (i <| _frames_out := q |>).
Proof using Type. intros []. by split. Qed.

(** On the wire a frame is its bytes. *)
Lemma serialize_genuine f : genuine_frame f -> genuine_bytes (BufferList.concatenate (EthernetFrame.serialize f)).
Proof using Type.
  intros [Hh Hl Hd] f' E. destruct (EthernetFrame.eth_frame_parse_serialize f EthernetFrame.empty Hh Hl) as (f2 & E2 & Eh & Ep).
  rewrite E2 in E. injection E as <-. split; by rewrite ?Eh, ?Ep.
Qed.

(** ** Routers *)

Record genuine_async (i : AsyncNetworkInterface.t) : Prop := {
  ga_base : genuine (AsyncNetworkInterface.base i);
  ga_queue : Forall P (AsyncNetworkInterface._datagrams_out i)
}.
Definition genuine_router (r : Router.t) : Prop := Forall genuine_async (Router._interfaces r).

Lemma async_recv_genuine i f : genuine_async i -> genuine_frame f -> genuine_async (AsyncNetworkInterface.recv_frame i f).1.
Proof using C.
  intros [Hb Hq] Hf. unfold AsyncNetworkInterface.recv_frame.
  destruct (recv_frame_genuine _ f Hb Hf) as [H1 H2]. destruct (recv_frame _ f) as [b [[d|]|e]]; cbn [fst snd] in *; [|by split..].
  split; [done|]. cbn. apply Forall_app. split; [done|]. constructor; [by apply H2|constructor].
Qed.

Lemma interface_genuine r n i : genuine_router r -> Router.interface r n = Ok i -> genuine_async i.
Proof using Type.
  intros Hr. unfold Router.interface. destruct (Router._interfaces r !! Z.to_nat n) as [j|] eqn:E; [|done].
  intros [= <-]. by eapply Forall_lookup_1.
Qed.

Lemma set_interface_genuine r n i : genuine_router r -> genuine_async i -> genuine_router (Router.set_interface r n i).
Proof using Type. intros Hr Hi. unfold genuine_router, Router.set_interface. cbn. by apply Forall_insert. Qed.

Lemma send_on_genuine r n d hop : genuine_router r -> P d -> genuine_router (Router.send_on r n d hop).1.
Proof using C.
  intros Hr Hd. unfold Router.send_on. destruct (Router.interface r n) as [i|] eqn:E; [|done].
  destruct (interface_genuine r n i Hr E) as [Hb Hq]. pose proof (send_datagram_genuine _ d hop Hb Hd) as H1.
  destruct (send_datagram _ d hop) as [b x]. cbn [fst] in *. by apply set_interface_genuine.
Qed.

Lemma route_one_genuine r d :
  genuine_router r -> P d -> genuine_router (Router.route_one_datagram r d).1.1 /\ P (Router.route_one_datagram r d).1.2.
Proof using C.
  intros Hr Hd. unfold Router.route_one_datagram. destruct (BST.info _) as [n next_hop]. destruct (_ <? 2); [done|].
  set (d' := d <| IPv4Datagram._header := _ |>). assert (Hd' : P d') by (apply (closed_ttl P C); [done|apply u8_range]). clearbody d'.
  assert (Hs : forall hop, genuine_router (Router.send_on r n d' hop).1) by (intros hop; by apply send_on_genuine).
  destruct next_hop as [hop|]; [|destruct (Address.from_ipv4_numeric _) as [hop|]; [|done]];
    specialize (Hs hop); by destruct (Router.send_on r n d' hop).
Qed.

Lemma set_queue_genuine r k q : genuine_router r -> Forall P q -> genuine_router (Router.set_queue r k q).
Proof using Type.
  intros Hr Hq. unfold genuine_router, Router.set_queue. cbn. apply Forall_alter; [done|].
  intros i _ [Hb _]. by split.
Qed.

Lemma route_queue_genuine r k q : genuine_router r -> Forall P q -> genuine_router (Router.route_queue r k q).1.
Proof using C.
  intros Hr Hq. revert r Hr. induction Hq as [|d q Hd Hq IH]; intros r Hr; cbn [Router.route_queue]; [done|].
  destruct (route_one_genuine r d Hr Hd) as [H1 H2]. destruct (Router.route_one_datagram r d) as [[r1 d1] [u|e]]; cbn [fst snd] in *.
  - by apply IH, set_queue_genuine.
  - apply set_queue_genuine; [done|]. by constructor.
Qed.

Lemma route_genuine r : genuine_router r -> genuine_router (Router.route r).1.
Proof using C.
  unfold Router.route. generalize (seq 0 (length (Router._interfaces r))). intros ks. revert r.
  induction ks as [|k ks IH]; intros r Hr; cbn [Router.route_interfaces]; [done|].
  destruct (Router._interfaces r !! k) as [i|] eqn:E; [|done].
  pose proof (route_queue_genuine r k _ Hr (ga_queue _ (Forall_lookup_1 _ _ _ _ Hr E))) as H1.
  destruct (Router.route_queue r k _) as [r1 [u|e]]; cbn [fst] in *; [by apply IH|done].
Qed.
End Property.

(** ** Datagrams on their way *)

(** The same datagram, but for its time to live, its checksum and how the payload is
    cut. *)
Definition travels (d0 d : datagram) : Prop :=
  (IPv4Datagram._header d) <| IPv4Header.ttl := 0 |> <| IPv4Header.cksum := 0 |> =
    (IPv4Datagram._header d0) <| IPv4Header.ttl := 0 |> <| IPv4Header.cksum := 0 |> /\
  BufferList.concatenate (IPv4Datagram._payload d) = BufferList.concatenate (IPv4Datagram._payload d0).

(** Well-formed copies of datagrams with an origin. *)
Definition echo (origin : datagram -> Prop) (d : datagram) : Prop :=
  IPv4Datagram.wf d /\ exists d0, origin d0 /\ travels d0 d.

Lemma echo_closed origin : closed (echo origin).
Proof.
  split.
  - by intros d [Hw _].
  - intros d d' (Hw & d0 & Ho & E1 & E2) Hd. split; [by eapply delivered_wf|]. exists d0. split; [done|].
    destruct Hd as [H1 H2]. split; [by rewrite H1|by rewrite H2].
  - intros d ttl (Hw & d0 & Ho & E1 & E2) Ht. split.
    + destruct Hw as [[] Hl]. split; [by split|done].
    + exists d0. split; [done|]. split; [exact E1|exact E2].
Qed.

Lemma echo_origin (origin : datagram -> Prop) d : IPv4Datagram.wf d -> origin d -> echo origin d.
Proof. intros Hw Ho. split; [done|]. by exists d. Qed.

(** ** More datagrams *)

Section Mono.
Context (P Q : datagram -> Prop) (HPQ : forall d, P d -> Q d).

Lemma genuine_frame_mono f : genuine_frame P f -> genuine_frame Q f.
Proof using HPQ. intros [Hh Hl Hd]. split; [done|done|]. intros Ht d E. destruct (Hd Ht d E). split; [by apply HPQ|done]. Qed.
Lemma genuine_bytes_mono b : genuine_bytes P b -> genuine_bytes Q b.
Proof using HPQ. intros H f E. by apply genuine_frame_mono, H. Qed.
Lemma interface_genuine_mono i : genuine P i -> genuine Q i.
Proof using HPQ.
  intros [Ho Hk Hw Hf]. split; [done|done| |].
  - intros ip q E. eapply Forall_impl; [by eapply Hw|done].
  - eapply Forall_impl; [done|]. apply genuine_frame_mono.
Qed.
Lemma genuine_router_mono r : genuine_router P r -> genuine_router Q r.
Proof using HPQ.
  intros Hr. eapply Forall_impl; [done|]. intros i [Hb Hq]. split; [by apply interface_genuine_mono|]. by eapply Forall_impl.
Qed.
End Mono.
End Provenance.
