(* ===== verification/simulated_network.v ===== *)
(** The network of the simulator as an assignment of interfaces to ports: how its
    cables and its router move one datagram from a host to the router, and from
    there to another host. *)

From S2P Require Import prelude effects buffer parser ethernet ipv4 address network_interface arp_cache router routing network_simulator ethernet_link.

Module SimulatedNetwork.
Import NetworkSimulator Network EthernetLink.

(** ** The shape of the network *)

Definition names : list string := ["applesauce"; "default_router"; "cherrypie"; "hs_router"; "dm42"; "dm43"]%string.
Definition ids : list Z := [default_id; eth0_id; eth1_id; eth2_id; uun3_id; hs4_id; mit5_id].
Definition ports : list port := map RouterPort ids ++ map HostPort names.

Definition port_eqb (p q : port) : bool :=
  match p, q with
  | RouterPort a, RouterPort b => a =? b
  | HostPort a, HostPort b => String.eqb a b
  | _, _ => false
  end.

Lemma port_eqb_spec p q : reflect (p = q) (port_eqb p q).
Proof.
  destruct p as [a|a], q as [b|b]; cbn; try (constructor; congruence).
  - destruct (Z.eqb_spec a b); constructor; congruence.
  - destruct (String.eqb_spec a b); constructor; congruence.
Qed.

(** The cables. *)
Definition links : list (list port) :=
  [[RouterPort default_id; HostPort "default_router"]; [RouterPort eth0_id; HostPort "applesauce"];
   [RouterPort eth2_id; HostPort "cherrypie"]; [RouterPort hs4_id; HostPort "hs_router"];
   [RouterPort uun3_id; HostPort "dm42"; HostPort "dm43"]].

Definition router_ips : list Z :=
  [quad 171 67 76 46; quad 10 0 0 1; quad 172 16 0 1; quad 192 168 0 1; quad 198 178 229 1; quad 143 195 0 2; quad 128 30 76 255].
(** The addresses of the hosts and their next hops. *)
Definition host_ips (name : string) : Z * Z :=
  if String.eqb name "applesauce" then (quad 10 0 0 2, quad 10 0 0 1)
  else if String.eqb name "default_router" then (quad 171 67 76 1, 0)
  else if String.eqb name "cherrypie" then (quad 192 168 0 2, quad 192 168 0 1)
  else if String.eqb name "hs_router" then (quad 143 195 0 1, 0)
  else if String.eqb name "dm42" then (quad 198 178 229 42, quad 198 178 229 1)
  else (quad 198 178 229 43, quad 198 178 229 1).

Definition ip_of (p : port) : Z :=
  match p with RouterPort id => nth (Z.to_nat id) router_ips 0 | HostPort name => (host_ips name).1 end.

(** An assignment of interfaces to ports, and its update. *)
Definition upd (p : port) (i : iface) (v : port -> iface) : port -> iface := fun q => if port_eqb q p then i else v q.

Lemma upd_eq p i v : upd p i v p = i.
Proof. unfold upd. by destruct (port_eqb_spec p p). Qed.
Lemma upd_ne p q i v : q <> p -> upd p i v q = v q.
Proof. unfold upd. by destruct (port_eqb_spec q p). Qed.

(** The address functions, under their law. *)
Section Addresses.
Context {Text : AddressText} {Law : AddressTextLaw Text}.
Definition adr (ip : Z) : Address.t := match address ip with Ok a => a | Throw _ => Address.of_ip ip end.

Lemma address_adr ip : is_u32 ip -> address ip = Ok (adr ip) /\ Address.ipv4_numeric (adr ip) = Ok ip.
Proof. intros Hip. unfold adr, address. destruct (of_ip_port_spec ip 0 Hip ltac:(lia)) as (a & -> & E & _). done. Qed.

Definition rules : list Router.rule :=
  [Router.mk_rule (quad 0 0 0 0) 0 (Some (adr (ip_of (HostPort "default_router")))) default_id;
   Router.mk_rule (quad 10 0 0 0) 8 None eth0_id;
   Router.mk_rule (quad 172 16 0 0) 16 None eth1_id;
   Router.mk_rule (quad 192 168 0 0) 24 None eth2_id;
   Router.mk_rule (quad 198 178 229 0) 24 None uun3_id;
   Router.mk_rule (quad 143 195 0 0) 17 (Some (adr (ip_of (HostPort "hs_router")))) hs4_id;
   Router.mk_rule (quad 143 195 128 0) 18 (Some (adr (ip_of (HostPort "hs_router")))) hs4_id;
   Router.mk_rule (quad 143 195 192 0) 19 (Some (adr (ip_of (HostPort "hs_router")))) hs4_id;
   Router.mk_rule (quad 128 30 76 255) 16 (Some (adr (quad 128 30 0 1))) mit5_id].

(** The network with interfaces [v] whose hosts expect [e]. *)
Definition host_of (v : port -> iface) (e : string -> list datagram) (name : string) : Host.t :=
  Host.mk name (adr (host_ips name).1) (v (HostPort name)) (adr (host_ips name).2) (e name).

Definition net_of (random : nat -> Z) (v : port -> iface) (e : string -> list datagram) : Network.t :=
  Network.mk random (Router.mk (Router.table rules) (map (fun id => v (RouterPort id)) ids))
    (map (fun name => (name, host_of v e name)) names).

Lemma net_of_ext random v v' e e' :
  (forall p, In p ports -> v p = v' p) -> (forall name, In name names -> e name = e' name) -> net_of random v e = net_of random v' e'.
Proof.
  intros Hv He. unfold net_of. f_equal.
  - f_equal. apply map_ext_in. intros id Hin. apply Hv. apply in_app_iff. left. by apply in_map.
  - apply map_ext_in. intros name Hin. unfold host_of. rewrite He, Hv by (done || (apply in_app_iff; right; by apply in_map)). done.
Qed.

(** ** Ports *)

Section Net.
Context (random : nat -> Z) (e : string -> list datagram).
Abbreviation net v := (net_of random v e).

Ltac each_port Hin := cbn [ports ids names map app In] in Hin; repeat (destruct Hin as [<-|Hin]); [..|by destruct Hin].

Lemma get_iface_eq p v : In p ports -> get_iface p (net v) = (net v, Ok (v p)).
Proof. intros Hin. each_port Hin; reflexivity. Qed.

Lemma put_iface_eq p i v : In p ports -> put_iface p i (net v) = (net (upd p i v), Ok tt).
Proof. intros Hin. each_port Hin; reflexivity. Qed.

Lemma on_iface_eq {B} p (m : M iface B) v i r :
  In p ports -> m (v p) = (i, r) -> on_iface p m (net v) = (net (upd p i v), r).
Proof.
  intros Hin E. unfold on_iface. rewrite (bind_step _ _ _ _ _ (get_iface_eq p v Hin)), E.
  by rewrite (bind_step _ _ _ _ _ (put_iface_eq p i v Hin)).
Qed.

Lemma on_iface_bind {B C} p (m : M iface B) (k : B -> M Network.t C) v i a :
  In p ports -> m (v p) = (i, Ok a) -> bind (on_iface p m) k (net v) = k a (net (upd p i v)).
Proof. intros Hin E. apply bind_step. by apply on_iface_eq. Qed.

(** [v'] is [v] after the assignments in [l]. *)
Definition assigned (l : list (port * iface)) (v v' : port -> iface) : Prop :=
  Forall (fun x => v' x.1 = x.2) l /\ forall p, In p ports -> ~ In p (map fst l) -> v' p = v p.

Lemma assigned_net l v w v' :
  assigned l v w -> assigned l v v' -> net w = net v'.
Proof.
  intros [F1 O1] [F2 O2]. apply net_of_ext; [|done]. intros p Hp.
  destruct (in_dec (fun a b => reflect_dec _ _ (port_eqb_spec a b)) p (map fst l)) as [Hin|Hn].
  - apply in_map_iff in Hin as ([p' i] & <- & Hin). rewrite Forall_forall in F1, F2.
    apply list_elem_of_In in Hin. by rewrite (F1 _ Hin), (F2 _ Hin).
  - by rewrite O1, O2.
Qed.

Lemma exchange2_spec x y v v' X1 Y1 :
  In x ports -> In y ports -> x <> y ->
  deliver (frames_out (v x)) (v y) = (Y1, Ok tt) -> deliver (frames_out (v y)) (v x) = (X1, Ok tt) ->
  assigned [(x, clear (frames_out (v x)) X1); (y, clear (frames_out (v y)) Y1)] v v' ->
  exchange_frames x y (net v) = (net v', Ok tt).
Proof.
  intros Hx Hy Hne Dy Dx Ha. assert (Hne' : y <> x) by congruence. unfold exchange_frames.
  rewrite (on_iface_bind x _ _ _ _ _ Hx eq_refl).
  rewrite (on_iface_bind y _ _ _ _ _ Hy eq_refl), !(upd_ne x y) by done.
  rewrite (on_iface_bind y _ _ _ Y1 tt Hy) by (by rewrite upd_eq).
  rewrite (on_iface_bind x _ _ _ X1 tt Hx) by (by rewrite !(upd_ne y x), upd_eq by done).
  rewrite (on_iface_bind x _ _ _ (clear (frames_out (v x)) X1) tt Hx) by (by rewrite upd_eq).
  erewrite (on_iface_eq y _ _ (clear (frames_out (v y)) Y1) (Ok tt) Hy) by (by rewrite !(upd_ne x y), upd_eq by done).
  f_equal. refine (assigned_net _ _ _ _ (conj _ _) Ha).
  - repeat apply Forall_cons_2; try apply Forall_nil_2; cbn; by rewrite ?upd_eq, ?(upd_ne y x), ?upd_eq by done.
  - intros p _ Hn. cbn in Hn. rewrite !upd_ne by (intros ->; tauto). done.
Qed.

Ltac look := repeat (rewrite upd_eq || rewrite upd_ne by assumption).

Lemma exchange3_spec x y z v v' X1 X2 Y1 Y2 Z1 Z2 :
  In x ports -> In y ports -> In z ports -> x <> y -> x <> z -> y <> z ->
  deliver (frames_out (v x)) (v y) = (Y1, Ok tt) -> deliver (frames_out (v x)) (v z) = (Z1, Ok tt) ->
  deliver (frames_out (v y)) (v x) = (X1, Ok tt) -> deliver (frames_out (v y)) Z1 = (Z2, Ok tt) ->
  deliver (frames_out (v z)) X1 = (X2, Ok tt) -> deliver (frames_out (v z)) Y1 = (Y2, Ok tt) ->
  assigned [(x, clear (frames_out (v x)) X2); (y, clear (frames_out (v y)) Y2); (z, clear (frames_out (v z)) Z2)] v v' ->
  exchange_frames3 x y z (net v) = (net v', Ok tt).
Proof.
  intros Hx Hy Hz Nxy Nxz Nyz Dy Dz Dx Dz' Dx' Dy' Ha.
  assert (Nyx : y <> x) by congruence. assert (Nzx : z <> x) by congruence. assert (Nzy : z <> y) by congruence. unfold exchange_frames3.
  rewrite (on_iface_bind x _ _ _ _ _ Hx eq_refl).
  rewrite (on_iface_bind y _ _ _ _ _ Hy eq_refl), !(upd_ne x y) by done.
  rewrite (on_iface_bind z _ _ _ _ _ Hz eq_refl), !(upd_ne y z), !(upd_ne x z) by done.
  rewrite (on_iface_bind y _ _ _ Y1 tt Hy) by (by look).
  rewrite (on_iface_bind z _ _ _ Z1 tt Hz) by (by look).
  rewrite (on_iface_bind x _ _ _ X1 tt Hx) by (by look).
  rewrite (on_iface_bind z _ _ _ Z2 tt Hz) by (by look).
  rewrite (on_iface_bind x _ _ _ X2 tt Hx) by (by look).
  rewrite (on_iface_bind y _ _ _ Y2 tt Hy) by (by look).
  rewrite (on_iface_bind x _ _ _ (clear (frames_out (v x)) X2) tt Hx) by (unfold modify; by look).
  rewrite (on_iface_bind y _ _ _ (clear (frames_out (v y)) Y2) tt Hy) by (unfold modify; by look).
  erewrite (on_iface_eq z _ _ (clear (frames_out (v z)) Z2) (Ok tt) Hz) by (unfold modify; by look).
  f_equal. refine (assigned_net _ _ _ _ (conj _ _) Ha).
  - repeat apply Forall_cons_2; try apply Forall_nil_2; cbn; by look.
  - intros p _ Hn. cbn in Hn. rewrite !upd_ne by (intros ->; tauto). done.
Qed.

(** ** Links *)

Definition exchange (l : list port) : M Network.t unit :=
  match l with [x; y] => exchange_frames x y | [x; y; z] => exchange_frames3 x y z | _ => ret tt end.

Definition flat (f : frame) : frame :=
  EthernetFrame.mk (EthernetFrame.header f) (BufferList.of_string (BufferList.concatenate (EthernetFrame.payload f))).

(** The link [l] carries the one frame [f] of [s] to the other ports. *)
Record carried (l : list port) (s : port) (f : frame) (v v' : port -> iface) : Prop := {
  c_sender : v' s = set_frames_out (v s) [];
  c_heard : forall q, In q l -> q <> s -> AsyncNetworkInterface.recv_frame (v q) (flat f) = (v' q, Ok tt);
  c_rest : forall p, In p ports -> ~ In p l -> v' p = v p
}.

Lemma deliver_one f i i' : AsyncNetworkInterface.recv_frame i (flat f) = (i', Ok tt) -> deliver [f] i = (i', Ok tt).
Proof. intros E. cbn [deliver]. fold (flat f). by rewrite (bind_step _ _ _ _ _ E). Qed.

Lemma clear_one f i : frames_out i = [f] -> clear [f] i = set_frames_out i [].
Proof. intros E. cbn [clear]. by rewrite E. Qed.

Lemma exchange2_carried x y s f v v' :
  In x ports -> In y ports -> x <> y -> In s [x; y] -> frames_out (v s) = [f] ->
  (forall q, In q [x; y] -> q <> s -> frames_out (v q) = []) -> carried [x; y] s f v v' ->
  exchange_frames x y (net v) = (net v', Ok tt).
Proof.
  intros Hx Hy Hne [->|[->|[]]] Ef He [Cs Ch Cr].
  - pose proof (He y ltac:(by right; left) ltac:(congruence)) as Ey.
    apply (exchange2_spec s y v v' (v s) (v' y)); rewrite ?Ef, ?Ey; try done.
    + apply deliver_one, Ch; [by right; left|congruence].
    + rewrite clear_one by done. split; [by repeat constructor|]. exact Cr.
  - pose proof (He x ltac:(by left) ltac:(congruence)) as Ex.
    apply (exchange2_spec x s v v' (v' x) (v s)); rewrite ?Ef, ?Ex; try done.
    + apply deliver_one, Ch; [by left|congruence].
    + rewrite clear_one by done. split; [by repeat constructor|]. exact Cr.
Qed.

Lemma exchange3_carried x y z s f v v' :
  In x ports -> In y ports -> In z ports -> x <> y -> x <> z -> y <> z -> In s [x; y; z] -> frames_out (v s) = [f] ->
  (forall q, In q [x; y; z] -> q <> s -> frames_out (v q) = []) -> carried [x; y; z] s f v v' ->
  exchange_frames3 x y z (net v) = (net v', Ok tt).
Proof.
  intros Hx Hy Hz Nxy Nxz Nyz Hs Ef He [Cs Ch Cr].
  assert (Hd : forall q, In q [x; y; z] -> q <> s -> deliver [f] (v q) = (v' q, Ok tt)) by (intros; by apply deliver_one, Ch).
  pose proof (clear_one f (v s) Ef) as Ec.
  destruct Hs as [->|[->|[->|[]]]].
  - pose proof (He y ltac:(cbn; tauto) ltac:(congruence)) as Ey. pose proof (He z ltac:(cbn; tauto) ltac:(congruence)) as Ez.
    apply (exchange3_spec s y z v v' (v s) (v s) (v' y) (v' y) (v' z) (v' z)); rewrite ?Ef, ?Ey, ?Ez; try done;
      try (apply Hd; [cbn; tauto|congruence]). rewrite Ec. split; [by repeat constructor|exact Cr].
  - pose proof (He x ltac:(cbn; tauto) ltac:(congruence)) as Ex. pose proof (He z ltac:(cbn; tauto) ltac:(congruence)) as Ez.
    apply (exchange3_spec x s z v v' (v' x) (v' x) (v s) (v s) (v z) (v' z)); rewrite ?Ef, ?Ex, ?Ez; try done;
      try (apply Hd; [cbn; tauto|congruence]). rewrite Ec. split; [by repeat constructor|exact Cr].
  - pose proof (He x ltac:(cbn; tauto) ltac:(congruence)) as Ex. pose proof (He y ltac:(cbn; tauto) ltac:(congruence)) as Ey.
    apply (exchange3_spec x y s v v' (v x) (v' x) (v y) (v' y) (v s) (v s)); rewrite ?Ef, ?Ex, ?Ey; try done;
      try (apply Hd; [cbn; tauto|congruence]). rewrite Ec. split; [by repeat constructor|exact Cr].
Qed.

Ltac in_ports := cbn; tauto.

Lemma exchange_carried l s f v v' :
  In l links -> In s l -> frames_out (v s) = [f] -> (forall q, In q l -> q <> s -> frames_out (v q) = []) ->
  carried l s f v v' -> exchange l (net v) = (net v', Ok tt).
Proof.
  intros Hl. cbn [links In] in Hl. destruct Hl as [<-|[<-|[<-|[<-|[<-|[]]]]]]; intros; cbn [exchange].
  1-4: eapply exchange2_carried; eauto; try in_ports; discriminate.
  eapply exchange3_carried; eauto; try in_ports; discriminate.
Qed.

Lemma exchange_idle l v :
  In l links -> (forall q, In q l -> frames_out (v q) = []) -> exchange l (net v) = (net v, Ok tt).
Proof.
  intros Hl He. cbn [links In] in Hl. destruct Hl as [<-|[<-|[<-|[<-|[<-|[]]]]]]; cbn [exchange].
  1-4: eapply exchange2_spec; rewrite ?He by in_ports; try reflexivity; try in_ports; try discriminate; split; [by repeat constructor|done].
  eapply exchange3_spec; rewrite ?He by in_ports; try reflexivity; try in_ports; try discriminate; split; [by repeat constructor|done].
Qed.

(** Links do not share ports. *)
Lemma links_disjoint l l' p : In l links -> In l' links -> In p l -> In p l' -> l = l'.
Proof.
  intros Hl Hl'. cbn [links In] in Hl, Hl'.
  destruct Hl as [<-|[<-|[<-|[<-|[<-|[]]]]]], Hl' as [<-|[<-|[<-|[<-|[<-|[]]]]]]; try done;
    intros H1 H2; cbn in H1, H2; unfold default_id, eth0_id, eth2_id, uun3_id, hs4_id in *; exfalso; intuition congruence.
Qed.

Lemma link_ports l p : In l links -> In p l -> In p ports.
Proof.
  intros Hl. cbn [links In] in Hl. destruct Hl as [<-|[<-|[<-|[<-|[<-|[]]]]]]; cbn; intuition congruence.
Qed.

Fixpoint exchange_all (ls : list (list port)) : M Network.t unit :=
  match ls with [] => ret tt | [l] => exchange l | l :: ls => exchange l;; exchange_all ls end.

Lemma physical_eq : simulate_physical_connections = exchange_all links.
Proof. reflexivity. Qed.

Lemma exchange_all_cons l ls n : ls <> [] -> exchange_all (l :: ls) n = (exchange l;; exchange_all ls) n.
Proof. by destruct ls. Qed.

Lemma exchange_all_idle ls v :
  incl ls links -> (forall l q, In l ls -> In q l -> frames_out (v q) = []) -> exchange_all ls (net v) = (net v, Ok tt).
Proof.
  induction ls as [|l ls IH]; intros Hi He; [done|].
  assert (E : exchange l (net v) = (net v, Ok tt)) by (apply exchange_idle; [apply Hi; by left|intros; eapply He; [by left|done]]).
  destruct ls as [|l' ls]; [exact E|]. rewrite exchange_all_cons, (bind_step _ _ _ _ _ E) by done.
  apply IH; [intros x Hx; apply Hi; by right|]. intros x q Hx. apply He. by right.
Qed.

Lemma physical_idle v :
  (forall p, In p ports -> frames_out (v p) = []) -> simulate_physical_connections (net v) = (net v, Ok tt).
Proof.
  intros He. rewrite physical_eq. apply exchange_all_idle; [by intros x|]. intros l q Hl Hq. apply He. by apply (link_ports l).
Qed.

Lemma exchange_all_carried ls l s f v v' :
  NoDup ls -> incl ls links -> In l ls -> In s l -> frames_out (v s) = [f] ->
  (forall q, In q ports -> q <> s -> frames_out (v q) = []) -> carried l s f v v' ->
  exchange_all ls (net v) = (net v', Ok tt).
Proof.
  induction ls as [|l' ls IH]; intros Hnd Hi Hl Hs Ef He Hc; [by destruct Hl|].
  apply NoDup_cons in Hnd as [Hn Hnd]. rewrite list_elem_of_In in Hn. destruct Hl as [->|Hl].
  - assert (E : exchange l (net v) = (net v', Ok tt)).
    { apply (exchange_carried l s f); try done; [apply Hi; by left|]. intros q Hq. apply He, (link_ports l); [apply Hi; by left|done]. }
    destruct ls as [|l2 ls]; [exact E|]. rewrite exchange_all_cons, (bind_step _ _ _ _ _ E) by done.
    apply exchange_all_idle; [intros x Hx; apply Hi; by right|]. intros x q Hx Hq.
    assert (Hx' : In x links) by (apply Hi; by right). assert (Hl' : In l links) by (apply Hi; by left).
    assert (Hql : ~ In q l) by (intros Hql; apply Hn; by rewrite (links_disjoint l x q)).
    rewrite (c_rest _ _ _ _ _ Hc) by (done || by apply (link_ports x)). apply He; [by apply (link_ports x)|]. by intros ->.
  - destruct ls as [|l2 ls]; [by destruct Hl|]. rewrite exchange_all_cons by done.
    erewrite bind_step; [apply IH; try done; intros x Hx; apply Hi; by right|].
    apply exchange_idle; [apply Hi; by left|]. intros q Hq. apply He; [apply (link_ports l'); [apply Hi; by left|done]|].
    intros ->. apply Hn. rewrite (links_disjoint l' l s); try done; apply Hi; [by left|by right].
Qed.

Lemma physical_carried l s f v v' :
  In l links -> In s l -> frames_out (v s) = [f] ->
  (forall q, In q ports -> q <> s -> frames_out (v q) = []) -> carried l s f v v' ->
  simulate_physical_connections (net v) = (net v', Ok tt).
Proof.
  intros. rewrite physical_eq. eapply exchange_all_carried; try done; [|by intros x].
  unfold links. repeat (apply NoDup_cons; split; [rewrite list_elem_of_In; cbn; intuition discriminate|]). apply NoDup_nil_2.
Qed.

(** ** One frame on a link *)

Definition hear (l : list port) (s : port) (f : frame) (v : port -> iface) : port -> iface := fun q =>
  if port_eqb q s then set_frames_out (v s) []
  else if existsb (port_eqb q) l then (AsyncNetworkInterface.recv_frame (v q) (flat f)).1 else v q.

Lemma existsb_port p l : existsb (port_eqb p) l = true <-> In p l.
Proof.
  rewrite existsb_exists. split.
  - intros (q & Hq & E). by destruct (port_eqb_spec p q) as [->|].
  - intros Hp. exists p. split; [done|]. by destruct (port_eqb_spec p p).
Qed.

Lemma async_recv i f b o :
  NetworkInterface.recv_frame (AsyncNetworkInterface.base i) f = (b, Ok o) ->
  exists i', AsyncNetworkInterface.recv_frame i (flat f) = (i', Ok tt) /\ AsyncNetworkInterface.base i' = b /\
    AsyncNetworkInterface._datagrams_out i' = AsyncNetworkInterface._datagrams_out i ++ option_list o.
Proof.
  intros E. unfold AsyncNetworkInterface.recv_frame. rewrite (ArpCache.recv_frame_ext _ (flat f) f), E; [|done|exact (BufferList.concatenate_of_string _)].
  destruct o as [d|]; eexists; (split; [done|]); cbn; by rewrite ?app_nil_r.
Qed.

(** What one round of the cables does when [f] is the only frame. *)
Lemma stage l s f v :
  In l links -> In s l -> frames_out (v s) = [f] -> (forall q, In q ports -> q <> s -> frames_out (v q) = []) ->
  (forall q, In q l -> q <> s -> exists b o, NetworkInterface.recv_frame (AsyncNetworkInterface.base (v q)) f = (b, Ok o)) ->
  exists v', simulate_physical_connections (net v) = (net v', Ok tt) /\
    (AsyncNetworkInterface.base (v' s) = unsent (AsyncNetworkInterface.base (v s)) /\
     AsyncNetworkInterface._datagrams_out (v' s) = AsyncNetworkInterface._datagrams_out (v s)) /\
    (forall q b o, In q l -> q <> s -> NetworkInterface.recv_frame (AsyncNetworkInterface.base (v q)) f = (b, Ok o) ->
       AsyncNetworkInterface.base (v' q) = b /\
       AsyncNetworkInterface._datagrams_out (v' q) = AsyncNetworkInterface._datagrams_out (v q) ++ option_list o) /\
    (forall p, In p ports -> ~ In p l -> v' p = v p).
Proof.
  intros Hl Hs Ef He Hr. set (v' := hear l s f v).
  assert (Hvs : v' s = set_frames_out (v s) []) by (unfold v', hear; by destruct (port_eqb_spec s s)).
  assert (Hvq : forall q, In q l -> q <> s -> v' q = (AsyncNetworkInterface.recv_frame (v q) (flat f)).1).
  { intros q Hq Hne. unfold v', hear. destruct (port_eqb_spec q s); [done|]. by rewrite (proj2 (existsb_port q l) Hq). }
  assert (Hvp : forall p, In p ports -> ~ In p l -> v' p = v p).
  { intros p _ Hp. unfold v', hear. destruct (port_eqb_spec p s) as [->|]; [done|].
    destruct (existsb (port_eqb p) l) eqn:E; [|done]. by apply existsb_port in E. }
  exists v'. split; [|split; [|split; [|exact Hvp]]].
  - apply (physical_carried l s f); try done. split; try done. intros q Hq Hne.
    destruct (Hr q Hq Hne) as (b & o & E). destruct (async_recv _ _ _ _ E) as (i' & Ei & _). by rewrite Hvq, Ei.
  - by rewrite Hvs.
  - intros q b o Hq Hne E. destruct (async_recv _ _ _ _ E) as (i' & Ei & Eb & Ed). by rewrite Hvq, Ei.
Qed.

(** ** Routing *)

Abbreviation base i := (AsyncNetworkInterface.base i).
Abbreviation inbox i := (AsyncNetworkInterface._datagrams_out i).

Definition routing : M Network.t unit := zoom _router (fun r n => n <| _router := r |>) Router.route.

Lemma interfaces_lookup v k i :
  Router._interfaces (_router (net v)) !! k = Some i -> exists id, In id ids /\ k = Z.to_nat id /\ i = v (RouterPort id).
Proof.
  intros E. do 7 (destruct k as [|k]; [injection E as <-; eexists; split; [|split; [|reflexivity]]; [cbn; tauto|reflexivity]|]). done.
Qed.

Lemma routing_idle v : (forall id, In id ids -> inbox (v (RouterPort id)) = []) -> routing (net v) = (net v, Ok tt).
Proof.
  intros Hi. unfold routing, zoom, Router.route. rewrite Routing.route_interfaces_idle; [done|].
  apply Forall_forall. intros k _ i E. apply interfaces_lookup in E as (id & Hid & _ & ->). by apply Hi.
Qed.

Lemma round_unfold v : (forall id, In id ids -> inbox (v (RouterPort id)) = []) -> round (net v) = simulate_physical_connections (net v).
Proof. intros Hi. unfold round. fold routing. by rewrite (bind_step _ _ _ _ _ (routing_idle v Hi)). Qed.

Lemma router_port id : In id ids -> In (RouterPort id) ports.
Proof. intros Hid. apply in_app_iff. left. by apply in_map. Qed.

(** An interface with an empty queue. *)
Definition emptied (i : iface) : iface := i <| AsyncNetworkInterface._datagrams_out := [] |>.
Definition rebased (i : iface) (b : NetworkInterface.t) : iface := i <| AsyncNetworkInterface.base := b |>.

(** A fact about every interface, checked one by one. *)
Lemma each_id (P : Z -> Prop) : Forall P ids -> forall id, In id ids -> P id.
Proof. intros HF id Hid. rewrite Forall_forall in HF. apply HF. by apply list_elem_of_In. Qed.
Ltac all_ids := match goal with |- forall i, In i ids -> @?P i => apply (each_id P); repeat apply Forall_cons_2; try apply Forall_nil_2 end.

Lemma interface_eq v id : In id ids -> Router.interface (_router (net v)) id = Ok (v (RouterPort id)).
Proof. revert id. all_ids; reflexivity. Qed.

Lemma lookup_port v id : In id ids -> Router._interfaces (_router (net v)) !! Z.to_nat id = Some (v (RouterPort id)).
Proof. revert id. all_ids; reflexivity. Qed.

Lemma tabled_net v : Routing.tabled rules (_router (net v)).
Proof.
  split; [done|]. unfold rules.
  repeat (apply Forall_cons_2; [unfold Router.rule_ok; cbn [Router.route_prefix Router.prefix_length]; vm_compute; intuition congruence|]).
  apply Forall_nil_2.
Qed.

Section Received.
Context (v : port -> iface) (i : Z) (d : datagram).
Context (Hi : In i ids) (Hq : forall id, In id ids -> inbox (v (RouterPort id)) = if id =? i then [d] else []).
Context (Hip : is_u32 (IPv4Header.dst (IPv4Datagram._header d))).

Lemma queue_elsewhere k : k <> Z.to_nat i -> Routing.empty_queue (_router (net v)) k.
Proof using Hq.
  intros Hk x E. apply interfaces_lookup in E as (id & Hid & -> & ->). rewrite Hq by done.
  by destruct (Z.eqb_spec id i) as [->|].
Qed.

(** Routing one received datagram. *)
Lemma routing_one s1 d1 :
  Router.route_one_datagram (_router (net v)) d = (s1, d1, Ok tt) ->
  (forall k, k <> Z.to_nat i -> Routing.empty_queue (Router.set_queue s1 (Z.to_nat i) []) k) ->
  routing (net v) = ((net v) <| _router := Router.set_queue s1 (Z.to_nat i) [] |>, Ok tt).
Proof using Hi Hq.
  intros Ho He. unfold routing, zoom, Router.route.
  rewrite (Routing.route_interfaces_single _ _ (Z.to_nat i) (v (RouterPort i)) d s1 d1); [done|apply NoDup_seq| |by apply lookup_port| | | |done].
  - apply elem_of_seq. split; [lia|]. by eapply lookup_lt_Some, lookup_port.
  - by rewrite Hq, Z.eqb_refl by done.
  - intros k _ Hk. split; [by apply queue_elsewhere|by apply He].
  - intros k Hk%elem_of_seq. apply lookup_lt_is_Some. apply Hk.
Qed.

(** ... forwarded through [j] ... *)
Lemma routing_forward j a b :
  In j ids -> 2 <= IPv4Header.ttl (IPv4Datagram._header d) < 2 ^ 8 ->
  Routing.decision rules (IPv4Header.dst (IPv4Datagram._header d)) = (j, a) ->
  NetworkInterface.send_datagram (base (v (RouterPort j))) (Routing.hop_less d) a = (b, Ok tt) ->
  let v1 := upd (RouterPort i) (emptied (v (RouterPort i))) v in
  routing (net v) = (net (upd (RouterPort j) (rebased (v1 (RouterPort j)) b) v1), Ok tt).
Proof using Hi Hq Hip.
  intros Hj Ht Hdec Hsend v1.
  rewrite (routing_one (Router.set_interface (_router (net v)) j (rebased (v (RouterPort j)) b)) (Routing.hop_less d)).
  - unfold v1. clear - Hi Hj. revert i Hi j Hj. all_ids; all_ids; reflexivity.
  - rewrite (Routing.route_one_eq rules); [|apply tabled_net|done|lia]. rewrite Hdec. cbn [fst snd].
    destruct (Z.ltb_spec (IPv4Header.ttl (IPv4Datagram._header d)) 2); [lia|].
    unfold Router.send_on. by rewrite interface_eq, Hsend.
  - intros k Hk x E. unfold Router.set_queue in E. cbn [Router._interfaces setter Router.set_interfaces] in E.
    rewrite list_lookup_alter_ne in E by done. unfold Router.set_interface in E. cbn [Router._interfaces setter Router.set_interfaces] in E.
    destruct (decide (k = Z.to_nat j)) as [->|Hkj].
    + rewrite list_lookup_insert_eq in E by (by eapply lookup_lt_Some, lookup_port). injection E as <-. cbn.
      rewrite Hq by done. by destruct (Z.eqb_spec j i) as [->|].
    + rewrite list_lookup_insert_ne in E by done. by apply queue_elsewhere in E.
Qed.

(** ... or dropped. *)
Lemma routing_drop :
  0 <= IPv4Header.ttl (IPv4Datagram._header d) < 2 ->
  routing (net v) = (net (upd (RouterPort i) (emptied (v (RouterPort i))) v), Ok tt).
Proof using Hi Hq Hip.
  intros Ht. rewrite (routing_one (_router (net v)) d).
  - clear - Hi. revert i Hi. all_ids; reflexivity.
  - rewrite (Routing.route_one_eq rules); [|apply tabled_net|done|lia].
    destruct (Z.ltb_spec (IPv4Header.ttl (IPv4Datagram._header d)) 2); [done|lia].
  - intros k Hk x E. unfold Router.set_queue in E. cbn [Router._interfaces setter Router.set_interfaces] in E.
    rewrite list_lookup_alter_ne in E by done. by apply queue_elsewhere in E.
Qed.
End Received.

(** ** One hop *)

Section Hops.
Context (eth : port -> EthernetAddress).
Context (eth_len : forall p, eth_ok (eth p)).
(** Bystanders have addresses of their own. *)
Context (eth_distinct : forall l p q, In l links -> (2 < length l)%nat -> In p l -> In q l -> p <> q -> eth p <> eth q).

Definition link_of (p : port) : list port := default [] (List.find (existsb (port_eqb p)) links).
Definition plan (l : list port) (x : Z) : option EthernetAddress := eth <$> List.find (fun p => ip_of p =? x) l.

Lemma link_of_eq l p : In l links -> In p l -> link_of p = l.
Proof.
  intros Hl Hp. cbn [links In] in Hl. destruct Hl as [<-|[<-|[<-|[<-|[<-|[]]]]]]; cbn [In] in Hp;
    repeat (destruct Hp as [<-|Hp]; [reflexivity|]); by destruct Hp.
Qed.

Lemma plan_eq l p : In l links -> In p l -> plan l (ip_of p) = Some (eth p).
Proof.
  intros Hl Hp. cbn [links In] in Hl. destruct Hl as [<-|[<-|[<-|[<-|[<-|[]]]]]]; cbn [In] in Hp;
    repeat (destruct Hp as [<-|Hp]; [vm_compute; reflexivity|]); by destruct Hp.
Qed.

Lemma ip_of_range p : In p ports -> is_u32 (ip_of p).
Proof. intros Hp. each_port Hp; vm_compute; intuition congruence. Qed.

Lemma ip_of_inj l p q : In l links -> In p l -> In q l -> ip_of p = ip_of q -> p = q.
Proof.
  intros Hl Hp Hq. cbn [links In] in Hl. destruct Hl as [<-|[<-|[<-|[<-|[<-|[]]]]]]; cbn [In] in Hp, Hq;
    repeat (destruct Hp as [<-|Hp]; [repeat (destruct Hq as [<-|Hq]; [vm_compute; congruence|]); by destruct Hq|]); by destruct Hp.
Qed.


Definition calm (v : port -> iface) (p : port) : Prop := quiet (plan (link_of p)) (ip_of p) (eth p) (base (v p)).

(** Nothing moves, and [q] has been received. *)
Definition resting (v : port -> iface) (q : port -> list datagram) : Prop := forall p, In p ports -> calm v p /\ inbox (v p) = q p.
Definition nothing : port -> list datagram := fun _ => [].
Definition only (r : port) (d : datagram) : port -> list datagram := fun p => if port_eqb p r then [d] else [].

Lemma calm_frames v p : calm v p -> frames_out (v p) = [].
Proof. by intros []. Qed.

Section Hop.
Context (l : list port) (s r : port) (d : datagram).
Context (Hl : In l links) (Hs : In s l) (Hr : In r l) (Hsr : s <> r) (Hd : IPv4Datagram.wf d).

Definition others (v : port -> iface) (active : list port) : Prop :=
  (forall p, In p ports -> ~ In p active -> calm v p) /\ (forall p, In p ports -> inbox (v p) = []).

(** [s] has sent its request; [r] has answered; [s] has sent the datagram. *)
Record requested (v : port -> iface) : Prop := {
  rq_others : others v [s];
  rq_frame : exists f, frames_out (v s) = [f] /\
    ArpCache.carries_arp f (ArpCache.arp_message ARPMessage.OPCODE_REQUEST (eth s) (ip_of s) NetworkInterface.ADDR_BROADCAST (ip_of r));
  rq_sender : asking (plan l) (ip_of s) (eth s) (ip_of r) d (unsent (base (v s)))
}.
Record replied (v : port -> iface) : Prop := {
  rp_others : others v [s; r];
  rp_frame : exists f, frames_out (v r) = [f] /\
    ArpCache.carries_arp f (ArpCache.arp_message ARPMessage.OPCODE_REPLY (eth r) (ip_of r) (eth s) (ip_of s));
  rp_receiver : quiet (plan l) (ip_of r) (eth r) (unsent (base (v r)));
  rp_sender : asking (plan l) (ip_of s) (eth s) (ip_of r) d (base (v s))
}.
Record sent (v : port -> iface) : Prop := {
  st_others : others v [s];
  st_frame : exists f, frames_out (v s) = [f] /\ ArpCache.carries_datagram (eth s) (eth r) f d;
  st_sender : quiet (plan l) (ip_of s) (eth s) (unsent (base (v s)))
}.

Lemma calm_quiet v p : In p l -> calm v p = quiet (plan l) (ip_of p) (eth p) (base (v p)).
Proof using Hl. intros Hp. unfold calm. by rewrite (link_of_eq l p Hl Hp). Qed.

Lemma range p : In p l -> is_u32 (ip_of p).
Proof using Hl. intros Hp. by apply ip_of_range, (link_ports l). Qed.

(** One frame [f] of [x] on the link, where only [s] and [r] do more than learn. *)
Lemma stage_pair x y f v :
  (x = s /\ y = r) \/ (x = r /\ y = s) -> frames_out (v x) = [f] -> frames_out (v y) = [] ->
  (forall p, In p ports -> ~ In p [s; r] -> calm v p) -> (forall p, In p ports -> inbox (v p) = []) ->
  (forall q, In q l -> ~ In q [s; r] -> exists b, NetworkInterface.recv_frame (base (v q)) f = (b, Ok None) /\ quiet (plan l) (ip_of q) (eth q) b) ->
  forall b o, NetworkInterface.recv_frame (base (v y)) f = (b, Ok o) ->
  exists v', simulate_physical_connections (net v) = (net v', Ok tt) /\
    (forall p, In p ports -> ~ In p [s; r] -> calm v' p) /\
    (forall p, In p ports -> p <> y -> inbox (v' p) = []) /\
    base (v' x) = unsent (base (v x)) /\ base (v' y) = b /\ inbox (v' y) = option_list o.
Proof using Hl Hs Hr Hsr.
  intros Hxy Ef Ey Hc Hi Hb b o Ho.
  assert (Hx : In x l) by (destruct Hxy as [[-> _]|[-> _]]; done).
  assert (Hy : In y l) by (destruct Hxy as [[_ ->]|[_ ->]]; done).
  assert (Hne : y <> x) by (destruct Hxy as [[-> ->]|[-> ->]]; congruence).
  assert (Hout : forall p, p <> x -> p <> y -> ~ In p [s; r]) by (intros p; cbn; destruct Hxy as [[-> ->]|[-> ->]]; intuition).
  destruct (stage l x f v) as (v' & E & [Ex Ix] & Hh & Hn); [done..| | |].
  { intros q Hq Hqx. destruct (port_eqb_spec q y) as [->|]; [done|]. apply calm_frames, Hc; [done|by apply Hout]. }
  { intros q Hq Hqx. destruct (port_eqb_spec q y) as [->|Hqy]; [by eexists _, _|]. destruct (Hb q Hq (Hout q Hqx Hqy)) as (b' & Eb & _). by eexists _, _. }
  exists v'. split; [done|]. destruct (Hh y b o Hy Hne Ho) as [By Iy].
  pose proof (link_ports l) as Hp. rewrite (Hi y) in Iy by (by apply Hp). split_and!; try done.
  - intros p Hpp Hnp. destruct (in_dec (fun a b => reflect_dec _ _ (port_eqb_spec a b)) p l) as [Hpl|Hpl].
    + destruct (Hb p Hpl Hnp) as (b' & Eb & Qb). assert (Hpx : p <> x) by (intros ->; apply Hnp; cbn; destruct Hxy as [[-> ->]|[-> ->]]; tauto).
      destruct (Hh p b' None Hpl Hpx Eb) as [B _]. rewrite calm_quiet by done. by rewrite B.
    + unfold calm. rewrite Hn by done. by apply Hc.
  - intros p Hpp Hpy. destruct (in_dec (fun a b => reflect_dec _ _ (port_eqb_spec a b)) p l) as [Hpl|Hpl]; [|rewrite Hn by done; by apply Hi].
    destruct (port_eqb_spec p x) as [->|Hpx]; [rewrite Ix; by apply Hi|].
    destruct (Hb p Hpl (Hout p Hpx Hpy)) as (b' & Eb & _). destruct (Hh p b' None Hpl Hpx Eb) as [_ I]. rewrite I, Hi by done. done.
Qed.

(** A bystander and an ARP message of [x]. *)
Lemma bystander_arp v q x f op teth tip :
  calm v q -> In q l -> In x l -> 1 <= op <= 2 -> eth_ok teth -> is_u32 tip -> op = 2 \/ tip <> ip_of q ->
  ArpCache.carries_arp f (ArpCache.arp_message op (eth x) (ip_of x) teth tip) ->
  exists b, NetworkInterface.recv_frame (base (v q)) f = (b, Ok None) /\ quiet (plan l) (ip_of q) (eth q) b.
Proof using Hl eth_len.
  intros Hc Hq Hx Hop Ht Hi Ho Hf. rewrite calm_quiet in Hc by done.
  eapply recv_arp_bystander; [done|exact Hf|apply ArpCache.arp_message_wf; done || by apply range|by apply plan_eq|done].
Qed.

Lemma request_step v : requested v -> exists v', simulate_physical_connections (net v) = (net v', Ok tt) /\ replied v'.
Proof using Hl Hs Hr Hsr eth_len.
  intros [[Hc Hi] (f & Ef & Hf) Ha]. pose proof (link_ports l) as Hp.
  assert (Hcr : calm v r) by (apply Hc; [by apply (Hp r)|cbn; intuition]).
  pose proof Hcr as Hqr. rewrite calm_quiet in Hqr by done.
  destruct (recv_request (plan l) (ip_of r) (eth r) (base (v r)) f (ip_of s) (eth s)) as (b & g & Er & Eg & Hg & Hb);
    [done|by apply range|done|by apply plan_eq|done|].
  destruct (stage_pair s r f v (or_introl (conj eq_refl eq_refl)) Ef (calm_frames _ _ Hcr)) with (b := b) (o := @None datagram)
    as (v' & E & C' & I' & Bs & Br & Ir); [|exact Hi| |exact Er|].
  { intros p Hpp Hn. apply Hc; [done|cbn in *; intuition]. }
  { intros q Hq Hn. apply (bystander_arp v q s f ARPMessage.OPCODE_REQUEST NetworkInterface.ADDR_BROADCAST (ip_of r));
      [apply Hc; [by apply (Hp q)|cbn in *; intuition]|done|exact Hs|done|done|by apply range| |exact Hf].
    right. intros Eq. apply (ip_of_inj l) in Eq; [|done..]. subst. cbn in Hn. tauto. }
  exists v'. split; [done|]. split.
  - split; [done|]. intros p Hpp. destruct (port_eqb_spec p r) as [->|]; [done|by apply I'].
  - exists g. unfold frames_out. by rewrite Br.
  - by rewrite Br.
  - by rewrite Bs.
Qed.

Lemma reply_step v : replied v -> exists v', simulate_physical_connections (net v) = (net v', Ok tt) /\ sent v'.
Proof using Hl Hs Hr Hsr Hd eth_len.
  intros [[Hc Hi] (f & Ef & Hf) Hq Ha]. pose proof (link_ports l) as Hp.
  destruct (recv_reply (plan l) (ip_of s) (eth s) (ip_of r) (eth r) d (base (v s)) f) as (b & g & Er & Eg & Hg & Hb);
    [done|done|by apply range|done|by apply plan_eq|done|].
  destruct (stage_pair r s f v (or_intror (conj eq_refl eq_refl)) Ef (a_frames _ _ _ _ _ _ Ha) Hc Hi) with (b := b) (o := @None datagram)
    as (v' & E & C' & I' & Br & Bs & Is); [|exact Er|].
  { intros q Hql Hn. apply (bystander_arp v q r f ARPMessage.OPCODE_REPLY (eth s) (ip_of s));
      [apply Hc; [by apply (Hp q)|done]|done|exact Hr|done|done|by apply range|by left|exact Hf]. }
  exists v'. split; [done|]. split.
  - split.
    + intros p Hpp Hn. destruct (port_eqb_spec p r) as [->|Hpr]; [rewrite calm_quiet by done; by rewrite Br|].
      apply C'; [done|cbn in *; intuition].
    + intros p Hpp. destruct (port_eqb_spec p s) as [->|]; [done|by apply I'].
  - exists g. unfold frames_out. by rewrite Bs.
  - by rewrite Bs.
Qed.

Lemma data_step v : sent v -> exists v' d', simulate_physical_connections (net v) = (net v', Ok tt) /\
  resting v' (only r d') /\ delivered d d'.
Proof using Hl Hs Hr Hsr Hd eth_distinct.
  intros [[Hc Hi] (f & Ef & Hf) Hq]. pose proof (link_ports l) as Hp.
  assert (Hcr : calm v r) by (apply Hc; [by apply (Hp r)|cbn; intuition]).
  pose proof Hcr as Hqr. rewrite calm_quiet in Hqr by done.
  destruct (recv_data (base (v r)) f d (eth s) Hd) as (d' & Er & Hdel).
  { by destruct Hqr as [[_ _ -> _ _] _ _ _]. }
  destruct (stage_pair s r f v (or_introl (conj eq_refl eq_refl)) Ef (calm_frames _ _ Hcr)) with (b := base (v r)) (o := Some d')
    as (v' & E & C' & I' & Bs & Br & Ir); [|exact Hi| |exact Er|].
  { intros p Hpp Hn. apply Hc; [done|cbn in *; intuition]. }
  { intros q Hql Hn. assert (Hcq : calm v q) by (apply Hc; [by apply (Hp q)|cbn in *; intuition]).
    exists (base (v q)). rewrite calm_quiet in Hcq by done. split; [|done].
    eapply recv_data_bystander; [exact Hd|exact Hf|]. destruct Hcq as [[_ _ -> _ _] _ _ _].
    apply (eth_distinct l); try done; [|intros ->; cbn in Hn; tauto].
    clear -Hs Hr Hql Hsr Hn. destruct l as [|a [|a' [|a'' m]]]; cbn in *; intuition (subst; lia || tauto || congruence). }
  exists v', d'. split; [done|]. split; [|done]. intros p Hpp. unfold only. split.
  - destruct (port_eqb_spec p r) as [->|Hpr]; [rewrite calm_quiet by done; by rewrite Br|].
    destruct (port_eqb_spec p s) as [->|Hps]; [rewrite calm_quiet by done; by rewrite Bs|].
    apply C'; [done|]. cbn. intuition.
  - destruct (port_eqb_spec p r) as [->|Hpr]; [done|by apply I'].
Qed.

(** [s] sends the datagram towards [r]. *)
Lemma send_step v a :
  resting v nothing -> Address.ipv4_numeric a = Ok (ip_of r) ->
  exists b, NetworkInterface.send_datagram (base (v s)) d a = (b, Ok tt) /\
    let v1 := upd s (rebased (v s) b) v in requested v1 \/ sent v1.
Proof using Hl Hs Hr Hd eth_len.
  intros Hv Ha. destruct (Hv s (link_ports l s Hl Hs)) as [Hq _]. rewrite calm_quiet in Hq by done.
  destruct (send_quiet (plan l) _ _ _ d a (ip_of r) (eth r) Hq Hd) as (b & f & Es & Ef & Hc); [by apply range|done|by apply plan_eq|].
  exists b. split; [done|]. intros v1.
  assert (Ho : others v1 [s]).
  { split; intros p Hp.
    - intros Hn. unfold calm, v1. rewrite upd_ne by (intros ->; apply Hn; by left). by apply Hv.
    - unfold v1, upd. destruct (port_eqb_spec p s) as [->|]; by apply Hv. }
  assert (E1 : base (v1 s) = b) by (unfold v1; by rewrite upd_eq).
  destruct Hc as [[Hf Hq']|[Hf Hq']]; [right|left]; (split; [done|exists f; unfold frames_out; by rewrite E1|by rewrite E1]).
Qed.

Lemma quiet_inboxes v active id : others v active -> In id ids -> inbox (v (RouterPort id)) = [].
Proof. intros [_ Hi] Hid. by apply Hi, router_port. Qed.

(** ... and after at most three rounds [r] has it. *)
Lemma hop v a :
  resting v nothing -> Address.ipv4_numeric a = Ok (ip_of r) ->
  exists b, NetworkInterface.send_datagram (base (v s)) d a = (b, Ok tt) /\
    exists k v' d', (k <= 2)%nat /\ (simulate_physical_connections;; repeat k) (net (upd s (rebased (v s) b) v)) = (net v', Ok tt) /\
      resting v' (only r d') /\ delivered d d'.
Proof using Hl Hs Hr Hsr Hd eth_len eth_distinct.
  intros Hv Ha. destruct (send_step v a Hv Ha) as (b & Eb & Hst). exists b. split; [done|]. cbv zeta in Hst.
  set (v1 := upd s (rebased (v s) b) v) in *. clearbody v1. destruct Hst as [Hst|Hst].
  - destruct (request_step v1 Hst) as (v2 & E2 & H2). destruct (reply_step v2 H2) as (v3 & E3 & H3).
    destruct (data_step v3 H3) as (v4 & d' & E4 & H4 & Hdel). exists 2%nat, v4, d'. split; [done|]. split; [|done].
    rewrite (bind_step _ _ _ _ _ E2). cbn [repeat].
    rewrite <- (round_unfold v2) in E3 by (intros id Hid; by eapply quiet_inboxes; [apply H2|]).
    rewrite <- (round_unfold v3) in E4 by (intros id Hid; by eapply quiet_inboxes; [apply H3|]).
    by rewrite (bind_step _ _ _ _ _ E3), (bind_step _ _ _ _ _ E4).
  - destruct (data_step v1 Hst) as (v2 & d' & E2 & H2 & Hdel). exists 0%nat, v2, d'. split; [lia|]. split; [|done].
    by rewrite (bind_step _ _ _ _ _ E2).
Qed.

End Hop.

(** ** Two hops *)

Lemma hop_less_alike d d' : alike d d' -> alike (Routing.hop_less d) (Routing.hop_less d').
Proof.
  intros [E1 E2]. split; [|done]. unfold Routing.hop_less. cbn [IPv4Datagram._header setter IPv4Datagram.set_header].
  destruct (IPv4Datagram._header d), (IPv4Datagram._header d'). cbn in E1 |- *. injection E1. intros. by subst.
Qed.

Lemma repeat_add a b n : repeat (a + b) n = (repeat a;; repeat b) n.
Proof.
  revert n. induction a as [|a IH]; intros n; [done|]. cbn [repeat Nat.add]. unfold bind in *.
  destruct (round n) as [n1 [[]|ex]]; [|done]. apply IH.
Qed.

Lemma idle_rounds k v q : resting v q -> (forall id, In id ids -> q (RouterPort id) = []) -> repeat k (net v) = (net v, Ok tt).
Proof.
  intros Hv Hq. induction k as [|k IH]; [done|]. cbn [repeat]. erewrite bind_step; [exact IH|].
  rewrite round_unfold; [apply physical_idle; intros p Hp; by apply calm_frames, Hv|].
  intros id Hid. destruct (Hv (RouterPort id) (router_port id Hid)) as [_ ->]. by apply Hq.
Qed.

(** The rest of 256 rounds is idle. *)
Lemma finish k v v' q :
  (k <= 256)%nat -> repeat k (net v) = (net v', Ok tt) -> resting v' q -> (forall id, In id ids -> q (RouterPort id) = []) ->
  repeat 256 (net v) = (net v', Ok tt).
Proof.
  intros Hk E Hv Hq. replace 256%nat with (k + (256 - k))%nat by lia. rewrite repeat_add, (bind_step _ _ _ _ _ E). by eapply idle_rounds.
Qed.

Lemma emptied_resting v i d :
  resting v (only (RouterPort i) d) -> resting (upd (RouterPort i) (emptied (v (RouterPort i))) v) nothing.
Proof.
  intros Hv p Hp. destruct (Hv p Hp) as [Hc Hi]. unfold calm, upd, only in *. by destruct (port_eqb_spec p (RouterPort i)) as [->|].
Qed.

Lemma only_inbox v i d id : resting v (only (RouterPort i) d) -> In id ids -> inbox (v (RouterPort id)) = if id =? i then [d] else [].
Proof. intros Hv Hid. destruct (Hv _ (router_port id Hid)) as [_ ->]. done. Qed.

Section Crossing.
Context (l1 : list port) (s : port) (i : Z) (d : datagram) (hop1 : Address.t).
Context (Hl1 : In l1 links) (Hs : In s l1) (Hi : In (RouterPort i) l1) (Hsi : s <> RouterPort i) (Hid : In i ids).
Context (Hd : IPv4Datagram.wf d) (Ha1 : Address.ipv4_numeric hop1 = Ok (ip_of (RouterPort i))).
Context (v : port -> iface) (Hv : resting v nothing).

(** From the host to the router. *)
Lemma to_router :
  exists b, NetworkInterface.send_datagram (base (v s)) d hop1 = (b, Ok tt) /\
    exists k v' d', (k <= 3)%nat /\ repeat k (net (upd s (rebased (v s) b) v)) = (net v', Ok tt) /\
      resting v' (only (RouterPort i) d') /\ delivered d d'.
Proof using All.
  destruct (hop l1 s (RouterPort i) d Hl1 Hs Hi Hsi Hd v hop1 Hv Ha1) as (b & Eb & k & v' & d' & Hk & E & Hr & Hdel).
  exists b. split; [done|]. exists (S k), v', d'. split; [lia|]. split; [|done]. cbn [repeat]. unfold bind in *.
  rewrite round_unfold; [done|]. intros id Hin. unfold upd. destruct (port_eqb_spec (RouterPort id) s) as [<-|]; by apply Hv, router_port.
Qed.

(** Across the router to another host. *)
Lemma across l2 j r a :
  In l2 links -> In (RouterPort j) l2 -> In (HostPort r) l2 -> In j ids ->
  2 <= IPv4Header.ttl (IPv4Datagram._header d) ->
  Routing.decision rules (IPv4Header.dst (IPv4Datagram._header d)) = (j, a) -> Address.ipv4_numeric a = Ok (ip_of (HostPort r)) ->
  exists b, NetworkInterface.send_datagram (base (v s)) d hop1 = (b, Ok tt) /\
    exists v' d', repeat 256 (net (upd s (rebased (v s) b) v)) = (net v', Ok tt) /\
      resting v' (only (HostPort r) d') /\ alike (Routing.hop_less d) d' /\ IPv4Datagram.wf d'.
Proof using All.
  intros Hl2 Hj Hr Hjid Ht Hdec Ha. destruct to_router as (b & Eb & k1 & v1 & d1 & Hk1 & E1 & R1 & D1).
  exists b. split; [done|]. pose proof (delivered_wf _ _ Hd D1) as Hd1. pose proof (delivered_alike _ _ Hd D1) as A1.
  assert (Hh : IPv4Header.dst (IPv4Datagram._header d1) = IPv4Header.dst (IPv4Datagram._header d) /\
    IPv4Header.ttl (IPv4Datagram._header d1) = IPv4Header.ttl (IPv4Datagram._header d)) by (destruct D1 as [-> _]; done).
  destruct Hh as [Hdst Httl]. assert (Ht1 : 2 <= IPv4Header.ttl (IPv4Datagram._header d1) < 2 ^ 8) by (rewrite Httl; destruct Hd as [[] _]; lia).
  pose proof (emptied_resting v1 i d1 R1) as R2. set (v2 := upd (RouterPort i) (emptied (v1 (RouterPort i))) v1) in *.
  pose proof (Routing.hop_less_wf d1 Hd1 ltac:(lia)) as Hd2.
  destruct (hop l2 (RouterPort j) (HostPort r) (Routing.hop_less d1) Hl2 Hj Hr ltac:(done) Hd2 v2 a R2 Ha)
    as (b2 & Eb2 & k2 & v3 & d3 & Hk2 & E3 & R3 & D3).
  assert (Eb2' : NetworkInterface.send_datagram (base (v1 (RouterPort j))) (Routing.hop_less d1) a = (b2, Ok tt)).
  { rewrite <- Eb2. f_equal. unfold v2, upd. by destruct (port_eqb_spec (RouterPort j) (RouterPort i)) as [->|]. }
  pose proof (routing_forward v1 i d1 Hid (fun id Hin => only_inbox v1 i d1 id R1 Hin) ltac:(destruct Hd1 as [[] _]; lia)
    j a b2 Hjid Ht1 ltac:(by rewrite Hdst) Eb2') as E2. cbv zeta in E2. fold v2 in E2.
  exists v3, d3. split; [|split; [done|]].
  - apply (finish (k1 + S k2) _ _ (only (HostPort r) d3)); [lia| |done|done].
    rewrite repeat_add, (bind_step _ _ _ _ _ E1). cbn [repeat]. unfold round. fold routing. unfold bind in *. rewrite E2. exact E3.
  - split; [|by eapply delivered_wf]. etransitivity; [|by eapply delivered_alike]. by apply hop_less_alike.
Qed.

(** A datagram that may not be forwarded ends at the router. *)
Lemma expires :
  IPv4Header.ttl (IPv4Datagram._header d) < 2 ->
  exists b, NetworkInterface.send_datagram (base (v s)) d hop1 = (b, Ok tt) /\
    exists v', repeat 256 (net (upd s (rebased (v s) b) v)) = (net v', Ok tt) /\ resting v' nothing.
Proof using All.
  intros Ht. destruct to_router as (b & Eb & k1 & v1 & d1 & Hk1 & E1 & R1 & D1).
  exists b. split; [done|]. pose proof (delivered_wf _ _ Hd D1) as Hd1. pose proof (emptied_resting v1 i d1 R1) as R2.
  assert (Ht1 : 0 <= IPv4Header.ttl (IPv4Datagram._header d1) < 2) by (destruct D1 as [-> _], Hd as [[] _]; cbn; lia).
  pose proof (routing_drop v1 i d1 Hid (fun id Hin => only_inbox v1 i d1 id R1 Hin) ltac:(destruct Hd1 as [[] _]; lia) Ht1) as E2.
  eexists. split; [|exact R2].
  apply (finish (k1 + 1) _ _ nothing); [lia| |done|done].
  rewrite repeat_add, (bind_step _ _ _ _ _ E1). cbn [repeat]. unfold round. fold routing. unfold bind. rewrite E2.
  rewrite physical_idle; [done|]. intros p Hp. by apply calm_frames, R2.
Qed.
End Crossing.

End Hops.
End Net.

End Addresses.
End SimulatedNetwork.
