(* ===== verification/simulation.v ===== *)
(** What the network simulator shows: in the network it builds, every datagram a
    host sends to a reachable destination goes through the router and is
    delivered, once, to the right host and to nobody else, for all random
    numbers; so the program succeeds. *)

From stdpp Require Import pretty.
From S2P Require Import prelude effects buffer parser ethernet ipv4 address network_interface arp_cache router routing network_simulator ethernet_link simulated_network.

Module Simulation.
Import NetworkSimulator Network EthernetLink SimulatedNetwork.

Section Addresses.
Context {Text : AddressText} {Law : AddressTextLaw Text}.

(** ** Hosts *)

Definition none : string -> list datagram := fun _ => [].
Definition upde (name : string) (x : list datagram) (e : string -> list datagram) : string -> list datagram :=
  fun n => if String.eqb n name then x else e n.

Lemma each_name (P : string -> Prop) : Forall P names -> forall name, In name names -> P name.
Proof. intros HF name Hin. rewrite Forall_forall in HF. apply HF. by apply list_elem_of_In. Qed.
Ltac all_names := match goal with |- forall i, In i names -> @?P i => apply (each_name P); repeat apply Forall_cons_2; try apply Forall_nil_2 end.

Lemma on_host_eq {B} random v e name (m : M Host.t B) i x r :
  In name names -> m (host_of v e name) = (host_of (upd (HostPort name) i v) (upde name x e) name, r) ->
  on_host name m (net_of random v e) = (net_of random (upd (HostPort name) i v) (upde name x e), r).
Proof.
  intros Hin E. unfold on_host.
  assert (Eh : host name (net_of random v e) = (net_of random v e, Ok (host_of v e name))) by (clear E; revert name Hin; all_names; reflexivity).
  rewrite (bind_step _ _ _ _ _ Eh). unfold zoom. rewrite E. f_equal. clear E Eh. revert name Hin. all_names; reflexivity.
Qed.

Lemma draw_eq random v e : draw (net_of random v e) = (net_of (fun k => random (S k)) v e, Ok (random 0%nat)).
Proof. reflexivity. Qed.

(** The datagram a host makes. *)
Definition dgram_of (src dst ttl random : Z) : datagram :=
  IPv4Datagram.mk (IPv4Header.default <| IPv4Header.src := src |> <| IPv4Header.dst := dst |>
    <| IPv4Header.len := 20 + zlen (Host.payload_text random) |> <| IPv4Header.ttl := ttl |>)
    (BufferList.of_string (Host.payload_text random)).

Lemma pretty_length k x t : (x < 10 ^ N.of_nat k)%N -> (String.length (pretty_N_go x t) <= k + String.length t)%nat.
Proof.
  revert x t. induction k as [|k IH]; intros x t Hx.
  - replace x with 0%N by (cbn in Hx; lia). rewrite pretty_N_go_0. done.
  - destruct (decide (x = 0%N)) as [->|Hn]; [rewrite pretty_N_go_0; lia|]. rewrite pretty_N_go_step by lia.
    specialize (IH (x `div` 10)%N (String (pretty_N_char (x `mod` 10)) t)). rewrite Nat2N.inj_succ, N.pow_succ_r' in Hx. 
    pose proof (N.Div0.div_lt_upper_bound x 10 (10 ^ N.of_nat k) ltac:(lia)) as Hx'. specialize (IH Hx'). cbn [String.length] in IH. lia.
Qed.

Lemma payload_text_length random : zlen (Host.payload_text random) <= 100.
Proof.
  assert (Hp : (String.length (pretty (Z.to_N (u32 random))) <= 10)%nat).
  { unfold pretty, pretty_N. case_decide; [cbn; lia|]. etransitivity; [apply (pretty_length 10)|cbn; lia].
    pose proof (u32_range random). change (10 ^ N.of_nat 10)%N with 10000000000%N. lia. }
  assert (Hl : forall t, length (String.list_byte_of_string t) = String.length t).
  { intros t. unfold String.list_byte_of_string. rewrite length_map. induction t as [|c t IH]; [done|]. cbn. by rewrite IH. }
  assert (Happ : forall a b, String.length (a +:+ b) = (String.length a + String.length b)%nat).
  { intros a b. induction a as [|c a IH]; [done|]. change (S (String.length (a +:+ b)) = S (String.length a + String.length b)). by rewrite IH. }
  unfold Host.payload_text. rewrite Hl, !Happ. cbn [String.length]. lia.
Qed.

Lemma dgram_of_wf src dst ttl random :
  is_u32 src -> is_u32 dst -> is_u8 ttl -> IPv4Datagram.wf (dgram_of src dst ttl random).
Proof.
  intros Hs Hd Ht. pose proof (payload_text_length random) as Hp. pose proof (Zle_0_nat (length (Host.payload_text random))) as H0. split.
  - unfold dgram_of. generalize dependent (zlen (Host.payload_text random)). intros n Hp H0.
    split; done || (cbn -[Z.add]; lia).
  - unfold dgram_of. cbn [IPv4Datagram._header IPv4Datagram._payload]. by rewrite BufferList.concatenate_of_string.
Qed.
Abbreviation base i := (AsyncNetworkInterface.base i).
Abbreviation inbox i := (AsyncNetworkInterface._datagrams_out i).

Lemma host_port name : In name names -> In (HostPort name) ports.
Proof. intros Hin. apply in_app_iff. right. by apply in_map. Qed.

Lemma host_ips_range name : In name names -> is_u32 (host_ips name).1 /\ is_u32 (host_ips name).2.
Proof. revert name. all_names; vm_compute; intuition congruence. Qed.

Lemma upde_eq name x e : upde name x e name = x.
Proof. unfold upde. by rewrite String.eqb_refl. Qed.

Lemma upde_id name e : upde name (e name) e name = e name.
Proof. unfold upde. by destruct (String.eqb name name). Qed.

Lemma send_to_eq random v e name destination dst ttl b :
  In name names -> Address.ipv4_numeric destination = Ok dst ->
  let d := dgram_of (host_ips name).1 dst ttl (random 0%nat) in
  NetworkInterface.send_datagram (base (v (HostPort name))) d (adr (host_ips name).2) = (b, Ok tt) ->
  send_to name destination ttl (net_of random v e) =
    (net_of (fun k => random (S k)) (upd (HostPort name) (rebased (v (HostPort name)) b) v) (upde name (e name) e), Ok d).
Proof.
  intros Hin Hdst d Hs. unfold send_to. rewrite (bind_step _ _ _ _ _ (draw_eq random v e)). apply on_host_eq; [done|].
  destruct (host_ips_range name Hin) as [Hip _]. unfold Host.send_to, bind at 1, get.
  cbn [Host._my_address host_of]. rewrite (proj2 (address_adr _ Hip)), Hdst. unfold lift, bind at 1, bind at 1.
  cbv zeta. rewrite BufferList.size_concatenate, BufferList.concatenate_of_string.
  match goal with |- context [IPv4Datagram.mk ?h ?p] => replace (IPv4Datagram.mk h p) with d end.
  2: { unfold d, dgram_of. pose proof (payload_text_length (random 0%nat)).
       change (IPv4Header.hlen _ * 4) with 20. rewrite u64_id, u16_id by lia. done. }
  assert (E : host_of (upd (HostPort name) (rebased (v (HostPort name)) b) v) (upde name (e name) e) name =
    (host_of v e name) <| Host._interface := rebased (v (HostPort name)) b |>).
  { unfold host_of. by rewrite upd_eq, upde_id. }
  rewrite E. unfold bind, zoom. cbn [Host._interface host_of Host._next_hop]. by rewrite Hs.
Qed.

(** ** Checking *)

Lemma check_empty h : inbox (Host._interface h) = [] -> Host._expecting_to_receive h = [] -> Host.check h = (h, Ok tt).
Proof. intros Ei Ee. unfold Host.check, bind, get. rewrite Ei. cbn [Host.check_received]. unfold ret. by rewrite Ee. Qed.

Lemma check_one h x d :
  inbox (Host._interface h) = [d] -> Host._expecting_to_receive h = [x] -> Host.same_bytes x d = Ok true ->
  Host.check h = (Host.mk (Host._name h) (Host._my_address h) (emptied (Host._interface h)) (Host._next_hop h) [], Ok tt).
Proof.
  intros Ei Ee Eb. unfold Host.check, bind at 1, get at 1. rewrite Ei. cbn [Host.check_received].
  unfold Host.remove_expectation, Host.expecting, bind, get, lift, modify, ret. rewrite Ee. cbn [Host.expecting_in Host.erase_first].
  rewrite Eb. cbn [result_bind negb]. rewrite Ee. cbn [Host.erase_first]. rewrite Eb. reflexivity.
Qed.

(** What [check] needs of a host: nothing received and nothing expected, or the
    datagram that is expected. *)
Definition satisfied (v : port -> iface) (e : string -> list datagram) (name : string) : Prop :=
  (inbox (v (HostPort name)) = [] /\ e name = []) \/
  exists x d, inbox (v (HostPort name)) = [d] /\ e name = [x] /\ Host.same_bytes x d = Ok true.

Lemma emptied_id i : inbox i = [] -> emptied i = i.
Proof. destruct i. cbn. by intros ->. Qed.

Lemma check_eq random v e name :
  In name names -> satisfied v e name ->
  on_host name Host.check (net_of random v e) =
    (net_of random (upd (HostPort name) (emptied (v (HostPort name))) v) (upde name [] e), Ok tt).
Proof.
  intros Hin Hs. apply on_host_eq; [done|]. unfold host_of at 2. rewrite upd_eq.
  assert (Eu : upde name [] e name = []) by (unfold upde; by rewrite String.eqb_refl). rewrite Eu.
  destruct Hs as [[Ei Ee]|(x & d & Ei & Ee & Eb)].
  - rewrite check_empty by done. unfold host_of. by rewrite emptied_id, Ee.
  - by rewrite (check_one _ x d).
Qed.

Lemma check_hosts_eq random ns v e :
  NoDup ns -> incl ns names -> (forall name, In name ns -> satisfied v e name) ->
  exists v' e', check_hosts ns (net_of random v e) = (net_of random v' e', Ok tt) /\
    (forall p, base (v' p) = base (v p)) /\
    (forall name, In name ns -> inbox (v' (HostPort name)) = [] /\ e' name = []) /\
    (forall p, (forall name, In name ns -> p <> HostPort name) -> v' p = v p) /\
    (forall name, ~ In name ns -> e' name = e name).
Proof.
  revert v e. induction ns as [|n ns IH]; intros v e Hnd Hi Hs.
  - exists v, e. split_and!; done.
  - apply NoDup_cons in Hnd as [Hn Hnd]. rewrite list_elem_of_In in Hn. cbn [check_hosts].
    rewrite (bind_step _ _ _ _ _ (check_eq random v e n (Hi n ltac:(by left)) (Hs n ltac:(by left)))).
    set (v1 := upd _ _ v). set (e1 := upde n [] e).
    assert (He1 : forall name, name <> n -> e1 name = e name) by (intros name Hne; unfold e1, upde; by destruct (String.eqb_spec name n)).
    destruct (IH v1 e1) as (v' & e' & E & Hb & Hin & Hout & Hoe); [done|intros x Hx; apply Hi; by right| |].
    { intros name Hname. assert (Hne : name <> n) by (intros ->; done). unfold satisfied, v1. rewrite upd_ne, He1 by congruence. apply Hs. by right. }
    assert (Hv1 : v1 (HostPort n) = emptied (v (HostPort n))) by (unfold v1; by rewrite upd_eq).
    exists v', e'. split; [done|]. split_and!.
    + intros p. rewrite Hb. unfold v1, upd. by destruct (port_eqb_spec p (HostPort n)) as [->|].
    + intros name [->|Hname]; [|by apply Hin]. rewrite Hout, Hv1 by (intros ? ? [=]; by subst). rewrite Hoe by done.
      split; [done|]. unfold e1, upde. by rewrite String.eqb_refl.
    + intros p Hp. rewrite Hout by (intros name Hname; apply Hp; by right). unfold v1. rewrite upd_ne; [done|]. apply Hp. by left.
    + intros name Hname. rewrite Hoe, He1; [done| |]; intros H'; apply Hname; [by left|by right].
Qed.

Lemma names_nodup : NoDup names.
Proof. unfold names. repeat (apply NoDup_cons; split; [rewrite list_elem_of_In; cbn; intuition discriminate|]). apply NoDup_nil_2. Qed.

(** ** The tests *)

Section Tests.
Context (eth : port -> EthernetAddress) (eth_len : forall p, eth_ok (eth p)).
Context (eth_distinct : forall l p q, In l links -> (2 < length l)%nat -> In p l -> In q l -> p <> q -> eth p <> eth q).

(** The hosts whose next hop is the router, with its interface. *)
Definition users : list (string * Z) := [("applesauce", eth0_id); ("cherrypie", eth2_id); ("dm42", uun3_id); ("dm43", uun3_id)]%string.

Lemma user_link name i :
  In (name, i) users -> exists l, In l links /\ In (HostPort name) l /\ In (RouterPort i) l /\ In i ids /\ In name names /\
    (host_ips name).2 = ip_of (RouterPort i).
Proof.
  intros Hu. cbn [users In] in Hu. destruct Hu as [[= <- <-]|[[= <- <-]|[[= <- <-]|[[= <- <-]|[]]]]].
  1: exists [RouterPort eth0_id; HostPort "applesauce"].
  2: exists [RouterPort eth2_id; HostPort "cherrypie"].
  3-4: exists [RouterPort uun3_id; HostPort "dm42"; HostPort "dm43"].
  all: split_and!; [cbn; tauto..|reflexivity].
Qed.

(** The router sends what goes to [dst] to the host [receiver]. *)
Definition leads_to (dst : Z) (receiver : string) : Prop :=
  exists l j a, In l links /\ In (RouterPort j) l /\ In (HostPort receiver) l /\
    Routing.decision rules dst = (j, a) /\ Address.ipv4_numeric a = Ok (ip_of (HostPort receiver)).

Lemma in_ports_names name : In (HostPort name) ports -> In name names.
Proof. unfold ports. rewrite in_app_iff, !in_map_iff. intros [(x & [=] & _)|(x & [= ->] & Hx)]. done. Qed.

Lemma in_ports_ids id : In (RouterPort id) ports -> In id ids.
Proof. unfold ports. rewrite in_app_iff, !in_map_iff. intros [(x & [= ->] & Hx)|(x & [=] & _)]. done. Qed.

Lemma simulate_eq random v1 e v' q :
  repeat 256 (net_of random v1 e) = (net_of random v' e, Ok tt) -> resting eth v' q -> (forall id, In id ids -> q (RouterPort id) = []) ->
  (forall name, In name names -> satisfied v' e name) ->
  exists v'', simulate (net_of random v1 e) = (net_of random v'' none, Ok tt) /\ resting eth v'' nothing.
Proof.
  intros E Hv Hq Hs. destruct (check_hosts_eq random names v' e names_nodup ltac:(by intros x) Hs) as (v'' & e'' & Ec & Hb & Hin & Hout & _).
  exists v''. split.
  - unfold simulate. rewrite (bind_step _ _ _ _ _ E). unfold bind, get. change (map fst (_hosts (net_of random v' e))) with names. rewrite Ec.
    f_equal. apply net_of_ext; [done|]. intros name Hname. by apply Hin.
  - intros p Hp. destruct (Hv p Hp) as [Hc Hi]. split; [unfold calm; by rewrite Hb|].
    destruct p as [id|name]; [|by apply Hin, in_ports_names]. rewrite Hout by done. rewrite Hi. by apply Hq, in_ports_ids.
Qed.

Lemma resting_satisfied v q e name : resting eth v q -> In name names -> q (HostPort name) = [] -> e name = [] -> satisfied v e name.
Proof. intros Hv Hin Hq He. left. split; [|done]. destruct (Hv _ (host_port name Hin)) as [_ ->]. done. Qed.

Lemma decrement_eq d : 1 <= IPv4Header.ttl (IPv4Datagram._header d) < 2 ^ 8 -> decrement_ttl d = Routing.hop_less d.
Proof. intros Ht. unfold decrement_ttl, Routing.hop_less. by rewrite u8_id by lia. Qed.

(** A datagram to a reachable destination is delivered to the right host and to nobody else. *)
Lemma delivery random v sender i destination dst receiver :
  resting eth v nothing -> In (sender, i) users -> is_u32 dst -> Address.ipv4_numeric destination = Ok dst -> leads_to dst receiver ->
  exists v', test_delivery sender destination receiver (net_of random v none) = (net_of (fun k => random (S k)) v' none, Ok tt) /\
    resting eth v' nothing.
Proof using Law eth_len eth_distinct.
  intros Hv Hu Hdst Hdest (l2 & j & a & Hl2 & Hj & Hr & Hdec & Ha).
  destruct (user_link sender i Hu) as (l1 & Hl1 & Hs & Hi & Hid & Hname & Hhop).
  pose proof (in_ports_names receiver (link_ports l2 _ Hl2 Hr)) as Hrn.
  destruct (host_ips_range sender Hname) as [Hip1 Hip2].
  set (d := dgram_of (host_ips sender).1 dst 64 (random 0%nat)).
  assert (Hd : IPv4Datagram.wf d) by (apply dgram_of_wf; done || lia).
  set (e := upde receiver [decrement_ttl d] none).
  destruct (across (fun k => random (S k)) e eth eth_len eth_distinct l1 (HostPort sender) i d (adr (host_ips sender).2)
    Hl1 Hs Hi ltac:(done) Hid Hd ltac:(rewrite <- Hhop; by apply address_adr) v Hv l2 j receiver a Hl2 Hj Hr
    (in_ports_ids j (link_ports l2 _ Hl2 Hj)) ltac:(cbn; lia) Hdec Ha) as (b & Eb & v' & d' & E & R & Al & Hd').
  unfold test_delivery. rewrite (bind_step _ _ _ _ _ (send_to_eq random v none sender destination dst 64 b Hname Hdest Eb)). fold d.
  set (v1 := upd (HostPort sender) _ v) in *.
  assert (Ee : on_host receiver (modify (Host.expect (decrement_ttl d))) (net_of (fun k => random (S k)) v1 (upde sender (none sender) none)) =
    (net_of (fun k => random (S k)) v1 e, Ok tt)).
  { erewrite (on_host_eq _ _ _ receiver _ (v1 (HostPort receiver)) [decrement_ttl d]); [|done|].
    - f_equal. apply net_of_ext.
      + intros p _. unfold upd. by destruct (port_eqb_spec p (HostPort receiver)) as [->|].
      + intros n _. unfold e, upde, none. by destruct (String.eqb n receiver), (String.eqb n sender).
    - assert (E0 : upde sender (none sender) none receiver = []) by (unfold upde, none; by destruct (String.eqb receiver sender)).
      unfold modify, Host.expect, host_of. rewrite upd_eq, upde_eq. cbn. by rewrite E0. }
  rewrite (bind_step _ _ _ _ _ Ee). apply (simulate_eq _ _ _ v' (only (HostPort receiver) d')); [done|done|done|].
  intros name Hn. destruct (String.eqb_spec name receiver) as [->|Hne].
  - right. exists (decrement_ttl d), d'. split_and!.
    + destruct (R _ (host_port receiver Hn)) as [_ ->]. unfold only. by destruct (port_eqb_spec (HostPort receiver) (HostPort receiver)).
    + unfold e, upde. by rewrite String.eqb_refl.
    + rewrite decrement_eq by (cbn; lia). unfold Host.same_bytes.
      destruct (alike_bytes _ _ Al (Routing.hop_less_wf d Hd ltac:(cbn; lia)) Hd') as (x & y & -> & -> & Exy). cbn. by rewrite bool_decide_true.
  - eapply resting_satisfied; [exact R|done| |].
    + unfold only. by destruct (port_eqb_spec (HostPort name) (HostPort receiver)) as [[=]|].
    + unfold e, upde. by destruct (String.eqb_spec name receiver).
Qed.

(** A datagram that may not be forwarded reaches nobody. *)
Lemma expiration random v sender i destination dst ttl :
  resting eth v nothing -> In (sender, i) users -> is_u32 dst -> Address.ipv4_numeric destination = Ok dst -> 0 <= ttl < 2 ->
  exists v', test_expiration sender destination ttl (net_of random v none) = (net_of (fun k => random (S k)) v' none, Ok tt) /\
    resting eth v' nothing.
Proof using Law eth_len eth_distinct.
  intros Hv Hu Hdst Hdest Ht. destruct (user_link sender i Hu) as (l1 & Hl1 & Hs & Hi & Hid & Hname & Hhop).
  destruct (host_ips_range sender Hname) as [Hip1 Hip2].
  set (d := dgram_of (host_ips sender).1 dst ttl (random 0%nat)).
  assert (Hd : IPv4Datagram.wf d) by (apply dgram_of_wf; done || lia).
  destruct (expires (fun k => random (S k)) none eth eth_len eth_distinct l1 (HostPort sender) i d (adr (host_ips sender).2)
    Hl1 Hs Hi ltac:(done) Hid Hd ltac:(rewrite <- Hhop; by apply address_adr) v Hv ltac:(cbn; lia)) as (b & Eb & v' & E & R).
  unfold test_expiration. rewrite (bind_step _ _ _ _ _ (send_to_eq random v none sender destination dst ttl b Hname Hdest Eb)).
  rewrite (net_of_ext _ _ (upd (HostPort sender) (rebased (v (HostPort sender)) b) v) _ none); [|done|].
  - apply (simulate_eq _ _ _ v' nothing); try done. intros name Hn. by eapply resting_satisfied.
  - intros n _. unfold upde, none. by destruct (String.eqb n sender).
Qed.
End Tests.

(** ** The construction *)

(** The [k]-th draw of six bytes, and the addresses made from the draws. *)
Definition drawn (random : nat -> Z) (k : nat) : list byte := map (fun i => byte_of_Z (u8 (random i))) (seq (6 * k) 6).
Definition router_eth (random : nat -> Z) (k : nat) : EthernetAddress := [x02; x00; x00] ++ drop 3 (drawn random k).
Definition host_eth (random : nat -> Z) (k : nat) : EthernetAddress :=
  match drawn random k with b :: rest => byte_of_Z (Z.land (Z.lor (byte_to_Z b) 0x02) 0xfe) :: rest | [] => [] end.

Definition host_index (name : string) : nat :=
  if String.eqb name "applesauce" then 7 else if String.eqb name "default_router" then 8
  else if String.eqb name "cherrypie" then 9 else if String.eqb name "hs_router" then 10
  else if String.eqb name "dm42" then 11 else 12%nat.

Definition eth_of (random : nat -> Z) (p : port) : EthernetAddress :=
  match p with RouterPort id => router_eth random (Z.to_nat id) | HostPort name => host_eth random (host_index name) end.

Definition fresh (random : nat -> Z) (p : port) : iface :=
  AsyncNetworkInterface.make (NetworkInterface.make (eth_of random p) (adr (ip_of p))).

Lemma eth_of_len random p : eth_ok (eth_of random p).
Proof. by destruct p. Qed.

Lemma fresh_resting random : resting (eth_of random) (fresh random) nothing.
Proof.
  intros p Hp. split; [|done]. destruct (address_adr (ip_of p) (ip_of_range p Hp)) as [_ Ha].
  split; [split|done|done|done].
  - exact Ha.
  - by apply ip_of_range.
  - done.
  - apply eth_of_len.
  - done.
Qed.

(** Six numbers are drawn for every interface. *)
Definition after_six (r : nat -> Z) : nat -> Z := fun k => r (S (S (S (S (S (S k)))))).

Lemma add_interface_eq {C} (k : unit -> M Network.t C) ip r b l h :
  is_u32 ip -> bind (add_interface ip) k (Network.mk r (Router.mk b l) h) =
    k tt (Network.mk (after_six r) (Router.mk b (l ++ [AsyncNetworkInterface.make (NetworkInterface.make (router_eth r 0) (adr ip))])) h).
Proof. intros Hip. unfold add_interface. rewrite (proj1 (address_adr ip Hip)). reflexivity. Qed.

Lemma insert_host_eq {C} (k : unit -> M Network.t C) name ip hop r b h :
  is_u32 ip -> is_u32 hop -> bind (insert_host name ip hop) k (Network.mk r b h) =
    k tt (Network.mk (after_six r) b (h ++ [(name, Host.make name (host_eth r 0) (adr ip) (adr hop))])).
Proof. intros Hip Hhop. unfold insert_host. rewrite (proj1 (address_adr ip Hip)), (proj1 (address_adr hop Hhop)). reflexivity. Qed.

Lemma construct_eq random : construct (Network.empty random) = (net_of (fun k => random (78 + k)%nat) (fresh random) none, Ok tt).
Proof.
  unfold construct, Network.empty, Router.make.
  do 7 (rewrite add_interface_eq by (vm_compute; split; congruence)). cbn [app].
  do 6 (rewrite insert_host_eq by (vm_compute; split; congruence)). cbn [app].
  rewrite (proj1 (address_adr (quad 128 30 0 1) ltac:(vm_compute; split; congruence))). reflexivity.
Qed.

(** ** The program *)

(** The three interfaces on the link with bystanders have different addresses. *)
Definition uun3_distinct (random : nat -> Z) : Prop :=
  NoDup (map (eth_of random) [RouterPort uun3_id; HostPort "dm42"; HostPort "dm43"]).

Lemma uun3_eth_distinct random l p q :
  uun3_distinct random -> In l links -> (2 < length l)%nat -> In p l -> In q l -> p <> q -> eth_of random p <> eth_of random q.
Proof.
  intros Hd Hl Hlen Hp Hq Hne E. cbn [links In] in Hl. destruct Hl as [<-|[<-|[<-|[<-|[<-|[]]]]]]; cbn in Hlen; try lia.
  unfold uun3_distinct in Hd. cbn [map] in Hd. apply NoDup_cons in Hd as [H1 Hd]. apply NoDup_cons in Hd as [H2 _].
  rewrite !list_elem_of_In in *. cbn [In] in H1, H2, Hp, Hq.
  destruct Hp as [<-|[<-|[<-|[]]]], Hq as [<-|[<-|[<-|[]]]]; try done; (apply H1 || apply H2); intuition congruence.
Qed.

(** A test of the simulator: who sends what where, and who gets it. *)
Inductive test :=
  | Delivery (sender : string) (destination : Address.t) (receiver : string)
  | Expiration (sender : string) (destination : Address.t) (ttl : Z).

Definition run_test (x : test) : M Network.t unit :=
  match x with
  | Delivery sender destination receiver => test_delivery sender destination receiver
  | Expiration sender destination ttl => test_expiration sender destination ttl
  end.

Fixpoint run_tests (xs : list test) : M Network.t unit :=
  match xs with [] => ret tt | x :: xs => run_test x;; run_tests xs end.

Definition test_ok (x : test) : Prop :=
  match x with
  | Delivery sender destination receiver =>
      exists i dst, In (sender, i) users /\ is_u32 dst /\ Address.ipv4_numeric destination = Ok dst /\ leads_to dst receiver
  | Expiration sender destination ttl =>
      exists i dst, In (sender, i) users /\ is_u32 dst /\ Address.ipv4_numeric destination = Ok dst /\ 0 <= ttl < 2
  end.

(** A network at rest. *)
Definition at_rest (random : nat -> Z) (n : Network.t) : Prop :=
  exists random' v, n = net_of random' v none /\ resting (eth_of random) v nothing.

Lemma run_test_ok random x n :
  uun3_distinct random -> at_rest random n -> test_ok x -> exists n', run_test x n = (n', Ok tt) /\ at_rest random n'.
Proof.
  intros Hd (random' & v & -> & Hv) Hx.
  pose proof (fun l p q => uun3_eth_distinct random l p q Hd) as Hdist.
  destruct x; destruct Hx as (i & dst & Hu & Hdst & Ha & Hx).
  - destruct (delivery _ (eth_of_len random) Hdist random' v sender i destination dst receiver Hv Hu Hdst Ha Hx) as (v' & E & Hv').
    eexists. split; [exact E|]. by eexists _, v'.
  - destruct (expiration _ (eth_of_len random) Hdist random' v sender i destination dst ttl Hv Hu Hdst Ha Hx) as (v' & E & Hv').
    eexists. split; [exact E|]. by eexists _, v'.
Qed.

Lemma run_tests_ok random xs n :
  uun3_distinct random -> at_rest random n -> Forall test_ok xs -> exists n', run_tests xs n = (n', Ok tt) /\ at_rest random n'.
Proof.
  intros Hd Hn Hxs. revert n Hn. induction Hxs as [|x xs Hx _ IH]; intros n Hn; [by exists n|]. cbn [run_tests].
  destruct (run_test_ok random x n Hd Hn Hx) as (n1 & E & H1). rewrite (bind_step _ _ _ _ _ E). by apply IH.
Qed.

Lemma construct_rests random : exists n, construct (Network.empty random) = (n, Ok tt) /\ at_rest random n.
Proof. eexists. split; [apply construct_eq|]. eexists _, _. split; [done|apply fresh_resting]. Qed.

(** C7. End to end through the router: in the simulated network, with any random
    numbers that give the three interfaces on the shared link different Ethernet
    addresses, every sequence of tests succeeds. So every datagram of a host
    whose next hop is the router, to any destination that the longest matching
    route leads to a host, arrives there exactly once, unchanged but for its
    decremented time to live and checksum, and at no other host; and a datagram
    with time to live 0 or 1 arrives nowhere. This holds whatever the interfaces
    have learned from the tests before. *)
Theorem simulation_delivers random xs :
  uun3_distinct random -> Forall test_ok xs ->
  exists n, (construct;; run_tests xs) (Network.empty random) = (n, Ok tt) /\ at_rest random n.
Proof.
  intros Hd Hxs. destruct (construct_rests random) as (n & E & Hn). rewrite (bind_step _ _ _ _ _ E). by apply run_tests_ok.
Qed.

(** Where the destinations of the program lead. *)
Lemma leads_direct dst l j receiver :
  is_u32 dst -> In l links -> In (RouterPort j) l -> In (HostPort receiver) l ->
  Routing.decision rules dst = (j, Address.of_ip dst) -> ip_of (HostPort receiver) = dst -> leads_to dst receiver.
Proof.
  intros Hdst Hl Hj Hr Hdec Hip. exists l, j, (Address.of_ip dst). split_and!; try done. rewrite Hip. by apply Address.ipv4_numeric_of_ip.
Qed.

Lemma leads_via dst l j receiver :
  In l links -> In (RouterPort j) l -> In (HostPort receiver) l ->
  Routing.decision rules dst = (j, adr (ip_of (HostPort receiver))) -> leads_to dst receiver.
Proof.
  intros Hl Hj Hr Hdec. exists l, j, (adr (ip_of (HostPort receiver))). split_and!; try done.
  apply address_adr, ip_of_range. by apply (link_ports l).
Qed.

Lemma address_of_eq {C} random n name (k : Address.t -> M Network.t C) :
  at_rest random n -> In name names -> bind (address_of name) k n = k (adr (host_ips name).1) n.
Proof. intros (random' & v & -> & _). revert name. all_names; reflexivity. Qed.

Lemma lift_address {C} ip (k : Address.t -> M Network.t C) n : is_u32 ip -> bind (lift (address ip)) k n = k (adr ip) n.
Proof. intros Hip. by rewrite (proj1 (address_adr ip Hip)). Qed.

(** The program's tests. *)
Definition program_tests : list test :=
  [Delivery "applesauce" (adr (quad 192 168 0 2)) "cherrypie"; Delivery "cherrypie" (adr (quad 10 0 0 2)) "applesauce";
   Delivery "applesauce" (adr (quad 1 2 3 4)) "default_router"; Delivery "applesauce" (adr (quad 143 195 131 17)) "hs_router";
   Delivery "cherrypie" (adr (quad 143 195 193 52)) "hs_router"; Delivery "cherrypie" (adr (quad 143 195 223 255)) "hs_router";
   Delivery "cherrypie" (adr (quad 143 195 224 0)) "default_router"; Delivery "dm42" (adr (quad 198 178 229 43)) "dm43";
   Expiration "applesauce" (adr (quad 1 2 3 4)) 1; Expiration "applesauce" (adr (quad 1 2 3 4)) 0].

Ltac direct l j := apply (leads_direct _ l j); [by vm_compute|cbn; tauto|cbn; tauto|cbn; tauto|vm_compute; reflexivity|reflexivity].
Ltac via l j := apply (leads_via _ l j); [cbn; tauto|cbn; tauto|cbn; tauto|vm_compute; reflexivity].
(** The next test of the program, from a network at rest. *)
Ltac next_test :=
  lazymatch goal with
  | Hok : Forall test_ok (?x :: _), Hd : uun3_distinct ?random, Hn : at_rest ?random ?n |- _ =>
      let E := fresh "E" in let n' := fresh "n" in let Hn' := fresh "Hn" in let Hx := fresh "Hx" in
      apply Forall_cons_1 in Hok as [Hx Hok]; destruct (run_test_ok random x n Hd Hn Hx) as (n' & E & Hn');
      rewrite (bind_step (run_test x) _ n n' tt E); clear E Hn n Hx; rename n' into n; rename Hn' into Hn
  end.

Lemma program_tests_ok : Forall test_ok program_tests.
Proof.
  assert (Hu : forall ip, is_u32 ip -> Address.ipv4_numeric (adr ip) = Ok ip) by (intros; by apply address_adr).
  assert (Hok : forall name i ip receiver, In (name, i) users -> is_u32 ip -> leads_to ip receiver -> test_ok (Delivery name (adr ip) receiver)).
  { intros name i ip receiver Hin Hip Hl. exists i, ip. split_and!; [done|apply Hip|apply Hip|by apply Hu|done]. }
  assert (He : forall name i ip ttl, In (name, i) users -> is_u32 ip -> 0 <= ttl < 2 -> test_ok (Expiration name (adr ip) ttl)).
  { intros name i ip ttl Hin Hip Ht. exists i, ip. split_and!; [done|apply Hip|apply Hip|by apply Hu|apply Ht|apply Ht]. }
  unfold program_tests. repeat apply Forall_cons_2; try apply Forall_nil_2.
  - apply (Hok _ eth0_id); [cbn; tauto|by vm_compute|]. by direct [RouterPort eth2_id; HostPort "cherrypie"] eth2_id.
  - apply (Hok _ eth2_id); [cbn; tauto|by vm_compute|]. by direct [RouterPort eth0_id; HostPort "applesauce"] eth0_id.
  - apply (Hok _ eth0_id); [cbn; tauto|by vm_compute|]. by via [RouterPort default_id; HostPort "default_router"] default_id.
  - apply (Hok _ eth0_id); [cbn; tauto|by vm_compute|]. by via [RouterPort hs4_id; HostPort "hs_router"] hs4_id.
  - apply (Hok _ eth2_id); [cbn; tauto|by vm_compute|]. by via [RouterPort hs4_id; HostPort "hs_router"] hs4_id.
  - apply (Hok _ eth2_id); [cbn; tauto|by vm_compute|]. by via [RouterPort hs4_id; HostPort "hs_router"] hs4_id.
  - apply (Hok _ eth2_id); [cbn; tauto|by vm_compute|]. by via [RouterPort default_id; HostPort "default_router"] default_id.
  - apply (Hok _ uun3_id); [cbn; tauto|by vm_compute|]. by direct [RouterPort uun3_id; HostPort "dm42"; HostPort "dm43"] uun3_id.
  - apply (He _ eth0_id); [cbn; tauto|by vm_compute|lia].
  - apply (He _ eth0_id); [cbn; tauto|by vm_compute|lia].
Qed.

(** C6. The program succeeds: with any random numbers that give the three
    interfaces on the shared link different Ethernet addresses,
    [network_simulator] returns normally. All its datagrams are routed as its
    tests expect. *)
Theorem network_simulator_succeeds random :
  uun3_distinct random -> exists n, network_simulator (Network.empty random) = (n, Ok tt) /\ at_rest random n.
Proof.
  intros Hd. destruct (construct_rests random) as (n & E & Hn). unfold network_simulator. rewrite (bind_step _ _ _ _ _ E). clear E.
  pose proof program_tests_ok as Hok. unfold program_tests in Hok.
  do 2 (rewrite (address_of_eq random) by (done || (cbn; tauto)); next_test).
  rewrite lift_address by (by vm_compute). next_test.
  do 4 (rewrite lift_address by (by vm_compute); next_test).
  rewrite (address_of_eq random) by (done || (cbn; tauto)). do 2 next_test.
  apply Forall_cons_1 in Hok as [Hx _]. exact (run_test_ok random _ n Hd Hn Hx).
Qed.


End Addresses.

(** *** Witnesses *)

Import SockaddrIn.

Definition sample_random (k : nat) : Z := Z.of_nat k * 7919.

Lemma sample_random_distinct : uun3_distinct sample_random.
Proof. unfold uun3_distinct. apply (bool_decide_unpack _). vm_compute. done. Qed.

Lemma simulation_delivers_witness :
  exists n, (construct;; run_tests program_tests) (Network.empty sample_random) = (n, Ok tt).
Proof.
  destruct (simulation_delivers sample_random program_tests sample_random_distinct program_tests_ok) as (n & E & _).
  by exists n.
Defined.

Lemma network_simulator_succeeds_witness : (network_simulator (Network.empty sample_random)).2 = Ok tt.
Proof. destruct (network_simulator_succeeds sample_random sample_random_distinct) as (n & -> & _). done. Defined.

End Simulation.
