(* ===== verification/file_descriptor.v ===== *)
(** File descriptors and sockets ([libsponge/util/{file_descriptor,socket}.{hh,cc}]
    and [SystemCall] of [libsponge/util/util.cc]).

    A [FileDescriptor.t] is the shared object behind all duplicates of a file
    descriptor: the members of [FDWrapper], and what the kernel will answer to
    the system calls on it, which is unconstrained. Two history variables record
    the bytes that [read] has returned and that [write] has handed over. *)

From S2P Require Import prelude effects buffer address.

(** ** System calls *)

(** What the kernel answers: a result, or [-1] with an error number. *)
Inductive answer (A : Type) :=
  | Done (a : A)
  | Failed (errno : Z).
Arguments Done {A} _.
Arguments Failed {A} _.

Definition EINTR : Z := 4.

(** [return_value] is an [int]. *)
Definition SystemCall (return_value errno errno_mask : Z) : result Z :=
  if (0 <=? return_value) || (errno =? errno_mask) then Ok return_value else Throw (unix_error errno).

(** A call with the default mask; the result is converted to [int]. *)
Definition system_call (a : answer Z) : result Z :=
  match a with
  | Done n => SystemCall (i32 n) 0 0
  | Failed errno => SystemCall (-1) errno 0
  end.

(** ** The shared object *)

Module FDWrapper.
Record t := mk {
  _fd : Z;
  _eof : bool;
  _closed : bool;
  _read_count : Z;
  _write_count : Z
}.
#[global] Instance set_eof : Setter _eof := fun f w => mk (_fd w) (f (_eof w)) (_closed w) (_read_count w) (_write_count w).
#[global] Instance set_closed : Setter _closed := fun f w => mk (_fd w) (_eof w) (f (_closed w)) (_read_count w) (_write_count w).
#[global] Instance set_read_count : Setter _read_count := fun f w =>
  mk (_fd w) (_eof w) (_closed w) (f (_read_count w)) (_write_count w).
#[global] Instance set_write_count : Setter _write_count := fun f w =>
  mk (_fd w) (_eof w) (_closed w) (_read_count w) (f (_write_count w)).

(** The constructor. *)
Definition make (fd : Z) : result t := if fd <? 0 then Throw runtime_error else Ok (mk fd false false 0 0).

Definition register_read (w : t) : t := w <| _read_count := u32 (_read_count w + 1) |>.
Definition register_write (w : t) : t := w <| _write_count := u32 (_write_count w + 1) |>.

(** [close] and the destructor, given the answer to [close(2)]. *)
Definition close (a : answer Z) : M t unit :=
  r <- lift (system_call a);;
  modify (fun w => w <| _closed := true |>);;
  modify (fun w => w <| _eof := true |>).

(** The destructor swallows an exception. *)
Definition destroy (a : answer Z) (w : t) : t := if _closed w then w else (close a w).1.
Definition BUFFER_SIZE : Z := 1024 * 1024.
Definition SIZE_MAX : Z := 2 ^ 64 - 1.

(** [read], given the answer to [read(2)]. *)
Definition read (limit : Z) (a : answer (list byte)) : M t (list byte) :=
  let size_to_read := Z.min BUFFER_SIZE limit in
  let '(answered, data) := match a with Done l => (Done (zlen l), l) | Failed e => (Failed e, []) end in
  bytes_read <- lift (system_call answered);;
  (when (0 <? limit) && (bytes_read =? 0) do modify (fun w => w <| _eof := true |>));;
  if size_to_read <? bytes_read then throw runtime_error else
  if bytes_read <? 0 then throw length_error else
  modify register_read;;
  ret (take (Z.to_nat bytes_read) data).

Lemma i32_le x : 0 <= x -> i32 x <= x.
Proof. intros. dlia. Qed.

Lemma wrapper_read_spec limit a w :
  0 <= limit ->
  let '(w', r) := read limit a w in
  _write_count w' = _write_count w /\ _closed w' = _closed w /\
  match r with
  | Ok str => zlen str <= limit /\ _eof w' = _eof w || ((0 <? limit) && (zlen str =? 0)) /\
      _read_count w' = u32 (_read_count w + 1)
  | Throw _ => True
  end.
Proof.
  intros Hl. unfold read. destruct (match a with Done l => _ | Failed e => _ end) as [ans data] eqn:Ea.
  rewrite bind_lift. destruct (system_call ans) as [n|e] eqn:En; [|done].
  assert (Hn : 0 <= n -> n <= zlen data).
  { destruct a as [l|e]; injection Ea as <- <-; unfold system_call, SystemCall in En.
    - destruct (_ || _); [|done]. injection En as <-. intros _. apply i32_le. lia.
    - destruct (_ || _); [|done]. injection En as <-. cbn. lia. }
  set (w1 := if (0 <? limit) && (n =? 0) then w <| _eof := true |> else w).
  assert (E1 : (when (0 <? limit) && (n =? 0) do modify (fun w => w <| _eof := true |>)) w = (w1, Ok tt))
    by (unfold w1; by destruct (_ && _)).
  rewrite (bind_step _ _ _ _ _ E1).
  assert (Hw1 : _write_count w1 = _write_count w /\ _closed w1 = _closed w /\ _read_count w1 = _read_count w /\
    _eof w1 = _eof w || ((0 <? limit) && (n =? 0))).
  { unfold w1. destruct (_ && _); cbn; by rewrite ?orb_true_r, ?orb_false_r. }
  destruct Hw1 as (H1 & H2 & H3 & H4). clearbody w1.
  destruct (Z.ltb_spec (Z.min BUFFER_SIZE limit) n); [done|]. destruct (Z.ltb_spec n 0); [done|].
  cbn -[u32]. rewrite H1, H2, H3, H4, length_take. replace (Z.of_nat (_ `min` _)) with n by lia. split_and!; done || lia.
Qed.

(** A datagram that fits the buffer is read whole. *)
Lemma read_done l w :
  0 < zlen l <= BUFFER_SIZE -> read SIZE_MAX (Done l) w = (register_read w, Ok l).
Proof.
  intros Hl. unfold read, system_call, SystemCall, BUFFER_SIZE, SIZE_MAX in *.
  assert (E : i32 (zlen l) = zlen l) by dlia. rewrite bind_lift, E.
  destruct (Z.leb_spec 0 (zlen l)); [|lia]. cbn [orb]. destruct (Z.eqb_spec (zlen l) 0); [lia|]. rewrite andb_false_r.
  rewrite bind_ret. destruct (Z.ltb_spec (Z.min (1024 * 1024) (2 ^ 64 - 1)) (zlen l)); [lia|].
  destruct (Z.ltb_spec (zlen l) 0); [lia|]. unfold bind, modify, ret. by rewrite Nat2Z.id, firstn_all.
Qed.

(** [Socket::shutdown], given the answer to [shutdown(2)]. *)
Definition SHUT_RD : Z := 0.
Definition SHUT_WR : Z := 1.
Definition SHUT_RDWR : Z := 2.
Definition shutdown (how : Z) (a : answer Z) : M t unit :=
  r <- lift (system_call a);;
  if how =? SHUT_RD then modify register_read
  else if how =? SHUT_WR then modify register_write
  else if how =? SHUT_RDWR then modify register_read;; modify register_write
  else throw runtime_error.
End FDWrapper.

Module FileDescriptor.

(** [k_reads], [k_writes], [k_calls]: the answers to the next [read(2)], [writev(2)]
    and other calls. *)
Record t := mk {
  _internal_fd : FDWrapper.t;
  k_reads : nat -> answer (list byte);
  k_writes : nat -> answer Z;
  k_calls : nat -> answer Z;
  h_read : list byte;
  h_written : list byte
}.
#[global] Instance set_internal_fd : Setter _internal_fd := fun f d =>
  mk (f (_internal_fd d)) (k_reads d) (k_writes d) (k_calls d) (h_read d) (h_written d).
#[global] Instance set_k_reads : Setter k_reads := fun f d =>
  mk (_internal_fd d) (f (k_reads d)) (k_writes d) (k_calls d) (h_read d) (h_written d).
#[global] Instance set_k_writes : Setter k_writes := fun f d =>
  mk (_internal_fd d) (k_reads d) (f (k_writes d)) (k_calls d) (h_read d) (h_written d).
#[global] Instance set_k_calls : Setter k_calls := fun f d =>
  mk (_internal_fd d) (k_reads d) (k_writes d) (f (k_calls d)) (h_read d) (h_written d).
#[global] Instance set_h_read : Setter h_read := fun f d =>
  mk (_internal_fd d) (k_reads d) (k_writes d) (k_calls d) (f (h_read d)) (h_written d).
#[global] Instance set_h_written : Setter h_written := fun f d =>
  mk (_internal_fd d) (k_reads d) (k_writes d) (k_calls d) (h_read d) (f (h_written d)).

Definition fd_num (d : t) : Z := FDWrapper._fd (_internal_fd d).
Definition eof (d : t) : bool := FDWrapper._eof (_internal_fd d).
Definition closed (d : t) : bool := FDWrapper._closed (_internal_fd d).
Definition read_count (d : t) : Z := FDWrapper._read_count (_internal_fd d).
Definition write_count (d : t) : Z := FDWrapper._write_count (_internal_fd d).

Definition register_write : M t unit := modify (fun d => d <| _internal_fd := FDWrapper.register_write (_internal_fd d) |>).

(** The kernel's answers. *)
Definition sys_read : M t (answer (list byte)) := fun d =>
  (d <| k_reads := fun n => k_reads d (S n) |>, Ok (k_reads d 0%nat)).
Definition sys_writev : M t (answer Z) := fun d =>
  (d <| k_writes := fun n => k_writes d (S n) |>, Ok (k_writes d 0%nat)).
Definition sys_call : M t (answer Z) := fun d =>
  (d <| k_calls := fun n => k_calls d (S n) |>, Ok (k_calls d 0%nat)).

(** [read]; what it returns is recorded. *)
Definition read (limit : Z) : M t (list byte) :=
  a <- sys_read;;
  str <- zoom _internal_fd (fun w d => d <| _internal_fd := w |>) (FDWrapper.read limit a);;
  modify (fun d => d <| h_read := h_read d ++ str |>);;
  ret str.

(** The loop of [write]. A turn ends the loop, throws or shortens the buffer, so
    that one more turn than there are bytes is enough ([write_fuel]). *)
Fixpoint write_loop (fuel : nat) (write_all : bool) (buffer : BufferViewList.t) (total_bytes_written : Z) : M t Z :=
  match fuel with
  | O => ret total_bytes_written
  | S fuel =>
      a <- sys_writev;;
      bytes_written <- lift (system_call a);;
      if (bytes_written =? 0) && negb (BufferViewList.size buffer =? 0) then throw runtime_error else
      if BufferViewList.size buffer <? bytes_written then throw runtime_error else
      register_write;;
      buffer' <- lift (BufferViewList.remove_prefix buffer (u64 bytes_written));;
      modify (fun d => d <| h_written := h_written d ++ take (Z.to_nat bytes_written) (concat buffer) |>);;
      let total := u64 (total_bytes_written + bytes_written) in
      if write_all && negb (BufferViewList.size buffer' =? 0) then write_loop fuel write_all buffer' total
      else ret total
  end.
Definition write (buffer : BufferViewList.t) (write_all : bool) : M t Z :=
  write_loop (S (length (concat buffer))) write_all buffer 0.

Definition close : M t unit :=
  a <- sys_call;;
  zoom _internal_fd (fun w d => d <| _internal_fd := w |>) (FDWrapper.close a).

Definition shutdown (how : Z) : M t unit :=
  a <- sys_call;;
  zoom _internal_fd (fun w d => d <| _internal_fd := w |>) (FDWrapper.shutdown how a).

(** The flags [fcntl] is given, from those it returned. *)
Definition O_NONBLOCK : Z := 2048.
Definition blocking_flags (blocking_state : bool) (flags : Z) : Z :=
  if blocking_state then Z.lxor flags (Z.land flags O_NONBLOCK) else Z.lor flags O_NONBLOCK.
Definition set_blocking (blocking_state : bool) : M t Z :=
  a <- sys_call;;
  flags <- lift (system_call a);;
  let flags := blocking_flags blocking_state flags in
  a <- sys_call;;
  r <- lift (system_call a);;
  ret flags.

(** *** What [read] and [write] do *)

Lemma system_call_range a n : system_call a = Ok n -> - 2 ^ 31 <= n < 2 ^ 31.
Proof.
  unfold system_call, SystemCall. destruct a as [m|e]; (destruct (_ || _); [|done]); intros [= <-]; [dlia|lia].
Qed.

(** [read] records what it returns, which is at most what was asked for. *)
Lemma read_spec limit d d' r :
  0 <= limit -> read limit d = (d', r) ->
  h_written d' = h_written d /\ write_count d' = write_count d /\ closed d' = closed d /\
  match r with
  | Ok str => h_read d' = h_read d ++ str /\ zlen str <= limit /\
      eof d' = eof d || ((0 <? limit) && (zlen str =? 0)) /\ read_count d' = u32 (read_count d + 1)
  | Throw _ => h_read d' = h_read d
  end.
Proof.
  intros Hl. unfold read, sys_read, zoom. cbn [bind]. unfold bind at 1.
  pose proof (FDWrapper.wrapper_read_spec limit (k_reads d 0%nat) (_internal_fd d) Hl) as H.
  destruct d as [w kr kw kc hr hw]. cbn in *. unfold bind. cbn.
  destruct (FDWrapper.read limit (kr 0%nat) w) as [w' [str|e]]; intros [= <- <-]; cbn in *; intuition.
Qed.

Lemma remove_prefix_concat l n :
  0 <= n <= zlen (concat l) ->
  exists l', BufferViewList.remove_prefix l n = Ok l' /\ concat l' = drop (Z.to_nat n) (concat l).
Proof.
  revert n. induction l as [|v l IH]; intros n Hn; cbn [BufferViewList.remove_prefix concat] in *.
  - cbn in Hn. destruct (Z.ltb_spec 0 n); [lia|]. exists []. by rewrite drop_nil.
  - rewrite length_app in Hn. destruct (Z.ltb_spec 0 n).
    2: { exists (v :: l). replace n with 0 by lia. done. }
    destruct (Z.ltb_spec n (zlen v)).
    + eexists. split; [done|]. cbn [concat]. rewrite drop_app_le by lia. done.
    + destruct (IH (n - zlen v)) as (l' & E & Ec); [lia|]. exists l'. split; [done|]. rewrite Ec, drop_app_ge by lia.
      f_equal. lia.
Qed.

Lemma size_concat l : BufferViewList.size l = u64 (zlen (concat l)).
Proof.
  unfold BufferViewList.size. enough (H : forall a, foldl (fun ret buf => u64 (ret + zlen buf)) (u64 a) l = u64 (a + zlen (concat l)))
    by exact (H 0).
  induction l as [|b l IH]; intros a; cbn [foldl concat]; [by rewrite Z.add_0_r|].
  rewrite u64_add_l, IH, length_app. f_equal. lia.
Qed.

Lemma remove_prefix_short l n : zlen (concat l) < n -> BufferViewList.remove_prefix l n = Throw out_of_range.
Proof.
  revert n. induction l as [|v l IH]; intros n Hn; cbn [BufferViewList.remove_prefix concat] in *.
  - destruct (Z.ltb_spec 0 n); [done|cbn in Hn; lia].
  - rewrite length_app in Hn. destruct (Z.ltb_spec 0 n); [|lia]. destruct (Z.ltb_spec n (zlen v)); [lia|]. apply IH. lia.
Qed.

(** [d'] is [d] after the first [n] bytes of [data] were handed over. *)
Record handed (data : list byte) (n : nat) (d d' : t) : Prop := {
  w_bound : (n <= length data)%nat;
  w_written : h_written d' = h_written d ++ take n data;
  w_read : h_read d' = h_read d;
  w_eof : eof d' = eof d;
  w_closed : closed d' = closed d;
  w_reads : read_count d' = read_count d
}.

Lemma handed_none data d d' :
  h_written d' = h_written d -> h_read d' = h_read d -> eof d' = eof d -> closed d' = closed d -> read_count d' = read_count d ->
  handed data 0 d d'.
Proof. intros. split; try done; [lia|]. by rewrite take_0, app_nil_r. Qed.

(** The loop hands over the bytes in order. When it returns, it returns their number:
    all of them with [write_all], and otherwise some of them unless there are none. *)
Lemma write_loop_spec fuel write_all buffer total d d' r :
  zlen (concat buffer) < 2 ^ 63 -> (length (concat buffer) < fuel)%nat ->
  write_loop fuel write_all buffer total d = (d', r) ->
  exists n, handed (concat buffer) n d d' /\
    match r with
    | Ok m => m = u64 (total + Z.of_nat n) /\ (write_all = true -> n = length (concat buffer)) /\
              (0 < length (concat buffer) -> 0 < n)%nat
    | Throw _ => write_all = false -> n = 0%nat
    end.
Proof.
  revert buffer total d. induction fuel as [|fuel IH]; intros buffer total d Hlen Hf; [lia|].
  cbn [write_loop]. unfold sys_writev, bind at 1. cbn iota beta.
  set (d1 := setter _ d). assert (H1 : handed (concat buffer) 0 d d1) by (by apply handed_none).
  assert (Hx : forall e d2, handed (concat buffer) 0 d d2 -> (d2, Throw e) = (d', r) ->
    exists n, handed (concat buffer) n d d' /\ match r with
    | Ok m => m = u64 (total + Z.of_nat n) /\ (write_all = true -> n = length (concat buffer)) /\
              (0 < length (concat buffer) -> 0 < n)%nat
    | Throw _ => write_all = false -> n = 0%nat end).
  { intros e d2 H2 [= <- <-]. by exists 0%nat. }
  clearbody d1. rewrite bind_lift. destruct (system_call (k_writes d 0%nat)) as [n|e] eqn:En; [|by apply Hx]. apply system_call_range in En.
  rewrite size_concat, u64_id by lia.
  destruct ((n =? 0) && negb (zlen (concat buffer) =? 0)) eqn:E0; [by apply Hx|].
  destruct (Z.ltb_spec (zlen (concat buffer)) n) as [|Hn]; [by apply Hx|].
  unfold register_write, bind at 1, modify. set (d2 := setter _ d1).
  assert (H2 : handed (concat buffer) 0 d d2) by (destruct H1; by apply handed_none; cbn; rewrite ?w_written0, ?take_0, ?app_nil_r).
  clearbody d2. clear H1 d1. rewrite bind_lift.
  destruct (Z.ltb_spec n 0).
  { rewrite remove_prefix_short; [by apply Hx|]. dlia. }
  rewrite u64_id by lia. destruct (remove_prefix_concat buffer n) as (l' & -> & El); [lia|].
  unfold bind at 1. set (d3 := setter _ d2).
  assert (H3 : handed (concat buffer) (Z.to_nat n) d d3).
  { destruct H2. split; try done; [lia|]. cbn. rewrite w_written0, take_0, app_nil_r. done. }
  clearbody d3. clear Hx H2 d2. rewrite size_concat, El, length_drop.
  rewrite (u64_id (Z.of_nat _)) by lia.
  destruct (write_all && negb (Z.of_nat (length (concat buffer) - Z.to_nat n) =? 0)) eqn:Ew.
  - apply andb_true_iff in Ew as [-> Ew]. apply negb_true_iff, Z.eqb_neq in Ew.
    assert (n <> 0). { intros ->. destruct (Z.eqb_spec (zlen (concat buffer)) 0); [lia|]. done. }
    intros Hrun. apply IH in Hrun as (m & Hm & Hr); [|rewrite El, length_drop; lia|rewrite El, length_drop; lia].
    rewrite El in *. exists (Z.to_nat n + m)%nat. destruct H3, Hm. rewrite length_drop in *. split.
    + split; try congruence; [lia|]. rewrite w_written1, w_written0, <- app_assoc. f_equal. by rewrite take_take_drop.
    + destruct r as [m'|]; [|done]. destruct Hr as (-> & Hr1 & _). rewrite u64_add_l. split; [f_equal; lia|].
      split; [|lia]. intros _. specialize (Hr1 eq_refl). lia.
  - intros [= <- <-]. exists (Z.to_nat n). split; [done|]. split; [f_equal; lia|]. split.
    + intros ->. cbn in Ew. apply negb_false_iff, Z.eqb_eq in Ew. destruct H3. lia.
    + intros Hp. destruct (Z.eqb_spec n 0) as [->|]; [|lia]. destruct (Z.eqb_spec (zlen (concat buffer)) 0); [lia|done].
Qed.

(** A turn that does not end the loop shortens the buffer. *)
Lemma write_loop_more fuel write_all buffer total d :
  zlen (concat buffer) < 2 ^ 63 -> (length (concat buffer) < fuel)%nat ->
  write_loop (S fuel) write_all buffer total d = write_loop fuel write_all buffer total d.
Proof.
  revert buffer total d. induction fuel as [|fuel IH]; intros buffer total d Hlen Hf; [lia|].
  remember (S fuel) as fuel' eqn:E. rewrite E at 2. cbn [write_loop].
  apply bind_ext. intros a d1 _. apply bind_ext. intros n d2 [= <- En]. apply system_call_range in En.
  rewrite size_concat, u64_id by lia.
  destruct ((n =? 0) && negb (zlen (concat buffer) =? 0)) eqn:E0; [done|].
  destruct (Z.ltb_spec (zlen (concat buffer)) n) as [|Hn]; [done|].
  apply bind_ext. intros _ d3 _. apply bind_ext. intros l' d4 [= <- El].
  destruct (Z.ltb_spec n 0); [by rewrite remove_prefix_short in El by dlia|].
  rewrite u64_id in El by lia. destruct (remove_prefix_concat buffer n) as (l2 & E2 & Ec); [lia|].
  assert (l' = l2) as -> by congruence. clear El E2. rename Ec into El. rename l2 into l'.
  apply bind_ext. intros _ d5 _. destruct (write_all && negb (BufferViewList.size l' =? 0)) eqn:Ew; [|done].
  apply andb_true_iff in Ew as [-> Ew]. apply negb_true_iff, Z.eqb_neq in Ew.
  rewrite size_concat, El, length_drop, u64_id in Ew by lia.
  assert (n <> 0). { intros ->. destruct (Z.eqb_spec (zlen (concat buffer)) 0); [lia|]. done. }
  subst fuel'. apply IH; rewrite El, length_drop; lia.
Qed.

Lemma write_fuel fuel write_all buffer d :
  zlen (concat buffer) < 2 ^ 63 -> (length (concat buffer) < fuel)%nat ->
  write_loop fuel write_all buffer 0 d = write buffer write_all d.
Proof.
  intros Hl Hf. unfold write. induction fuel as [|fuel IH]; [lia|].
  destruct (decide (fuel = length (concat buffer))) as [->|]; [done|]. rewrite write_loop_more by lia. apply IH. lia.
Qed.

Lemma write_handed buffer write_all d d' r :
  zlen (concat buffer) < 2 ^ 63 -> write buffer write_all d = (d', r) ->
  exists n, handed (concat buffer) n d d' /\
    match r with
    | Ok m => m = Z.of_nat n /\ (write_all = true -> n = length (concat buffer)) /\ (0 < length (concat buffer) -> 0 < n)%nat
    | Throw _ => write_all = false -> n = 0%nat
    end.
Proof.
  intros Hl Hr. apply write_loop_spec in Hr as (n & Hn & Hr); [|done|lia]. exists n. split; [done|].
  destruct r; [|done]. destruct Hr as (-> & Hr). split; [|done]. destruct Hn. apply u64_id. lia.
Qed.

(** C33. [FileDescriptor::write], whatever the kernel answers: the loop ends (more
    turns than the model allows change nothing), and the bytes it has handed over
    are a prefix of the buffer, in order and without repetition. When it returns,
    it returns their number, which is the length of the buffer with [write_all]
    and otherwise at least one unless the buffer is empty; when it throws
    without [write_all], nothing was handed over. *)
Theorem write_hands_over buffer write_all d d' r :
  zlen (concat buffer) < 2 ^ 63 -> write buffer write_all d = (d', r) ->
  (forall fuel, (length (concat buffer) < fuel)%nat -> write_loop fuel write_all buffer 0 d = (d', r)) /\
  exists n, (n <= length (concat buffer))%nat /\ h_written d' = h_written d ++ take n (concat buffer) /\
    match r with
    | Ok m => m = Z.of_nat n /\ (write_all = true -> n = length (concat buffer)) /\
              (0 < length (concat buffer) -> 0 < n)%nat
    | Throw _ => write_all = false -> n = 0%nat
    end.
Proof.
  intros Hl Hr. split; [intros fuel Hf; by rewrite write_fuel|].
  destruct (write_handed _ _ _ _ _ Hl Hr) as (n & [] & H). by exists n.
Qed.

(** The other calls read and write nothing. *)
Definition same_history (d d' : t) : Prop := h_read d' = h_read d /\ h_written d' = h_written d.

Lemma shutdown_history how d : same_history d (shutdown how d).1.
Proof.
  unfold shutdown, sys_call, bind, zoom, FDWrapper.shutdown, lift, modify, throw. cbn iota beta.
  destruct (system_call _); [|done]. by repeat case_if.
Qed.

Lemma close_history d : same_history d (close d).1.
Proof.
  unfold close, sys_call, bind, zoom, FDWrapper.close, lift, modify. cbn iota beta. by destruct (system_call _).
Qed.

Lemma set_blocking_history b d : same_history d (set_blocking b d).1.
Proof.
  unfold set_blocking, sys_call, bind, lift, ret. cbn iota beta. destruct (system_call _); [|done]. by destruct (system_call _).
Qed.

(** A descriptor whose kernel takes two bytes at a time. *)
Definition two_at_a_time : t :=
  mk (FDWrapper.mk 3 false false 0 0) (fun _ => Failed 11) (fun n => Done (if (n =? 2)%nat then 1 else 2)) (fun _ => Done 0) [] [].

Lemma write_hands_over_witness :
  let '(d', r) := write [[x61; x62; x63]; [x64; x65]] true two_at_a_time in
  r = Ok 5 /\ exists n, h_written d' = [] ++ take n [x61; x62; x63; x64; x65].
Proof.
  destruct (write [[x61; x62; x63]; [x64; x65]] true two_at_a_time) as [d' r] eqn:E.
  destruct (write_hands_over [[x61; x62; x63]; [x64; x65]] true two_at_a_time d' r ltac:(by vm_compute) E) as (_ & n & _ & H & _).
  split; [|exists n; exact H]. vm_compute in E. by injection E.
Defined.
End FileDescriptor.

(** ** UDP sockets *)

Module UDPSocket.
Definition MTU : Z := 65536.

(** [recv], given the answer to [recvfrom(2)] with [MSG_TRUNC]: the sender and the whole
    datagram, of which the first [mtu] bytes are copied. *)
Definition recv (mtu : Z) (a : answer (Address.t * list byte)) : M FDWrapper.t (Address.t * list byte) :=
  match a with
  | Failed e => r <- lift (system_call (Failed e));; modify FDWrapper.register_read;; throw length_error
  | Done (source_address, payload) =>
      recv_len <- lift (system_call (Done (zlen payload)));;
      if mtu <? recv_len then throw runtime_error else
      modify FDWrapper.register_read;;
      ret (source_address, take (Z.to_nat recv_len) payload)
  end.

(** A datagram that fits is received whole. *)
Lemma recv_done a l w : zlen l <= MTU -> recv MTU (Done (a, l)) w = (FDWrapper.register_read w, Ok (a, l)).
Proof.
  intros Hl. unfold recv, system_call, SystemCall, MTU in *. assert (E : i32 (zlen l) = zlen l) by dlia.
  rewrite bind_lift, E, orb_true_r. destruct (Z.ltb_spec 65536 (zlen l)); [lia|]. unfold bind, modify, ret. by rewrite Nat2Z.id, firstn_all.
Qed.

(** [sendmsg_helper] and [sendto], given the answer to [sendmsg(2)]. *)
Definition sendmsg_helper (payload : BufferViewList.t) (a : answer Z) : result unit :=
  let* bytes_sent := system_call a in
  if negb (u64 bytes_sent =? BufferViewList.size payload) then Throw runtime_error else Ok tt.
Definition sendto (payload : BufferViewList.t) (a : answer Z) : M FDWrapper.t unit :=
  lift (sendmsg_helper payload a);; modify FDWrapper.register_write.
End UDPSocket.

(** ** Devices that take datagrams

    A TUN or TAP device, or a datagram socket: a system call that writes takes what
    it accepts as one datagram. [k_writes] is what the kernel will answer to the
    next writes, given how many bytes they offer; [sent] are the datagrams that
    it has taken. *)

Module PacketDevice.
Record t := mk {
  descriptor : FDWrapper.t;
  k_writes : nat -> Z -> answer Z;
  sent : list (list byte)
}.
#[global] Instance set_descriptor : Setter descriptor := fun f d => mk (f (descriptor d)) (k_writes d) (sent d).

Definition in_descriptor {A} (m : M FDWrapper.t A) : M t A := zoom descriptor (fun w d => d <| descriptor := w |>) m.

(** What the kernel takes of [data] with the answer [a]. *)
Definition taken (a : answer Z) (data : list byte) : list (list byte) :=
  match a with Done n => [take (Z.to_nat n) data] | Failed _ => [] end.
Definition sys_write (data : list byte) : M t (answer Z) := fun d =>
  let a := k_writes d 0%nat (zlen data) in
  (mk (descriptor d) (fun n => k_writes d (S n)) (sent d ++ taken a data), Ok a).

(** [FileDescriptor::write] with [write_all]; its result is not used. The loop is that of
    [FileDescriptor.write_loop], and the same number of turns is enough
    ([packet_write_fuel]). *)
Fixpoint write_loop (fuel : nat) (buffer : BufferViewList.t) : M t unit :=
  match fuel with
  | O => ret tt
  | S fuel =>
      a <- sys_write (concat buffer);;
      bytes_written <- lift (system_call a);;
      if (bytes_written =? 0) && negb (BufferViewList.size buffer =? 0) then throw runtime_error else
      if BufferViewList.size buffer <? bytes_written then throw runtime_error else
      in_descriptor (modify FDWrapper.register_write);;
      buffer' <- lift (BufferViewList.remove_prefix buffer (u64 bytes_written));;
      if negb (BufferViewList.size buffer' =? 0) then write_loop fuel buffer' else ret tt
  end.
Definition write (buffer : BufferViewList.t) : M t unit := write_loop (S (length (concat buffer))) buffer.

(** [UDPSocket::sendto] with one destination. *)
Definition sendto (payload : BufferViewList.t) : M t unit :=
  a <- sys_write (concat payload);;
  in_descriptor (UDPSocket.sendto payload a).

(** A turn that does not end the loop shortens the buffer. *)
Lemma packet_write_more fuel buffer d :
  zlen (concat buffer) < 2 ^ 63 -> (length (concat buffer) < fuel)%nat ->
  write_loop (S fuel) buffer d = write_loop fuel buffer d.
Proof.
  revert buffer d. induction fuel as [|fuel IH]; intros buffer d Hlen Hf; [lia|].
  remember (S fuel) as fuel' eqn:E. rewrite E at 2. cbn [write_loop].
  apply bind_ext. intros a d1 _. apply bind_ext. intros n d2 [= <- En]. apply FileDescriptor.system_call_range in En.
  rewrite FileDescriptor.size_concat, u64_id by lia.
  destruct ((n =? 0) && negb (zlen (concat buffer) =? 0)) eqn:E0; [done|].
  destruct (Z.ltb_spec (zlen (concat buffer)) n) as [|Hn]; [done|].
  apply bind_ext. intros _ d3 _. apply bind_ext. intros l' d4 [= <- El].
  destruct (Z.ltb_spec n 0); [by rewrite FileDescriptor.remove_prefix_short in El by dlia|].
  rewrite u64_id in El by lia. destruct (FileDescriptor.remove_prefix_concat buffer n) as (l2 & E2 & Ec); [lia|].
  assert (l' = l2) as -> by congruence.
  destruct (negb (BufferViewList.size l2 =? 0)) eqn:Ew; [|done]. apply negb_true_iff, Z.eqb_neq in Ew.
  rewrite FileDescriptor.size_concat, Ec, length_drop, u64_id in Ew by lia.
  assert (n <> 0). { intros ->. destruct (Z.eqb_spec (zlen (concat buffer)) 0); [lia|]. done. }
  subst fuel'. apply IH; rewrite Ec, length_drop; lia.
Qed.

Lemma packet_write_fuel fuel buffer d :
  zlen (concat buffer) < 2 ^ 63 -> (length (concat buffer) < fuel)%nat -> write_loop fuel buffer d = write buffer d.
Proof.
  intros Hl Hf. unfold write. induction fuel as [|fuel IH]; [lia|].
  destruct (decide (fuel = length (concat buffer))) as [->|]; [done|]. rewrite packet_write_more by lia. apply IH. lia.
Qed.

(** A datagram is taken whole or not at all, as [send(2)] says of datagram sockets; it
    is shorter than 2 GiB, and a failure has an error number other than 0. *)
Definition whole (k : nat -> Z -> answer Z) : Prop :=
  forall n size, match k n size with Done m => m = size /\ size < 2 ^ 31 | Failed e => e <> 0 end.

(** No datagram of a sensible size is refused. *)
Definition accepting (k : nat -> Z -> answer Z) : Prop := forall n size, size < 2 ^ 31 -> k n size = Done size.

Lemma system_call_taken n : 0 <= n < 2 ^ 31 -> system_call (Done n) = Ok n.
Proof.
  intros Hn. unfold system_call, SystemCall. assert (E : i32 n = n) by dlia. rewrite E.
  by destruct (Z.leb_spec 0 n); [|lia].
Qed.

(** A write that is taken whole. *)
Lemma write_taken buffer d :
  zlen (concat buffer) < 2 ^ 31 -> k_writes d 0%nat (zlen (concat buffer)) = Done (zlen (concat buffer)) ->
  let d' := mk (FDWrapper.register_write (descriptor d)) (fun n => k_writes d (S n)) (sent d ++ [concat buffer]) in
  write buffer d = (d', Ok tt) /\ sendto buffer d = (d', Ok tt).
Proof.
  intros Hl Hk d'.
  assert (E : sys_write (concat buffer) d = (mk (descriptor d) (fun n => k_writes d (S n)) (sent d ++ [concat buffer]), Ok (Done (zlen (concat buffer))))).
  { unfold sys_write, taken. rewrite Hk. by rewrite Nat2Z.id, firstn_all. }
  split.
  - unfold write. cbn [write_loop]. rewrite (bind_step _ _ _ _ _ E), bind_lift, system_call_taken by lia.
    rewrite FileDescriptor.size_concat, (u64_id (zlen _)) by lia.
    replace ((zlen (concat buffer) =? 0) && negb (zlen (concat buffer) =? 0)) with false by (by destruct (_ =? 0)).
    destruct (Z.ltb_spec (zlen (concat buffer)) (zlen (concat buffer))); [lia|].
    unfold bind at 1, in_descriptor at 1, zoom at 1, modify. rewrite bind_lift.
    destruct (FileDescriptor.remove_prefix_concat buffer (zlen (concat buffer))) as (l' & -> & El); [lia|].
    rewrite FileDescriptor.size_concat, El, Nat2Z.id, drop_all. done.
  - unfold sendto. rewrite (bind_step _ _ _ _ _ E). unfold in_descriptor, zoom, UDPSocket.sendto, UDPSocket.sendmsg_helper, bind, lift, modify.
    rewrite system_call_taken by lia. cbn [result_bind]. rewrite FileDescriptor.size_concat, Z.eqb_refl. done.
Qed.

(** On a device that takes datagrams whole, a write sends the buffer as one datagram
    or throws, having sent nothing. *)
Definition wrote (data : list byte) (d : t) (x : t * result unit) : Prop :=
  whole (k_writes x.1) /\
  match x.2 with Ok _ => sent x.1 = sent d ++ [data] | Throw _ => sent x.1 = sent d end.

Lemma writes_wrote buffer d :
  whole (k_writes d) -> wrote (concat buffer) d (write buffer d) /\ wrote (concat buffer) d (sendto buffer d).
Proof.
  intros Hw. pose proof (Hw 0%nat (zlen (concat buffer))) as H0.
  assert (Hs : whole (fun n => k_writes d (S n))) by (intros n size; apply Hw).
  destruct (k_writes d 0%nat (zlen (concat buffer))) as [m|e] eqn:Ek.
  - destruct H0 as [-> Hl]. destruct (write_taken buffer d Hl Ek) as [-> ->]. by split; split.
  - assert (E : system_call (Failed e) = Throw (unix_error e)).
    { unfold system_call, SystemCall. by destruct (Z.eqb_spec e 0). }
    assert (E1 : sys_write (concat buffer) d = (mk (descriptor d) (fun n => k_writes d (S n)) (sent d), Ok (Failed e))).
    { unfold sys_write, taken. by rewrite Ek, app_nil_r. }
    split.
    + unfold write. cbn [write_loop]. rewrite (bind_step _ _ _ _ _ E1), bind_lift, E. by split.
    + unfold sendto. rewrite (bind_step _ _ _ _ _ E1).
      unfold in_descriptor, zoom, UDPSocket.sendto, UDPSocket.sendmsg_helper, bind, lift. rewrite E. by split.
Qed.

Lemma accepting_next k : accepting k -> accepting (fun n => k (S n)).
Proof. intros Hk n size Hs. by apply Hk. Qed.
End PacketDevice.
