(* ===== verification/socket.v ===== *)
(** The sockets of the kernel and the TUN and TAP devices
    ([libsponge/util/{socket,tun}.{hh,cc}]).

    The kernel is the list of system calls it got, with their arguments, and its
    replies to the coming ones, which are unconstrained: a value and what is
    stored through the pointers of the call, or an error number. A socket is the
    object that the copies of its descriptor share; here it has one owner, so that
    the descriptor is closed when the owner is destroyed. *)

From S2P Require Import prelude effects std_strings buffer address file_descriptor.

(** ** The kernel *)

Module Kernel.

(** The argument of the TUN driver. *)
Record ifreq := mk_ifreq { ifr_name : list byte; ifr_flags : Z }.

Inductive call :=
  | socket (domain type protocol : Z)
  | socketpair (domain type protocol : Z)
  | getsockopt (fd level option : Z)
  | setsockopt (fd level option value : Z)
  | getsockname (fd : Z)
  | getpeername (fd : Z)
  | bind (fd : Z) (address : Address.t)
  | connect (fd : Z) (address : Address.t)
  | listen (fd backlog : Z)
  | accept (fd : Z)
  | shutdown (fd how : Z)
  | sendmsg (fd : Z) (destination : option Address.t) (data : list byte)
  | open (path : string) (flags : Z)
  | ioctl (fd request : Z) (argument : ifreq)
  | close (fd : Z).

(** The value returned, the number and the address stored and their size, and the
    two descriptors stored by [socketpair]. *)
Record reply := mk_reply {
  value : Z;
  out_int : Z;
  out_family : Z;
  out_data : list byte;
  out_len : Z;
  out_fds : Z * Z
}.

Record t := mk {
  k_replies : nat -> answer reply;
  h_calls : list call
}.

(** A system call. *)
Definition sys (c : call) : M t (answer reply) := fun k =>
  (mk (fun n => k_replies k (S n)) (h_calls k ++ [c]), Ok (k_replies k 0%nat)).

Definition returned (a : answer reply) : answer Z := match a with Done r => Done (value r) | Failed e => Failed e end.

(** [SystemCall("...", ...)]. What a failed call stores is not looked at. *)
Definition no_reply : reply := mk_reply 0 0 0 [] 0 (-1, -1).
Definition system_call (c : call) : M t (Z * reply) :=
  a <- sys c;;
  n <- lift (file_descriptor.system_call (returned a));;
  ret (n, match a with Done r => r | Failed _ => no_reply end).
End Kernel.

(** The destructor of what is already constructed runs when the rest of a
    constructor throws. *)
Definition or_cleanup {S A} (m : M S A) (cleanup : M S unit) : M S A := fun s =>
  match m s with (s, Ok a) => (s, Ok a) | (s, Throw e) => ((cleanup s).1, Throw e) end.

(** The destructor of a descriptor's only owner. *)
Definition destroy_fd (w : FDWrapper.t) : M Kernel.t unit :=
  if FDWrapper._closed w then ret tt else a <- Kernel.sys (Kernel.close (FDWrapper._fd w));; ret tt.

(** ** Sockets *)

Module Socket.
Import Kernel.

Definition AF_UNIX : Z := 1.
Definition AF_INET : Z := 2.
Definition SOCK_STREAM : Z := 1.
Definition SOCK_DGRAM : Z := 2.
Definition SOL_SOCKET : Z := 1.
Definition SO_REUSEADDR : Z := 2.
Definition SO_TYPE : Z := 3.
Definition SO_DOMAIN : Z := 39.
Definition SIZEOF_INT : Z := 4.
Definition SIZEOF_RAW : Z := 128.

(** [Socket(domain, type)] *)
Definition make (domain type : Z) : M Kernel.t FDWrapper.t :=
  r <- system_call (socket domain type 0);;
  lift (FDWrapper.make r.1).

(** One of the checks of the constructor from a descriptor. *)
Definition verify (fd option expected : Z) : M Kernel.t unit :=
  r <- system_call (getsockopt fd SOL_SOCKET option);;
  let '(_, r) := r in
  if negb (out_len r =? SIZEOF_INT) || negb (out_int r =? expected) then throw runtime_error else ret tt.

(** [Socket(fd, domain, type)] *)
Definition of_fd (w : FDWrapper.t) (domain type : Z) : M Kernel.t FDWrapper.t :=
  or_cleanup
    (verify (FDWrapper._fd w) SO_DOMAIN domain;; verify (FDWrapper._fd w) SO_TYPE type;; ret w)
    (destroy_fd w).

Definition get_address (function : Z -> call) (w : FDWrapper.t) : M Kernel.t Address.t :=
  r <- system_call (function (FDWrapper._fd w));;
  let '(_, r) := r in
  lift (Address.of_sockaddr (out_family r) (out_data r) (out_len r)).
Definition local_address : FDWrapper.t -> M Kernel.t Address.t := get_address getsockname.
Definition peer_address : FDWrapper.t -> M Kernel.t Address.t := get_address getpeername.

Definition bind (w : FDWrapper.t) (address : Address.t) : M Kernel.t unit :=
  r <- system_call (Kernel.bind (FDWrapper._fd w) address);; ret tt.
Definition connect (w : FDWrapper.t) (address : Address.t) : M Kernel.t unit :=
  r <- system_call (Kernel.connect (FDWrapper._fd w) address);; ret tt.
Definition setsockopt (w : FDWrapper.t) (level option value : Z) : M Kernel.t unit :=
  r <- system_call (Kernel.setsockopt (FDWrapper._fd w) level option value);; ret tt.
Definition set_reuseaddr (w : FDWrapper.t) : M Kernel.t unit := setsockopt w SOL_SOCKET SO_REUSEADDR 1.

(** *** UDP and Unix-domain sockets *)

Definition make_udp : M Kernel.t FDWrapper.t := make AF_INET SOCK_DGRAM.
Definition udp_of_fd (w : FDWrapper.t) : M Kernel.t FDWrapper.t := of_fd w AF_INET SOCK_DGRAM.
Definition local_of_fd (w : FDWrapper.t) : M Kernel.t FDWrapper.t := of_fd w AF_UNIX SOCK_STREAM.

(** [socket_pair_helper] *)
Definition socket_pair_helper (type : Z) : M Kernel.t (FDWrapper.t * FDWrapper.t) :=
  r <- system_call (socketpair AF_UNIX type 0);;
  let '(_, r) := r in
  first <- lift (FDWrapper.make (out_fds r).1);;
  second <- or_cleanup (lift (FDWrapper.make (out_fds r).2)) (destroy_fd first);;
  ret (first, second).

(** [sendmsg_helper], [sendto] and [send]: the message without a destination goes
    to the connected peer. *)
Definition send_message (destination : option Address.t) (payload : BufferViewList.t) (w : FDWrapper.t) : M Kernel.t FDWrapper.t :=
  a <- sys (sendmsg (FDWrapper._fd w) destination (concat payload));;
  lift (UDPSocket.sendmsg_helper payload (returned a));;
  ret (FDWrapper.register_write w).
Definition sendto (destination : Address.t) : BufferViewList.t -> FDWrapper.t -> M Kernel.t FDWrapper.t := send_message (Some destination).
Definition send : BufferViewList.t -> FDWrapper.t -> M Kernel.t FDWrapper.t := send_message None.

(** *** TCP sockets *)

Definition make_tcp : M Kernel.t FDWrapper.t := make AF_INET SOCK_STREAM.
Definition tcp_of_fd (w : FDWrapper.t) : M Kernel.t FDWrapper.t := of_fd w AF_INET SOCK_STREAM.

Definition listen (w : FDWrapper.t) (backlog : Z) : M Kernel.t unit :=
  r <- system_call (Kernel.listen (FDWrapper._fd w) backlog);; ret tt.

(** [accept] counts the read first; it returns the socket it was called on and the
    new one. *)
Definition accept : M (Kernel.t * FDWrapper.t) FDWrapper.t :=
  modify (fun x => (x.1, FDWrapper.register_read x.2));;
  x <- get;;
  r <- zoom fst (fun k x => (k, x.2)) (system_call (Kernel.accept (FDWrapper._fd x.2)));;
  w <- lift (FDWrapper.make r.1);;
  zoom fst (fun k x => (k, x.2)) (tcp_of_fd w).

(** *** What the constructor from a descriptor accepts *)

(** The kernel's answer to [getsockopt] is the expected number. *)
Definition reports (a : answer reply) (expected : Z) : Prop :=
  exists r, a = Done r /\ out_len r = SIZEOF_INT /\ out_int r = expected.

Lemma system_call_done c k r :
  k_replies k 0%nat = Done r -> system_call c k = (Kernel.mk (fun n => k_replies k (S n)) (h_calls k ++ [c]), Ok (i32 (value r), r)).
Proof.
  intros E. unfold system_call, sys, effects.bind, lift, ret. rewrite E. cbn [returned].
  unfold file_descriptor.system_call, SystemCall. by rewrite orb_true_r.
Qed.

Lemma verify_spec fd option expected k :
  exists r, verify fd option expected k = (Kernel.mk (fun n => k_replies k (S n)) (h_calls k ++ [getsockopt fd SOL_SOCKET option]), r) /\
    (r = Ok tt <-> reports (k_replies k 0%nat) expected).
Proof.
  unfold verify, system_call, sys, effects.bind at 1 2, lift. cbn [k_replies h_calls].
  destruct (k_replies k 0%nat) as [r|e] eqn:E; cbn [returned].
  - unfold file_descriptor.system_call, SystemCall. rewrite orb_true_r. cbn.
    destruct (Z.eqb_spec (out_len r) SIZEOF_INT) as [E1|E1]; [destruct (Z.eqb_spec (out_int r) expected) as [E2|E2]|].
    + eexists. split; [done|]. split; [|done]. intros _. by exists r.
    + eexists. split; [done|]. split; [done|]. intros (r' & [= <-] & _ & H). congruence.
    + eexists. split; [done|]. split; [done|]. intros (r' & [= <-] & H & _). congruence.
  - unfold file_descriptor.system_call, SystemCall. cbn [orb]. destruct (0 <=? -1) eqn:E0; [done|]. cbn [orb].
    destruct (e =? 0); cbn; (eexists; split; [done|]; split; [done|]; by intros (r' & [=] & _)).
Qed.

(** A socket is made of a descriptor exactly when the kernel reports the expected
    domain and type of it; otherwise the constructor throws and the descriptor,
    which it owns, is closed. *)
Theorem socket_of_fd_checks w domain type k :
  FDWrapper._closed w = false ->
  exists k' r, of_fd w domain type k = (k', r) /\
  ((reports (k_replies k 0%nat) domain /\ reports (k_replies k 1%nat) type) <-> r = Ok w) /\
  (r = Ok w \/ (exists e, r = Throw e) /\ exists calls, h_calls k' = h_calls k ++ calls ++ [close (FDWrapper._fd w)]).
Proof.
  intros Hc. unfold of_fd, or_cleanup, destroy_fd. rewrite Hc.
  destruct (verify_spec (FDWrapper._fd w) SO_DOMAIN domain k) as (r1 & E1 & H1). unfold effects.bind at 1. rewrite E1.
  destruct r1 as [[]|e1].
  - destruct (verify_spec (FDWrapper._fd w) SO_TYPE type (Kernel.mk (fun n => k_replies k (S n)) (h_calls k ++ [getsockopt (FDWrapper._fd w) SOL_SOCKET SO_DOMAIN])))
      as (r2 & E2 & H2). unfold effects.bind at 1. rewrite E2. cbn [k_replies h_calls] in *. destruct r2 as [[]|e2].
    + eexists _, _. split; [done|]. split; [|by left]. split; [done|]. intros _. split; [by apply H1|by apply H2].
    + eexists _, _. split; [done|]. split; [split; [|done]; intros [_ H%H2]; done|]. right. split; [by eexists|].
      eexists [_; _]. cbn. by rewrite <- !app_assoc.
  - eexists _, _. split; [done|]. split; [split; [|done]; intros [H%H1 _]; done|]. right. split; [by eexists|].
    eexists [_]. cbn. by rewrite <- !app_assoc.
Qed.

Lemma socket_of_fd_checks_witness :
  let stream := Kernel.mk (fun _ => Done (mk_reply 0 1 0 [] 4 (0, 0))) [] in
  exists k', tcp_of_fd (FDWrapper.mk 3 false false 0 0) stream = (k', Throw runtime_error) /\
    exists calls, h_calls k' = [] ++ calls ++ [close 3].
Proof.
  intros stream. destruct (socket_of_fd_checks (FDWrapper.mk 3 false false 0 0) AF_INET SOCK_STREAM stream eq_refl)
    as (k' & r & E & _ & [H|[_ H]]); [exfalso; subst r; apply (f_equal snd) in E; by vm_compute in E|].
  exists k'. split; [|exact H]. apply (f_equal snd) in E as E'. vm_compute in E'. rewrite <- E' in E. exact E.
Defined.

End Socket.

(** ** TUN and TAP devices *)

Module TunTapFD.
Import Kernel.

Definition CLONEDEV : string := "/dev/net/tun".
Definition O_RDWR : Z := 2.
Definition IFF_TUN : Z := 0x0001.
Definition IFF_TAP : Z := 0x0002.
Definition IFF_NO_PI : Z := 0x1000.
Definition IFNAMSIZ : nat := 16.
Definition TUNSETIFF : Z := 0x400454ca.

(** [strncpy] into an array of zeros: up to the terminator, [n] characters at most. *)
Fixpoint strncpy (s : list byte) (n : nat) : list byte :=
  match n, s with
  | S n, c :: s => if bool_decide (c = x00) then replicate (S n) x00 else c :: strncpy s n
  | n, [] => replicate n x00
  | O, _ => []
  end.

Definition make_ifreq (devname : string) (is_tun : bool) : ifreq :=
  mk_ifreq (strncpy (String.list_byte_of_string devname) (IFNAMSIZ - 1) ++ [x00])
    (Z.lor (if is_tun then IFF_TUN else IFF_TAP) IFF_NO_PI).

Definition make (devname : string) (is_tun : bool) : M Kernel.t FDWrapper.t :=
  r <- system_call (open CLONEDEV O_RDWR);;
  w <- lift (FDWrapper.make r.1);;
  or_cleanup
    (system_call (ioctl (FDWrapper._fd w) TUNSETIFF (make_ifreq devname is_tun));; ret w)
    (destroy_fd w).
Definition make_tun (devname : string) : M Kernel.t FDWrapper.t := make devname true.
Definition make_tap (devname : string) : M Kernel.t FDWrapper.t := make devname false.

Lemma strncpy_eq s n : x00 ∉ s -> strncpy s n = take n s ++ replicate (n - length s) x00.
Proof.
  revert n. induction s as [|c s IH]; intros [|n] H; [done|done|done|]. cbn [strncpy].
  apply not_elem_of_cons in H as [H1 H2]. rewrite bool_decide_false by congruence. cbn. by rewrite IH.
Qed.

(** The name a device is asked for by: 16 bytes, the last one the terminator,
    that hold the first 15 bytes of the name and zeros behind it. *)
Theorem ifreq_name devname is_tun :
  x00 ∉ String.list_byte_of_string devname ->
  let name := String.list_byte_of_string devname in
  length (ifr_name (make_ifreq devname is_tun)) = IFNAMSIZ /\
  ifr_name (make_ifreq devname is_tun) = take 15 name ++ replicate (16 - Nat.min 15 (length name)) x00 /\
  last (ifr_name (make_ifreq devname is_tun)) = Some x00.
Proof.
  intros H name. unfold make_ifreq. cbn [ifr_name]. rewrite strncpy_eq by done. fold name. change (IFNAMSIZ - 1)%nat with 15%nat.
  rewrite <- app_assoc, <- replicate_S_end. split_and!.
  - rewrite length_app, length_take, length_replicate. unfold IFNAMSIZ. lia.
  - do 2 f_equal. lia.
  - by rewrite replicate_S_end, app_assoc, last_snoc.
Qed.

Lemma ifreq_name_witness : last (ifr_name (make_ifreq "tun144" true)) = Some x00.
Proof. apply ifreq_name. apply (bool_decide_unpack _). by vm_compute. Defined.
End TunTapFD.
