(* ===== verification/eventloop.v ===== *)
(** The event loop ([libsponge/util/eventloop.{hh,cc}]).

    The objects the callbacks work on, file descriptors included, are one state
    [W]; a rule looks its file descriptor up in it, so that duplicates of a
    descriptor are shared as in the source. What [poll(2)] answers is an argument. *)

From S2P Require Import prelude effects file_descriptor.

Module Direction.
Inductive t := In | Out.
(** The enumerators are [POLLIN] and [POLLOUT]. *)
Definition events (d : t) : Z := match d with In => 1 | Out => 4 end.
#[global] Instance eq_dec : EqDecision t.
Proof. solve_decision. Defined.
End Direction.

Module EventLoop.

Definition POLLERR : Z := 8.
Definition POLLHUP : Z := 16.
Definition POLLNVAL : Z := 32.

Inductive Result := Success | Timeout | Exit.

(** [static_cast<bool>] *)
Definition flag (x : Z) : bool := negb (x =? 0).

Section Loop.
Context {W : Type}.

Record Rule := mkRule {
  fd : W -> FDWrapper.t;
  direction : Direction.t;
  callback : M W unit;
  interest : W -> bool;
  cancel : M W unit
}.

Definition service_count (r : Rule) (w : W) : Z :=
  if decide (direction r = Direction.In) then FDWrapper._read_count (fd r w) else FDWrapper._write_count (fd r w).

Definition add_rule (rules : list Rule) (fd : W -> FDWrapper.t) (direction : Direction.t) (callback : M W unit)
  (interest : W -> bool) (cancel : M W unit) : list Rule := rules ++ [mkRule fd direction callback interest cancel].

(** The state of the loop: its rules and everything else. *)
Abbreviation S := (list Rule * W)%type.

(** Lines 71-73, 77-79 and 124-126: [rest] starts with the rule to erase, [kept] are
    the rules before it. *)
Definition erase {A} (kept : list Rule) (r : Rule) (rest : list Rule) (w : W) (continue : W -> S * result A) : S * result A :=
  match cancel r w with
  | (w, Ok _) => continue w
  | (w, Throw e) => ((kept ++ r :: rest, w), Throw e)
  end.

(** Lines 67-89: the descriptor and the events polled for, per rule. *)
Fixpoint setup (kept rest : list Rule) (pollfds : list (Z * Z)) (something_to_poll : bool) (w : W)
  : S * result (list (Z * Z) * bool) :=
  match rest with
  | [] => ((kept, w), Ok (pollfds, something_to_poll))
  | r :: rest =>
      if bool_decide (direction r = Direction.In) && FDWrapper._eof (fd r w)
      then erase kept r rest w (setup kept rest pollfds something_to_poll)
      else if FDWrapper._closed (fd r w)
      then erase kept r rest w (setup kept rest pollfds something_to_poll)
      else if interest r w
      then setup (kept ++ [r]) rest (pollfds ++ [(FDWrapper._fd (fd r w), Direction.events (direction r))]) true w
      else setup (kept ++ [r]) rest (pollfds ++ [(FDWrapper._fd (fd r w), 0)]) something_to_poll w
  end.

(** Lines 109-142: [polled] are the events polled for and those that occurred. *)
Fixpoint dispatch (kept rest : list Rule) (polled : list (Z * Z)) (w : W) : S * result Result :=
  match rest with
  | [] => ((kept, w), Ok Success)
  | r :: rest' =>
      let '(events, revents) := hd (0, 0) polled in
      if flag (Z.land revents (Z.lor POLLERR POLLNVAL)) then ((kept ++ rest, w), Throw runtime_error) else
      let poll_ready := flag (Z.land revents events) in
      let poll_hup := flag (Z.land revents POLLHUP) in
      if poll_hup && flag events && negb poll_ready
      then erase kept r rest' w (dispatch kept rest' (tail polled))
      else if poll_ready then
        let count_before := service_count r w in
        match callback r w with
        | (w, Throw e) => ((kept ++ rest, w), Throw e)
        | (w, Ok _) =>
            if (count_before =? service_count r w) && interest r w then ((kept ++ rest, w), Throw runtime_error)
            else dispatch (kept ++ [r]) rest' (tail polled) w
        end
      else dispatch (kept ++ [r]) rest' (tail polled) w
  end.

(** The [revents] after [poll(2)]: 0 where the kernel stored nothing. *)
Definition with_revents (pollfds : list (Z * Z)) (revents : list Z) : list (Z * Z) :=
  imap (fun i p => (p.2, nth i revents 0)) pollfds.

Definition wait_next_event (poll : list (Z * Z) -> Z -> answer (Z * list Z)) (timeout_ms : Z) : M S Result := fun '(rules, w) =>
  match setup [] rules [] false w with
  | (s, Throw e) => (s, Throw e)
  | ((rules, w), Ok (pollfds, something_to_poll)) =>
      if negb something_to_poll then ((rules, w), Ok Exit) else
      let '(ret, revents) := match poll pollfds timeout_ms with
                             | Done (n, revents) => (system_call (Done n), revents)
                             | Failed errno => (system_call (Failed errno), [])
                             end in
      match ret with
      | Ok n => if n =? 0 then ((rules, w), Ok Timeout) else dispatch [] rules (with_revents pollfds revents) w
      | Throw (unix_error errno) =>
          if errno =? EINTR then ((rules, w), Ok Exit) else dispatch [] rules (with_revents pollfds revents) w
      | Throw e => ((rules, w), Throw e)
      end
  end.

Lemma sublist_erase {A} (kept rest : list A) r : kept ++ rest `sublist_of` kept ++ r :: rest.
Proof. apply sublist_app; [done|]. by apply sublist_cons. Qed.

(** ** Invariants

    A property of the state that every callback and every cancellation keeps,
    also when it throws, is kept by a round of the loop. A callback is only
    called when its rule was interested, so it may rely on a condition that its
    interest gives and that the handlers of the other rules leave alone. *)

(** A rule with the condition its callback relies on. *)
Abbreviation guarded := (Rule * (W -> Prop))%type.

Section Invariant.
Context (Inv : W -> Prop).

Record keeps (g : guarded) : Prop := {
  keeps_interest : forall w, Inv w -> interest g.1 w = true -> g.2 w;
  keeps_callback : forall w, Inv w -> g.2 w -> Inv (callback g.1 w).1;
  keeps_cancel : forall w, Inv w -> Inv (cancel g.1 w).1
}.

(** The handlers of [g] leave the condition of [h] alone. *)
Definition leaves (g h : guarded) : Prop :=
  forall w, Inv w -> h.2 w -> (g.2 w -> h.2 (callback g.1 w).1) /\ h.2 (cancel g.1 w).1.

Definition compatible (gs : list guarded) : Prop :=
  Forall keeps gs /\ ForallOrdPairs (fun g h => leaves g h /\ leaves h g) gs.

Lemma pairs_sublist {A} (R : A -> A -> Prop) l k : l `sublist_of` k -> ForallOrdPairs R k -> ForallOrdPairs R l.
Proof using Type.
  induction 1 as [|x l k Hs IH|x l k Hs IH]; intros Hk; [constructor| |]; inversion Hk as [|? ? Hx Hk']; subst.
  - constructor; [|by apply IH]. by eapply Forall_sublist.
  - by apply IH.
Qed.

Lemma compatible_sublist gs gs' : gs' `sublist_of` gs -> compatible gs -> compatible gs'.
Proof using Type. intros Hs [H1 H2]. split; [by eapply Forall_sublist|by eapply pairs_sublist]. Qed.

Lemma pairs_app {A} (R : A -> A -> Prop) l x k :
  ForallOrdPairs R (l ++ x :: k) -> Forall (fun y => R y x) l /\ Forall (R x) k.
Proof using Type.
  induction l as [|y l IH]; cbn; intros Hp; inversion Hp as [|? ? Hy Hp']; subst.
  - split; [constructor|done].
  - destruct (IH Hp') as [H1 H2]. split; [|done]. constructor; [|done]. by apply Forall_app in Hy as [_ [? _]%Forall_cons_1].
Qed.

(** What a phase of the loop leaves of the rules, and its state. *)
Definition fine {A} (gs : list guarded) (x : S * result A) : Prop :=
  exists gs', gs' `sublist_of` gs /\ x.1.1 = map fst gs' /\ Inv x.1.2.

Lemma fine_sublist {A} gs gs' (x : S * result A) : gs' `sublist_of` gs -> fine gs' x -> fine gs x.
Proof using Type. intros Hs (l & H1 & H2 & H3). exists l. split_and!; [by etrans|done|done]. Qed.

(** Polled rules whose condition holds. *)
Definition armed (w : W) (g : guarded) (p : Z * Z) : Prop := p.2 <> 0 -> g.2 w.

Lemma setup_fine rest kept pollfds something w :
  compatible (kept ++ rest) -> Inv w -> Forall2 (armed w) kept pollfds ->
  let x := setup (map fst kept) (map fst rest) pollfds something w in
  fine (kept ++ rest) x /\
  forall pollfds' b, x.2 = Ok (pollfds', b) ->
    exists gs', gs' `sublist_of` kept ++ rest /\ x.1.1 = map fst gs' /\ Forall2 (armed x.1.2) gs' pollfds'.
Proof using Type.
  revert kept pollfds something w. induction rest as [|g rest IH]; intros kept pollfds something w Hc Hw Ha; cbn [setup map].
  - rewrite app_nil_r in *. split; [by exists kept|]. intros pf b [= <- _]. by exists kept.
  - destruct (proj1 (Forall_app _ _ _) (proj1 Hc)) as [_ [Hg _]%Forall_cons_1].
    assert (Hsub : kept ++ rest `sublist_of` kept ++ g :: rest) by apply sublist_erase.
    assert (He : let x := erase (map fst kept) g.1 (map fst rest) w (setup (map fst kept) (map fst rest) pollfds something) in
      fine (kept ++ g :: rest) x /\ forall pollfds' b, x.2 = Ok (pollfds', b) ->
        exists gs', gs' `sublist_of` kept ++ g :: rest /\ x.1.1 = map fst gs' /\ Forall2 (armed x.1.2) gs' pollfds').
    { unfold erase. pose proof (keeps_cancel g Hg w Hw) as Hw'.
      assert (Ha' : Forall2 (armed (cancel g.1 w).1) kept pollfds).
      { destruct (pairs_app _ _ _ _ (proj2 Hc)) as [Hp _]. clear -Hp Ha Hw. induction Ha as [|h p kept pollfds Hh _ IH]; [constructor|].
        apply Forall_cons_1 in Hp as [[_ Hl] Hp]. constructor; [|by apply IH]. intros Hne. by apply (Hl w Hw (Hh Hne)). }
      destruct (cancel g.1 w) as [w1 [u|e]]; cbn [fst] in *.
      - destruct (IH kept pollfds something w1 (compatible_sublist _ _ Hsub Hc) Hw' Ha') as [H1 H2].
        split; [by eapply fine_sublist|]. intros pf b Hx. destruct (H2 pf b Hx) as (gs' & ? & ? & ?).
        exists gs'. split_and!; [by etrans|done|done].
      - split; [|done]. exists (kept ++ g :: rest). by rewrite map_app. }
    assert (Hn : forall p b, (p.2 <> 0 -> g.2 w) -> let x := setup (map fst kept ++ [g.1]) (map fst rest) (pollfds ++ [p]) b w in
      fine (kept ++ g :: rest) x /\ forall pollfds' b, x.2 = Ok (pollfds', b) ->
        exists gs', gs' `sublist_of` kept ++ g :: rest /\ x.1.1 = map fst gs' /\ Forall2 (armed x.1.2) gs' pollfds').
    { intros p b Hp. specialize (IH (kept ++ [g]) (pollfds ++ [p]) b w). rewrite <- app_assoc, map_app in IH.
      apply IH; [done|done|]. apply Forall2_app; [done|]. by constructor. }
    destruct (_ && _); [done|]. destruct (FDWrapper._closed _); [done|].
    destruct (interest g.1 w) eqn:Ei; apply Hn; [intros _; by apply (keeps_interest g Hg)|done].
Qed.

Lemma dispatch_fine rest kept polled w :
  compatible (kept ++ rest) -> Inv w -> Forall2 (armed w) rest (map (fun p => (0, p.1)) polled) ->
  fine (kept ++ rest) (dispatch (map fst kept) (map fst rest) polled w).
Proof using Type.
  revert kept polled w. induction rest as [|g rest IH]; intros kept polled w Hc Hw Ha; cbn [dispatch map].
  - rewrite app_nil_r in *. by exists kept.
  - destruct polled as [|[events revents] polled]; [by inversion Ha|]. cbn [map hd tail] in *.
    apply Forall2_cons_1 in Ha as [Hg' Ha]. unfold armed in Hg'. cbn in Hg'.
    destruct (proj1 (Forall_app _ _ _) (proj1 Hc)) as [_ [Hg _]%Forall_cons_1].
    assert (Hsub : kept ++ rest `sublist_of` kept ++ g :: rest) by apply sublist_erase.
    assert (Hstop : forall w (r : result Result), Inv w -> fine (kept ++ g :: rest) ((map fst kept ++ g.1 :: map fst rest, w), r)).
    { intros w' r Hw'. exists (kept ++ g :: rest). by rewrite map_app. }
    destruct (flag _); [by apply Hstop|].
    assert (Hlv : Forall (leaves g) rest).
    { destruct (pairs_app _ _ _ _ (proj2 Hc)) as [_ Hp]. eapply Forall_impl; [exact Hp|]. by intros h [? _]. }
    assert (Hnext : forall w', Inv w' -> Forall2 (armed w') rest (map (fun p => (0, p.1)) polled) ->
      fine (kept ++ g :: rest) (dispatch (map fst kept ++ [g.1]) (map fst rest) polled w')).
    { intros w' Hw' Ha'. specialize (IH (kept ++ [g]) polled w'). rewrite <- app_assoc, map_app in IH. by apply IH. }
    destruct (_ && _ && _).
    + unfold erase. pose proof (keeps_cancel g Hg w Hw) as Hw'.
      assert (Ha' : Forall2 (armed (cancel g.1 w).1) rest (map (fun p => (0, p.1)) polled)).
      { clear -Hlv Ha Hw. induction Ha as [|h p rest l Hh _ IH]; [constructor|].
        apply Forall_cons_1 in Hlv as [Hl Hp]. constructor; [|by apply IH]. intros Hne. by apply (Hl w Hw (Hh Hne)). }
      destruct (cancel g.1 w) as [w1 [u|e]]; cbn [fst] in *; [|by apply Hstop].
      eapply fine_sublist; [exact Hsub|]. apply IH; [by eapply compatible_sublist|done|done].
    + destruct (flag (Z.land revents events)) eqn:Er; [|by apply Hnext].
      assert (Hpre : g.2 w). { apply Hg'. intros ->. by rewrite Z.land_0_r in Er. }
      pose proof (keeps_callback g Hg w Hw Hpre) as Hw'.
      assert (Ha' : Forall2 (armed (callback g.1 w).1) rest (map (fun p => (0, p.1)) polled)).
      { clear -Hlv Ha Hw Hpre. induction Ha as [|h p rest l Hh _ IH]; [constructor|].
        apply Forall_cons_1 in Hlv as [Hl Hp]. constructor; [|by apply IH]. intros Hne. by apply (Hl w Hw (Hh Hne)). }
      destruct (callback g.1 w) as [w1 [u|e]]; cbn [fst] in *; [|by apply Hstop].
      destruct (_ && _); [by apply Hstop|by apply Hnext].
Qed.

Lemma wait_next_event_keeps poll timeout gs w :
  compatible gs -> Inv w -> fine gs (wait_next_event poll timeout (map fst gs, w)).
Proof using Type.
  intros Hc Hw. unfold wait_next_event. pose proof (setup_fine gs [] [] false w Hc Hw ltac:(constructor)) as [H1 H2].
  cbn [map app] in H1, H2. destruct (setup [] (map fst gs) [] false w) as [[rules1 w1] [[pollfds something]|e]]; cbn in H1, H2.
  2: exact H1.
  destruct (H2 pollfds something eq_refl) as (gs' & Hs & -> & Ha). destruct H1 as (gs2 & Hs2 & E2 & Hw1).
  assert (Hstay : forall r : result Result, fine gs ((map fst gs', w1), r)) by (intros r; by exists gs').
  assert (Hd : forall revents, fine gs (dispatch [] (map fst gs') (with_revents pollfds revents) w1)).
  { intros revents. eapply fine_sublist; [exact Hs|]. apply (dispatch_fine gs' []); [by eapply compatible_sublist|done|].
    apply Forall2_fmap_r. unfold with_revents. apply Forall2_same_length_lookup.
    split; [by rewrite length_imap; eapply Forall2_length|]. intros i g [e re] Hg. rewrite list_lookup_imap.
    destruct (pollfds !! i) as [p|] eqn:Ep; [|done]. intros [= <- _]. exact (Forall2_lookup_lr _ _ _ _ _ _ Ha Hg Ep). }
  destruct something; [|apply Hstay]. cbn [negb].
  destruct (match poll pollfds timeout with Done (n, revents) => _ | Failed errno => _ end) as [[n|[]] revents];
    try apply Hstay; repeat case_if; by try apply Hstay.
Qed.

(** ** When a round returns *)

(** A rule that behaves as the documentation asks: its handlers keep [Inv] and,
    when its callback returns, it has read or written its descriptor or lost
    interest. The handlers may throw. *)
Record well_behaved (r : Rule) : Prop := {
  b_callback : forall w, Inv w -> Inv (callback r w).1 /\
    ((callback r w).2 = Ok tt ->
     service_count r (callback r w).1 <> service_count r w \/ interest r (callback r w).1 = false);
  b_cancel : forall w, Inv w -> Inv (cancel r w).1
}.

(** The exceptions of the handlers. *)
Definition thrown (rules : list Rule) (e : exn) : Prop :=
  exists r w, r ∈ rules /\ Inv w /\ ((callback r w).2 = Throw e \/ (cancel r w).2 = Throw e).

(** No descriptor is reported to be in error. *)
Definition no_error (revents : list Z) : Prop :=
  Forall (fun e => Z.land e (Z.lor POLLERR POLLNVAL) = 0) revents.

(** A phase of the loop that keeps [Inv], deletes some rules and throws only
    what a handler threw. *)
Definition orderly {A} (rules : list Rule) (x : S * result A) : Prop :=
  x.1.1 `sublist_of` rules /\ Inv x.1.2 /\ match x.2 with Ok _ => True | Throw e => thrown rules e end.

Lemma orderly_sublist {A} rules rules' (x : S * result A) : rules' `sublist_of` rules -> orderly rules' x -> orderly rules x.
Proof using Type.
  intros Hs (H1 & H2 & H3). split_and!; [by etrans|done|]. destruct (x.2); [done|].
  destruct H3 as (r & w & Hr & H). exists r, w. split; [|done]. by eapply elem_of_sublist.
Qed.

Lemma orderly_erase {A} kept r rest w (k : W -> S * result A) :
  well_behaved r -> Inv w -> (forall w', Inv w' -> orderly (kept ++ rest) (k w')) -> orderly (kept ++ r :: rest) (erase kept r rest w k).
Proof using Type.
  intros Hr Hw Hk. unfold erase. pose proof (b_cancel r Hr w Hw) as Hw'. destruct (cancel r w) as [w1 [u|e]] eqn:E; cbn [fst] in Hw'.
  - eapply orderly_sublist; [apply sublist_erase|]. by apply Hk.
  - split_and!; [done|done|]. exists r, w. split; [apply elem_of_app; right; by left|]. rewrite E. by split; [|right].
Qed.

Lemma setup_orderly rest kept pollfds something w :
  Forall well_behaved rest -> Inv w -> orderly (kept ++ rest) (setup kept rest pollfds something w).
Proof using Type.
  intros Hr. revert kept pollfds something w. induction Hr as [|r rest Hr _ IH]; intros kept pollfds something w Hw; cbn [setup].
  - by rewrite app_nil_r.
  - assert (Hn : forall p b, orderly (kept ++ r :: rest) (setup (kept ++ [r]) rest p b w)).
    { intros p b. specialize (IH (kept ++ [r]) p b w Hw). by rewrite <- app_assoc in IH. }
    destruct (_ && _); [apply orderly_erase; by auto|]. destruct (FDWrapper._closed _); [apply orderly_erase; by auto|].
    destruct (interest r w); apply Hn.
Qed.

Lemma dispatch_orderly rest kept polled w :
  Forall well_behaved rest -> Forall (fun p => Z.land p.2 (Z.lor POLLERR POLLNVAL) = 0) polled -> Inv w ->
  orderly (kept ++ rest) (dispatch kept rest polled w).
Proof using Type.
  intros Hr. revert kept polled w. induction Hr as [|r rest Hr _ IH]; intros kept polled w Hp Hw; cbn [dispatch].
  - by rewrite app_nil_r.
  - assert (Hp' : Forall (fun p => Z.land p.2 (Z.lor POLLERR POLLNVAL) = 0) (tail polled)) by (by destruct Hp).
    assert (Hn : forall w, Inv w -> orderly (kept ++ r :: rest) (dispatch (kept ++ [r]) rest (tail polled) w)).
    { intros w1 Hw1. specialize (IH (kept ++ [r]) (tail polled) w1 Hp' Hw1). by rewrite <- app_assoc in IH. }
    assert (E0 : Z.land (hd (0, 0) polled).2 (Z.lor POLLERR POLLNVAL) = 0) by (by destruct Hp).
    destruct (hd (0, 0) polled) as [events revents]. cbn [snd] in E0. rewrite E0. cbn [flag Z.eqb negb].
    destruct (_ && _ && _); [apply orderly_erase; by auto|].
    destruct (flag (Z.land revents events)); [|by apply Hn].
    destruct (b_callback r Hr w Hw) as [Hw1 Hs]. destruct (callback r w) as [w1 [[]|e]] eqn:Ec; cbn [fst snd] in *.
    + destruct ((service_count r w =? service_count r w1) && interest r w1) eqn:Eb; [|by apply Hn].
      apply andb_true_iff in Eb as [Eb Ei]. apply Z.eqb_eq in Eb. destruct (Hs eq_refl); [by symmetry in Eb|congruence].
    + split_and!; [done|done|]. exists r, w. split; [apply elem_of_app; right; by left|]. rewrite Ec. by split; [|left].
Qed.
End Invariant.

(** C32. A round of the event loop with rules that do what the documentation asks
    (each callback that returns has read or written its descriptor or lost
    interest; the handlers may throw), where [poll(2)] itself succeeds or is
    interrupted and reports no descriptor in error: the round ends, by
    returning or with an exception that one of the handlers threw, so in
    particular it reports no busy wait and no exception of its own; it keeps
    every property the handlers keep; and all it does to the rules is to
    delete some of them. (Any other failure of [poll(2)] is left out: the code
    ignores it, against its documentation, see [poll_failure_ignored].) *)
Theorem round_returns (Inv : W -> Prop) poll timeout rules w :
  Forall (well_behaved Inv) rules -> Inv w ->
  (forall pollfds, match poll pollfds timeout with Done (_, revents) => no_error revents | Failed errno => errno = EINTR end) ->
  exists rules' w' r, wait_next_event poll timeout (rules, w) = ((rules', w'), r) /\
    rules' `sublist_of` rules /\ Inv w' /\
    match r with Ok _ => True | Throw e => thrown Inv rules e end.
Proof.
  intros Hr Hw Hp. enough (H : orderly Inv rules (wait_next_event poll timeout (rules, w))).
  { destruct (wait_next_event _ _ _) as [[rules' w'] r]. destruct H as (H1 & H2 & H3). by exists rules', w', r. }
  unfold wait_next_event. pose proof (setup_orderly Inv rules [] [] false w Hr Hw) as Hs. cbn [app] in Hs.
  destruct (setup [] rules [] false w) as [[rules1 w1] [[pollfds something]|e]]; [|done]. destruct Hs as (H1 & Hw1 & _).
  cbn [fst snd] in H1, Hw1.
  destruct something; cbn [negb]; [|done]. specialize (Hp pollfds). destruct (poll pollfds timeout) as [[n revents]|errno].
  - unfold system_call, SystemCall. rewrite orb_true_r. case_if; [done|].
    eapply orderly_sublist; [exact H1|]. apply (dispatch_orderly Inv rules1 []); [by eapply Forall_sublist| |done].
    apply Forall_lookup. intros i [ev re] E. unfold with_revents in E. rewrite list_lookup_imap in E. cbn.
    destruct (pollfds !! i) as [[? ?]|]; [|done]. injection E as _ <-. destruct (nth_in_or_default i revents 0) as [Hin| ->]; [|done].
    by apply (proj1 (List.Forall_forall _ _) Hp).
  - subst errno. done.
Qed.

(** An error of [poll(2)] itself other than an interruption is not reported:
    the round neither throws nor calls anything, and returns [Success]. *)
Theorem poll_failure_ignored poll timeout rules w rules1 w1 pollfds errno :
  setup [] rules [] false w = ((rules1, w1), Ok (pollfds, true)) ->
  poll pollfds timeout = Failed errno -> errno <> 0 -> errno <> EINTR ->
  wait_next_event poll timeout (rules, w) = ((rules1, w1), Ok Success).
Proof.
  intros Hs Hp H0 Hi. unfold wait_next_event. rewrite Hs, Hp. cbn [negb]. unfold system_call, SystemCall.
  destruct (Z.eqb_spec errno 0); [done|]. cbn. destruct (Z.eqb_spec errno EINTR); [done|].
  assert (Hd : forall rest kept polled, Forall (fun p => p.2 = 0) polled -> dispatch kept rest polled w1 = ((kept ++ rest, w1), Ok Success)).
  { clear. induction rest as [|r rest IH]; intros kept polled Hp; cbn [dispatch]; [by rewrite app_nil_r|].
    assert (E0 : (hd (0, 0) polled).2 = 0) by (by destruct Hp). destruct (hd (0, 0) polled) as [events revents].
    cbn [snd] in E0. subst revents. rewrite !Z.land_0_l. cbn [flag Z.eqb negb andb]. rewrite IH by (by destruct Hp).
    by rewrite <- app_assoc. }
  rewrite Hd; [done|]. apply Forall_lookup. intros i [ev re] E. unfold with_revents in E. rewrite list_lookup_imap in E.
  destruct (pollfds !! i) as [[? ?]|]; [|done]. injection E as _ <-. by destruct i.
Qed.
End Loop.
#[global] Arguments Rule : clear implicits.

(** *** Witnesses *)

(** A rule that reads its descriptor. *)
Definition reader : Rule FDWrapper.t :=
  mkRule (fun w => w) Direction.In (modify FDWrapper.register_read) (fun _ => true) (ret tt).
Definition sample_fd : FDWrapper.t := FDWrapper.mk 3 false false 0 0.

Lemma reader_behaves : well_behaved (fun w => is_u32 (FDWrapper._read_count w)) reader.
Proof.
  split; [|done]. intros w Hw. split; [apply u32_range|]. intros _. left.
  change (u32 (FDWrapper._read_count w + 1) <> FDWrapper._read_count w). revert Hw. generalize (FDWrapper._read_count w). intros x Hx. dlia.
Qed.

Lemma round_returns_witness :
  exists rules' w' r, wait_next_event (fun _ _ => Done (1, [1])) 10 ([reader], sample_fd) = ((rules', w'), r) /\
    rules' `sublist_of` [reader] /\ is_u32 (FDWrapper._read_count w') /\
    match r with Ok _ => True | Throw e => thrown (fun w => is_u32 (FDWrapper._read_count w)) [reader] e end.
Proof.
  apply (round_returns (fun w => is_u32 (FDWrapper._read_count w))).
  - apply Forall_cons_2; [exact reader_behaves|apply Forall_nil_2].
  - cbn. lia.
  - intros _. apply Forall_cons_2; [reflexivity|apply Forall_nil_2].
Defined.

Lemma poll_failure_ignored_witness :
  wait_next_event (fun _ _ => Failed 12) 10 ([reader], sample_fd) = (([reader], sample_fd), Ok Success).
Proof.
  exact (poll_failure_ignored (fun _ _ => Failed 12) 10 [reader] sample_fd [reader] sample_fd [(3, 1)] 12
    eq_refl eq_refl ltac:(discriminate) ltac:(discriminate)).
Defined.
End EventLoop.
