(* ===== verification/fd_adapter.v ===== *)
(** The adapters between a TCP connection and a datagram device
    ([libsponge/tcp_helpers/{fd_adapter,tcp_over_ip,tuntap_adapter,lossy_fd_adapter}]).

    An adapter is a state. What the kernel answers when its device is read is the
    argument of [read]; what it answers to the writes, which can fail, is part of
    the state, and the datagrams it has taken are the list [sent]. The template
    parameter of the C++ classes is the type class [FdAdapter]. *)

From S2P Require Import prelude effects wrapping_integers buffer parser ethernet ipv4 tcp_segment address network_interface file_descriptor.

(** ** Configuration *)

Module FdAdapterConfig.
Record t := mk {
  source : Address.t;
  destination : Address.t;
  loss_rate_dn : Z;
  loss_rate_up : Z
}.
#[global] Instance set_source : Setter source := fun f c => mk (f (source c)) (destination c) (loss_rate_dn c) (loss_rate_up c).
#[global] Instance set_destination : Setter destination := fun f c =>
  mk (source c) (f (destination c)) (loss_rate_dn c) (loss_rate_up c).
End FdAdapterConfig.

Module FdAdapterBase.
Record t := mk {
  _cfg : FdAdapterConfig.t;
  _listen : bool
}.
#[global] Instance set_cfg : Setter _cfg := fun f b => mk (f (_cfg b)) (_listen b).
#[global] Instance set_listen : Setter _listen := fun f b => mk (_cfg b) (f (_listen b)).
Definition set_listening (l : bool) (b : t) : t := b <| _listen := l |>.
Definition listening (b : t) : bool := _listen b.
Definition config (b : t) : FdAdapterConfig.t := _cfg b.
Definition config_mut (c : FdAdapterConfig.t) (b : t) : t := b <| _cfg := c |>.
(** [tick] does nothing here. *)
Definition tick (ms : Z) (b : t) : t := b.

(** The rate at which a lossy adapter drops what it has read. *)
Definition rate (b : t) : Z := FdAdapterConfig.loss_rate_dn (config b).

(** Whether the adapter listens, before and after, and the width of the fields. *)
Definition read_law (l l' : bool) (r : result (option TCPSegment.t)) : Prop :=
  match r with
  | Ok (Some seg) =>
      wi_ok (TCPHeader.ackno (TCPSegment.header seg)) /\ is_u16 (TCPHeader.win (TCPSegment.header seg)) /\
      l' = false /\ (l = true -> TCPHeader.syn (TCPSegment.header seg) = true)
  | _ => l' = l
  end.
End FdAdapterBase.

(** ** TCP over IPv4 *)

Module TCPOverIPv4Adapter.
Import FdAdapterBase FdAdapterConfig.

Section Adapter.
Context `{AddressText}.

(** Lines 56-64: answer the peer whose SYN we got. *)
Definition adopt_peer (ip_dgram : IPv4Datagram.t) (tcp_seg : TCPSegment.t) : M FdAdapterBase.t bool :=
  s <- get;;
  if listening s then
    if TCPHeader.syn (TCPSegment.header tcp_seg) && negb (TCPHeader.rst (TCPSegment.header tcp_seg)) then
      p <- lift (port (source (config s)));;
      src <- lift (of_ip_port (IPv4Header.dst (IPv4Datagram._header ip_dgram)) p);;
      modify (fun s => s <| _cfg := (_cfg s) <| source := src |> |>);;
      dst <- lift (of_ip_port (IPv4Header.src (IPv4Datagram._header ip_dgram)) (TCPHeader.sport (TCPSegment.header tcp_seg)));;
      modify (fun s => s <| _cfg := (_cfg s) <| destination := dst |> |>);;
      modify (set_listening false);;
      ret true
    else ret false
  else ret true.

(** Is the address the configured one? Only asked when not listening. *)
Definition addressed (ip : Z) (a : FdAdapterConfig.t -> Address.t) : M FdAdapterBase.t bool :=
  s <- get;;
  if listening s then ret true else mine <- lift (Address.ipv4_numeric (a (config s)));; ret (ip =? mine).

Definition unwrap_tcp_in_ip (ip_dgram : IPv4Datagram.t) : M FdAdapterBase.t (option TCPSegment.t) :=
  let h := IPv4Datagram._header ip_dgram in
  for_us <- addressed (IPv4Header.dst h) source;;
  if negb for_us then ret None else
  from_peer <- addressed (IPv4Header.src h) destination;;
  if negb from_peer then ret None else
  if negb (IPv4Header.proto h =? IPv4Header.PROTO_TCP) then ret None else
  payload <- lift (BufferList.to_buffer (IPv4Datagram._payload ip_dgram));;
  let '(tcp_seg, r) := TCPSegment.parse TCPSegment.default payload (IPv4Header.pseudo_cksum h) in
  if negb (bool_decide (r = NoError)) then ret None else
  s <- get;;
  my_port <- lift (port (source (config s)));;
  if negb (TCPHeader.dport (TCPSegment.header tcp_seg) =? my_port) then ret None else
  adopted <- adopt_peer ip_dgram tcp_seg;;
  if negb adopted then ret None else
  s <- get;;
  peer_port <- lift (port (destination (config s)));;
  if negb (TCPHeader.sport (TCPSegment.header tcp_seg) =? peer_port) then ret None
  else ret (Some tcp_seg).

(** The segment with its ports set: [seg] is a reference in the source. *)
Definition with_ports (seg : TCPSegment.t) (sport dport : Z) : TCPSegment.t :=
  seg <| TCPSegment._header := (TCPSegment._header seg) <| TCPHeader.sport := sport |> <| TCPHeader.dport := dport |> |>.

Definition wrap_tcp_in_ip (seg : TCPSegment.t) : M FdAdapterBase.t (TCPSegment.t * IPv4Datagram.t) :=
  s <- get;;
  sport <- lift (port (source (config s)));;
  dport <- lift (port (destination (config s)));;
  let seg := with_ports seg sport dport in
  src <- lift (Address.ipv4_numeric (source (config s)));;
  dst <- lift (Address.ipv4_numeric (destination (config s)));;
  let h := IPv4Header.default <| IPv4Header.src := src |> <| IPv4Header.dst := dst |> in
  let h := h <| IPv4Header.len := u16 (IPv4Header.hlen h * 4 + TCPHeader.doff (TCPSegment.header seg) * 4
                                       + Buffer.size (TCPSegment.payload seg)) |> in
  payload <- lift (TCPSegment.serialize seg (IPv4Header.pseudo_cksum h));;
  ret (seg, IPv4Datagram.mk h payload).

Lemma wrap_keeps seg s : (wrap_tcp_in_ip seg s).1 = s.
Proof.
  unfold wrap_tcp_in_ip, bind, get, lift, ret.
  by repeat match goal with |- context [match ?x with Ok _ => _ | Throw _ => _ end] => destruct x end.
Qed.

(** *** Round trip *)

(** The configuration of one end of the connection from [ip1]:[p1] to [ip2]:[p2]. *)
Record connected (ip1 p1 ip2 p2 : Z) (s : FdAdapterBase.t) : Prop := {
  c_listen : listening s = false;
  c_src : Address.ipv4_numeric (source (config s)) = Ok ip1;
  c_sport : port (source (config s)) = Ok p1;
  c_dst : Address.ipv4_numeric (destination (config s)) = Ok ip2;
  c_dport : port (destination (config s)) = Ok p2
}.

(** The header [wrap_tcp_in_ip] makes. *)
Definition ip_header (ip1 ip2 : Z) (seg : TCPSegment.t) : IPv4Header.t :=
  IPv4Header.default <| IPv4Header.src := ip1 |> <| IPv4Header.dst := ip2 |>
    <| IPv4Header.len := 20 + 4 * TCPHeader.doff (TCPSegment.header seg) + zlen (Buffer.str (TCPSegment.payload seg)) |>.

(** The segment fits a datagram. *)
Definition fits (seg : TCPSegment.t) : Prop :=
  TCPHeader.wf (TCPSegment.header seg) /\
  20 + 4 * TCPHeader.doff (TCPSegment.header seg) + zlen (Buffer.str (TCPSegment.payload seg)) < 2 ^ 16.

Lemma pseudo_cksum_small h : is_u32 (IPv4Header.src h) -> is_u32 (IPv4Header.dst h) -> is_u8 (IPv4Header.proto h) ->
  0 <= IPv4Header.pseudo_cksum h < 2 ^ 19.
Proof.
  intros H1 H2 H3. unfold IPv4Header.pseudo_cksum.
  assert (Hx : forall x, is_u32 x -> 0 <= Z.shiftr x 16 + Z.land x 0xffff < 2 ^ 17).
  { intros x Hx. rewrite Z.shiftr_div_pow2 by lia. change 0xffff with (Z.ones 16). rewrite Z.land_ones by lia. dlia. }
  pose proof (Hx _ H1). pose proof (Hx _ H2). pose proof (u16_range (IPv4Header.len h - 4 * IPv4Header.hlen h)) as Hp.
  unfold IPv4Header.payload_length. rewrite (u32_id (_ + Z.land (IPv4Header.src h) _)), (u32_id (_ + Z.land (IPv4Header.dst h) _)) by lia.
  rewrite (u32_id (_ + _ + (_ + _))) by lia. rewrite (u32_id (_ + IPv4Header.proto h)) by lia. rewrite u32_id by lia. lia.
Qed.

Lemma wrap_tcp_eq ip1 p1 ip2 p2 s seg :
  connected ip1 p1 ip2 p2 s -> is_u32 ip1 -> is_u32 ip2 -> is_u16 p1 -> is_u16 p2 -> fits seg ->
  let seg' := with_ports seg p1 p2 in
  let h := ip_header ip1 ip2 seg in
  exists l, TCPSegment.serialize seg' (IPv4Header.pseudo_cksum h) = Ok l /\
    wrap_tcp_in_ip seg s = (s, Ok (seg', IPv4Datagram.mk h l)) /\
    IPv4Datagram.wf (IPv4Datagram.mk h l) /\
    forall s0 b, Buffer.wf b -> Buffer.str b = BufferList.concatenate l ->
      exists seg2, TCPSegment.parse s0 b (IPv4Header.pseudo_cksum h) = (seg2, NoError) /\
        TCPSegment.header seg2 = TCPSegment.header_out seg' (IPv4Header.pseudo_cksum h) /\
        Buffer.str (TCPSegment.payload seg2) = Buffer.str (TCPSegment.payload seg).
Proof.
  intros [Hl E1 E2 E3 E4] Hi1 Hi2 Hp1 Hp2 [Hwf Hlen] seg' h.
  assert (Hwf' : TCPHeader.wf (TCPSegment._header seg')) by (destruct Hwf; by split).
  pose proof (pseudo_cksum_small h Hi1 Hi2 ltac:(change (IPv4Header.proto h) with 6; lia)) as Hc.
  destruct (TCPSegment.tcp_segment_parse_serialize seg' (IPv4Header.pseudo_cksum h) Hwf' ltac:(lia)) as (l & El & Elen & Hp).
  { change (TCPSegment._payload seg') with (TCPSegment.payload seg). destruct Hwf. lia. }
  exists l. split; [done|]. split; [|split; [|exact Hp]].
  - unfold wrap_tcp_in_ip, bind, get, lift. rewrite E2, E4, E1, E3. fold seg'.
    assert (Hu : u16 (20 + TCPHeader.doff (TCPSegment.header seg) * 4 + Buffer.size (TCPSegment.payload seg)) =
      20 + 4 * TCPHeader.doff (TCPSegment.header seg) + zlen (Buffer.str (TCPSegment.payload seg))).
    { unfold Buffer.size. rewrite u16_id; [lia|]. destruct Hwf. lia. }
    cbn [IPv4Header.hlen setter IPv4Header.set_src IPv4Header.set_dst].
    change (IPv4Header.hlen IPv4Header.default * 4) with 20.
    change (TCPHeader.doff (TCPSegment.header seg')) with (TCPHeader.doff (TCPSegment.header seg)).
    change (Buffer.size (TCPSegment.payload seg')) with (Buffer.size (TCPSegment.payload seg)).
    rewrite Hu. change (setter _ _) with h. rewrite El. done.
  - assert (Hd : 5 <= TCPHeader.doff (TCPSegment.header seg)) by (destruct Hwf; lia).
    split; [split; cbn -[Z.add Z.mul]; done || lia|].
    cbn [IPv4Datagram._header IPv4Datagram._payload]. rewrite Elen.
    change (20 + 4 * TCPHeader.doff (TCPSegment.header seg) + zlen (Buffer.str (TCPSegment.payload seg)) =
      4 * 5 + (4 * TCPHeader.doff (TCPSegment.header seg) + zlen (Buffer.str (TCPSegment.payload seg)))). lia.
Qed.

(** A connected adapter lets a segment of its peer through. *)
Lemma unwrap_tcp_eq ip1 p1 ip2 p2 s d b seg :
  connected ip2 p2 ip1 p1 s ->
  IPv4Header.src (IPv4Datagram._header d) = ip1 -> IPv4Header.dst (IPv4Datagram._header d) = ip2 ->
  IPv4Header.proto (IPv4Datagram._header d) = IPv4Header.PROTO_TCP ->
  IPv4Datagram._payload d = BufferList.of_buffer b ->
  TCPSegment.parse TCPSegment.default b (IPv4Header.pseudo_cksum (IPv4Datagram._header d)) = (seg, NoError) ->
  TCPHeader.sport (TCPSegment.header seg) = p1 -> TCPHeader.dport (TCPSegment.header seg) = p2 ->
  unwrap_tcp_in_ip d s = (s, Ok (Some seg)).
Proof.
  intros [Hl E1 E2 E3 E4] Hs Hd Hp Hb Ep Hsp Hdp.
  unfold unwrap_tcp_in_ip, addressed, adopt_peer, bind, get, lift, ret. rewrite Hl, E1, Hd, Z.eqb_refl. cbn [negb].
  rewrite Hl, E3, Hs, Z.eqb_refl. cbn [negb]. rewrite Hp, Z.eqb_refl. cbn [negb]. rewrite Hb. cbn [BufferList.to_buffer BufferList.of_buffer].
  rewrite Ep, bool_decide_true by done. cbn [negb]. rewrite E2, Hdp, Z.eqb_refl. cbn [negb]. rewrite Hl. cbn [negb].
  by rewrite E4, Hsp, Z.eqb_refl.
Qed.

(** The checksum does not depend on the checksum field of the IP header. *)
Lemma pseudo_cksum_ext h c : IPv4Header.pseudo_cksum (h <| IPv4Header.cksum := c |>) = IPv4Header.pseudo_cksum h.
Proof. done. Qed.

(** TCP over IPv4 round trip: a segment wrapped by one end of a connection,
    serialized and parsed as an IPv4 datagram, is let through by the adapter of
    the other end, with its payload and every header field intact, the ports
    those of the two ends and the checksum filled in; both adapters keep their
    state. *)
Theorem tcp_over_ip_roundtrip ip1 p1 ip2 p2 sA sB seg :
  connected ip1 p1 ip2 p2 sA -> connected ip2 p2 ip1 p1 sB ->
  is_u32 ip1 -> is_u32 ip2 -> is_u16 p1 -> is_u16 p2 -> fits seg ->
  exists seg' d bytes d' seg2,
    wrap_tcp_in_ip seg sA = (sA, Ok (seg', d)) /\ seg' = with_ports seg p1 p2 /\
    IPv4Datagram.serialize d = Ok bytes /\
    IPv4Datagram.parse IPv4Datagram.default (Buffer.of_string (BufferList.concatenate bytes)) = (d', NoError) /\
    unwrap_tcp_in_ip d' sB = (sB, Ok (Some seg2)) /\
    TCPHeader.eqb (TCPSegment.header seg2) (TCPSegment.header seg') = true /\
    TCPHeader.sport (TCPSegment.header seg2) = p1 /\ TCPHeader.dport (TCPSegment.header seg2) = p2 /\
    Buffer.str (TCPSegment.payload seg2) = Buffer.str (TCPSegment.payload seg).
Proof.
  intros CA CB Hi1 Hi2 Hp1 Hp2 Hf.
  destruct (wrap_tcp_eq ip1 p1 ip2 p2 sA seg CA Hi1 Hi2 Hp1 Hp2 Hf) as (l & El & Ew & Hwf & Hpar).
  destruct (IPv4Datagram.ipv4_datagram_parse_serialize _ IPv4Datagram.default Hwf) as (bytes & Eb & _ & p' & b' & _ & Ep & Wb & Eb').
  destruct (Hpar TCPSegment.default b' Wb Eb') as (seg2 & E2 & Eh & Es).
  eexists _, _, bytes, _, seg2. split; [exact Ew|]. split; [done|]. split; [exact Eb|]. split; [exact Ep|].
  rewrite Eh. split; [|split; [|done]].
  - eapply (unwrap_tcp_eq ip1 p1 ip2 p2); try done; by rewrite Eh.
  - unfold TCPHeader.eqb, wi_eq. cbn. by rewrite !Z.eqb_refl, !eqb_reflx.
Qed.

(** *** What is let through *)

Lemma addressed_inv ip a s s' ok :
  addressed ip a s = (s', Ok ok) ->
  s' = s /\ (ok = true -> listening s = false -> Address.ipv4_numeric (a (config s)) = Ok ip).
Proof.
  unfold addressed, bind, get, lift, ret. destruct (listening s); [by intros [= <- <-]|].
  destruct (Address.ipv4_numeric (a (config s))) as [mine|]; [|done]. intros [= <- <-]. split; [done|].
  by intros ->%Z.eqb_eq.
Qed.

Lemma unwrap_spec d s s' seg :
  unwrap_tcp_in_ip d s = (s', Ok (Some seg)) ->
  (exists b, BufferList.to_buffer (IPv4Datagram._payload d) = Ok b /\
     TCPSegment.parse TCPSegment.default b (IPv4Header.pseudo_cksum (IPv4Datagram._header d)) = (seg, NoError)) /\
  IPv4Header.proto (IPv4Datagram._header d) = IPv4Header.PROTO_TCP /\
  listening s' = false /\
  port (source (config s)) = Ok (TCPHeader.dport (TCPSegment.header seg)) /\
  port (destination (config s')) = Ok (TCPHeader.sport (TCPSegment.header seg)) /\
  (listening s = false -> s' = s /\
     Address.ipv4_numeric (source (config s)) = Ok (IPv4Header.dst (IPv4Datagram._header d)) /\
     Address.ipv4_numeric (destination (config s)) = Ok (IPv4Header.src (IPv4Datagram._header d))) /\
  (listening s = true -> TCPHeader.syn (TCPSegment.header seg) = true /\ TCPHeader.rst (TCPSegment.header seg) = false /\
     of_ip_port (IPv4Header.dst (IPv4Datagram._header d)) (TCPHeader.dport (TCPSegment.header seg)) = Ok (source (config s')) /\
     of_ip_port (IPv4Header.src (IPv4Datagram._header d)) (TCPHeader.sport (TCPSegment.header seg)) = Ok (destination (config s'))).
Proof.
  unfold unwrap_tcp_in_ip. intros (a1 & s1 & [-> A1]%addressed_inv & H1)%bind_ok. destruct a1; [|done]. cbn [negb] in H1.
  apply bind_ok in H1 as (a2 & s2 & [-> A2]%addressed_inv & H1). destruct a2; [|done]. cbn [negb] in H1.
  destruct (Z.eqb_spec (IPv4Header.proto (IPv4Datagram._header d)) IPv4Header.PROTO_TCP) as [Ep|]; [|done]. cbn [negb] in H1.
  rewrite bind_lift in H1. destruct (BufferList.to_buffer _) as [b|] eqn:Eb; [|done].
  destruct (TCPSegment.parse _ _ _) as [seg1 r] eqn:Es. case_bool_decide as Hr; [|done]. subst r. cbn [negb] in H1.
  apply bind_ok in H1 as (? & ? & [= <- <-] & H1). rewrite bind_lift in H1.
  destruct (port (source (config s))) as [mp|] eqn:Emp; [|done].
  destruct (Z.eqb_spec (TCPHeader.dport (TCPSegment.header seg1)) mp) as [Ed|]; [|done]. cbn [negb] in H1.
  apply bind_ok in H1 as (ad & s3 & Had & H1). destruct ad; [|done]. cbn [negb] in H1.
  apply bind_ok in H1 as (? & ? & [= <- <-] & H1). rewrite bind_lift in H1.
  destruct (port (destination (config s3))) as [pp|] eqn:Epp; [|done].
  destruct (Z.eqb_spec (TCPHeader.sport (TCPSegment.header seg1)) pp) as [Esp|]; [|done]. cbn [negb] in H1.
  injection H1 as <- <-. split; [by exists b|]. split; [done|].
  unfold adopt_peer in Had. apply bind_ok in Had as (? & ? & [= <- <-] & Had).
  destruct (listening s) eqn:Els.
  - destruct (TCPHeader.syn (TCPSegment.header seg1)), (TCPHeader.rst (TCPSegment.header seg1)); try done. cbn [andb negb] in Had.
    rewrite Emp, bind_lift in Had. apply bind_ok in Had as (src & ? & [= <- Esrc] & Had).
    apply bind_ok in Had as (? & ? & [= <- <-] & Had). apply bind_ok in Had as (dst & ? & [= <- Edst] & Had).
    apply bind_ok in Had as (? & ? & [= <- <-] & Had). apply bind_ok in Had as (? & ? & [= <- <-] & Had).
    injection Had as <-. split_and!; try done; try congruence. intros _. split_and!; [done|done|by rewrite Ed|done].
  - injection Had as <-. split_and!; try done; [congruence|congruence|]. intros _. split_and!; [done|by apply A1|by apply A2].
Qed.

(** What the IPv4 adapter lets through: a segment comes out only of a TCP
    datagram whose segment parses and verifies under the pseudo-header. The
    adapter then is not listening, and is configured for exactly the ports of
    the segment; if it was not listening before, it is unchanged and the
    datagram's addresses are the configured ones; if it was, the segment is a
    SYN without RST. *)
Theorem unwrap_filters d s s' seg :
  unwrap_tcp_in_ip d s = (s', Ok (Some seg)) ->
  (exists b, BufferList.to_buffer (IPv4Datagram._payload d) = Ok b /\
     TCPSegment.parse TCPSegment.default b (IPv4Header.pseudo_cksum (IPv4Datagram._header d)) = (seg, NoError)) /\
  IPv4Header.proto (IPv4Datagram._header d) = IPv4Header.PROTO_TCP /\
  listening s' = false /\
  port (source (config s)) = Ok (TCPHeader.dport (TCPSegment.header seg)) /\
  port (destination (config s')) = Ok (TCPHeader.sport (TCPSegment.header seg)) /\
  (listening s = false -> s' = s /\
     Address.ipv4_numeric (source (config s)) = Ok (IPv4Header.dst (IPv4Datagram._header d)) /\
     Address.ipv4_numeric (destination (config s)) = Ok (IPv4Header.src (IPv4Datagram._header d))) /\
  (listening s = true -> TCPHeader.syn (TCPSegment.header seg) = true /\ TCPHeader.rst (TCPSegment.header seg) = false).
Proof.
  intros E%unwrap_spec. destruct E as (H1 & H2 & H3 & H4 & H5 & H6 & H7). split_and!; try done. intros Hl. by destruct (H7 Hl) as (? & ? & _).
Qed.

Definition obeys (l : bool) (x : FdAdapterBase.t * result (option TCPSegment.t)) : Prop := read_law l (listening x.1) x.2.

Lemma obeys_bind {A} (m : M FdAdapterBase.t A) k s l :
  listening (m s).1 = l -> (forall a s', m s = (s', Ok a) -> listening s' = l -> obeys l (k a s')) -> obeys l (bind m k s).
Proof. intros Hm Hk. unfold bind. destruct (m s) as [s1 [a|e]]; cbn in Hm |- *; [by apply Hk|done]. Qed.

Lemma unwrap_obeys d s :
  AddressTextLaw _ -> is_u32 (IPv4Header.src (IPv4Datagram._header d)) -> obeys (listening s) (unwrap_tcp_in_ip d s).
Proof.
  intros Hlaw Hsrc. remember (listening s) as l eqn:El. unfold unwrap_tcp_in_ip.
  assert (Ha : forall ip a s, listening (addressed ip a s).1 = listening s).
  { intros ip a s0. unfold addressed, bind, get. destruct (listening s0) eqn:E; [exact E|]. by destruct (Address.ipv4_numeric _). }
  apply obeys_bind; [by rewrite Ha|]. intros [|] s1 _ E1; [|exact E1]. cbn [negb].
  apply obeys_bind; [by rewrite Ha|]. intros [|] s2 _ E2; [|exact E2]. cbn [negb].
  destruct (negb _); [exact E2|]. apply obeys_bind; [exact E2|]. intros b s3 _ E3.
  destruct (TCPSegment.parse _ _ _) as [seg r] eqn:Ep. case_bool_decide as Hr; [|exact E3]. subst r. cbn [negb].
  apply TCPSegment.parse_in_range in Ep as (Hsp & Hack & Hwin).
  apply obeys_bind; [exact E3|]. intros _ _ [= <- <-] _. apply obeys_bind; [exact E3|]. intros mp s4 [= <- Emp] _.
  destruct (negb _); [exact E3|]. clear s1 s2 E1 E2 El. unfold adopt_peer.
  assert (Hend : forall s', obeys l ((s <- get;; peer_port <- lift (port (destination (config s)));;
    (if negb (TCPHeader.sport (TCPSegment.header seg) =? peer_port) then ret None else ret (Some seg))) s') <->
    match port (destination (config s')) with
    | Ok p => if TCPHeader.sport (TCPSegment.header seg) =? p then read_law l (listening s') (Ok (Some seg)) else listening s' = l
    | Throw _ => listening s' = l
    end).
  { intros s'. unfold bind, get, lift. destruct (port (destination (config s'))) as [p|]; [|done]. by destruct (_ =? p). }
  destruct (listening s3) eqn:E3'.
  - destruct (TCPHeader.syn (TCPSegment.header seg)) eqn:Esyn, (TCPHeader.rst (TCPSegment.header seg));
      try (unfold bind at 1, bind at 1, get; rewrite E3'; cbn [negb andb]; subst l; exact E3').
    destruct (of_ip_port_spec (IPv4Header.src (IPv4Datagram._header d)) (TCPHeader.sport (TCPSegment.header seg)) Hsrc Hsp)
      as (dst & Edst & _ & Eport).
    unfold bind at 1, bind at 1, get at 1. rewrite E3'. cbn [negb andb]. rewrite Emp. unfold lift, bind at 1, bind at 1.
    destruct (of_ip_port _ mp) as [src|]; [|subst l; exact E3']. unfold bind at 1, modify at 1, bind at 1. rewrite Edst.
    unfold bind, modify, ret. cbn iota beta. apply Hend. cbn [listening config set_listening setter set_listen set_cfg _cfg
      FdAdapterConfig.destination set_destination destination]. rewrite Eport, Z.eqb_refl. by subst l.
  - unfold bind at 1, bind at 1, get at 1. rewrite E3'. unfold ret at 1. cbn [negb]. apply Hend.
    destruct (port (destination (config s3))) as [p|]; [|by rewrite E3']. rewrite E3'. destruct (_ =? p); [|done]. by subst l.
Qed.

(** Nothing here changes the loss rates. *)
Definition keeps_rate {B} (m : M FdAdapterBase.t B) : Prop := forall s, FdAdapterBase.rate (m s).1 = FdAdapterBase.rate s.

Lemma keeps_rate_bind {B C} (m : M FdAdapterBase.t B) (k : B -> M FdAdapterBase.t C) :
  keeps_rate m -> (forall b, keeps_rate (k b)) -> keeps_rate (bind m k).
Proof. intros Hm Hk s. unfold bind. specialize (Hm s). destruct (m s) as [s1 [b|e]]; [|done]. by rewrite Hk. Qed.

Ltac solve_keeps_rate := repeat first
  [ done | apply keeps_rate_bind; [|intros ?] | match goal with |- keeps_rate (match ?x with _ => _ end) => destruct x end ].

Lemma unwrap_rate d : keeps_rate (unwrap_tcp_in_ip d).
Proof. unfold unwrap_tcp_in_ip, addressed, adopt_peer. solve_keeps_rate. Qed.
End Adapter.
End TCPOverIPv4Adapter.

(** ** One end of a connection, with addresses that are [sockaddr_in]s *)

Module Endpoint.
Import SockaddrIn.
Definition endpoint (ip1 p1 ip2 p2 : Z) : FdAdapterBase.t :=
  FdAdapterBase.mk (FdAdapterConfig.mk (sockaddr_of ip1 p1) (sockaddr_of ip2 p2) 0 0) false.

Lemma endpoint_connected ip1 p1 ip2 p2 :
  is_u32 ip1 -> is_u32 ip2 -> is_u16 p1 -> is_u16 p2 -> TCPOverIPv4Adapter.connected ip1 p1 ip2 p2 (endpoint ip1 p1 ip2 p2).
Proof. intros. split; [done|by apply sockaddr_of_ip|by apply sockaddr_of_port|by apply sockaddr_of_ip|by apply sockaddr_of_port]. Qed.
End Endpoint.

(** ** The interface of adapters

    [A] is the adapter's state and [I] what the kernel answers to a read of its
    device. [fd_descriptor] is the conversion to a file descriptor. *)

Class FdAdapter (A I : Type) := {
  fd_descriptor : A -> FDWrapper.t;
  fd_base : A -> FdAdapterBase.t;
  fd_set_base : FdAdapterBase.t -> A -> A;
  fd_read : I -> M A (option TCPSegment.t);
  fd_write : TCPSegment.t -> M A unit;
  fd_tick : Z -> M A unit
}.

Definition fd_config {A I} `{FdAdapter A I} (a : A) : FdAdapterConfig.t := FdAdapterBase.config (fd_base a).
Definition fd_set_listening {A I} `{FdAdapter A I} (l : bool) (a : A) : A :=
  fd_set_base (FdAdapterBase.set_listening l (fd_base a)) a.
Definition fd_config_mut {A I} `{FdAdapter A I} (c : FdAdapterConfig.t) (a : A) : A :=
  fd_set_base (FdAdapterBase.config_mut c (fd_base a)) a.

(** What the socket relies on: a segment that is read has fields of the right
    width; an adapter stops listening exactly when it returns a segment, which is
    then a SYN; and nothing else makes it start or stop listening, or changes
    the loss rates. A lossy adapter loses the SYN after it has stopped listening:
    [fd_allows] tells at which rates the adapter may listen. *)
Class FdAdapterLaw (A I : Type) `{FdAdapter A I} := {
  fd_allows : Z -> Prop;
  law_base : forall b a, fd_base (fd_set_base b a) = b;
  law_read : forall i a,
    (FdAdapterBase.listening (fd_base a) = true -> fd_allows (FdAdapterBase.rate (fd_base a))) ->
    let '(a', r) := fd_read i a in
    FdAdapterBase.read_law (FdAdapterBase.listening (fd_base a)) (FdAdapterBase.listening (fd_base a')) r;
  law_rate : forall i a, FdAdapterBase.rate (fd_base (fd_read i a).1) = FdAdapterBase.rate (fd_base a);
  law_write : forall seg a, fd_base (fd_write seg a).1 = fd_base a;
  law_tick : forall ms a, fd_base (fd_tick ms a).1 = fd_base a
}.

(** *** UDP *)

Module TCPOverUDPSocketAdapter.
Import FdAdapterBase FdAdapterConfig.

(** [k_sends]: the answers to the next [sendmsg(2)], given the size of the message;
    [sent]: the datagrams that the kernel has taken, with their destinations. *)
Record t := mk {
  base : FdAdapterBase.t;
  _sock : FDWrapper.t;
  k_sends : nat -> Z -> answer Z;
  sent : list (Address.t * list byte)
}.
#[global] Instance set_base : Setter base := fun f s => mk (f (base s)) (_sock s) (k_sends s) (sent s).
#[global] Instance set_sock : Setter _sock := fun f s => mk (base s) (f (_sock s)) (k_sends s) (sent s).

Definition in_sock {A} (m : M FDWrapper.t A) : M t A := zoom _sock (fun w s => s <| _sock := w |>) m.

Definition read (answered : answer (Address.t * list byte)) : M t (option TCPSegment.t) :=
  datagram <- in_sock (UDPSocket.recv UDPSocket.MTU answered);;
  let '(source_address, payload) := datagram in
  s <- get;;
  if negb (listening (base s)) && negb (Address.eqb source_address (destination (config (base s)))) then ret None else
  let '(seg, r) := TCPSegment.parse TCPSegment.default (Buffer.of_string payload) 0 in
  if negb (bool_decide (r = NoError)) then ret None else
  if listening (base s) then
    if TCPHeader.syn (TCPSegment.header seg) && negb (TCPHeader.rst (TCPSegment.header seg)) then
      modify (fun s => s <| base := (base s) <| _cfg := (_cfg (base s)) <| destination := source_address |> |> |>);;
      modify (fun s => s <| base := set_listening false (base s) |>);;
      ret (Some seg)
    else ret None
  else ret (Some seg).

(** [sendmsg(2)] *)
Definition sys_sendmsg (destination : Address.t) (data : list byte) : M t (answer Z) := fun s =>
  let a := k_sends s 0%nat (zlen data) in
  (mk (base s) (_sock s) (fun n => k_sends s (S n)) (sent s ++ map (pair destination) (PacketDevice.taken a data)), Ok a).

Section Write.
Context `{AddressText}.
Definition write (seg : TCPSegment.t) : M t unit :=
  s <- get;;
  sport <- lift (port (source (config (base s))));;
  dport <- lift (port (destination (config (base s))));;
  bytes <- lift (TCPSegment.serialize (TCPOverIPv4Adapter.with_ports seg sport dport) 0);;
  a <- sys_sendmsg (destination (config (base s))) (BufferList.concatenate bytes);;
  in_sock (UDPSocket.sendto (BufferViewList.of_buffer_list bytes) a).

#[global] Instance udp_adapter : FdAdapter t (answer (Address.t * list byte)) :=
  {| fd_descriptor := _sock; fd_base := base; fd_set_base b a := a <| base := b |>; fd_read := read; fd_write := write; fd_tick ms := ret tt |}.
End Write.
End TCPOverUDPSocketAdapter.

(** *** A TUN device *)

Module TCPOverIPv4OverTunFdAdapter.

Record t := mk {
  base : FdAdapterBase.t;
  _tun : PacketDevice.t
}.
#[global] Instance set_base : Setter base := fun f s => mk (f (base s)) (_tun s).
#[global] Instance set_tun : Setter _tun := fun f s => mk (base s) (f (_tun s)).

Definition in_tun {A} (m : M PacketDevice.t A) : M t A := zoom _tun (fun w s => s <| _tun := w |>) m.

Section Adapter.
Context `{AddressText}.
Definition in_base {A} (m : M FdAdapterBase.t A) : M t A := zoom base (fun b s => s <| base := b |>) m.

Definition read (answered : answer (list byte)) : M t (option TCPSegment.t) :=
  bytes <- in_tun (PacketDevice.in_descriptor (FDWrapper.read FDWrapper.SIZE_MAX answered));;
  let '(ip_dgram, r) := IPv4Datagram.parse IPv4Datagram.default (Buffer.of_string bytes) in
  if negb (bool_decide (r = NoError)) then ret None
  else in_base (TCPOverIPv4Adapter.unwrap_tcp_in_ip ip_dgram).

Definition write (seg : TCPSegment.t) : M t unit :=
  d <- in_base (TCPOverIPv4Adapter.wrap_tcp_in_ip seg);;
  bytes <- lift (IPv4Datagram.serialize d.2);;
  in_tun (PacketDevice.write (BufferViewList.of_buffer_list bytes)).

#[global] Instance tun_adapter : FdAdapter t (answer (list byte)) :=
  {| fd_descriptor s := PacketDevice.descriptor (_tun s); fd_base := base; fd_set_base b a := a <| base := b |>; fd_read := read; fd_write := write; fd_tick ms := ret tt |}.
End Adapter.
End TCPOverIPv4OverTunFdAdapter.

(** *** A TAP device: TCP over IPv4 over Ethernet *)

Module TCPOverIPv4OverEthernetAdapter.

Record t := mk {
  base : FdAdapterBase.t;
  _tap : PacketDevice.t;
  _interface : NetworkInterface.t;
  _next_hop : Address.t
}.
#[global] Instance set_base : Setter base := fun f s => mk (f (base s)) (_tap s) (_interface s) (_next_hop s).
#[global] Instance set_tap : Setter _tap := fun f s => mk (base s) (f (_tap s)) (_interface s) (_next_hop s).
#[global] Instance set_interface : Setter _interface := fun f s => mk (base s) (_tap s) (f (_interface s)) (_next_hop s).

(** The frames that the device has taken. *)
Definition sent (s : t) : list (list byte) := PacketDevice.sent (_tap s).

Definition in_tap {A} (m : M PacketDevice.t A) : M t A := zoom _tap (fun w s => s <| _tap := w |>) m.

(** [_tap.write(...)] *)
Definition tap_write (bytes : BufferList.t) : M t unit := in_tap (PacketDevice.write (BufferViewList.of_buffer_list bytes)).

(** The constructor sends a dummy frame; its header is zero. *)
Definition make (b : FdAdapterBase.t) (tap : PacketDevice.t) (eth_address : EthernetAddress) (ip_address next_hop : Address.t) : result t :=
  let '(s, r) := tap_write (EthernetFrame.serialize EthernetFrame.empty) (mk b tap (NetworkInterface.make eth_address ip_address) next_hop) in
  let* _ := r in Ok s.

(** The loop of [send_pending], over the frames in the queue: a frame is popped when
    its write has returned. *)
Fixpoint send_frames (frames : list EthernetFrame.t) : M t unit :=
  match frames with
  | [] => ret tt
  | f :: frames =>
      tap_write (EthernetFrame.serialize f);;
      modify (fun s => s <| _interface := (_interface s) <| NetworkInterface._frames_out := frames |> |>);;
      send_frames frames
  end.
Definition send_pending : M t unit := s <- get;; send_frames (NetworkInterface._frames_out (_interface s)).

Section Adapter.
Context `{AddressText}.
Definition in_base {A} (m : M FdAdapterBase.t A) : M t A := zoom base (fun b s => s <| base := b |>) m.
Definition in_interface {A} (m : M NetworkInterface.t A) : M t A := zoom _interface (fun i s => s <| _interface := i |>) m.

Definition read (answered : answer (list byte)) : M t (option TCPSegment.t) :=
  bytes <- in_tap (PacketDevice.in_descriptor (FDWrapper.read FDWrapper.SIZE_MAX answered));;
  let '(frame, r) := EthernetFrame.parse EthernetFrame.empty (Buffer.of_string bytes) in
  if negb (bool_decide (r = NoError)) then ret None else
  ip_dgram <- in_interface (fun i => NetworkInterface.recv_frame i frame);;
  send_pending;;
  match ip_dgram with
  | Some d => in_base (TCPOverIPv4Adapter.unwrap_tcp_in_ip d)
  | None => ret None
  end.

Definition tick (ms_since_last_tick : Z) : M t unit :=
  modify (fun s => s <| _interface := NetworkInterface.tick (_interface s) ms_since_last_tick |>);;
  send_pending.

Definition write (seg : TCPSegment.t) : M t unit :=
  d <- in_base (TCPOverIPv4Adapter.wrap_tcp_in_ip seg);;
  s <- get;;
  in_interface (fun i => NetworkInterface.send_datagram i d.2 (_next_hop s));;
  send_pending.

#[global] Instance ethernet_adapter : FdAdapter t (answer (list byte)) :=
  {| fd_descriptor s := PacketDevice.descriptor (_tap s); fd_base := base; fd_set_base b a := a <| base := b |>; fd_read := read; fd_write := write; fd_tick := tick |}.
End Adapter.
End TCPOverIPv4OverEthernetAdapter.

(** *** Random loss *)

Module LossyFdAdapter.
Section Lossy.
Context {A I : Type} `{FdAdapter A I}.

(** [_rand]: the numbers the generator will produce. *)
Record t := mk {
  _rand : nat -> Z;
  _adapter : A
}.

Definition in_adapter {B} (m : M A B) : M t B := zoom _adapter (fun a s => mk (_rand s) a) m.

(** [_rand()] *)
Definition draw : M t Z := fun s => (mk (fun n => _rand s (S n)) (_adapter s), Ok (u32 (_rand s 0%nat))).

Definition _should_drop (uplink : bool) : M t bool :=
  s <- get;;
  let cfg := fd_config (_adapter s) in
  let loss := if uplink then FdAdapterConfig.loss_rate_up cfg else FdAdapterConfig.loss_rate_dn cfg in
  if loss =? 0 then ret false else r <- draw;; ret (u16 r <? loss).

Definition read (i : I) : M t (option TCPSegment.t) :=
  r <- in_adapter (fd_read i);;
  drop <- _should_drop false;;
  if drop : bool then ret None else ret r.

Definition write (seg : TCPSegment.t) : M t unit :=
  drop <- _should_drop true;;
  if drop : bool then ret tt else in_adapter (fd_write seg).

Definition tick (ms : Z) : M t unit := in_adapter (fd_tick ms).

#[global] Instance lossy_adapter : FdAdapter t I :=
  {| fd_descriptor s := fd_descriptor (_adapter s); fd_base s := fd_base (_adapter s); fd_set_base b s := mk (_rand s) (fd_set_base b (_adapter s));
     fd_read := read; fd_write := write; fd_tick := tick |}.
End Lossy.
End LossyFdAdapter.
