(* ===== verification/adapters.v ===== *)
(** What the adapters guarantee: loss is the only thing a lossy adapter adds, and
    two full stacks (TCP over IPv4 over Ethernet) on one wire deliver segments to
    each other. *)

From S2P Require Import prelude effects wrapping_integers buffer parser ethernet ipv4 tcp_segment address network_interface arp_cache file_descriptor fd_adapter.

Module Adapters.

(** ** Loss *)

Section Lossy.
Context {A I : Type} `{FdAdapter A I}.

Lemma should_drop_spec up (s : LossyFdAdapter.t (A := A)) :
  exists s' drop, LossyFdAdapter._should_drop up s = (s', Ok drop) /\
    LossyFdAdapter._adapter s' = LossyFdAdapter._adapter s /\
    ((if up then FdAdapterConfig.loss_rate_up (fd_config (LossyFdAdapter._adapter s))
      else FdAdapterConfig.loss_rate_dn (fd_config (LossyFdAdapter._adapter s))) = 0 -> drop = false /\ s' = s).
Proof.
  unfold LossyFdAdapter._should_drop, bind, get. set (loss := if up then _ else _).
  destruct (Z.eqb_spec loss 0); [by exists s, false|]. eexists _, _. done.
Qed.

(** A read of the lossy adapter against the read of the adapter inside: the
    result is the same, or a result was dropped because the rate allows it. *)
Definition read_or_lost (a1 : A) (r r' : result (option TCPSegment.t)) : Prop :=
  r' = r \/ (r' = Ok None /\ FdAdapterConfig.loss_rate_dn (fd_config a1) <> 0 /\ exists x, r = Ok x).

(** A lossy adapter only loses: a read does to the adapter inside what its
    own read does, and returns its result or nothing; a write either is the
    inner write or does nothing; an exception of the inner adapter passes
    through; and with loss rates 0 both are exactly the inner operations. *)
Theorem lossy_only_loses (s : LossyFdAdapter.t (A := A)) (i : I) seg :
  let a := LossyFdAdapter._adapter s in
  (let '(a1, r) := fd_read i a in
   let '(s', r') := LossyFdAdapter.read i s in
   LossyFdAdapter._adapter s' = a1 /\ read_or_lost a1 r r') /\
  (let '(s', r') := LossyFdAdapter.write seg s in
   (LossyFdAdapter._adapter s', r') = fd_write seg a \/
   (LossyFdAdapter._adapter s' = a /\ r' = Ok tt /\ FdAdapterConfig.loss_rate_up (fd_config a) <> 0)).
Proof.
  intros a. split.
  - unfold LossyFdAdapter.read, LossyFdAdapter.in_adapter, zoom, bind at 1. fold a.
    destruct (fd_read i a) as [a1 [x|e]]; [|by split; [|left]].
    destruct (should_drop_spec false (LossyFdAdapter.mk (LossyFdAdapter._rand s) a1)) as (s' & drop & E & Ea & Hz).
    rewrite (bind_step _ _ _ _ _ E). cbn in Ea, Hz. destruct drop; [|by split; [|left]].
    split; [done|]. right. split_and!; [done| |by exists x]. intros H0. by destruct (Hz H0).
  - unfold LossyFdAdapter.write. destruct (should_drop_spec true s) as (s' & drop & E & Ea & Hz).
    rewrite (bind_step _ _ _ _ _ E). destruct drop.
    + right. split_and!; [done|done|]. intros H0. by destruct (Hz H0).
    + unfold LossyFdAdapter.in_adapter, zoom. rewrite Ea. fold a. destruct (fd_write seg a). by left.
Qed.
End Lossy.

(** ** Two full stacks *)

Section FullStack.
Context `{AddressText}.
Import TCPOverIPv4OverEthernetAdapter.

(** The bytes of a frame on the wire. *)
Definition wire (f : EthernetFrame.t) : list byte := BufferList.concatenate (EthernetFrame.serialize f).

(** [s'] is [s] after the device took the frames [fs] of its queue. *)
Record flushed (fs : list EthernetFrame.t) (s s' : t) : Prop := {
  fl_accepting : PacketDevice.accepting (PacketDevice.k_writes (_tap s'));
  fl_sent : sent s' = sent s ++ map wire fs;
  fl_base : base s' = base s;
  fl_interface : _interface s' = (_interface s) <| NetworkInterface._frames_out := [] |>;
  fl_next_hop : _next_hop s' = _next_hop s
}.

Lemma tap_write_accepted f s :
  PacketDevice.accepting (PacketDevice.k_writes (_tap s)) -> zlen (wire f) < 2 ^ 31 ->
  exists w, tap_write (EthernetFrame.serialize f) s = (s <| _tap := w |>, Ok tt) /\
    PacketDevice.accepting (PacketDevice.k_writes w) /\ PacketDevice.sent w = sent s ++ [wire f].
Proof.
  intros Ha Hl. unfold wire in Hl. rewrite <- BufferViewList.concat_views in Hl.
  destruct (PacketDevice.write_taken _ (_tap s) Hl (Ha _ _ Hl)) as [E _]. eexists. split.
  - unfold tap_write, in_tap, zoom. by rewrite E.
  - split; [by apply PacketDevice.accepting_next|]. cbn [PacketDevice.sent]. by rewrite BufferViewList.concat_views.
Qed.

Lemma send_frames_accepted fs s :
  PacketDevice.accepting (PacketDevice.k_writes (_tap s)) -> Forall (fun f => zlen (wire f) < 2 ^ 31) fs ->
  NetworkInterface._frames_out (_interface s) = fs ->
  exists s', send_frames fs s = (s', Ok tt) /\ flushed fs s s'.
Proof.
  revert s. induction fs as [|f fs IH]; intros s Ha Hl Eq; cbn [send_frames].
  - exists s. split; [done|]. split; try done; [by rewrite app_nil_r|]. destruct (_interface s). cbn in Eq |- *. by rewrite Eq.
  - apply Forall_cons_1 in Hl as [Hf Hl]. destruct (tap_write_accepted f s Ha Hf) as (w & E & Hw & Hs).
    rewrite (bind_step _ _ _ _ _ E). unfold bind, modify.
    destruct (IH (s <| _tap := w |> <| _interface := (_interface s) <| NetworkInterface._frames_out := fs |> |>)) as (s' & E' & []); try done.
    exists s'. split; [exact E'|]. split; try done. rewrite fl_sent0. unfold sent in Hs |- *. cbn. by rewrite Hs, <- app_assoc.
Qed.

Lemma send_pending_accepted s :
  PacketDevice.accepting (PacketDevice.k_writes (_tap s)) ->
  Forall (fun f => zlen (wire f) < 2 ^ 31) (NetworkInterface._frames_out (_interface s)) ->
  exists s', send_pending s = (s', Ok tt) /\ flushed (NetworkInterface._frames_out (_interface s)) s s'.
Proof. intros Ha Hl. by apply send_frames_accepted. Qed.

(** Whatever the device answers, only the device and the queue of frames change. *)
Lemma send_frames_keeps fs s : base (send_frames fs s).1 = base s /\ _next_hop (send_frames fs s).1 = _next_hop s.
Proof.
  revert s. induction fs as [|f fs IH]; intros s; cbn [send_frames]; [done|]. unfold bind, modify, tap_write, in_tap, zoom.
  destruct (PacketDevice.write _ (_tap s)) as [w [u|e]]; [|done].
  match goal with |- context [send_frames fs ?x] => by destruct (IH x) as [-> ->] end.
Qed.

Lemma send_pending_base s : base (send_pending s).1 = base s.
Proof. apply send_frames_keeps. Qed.

Lemma wire_length f : ArpCache.well_framed f -> 0 < zlen (wire f) <= FDWrapper.BUFFER_SIZE.
Proof.
  intros [Hwf Hlen]. unfold wire. rewrite EthernetFrame.concatenate_serialize, length_app.
  rewrite EthernetHeader.eth_header_length_serialize by done. unfold FDWrapper.BUFFER_SIZE. lia.
Qed.

(** The adapter after a read of its device. *)
Definition registered (s : t) : t := s <| _tap := (_tap s) <| PacketDevice.descriptor := FDWrapper.register_read (PacketDevice.descriptor (_tap s)) |> |>.

(** Reading a frame from the wire. *)
Lemma read_wire f s :
  ArpCache.well_framed f ->
  read (Done (wire f)) s =
    (ip_dgram <- in_interface (fun i => NetworkInterface.recv_frame i f);;
     send_pending;;
     match ip_dgram with
     | Some d => in_base (TCPOverIPv4Adapter.unwrap_tcp_in_ip d)
     | None => ret None
     end) (registered s).
Proof.
  intros [Hwf Hlen]. unfold read. rewrite (bind_step _ _ s (registered s) (wire f)).
  2: { unfold in_tap, PacketDevice.in_descriptor, zoom. by rewrite FDWrapper.read_done by (by apply wire_length). }
  unfold wire.
  destruct (EthernetFrame.eth_frame_parse_serialize f EthernetFrame.empty Hwf ltac:(lia)) as (f' & -> & Eh & Ep).
  rewrite bool_decide_true by done. cbn [negb]. unfold bind, in_interface, zoom. by rewrite (ArpCache.recv_frame_ext _ f' f).
Qed.

Lemma read_wire_none f s i' :
  ArpCache.well_framed f -> NetworkInterface.recv_frame (_interface s) f = (i', Ok None) ->
  PacketDevice.accepting (PacketDevice.k_writes (_tap s)) -> Forall ArpCache.well_framed (NetworkInterface._frames_out i') ->
  exists s', read (Done (wire f)) s = (s', Ok None) /\ flushed (NetworkInterface._frames_out i') (s <| _interface := i' |>) s'.
Proof.
  intros Hf E Ha Hi. rewrite read_wire by done. unfold bind at 1, in_interface, zoom.
  change (_interface (registered s)) with (_interface s). rewrite E.
  destruct (send_pending_accepted ((registered s) <| _interface := i' |>)) as (s' & E' & []); [done| |].
  { eapply Forall_impl; [exact Hi|]. intros g Hg%wire_length. unfold FDWrapper.BUFFER_SIZE in Hg. lia. }
  exists s'. rewrite (bind_step _ _ _ _ _ E'). split; [done|]. by split.
Qed.

Lemma make_base b tap eth ip hop s : make b tap eth ip hop = Ok s -> base s = b.
Proof.
  unfold make, tap_write, in_tap, zoom. destruct (PacketDevice.write _ _) as [w [u|e]]; [|done]. by intros [= <-].
Qed.

Lemma make_accepted b tap eth ip hop :
  PacketDevice.accepting (PacketDevice.k_writes tap) ->
  exists s, make b tap eth ip hop = Ok s /\ PacketDevice.accepting (PacketDevice.k_writes (_tap s)) /\
    base s = b /\ _interface s = NetworkInterface.make eth ip /\ _next_hop s = hop.
Proof.
  intros Ha. unfold make.
  destruct (tap_write_accepted EthernetFrame.empty (mk b tap (NetworkInterface.make eth ip) hop) Ha) as (w & -> & Hw & _); [by vm_compute|].
  eexists. split; [reflexivity|]. done.
Qed.

(** A segment is written: the frames that the interface queues go out. *)
Lemma write_accepted seg s i' fs seg' d :
  PacketDevice.accepting (PacketDevice.k_writes (_tap s)) ->
  TCPOverIPv4Adapter.wrap_tcp_in_ip seg (base s) = (base s, Ok (seg', d)) ->
  NetworkInterface.send_datagram (_interface s) d (_next_hop s) = (i', Ok tt) ->
  NetworkInterface._frames_out i' = fs -> Forall ArpCache.well_framed fs ->
  exists s', write seg s = (s', Ok tt) /\ flushed fs (s <| _interface := i' |>) s'.
Proof.
  intros Ha Ew Es Ef Hf. unfold write, in_base, in_interface, zoom. unfold bind at 1. rewrite Ew.
  replace (s <| base := base s |>) with s by (by destruct s). unfold bind at 1, get, bind at 1. cbn [snd]. rewrite Es.
  destruct (send_pending_accepted (s <| _interface := i' |>)) as (s' & E' & F); [done| |].
  { change (_interface (s <| _interface := i' |>)) with i'. rewrite Ef. eapply Forall_impl; [exact Hf|]. intros g Hg%wire_length. unfold FDWrapper.BUFFER_SIZE in Hg. lia. }
  exists s'. split; [exact E'|]. change (_interface (s <| _interface := i' |>)) with i' in F. by rewrite Ef in F.
Qed.

(** A segment is read from a frame that makes the interface send nothing. *)
Lemma read_wire_segment f s d seg :
  ArpCache.well_framed f -> NetworkInterface.recv_frame (_interface s) f = (_interface s, Ok (Some d)) ->
  NetworkInterface._frames_out (_interface s) = [] ->
  TCPOverIPv4Adapter.unwrap_tcp_in_ip d (base s) = (base s, Ok (Some seg)) ->
  exists s', read (Done (wire f)) s = (s', Ok (Some seg)) /\ sent s' = sent s.
Proof.
  intros Hf Er Eq Eu. rewrite read_wire by done. unfold bind at 1, in_interface, zoom.
  change (_interface (registered s)) with (_interface s). rewrite Er. exists (registered s). split; [|done].
  replace ((registered s) <| _interface := _interface s |>) with (registered s) by (by destruct s).
  unfold bind at 1, send_pending, bind at 1, get. change (_interface (registered s)) with (_interface s). rewrite Eq. cbn [send_frames].
  unfold ret, in_base, zoom. change (base (registered s)) with (base s). rewrite Eu. by destruct s.
Qed.

(** The segment that arrives: the header of the segment that was sent, with the
    ports of the connection (which the header's [operator==] does not compare),
    and its payload. *)
Definition arrives_as (seg' seg : TCPSegment.t) (sport dport : Z) : Prop :=
  TCPHeader.eqb (TCPSegment.header seg') (TCPSegment.header seg) = true /\
  TCPHeader.sport (TCPSegment.header seg') = sport /\ TCPHeader.dport (TCPSegment.header seg') = dport /\
  Buffer.str (TCPSegment.payload seg') = Buffer.str (TCPSegment.payload seg).

(** C19. The full stack: two hosts with TCP-over-IPv4-over-Ethernet adapters share
    a wire, and neither knows the other's Ethernet address. One of them writes a
    segment: what goes over the wire is an ARP request, the answer of the other,
    and the frame with the data, from which the other's adapter reads the segment,
    with its payload and every header field intact and the ports of the
    connection. (The two devices accept what is written to them.) *)
Theorem full_stack_delivers ethA ipA pA ethB ipB pB bA bB tapA tapB seg :
  eth_ok ethA -> eth_ok ethB -> is_u32 ipA -> is_u32 ipB -> is_u16 pA -> is_u16 pB ->
  TCPOverIPv4Adapter.connected ipA pA ipB pB bA -> TCPOverIPv4Adapter.connected ipB pB ipA pA bB ->
  TCPOverIPv4Adapter.fits seg ->
  PacketDevice.accepting (PacketDevice.k_writes tapA) -> PacketDevice.accepting (PacketDevice.k_writes tapB) ->
  exists A B A1 request B1 reply A2 data B2 seg',
    make bA tapA ethA (Address.of_ip ipA) (Address.of_ip ipB) = Ok A /\
    make bB tapB ethB (Address.of_ip ipB) (Address.of_ip ipA) = Ok B /\
    write seg A = (A1, Ok tt) /\ sent A1 = sent A ++ [request] /\
    read (Done request) B = (B1, Ok None) /\ sent B1 = sent B ++ [reply] /\
    read (Done reply) A1 = (A2, Ok None) /\ sent A2 = sent A1 ++ [data] /\
    read (Done data) B1 = (B2, Ok (Some seg')) /\ sent B2 = sent B1 /\ arrives_as seg' seg pA pB.
Proof.
  intros HeA HeB HiA HiB HpA HpB CA CB Hf HtA HtB.
  destruct (make_accepted bA tapA ethA (Address.of_ip ipA) (Address.of_ip ipB) HtA) as (A & MA & MA1 & MA2 & MA3 & MA4).
  destruct (make_accepted bB tapB ethB (Address.of_ip ipB) (Address.of_ip ipA) HtB) as (B & MB & MB1 & MB2 & MB3 & MB4).
  destruct (TCPOverIPv4Adapter.wrap_tcp_eq ipA pA ipB pB bA seg CA HiA HiB HpA HpB Hf) as (l & El & Ew & Hwf & Hpar).
  set (d := IPv4Datagram.mk _ l) in *.
  destruct (ArpCache.arp_exchange ethA ipA ethB ipB d HeA HeB HiA HiB Hwf)
    as (iA1 & q & iB1 & r & iA2 & data & d' & b' & S1 & F1 & _ & R1 & F2 & _ & R2 & F3 & _ & R3 & Eh & Epl & Eb & Wb & Wq & Wr & Wd).
  destruct (write_accepted seg A iA1 [q] (TCPOverIPv4Adapter.with_ports seg pA pB) d) as (A1 & WA & FA1); [done|by rewrite MA2, Ew|by rewrite MA3, MA4|done|by constructor|].
  destruct (read_wire_none q B iB1) as (B1 & RB & FB1); [done|by rewrite MB3|done|by rewrite F2; constructor|].
  destruct (read_wire_none r A1 iA2) as (A2 & RA & FA2); [done|by rewrite (fl_interface _ _ _ FA1)|apply FA1|by rewrite F3; constructor|].
  rewrite Eb in Epl. destruct (Hpar TCPSegment.default b' Wb Epl) as (seg2 & E2 & Ehd & Es2).
  assert (U : TCPOverIPv4Adapter.unwrap_tcp_in_ip d' bB = (bB, Ok (Some seg2))).
  { apply (TCPOverIPv4Adapter.unwrap_tcp_eq ipA pA ipB pB bB d' b'); try done; by rewrite ?Eh, ?Ehd. }
  destruct (read_wire_segment data B1 d' seg2) as (B2 & RB2 & SB2).
  { done. } { by rewrite (fl_interface _ _ _ FB1). } { by rewrite (fl_interface _ _ _ FB1). }
  { rewrite (fl_base _ _ _ FB1). cbn. by rewrite MB2. }
  exists A, B, A1, (wire q), B1, (wire r), A2, (wire data), B2, seg2. split_and!; try done.
  - exact (fl_sent _ _ _ FA1).
  - rewrite (fl_sent _ _ _ FB1), F2. done.
  - rewrite (fl_sent _ _ _ FA2), F3. done.
  - unfold arrives_as. rewrite Ehd. split_and!; try done. unfold TCPHeader.eqb, wi_eq. cbn. by rewrite !Z.eqb_refl, !eqb_reflx.
Qed.

End FullStack.

(** ** The interface to the socket *)

Section Laws.
Context `{AddressTextLaw}.
Import FdAdapterBase.

#[global, refine] Instance udp_law : FdAdapterLaw TCPOverUDPSocketAdapter.t (answer (Address.t * list byte)) := {| fd_allows _ := True |}.
Proof.
  - done.
  - intros i a _. cbn [fd_read TCPOverUDPSocketAdapter.udp_adapter fd_base]. unfold TCPOverUDPSocketAdapter.read, TCPOverUDPSocketAdapter.in_sock, zoom, bind at 1.
    destruct (UDPSocket.recv _ i _) as [w [[src payload]|e]]; [|done]. set (a1 := setter _ a).
    change (TCPOverUDPSocketAdapter.base a) with (TCPOverUDPSocketAdapter.base a1). clearbody a1.
    unfold bind at 1, get. cbn iota beta. destruct (negb _ && negb _); [done|].
    destruct (TCPSegment.parse _ _ _) as [seg r] eqn:Ep. case_bool_decide as Hr; [|done]. subst r. cbn [negb].
    apply TCPSegment.parse_in_range in Ep as (_ & Hack & Hwin).
    destruct (listening (TCPOverUDPSocketAdapter.base a1)) eqn:El; [|by cbn; rewrite El; intuition].
    destruct (TCPHeader.syn (TCPSegment.header seg)) eqn:Es, (TCPHeader.rst (TCPSegment.header seg)); try exact El.
    by cbn; intuition.
  - intros i a. cbn [fd_read TCPOverUDPSocketAdapter.udp_adapter fd_base]. unfold TCPOverUDPSocketAdapter.read, TCPOverUDPSocketAdapter.in_sock, zoom, bind at 1.
    destruct (UDPSocket.recv _ i _) as [w [[src payload]|e]]; [|done]. unfold bind at 1, get. cbn iota beta. destruct (negb _ && negb _); [done|].
    destruct (TCPSegment.parse _ _ _) as [seg r]. destruct (negb _); [done|]. destruct (listening _); [|done].
    by destruct (TCPHeader.syn (TCPSegment.header seg)), (TCPHeader.rst (TCPSegment.header seg)).
  - intros seg a. cbn [fd_write TCPOverUDPSocketAdapter.udp_adapter fd_base]. unfold TCPOverUDPSocketAdapter.write, TCPOverUDPSocketAdapter.sys_sendmsg, TCPOverUDPSocketAdapter.in_sock, zoom, bind, get, lift.
    repeat match goal with |- context [match ?x with Ok _ => _ | Throw _ => _ end] => destruct x end; try done.
    match goal with |- context [UDPSocket.sendto ?x ?y ?z] => by destruct (UDPSocket.sendto x y z) end.
  - done.
Defined.

Lemma tun_unwrap a d :
  is_u32 (IPv4Header.src (IPv4Datagram._header d)) ->
  let '(a', r) := TCPOverIPv4OverTunFdAdapter.in_base (TCPOverIPv4Adapter.unwrap_tcp_in_ip d) a in
  read_law (listening (TCPOverIPv4OverTunFdAdapter.base a)) (listening (TCPOverIPv4OverTunFdAdapter.base a')) r.
Proof.
  intros Hd. unfold TCPOverIPv4OverTunFdAdapter.in_base, zoom.
  pose proof (TCPOverIPv4Adapter.unwrap_obeys d (TCPOverIPv4OverTunFdAdapter.base a) _ Hd) as Ho.
  by destruct (TCPOverIPv4Adapter.unwrap_tcp_in_ip d _).
Qed.

#[global, refine] Instance tun_law : FdAdapterLaw TCPOverIPv4OverTunFdAdapter.t (answer (list byte)) := {| fd_allows _ := True |}.
Proof.
  - done.
  - intros i a _. cbn [fd_read TCPOverIPv4OverTunFdAdapter.tun_adapter fd_base]. unfold TCPOverIPv4OverTunFdAdapter.read, TCPOverIPv4OverTunFdAdapter.in_tun, PacketDevice.in_descriptor, zoom, bind at 1.
    destruct (FDWrapper.read _ i _) as [w [l|e]]; [|done]. set (a1 := setter _ a).
    change (TCPOverIPv4OverTunFdAdapter.base a) with (TCPOverIPv4OverTunFdAdapter.base a1). clearbody a1.
    destruct (IPv4Datagram.parse _ _) as [d r] eqn:Ed. case_bool_decide; [|done]. cbn [negb].
    apply tun_unwrap. by apply IPv4Datagram.parse_addresses in Ed as [? _].
  - intros i a. cbn [fd_read TCPOverIPv4OverTunFdAdapter.tun_adapter fd_base]. unfold TCPOverIPv4OverTunFdAdapter.read, TCPOverIPv4OverTunFdAdapter.in_tun, PacketDevice.in_descriptor, zoom, bind at 1.
    destruct (FDWrapper.read _ i _) as [w [l|e]]; [|done]. destruct (IPv4Datagram.parse _ _) as [d r]. destruct (negb _); [done|].
    unfold TCPOverIPv4OverTunFdAdapter.in_base, zoom. pose proof (TCPOverIPv4Adapter.unwrap_rate d (TCPOverIPv4OverTunFdAdapter.base a)) as Hr.
    change (TCPOverIPv4OverTunFdAdapter.base (setter _ a)) with (TCPOverIPv4OverTunFdAdapter.base a).
    by destruct (TCPOverIPv4Adapter.unwrap_tcp_in_ip d _).
  - intros seg a. cbn [fd_write TCPOverIPv4OverTunFdAdapter.tun_adapter fd_base]. unfold TCPOverIPv4OverTunFdAdapter.write, TCPOverIPv4OverTunFdAdapter.in_base, TCPOverIPv4OverTunFdAdapter.in_tun, zoom, bind, lift.
    pose proof (TCPOverIPv4Adapter.wrap_keeps seg (TCPOverIPv4OverTunFdAdapter.base a)) as E.
    destruct (TCPOverIPv4Adapter.wrap_tcp_in_ip seg _) as [b [x|e]]; cbn in E; subst b; [|by destruct a]. destruct (IPv4Datagram.serialize _); [|done]. by destruct (PacketDevice.write _ _).
  - done.
Defined.

Lemma recv_frame_src i f i' d :
  NetworkInterface.recv_frame i f = (i', Ok (Some d)) -> is_u32 (IPv4Header.src (IPv4Datagram._header d)).
Proof.
  unfold NetworkInterface.recv_frame. destruct (_ && _).
  - destruct (IPv4Datagram.parse _ _) as [d0 r] eqn:Ed. destruct (decide (r = NoError)); [|done]. intros [= _ <-].
    by apply IPv4Datagram.parse_addresses in Ed as [? _].
  - destruct (ARPMessage.parse _ _) as [msg r]. destruct (decide (r = NoError)); [|done].
    destruct (NetworkInterface.flush_waiting _ _) as [s1 [u|ex]]; [|done]. destruct (_ =? _); [|done].
    destruct (Address.ipv4_numeric _) as [my|]; [|done]. destruct (_ =? my); [|done].
    destruct (NetworkInterface.send_arp _ _ _ _) as [s2 [u'|ex]]; done.
Qed.

(** A read leaves the configuration alone and returns no segment, or it ends with
    unwrapping a datagram. *)
Lemma ethernet_read_cases i a a' r :
  TCPOverIPv4OverEthernetAdapter.read i a = (a', r) ->
  (TCPOverIPv4OverEthernetAdapter.base a' = TCPOverIPv4OverEthernetAdapter.base a /\ forall seg, r <> Ok (Some seg)) \/
  exists d, is_u32 (IPv4Header.src (IPv4Datagram._header d)) /\
    TCPOverIPv4Adapter.unwrap_tcp_in_ip d (TCPOverIPv4OverEthernetAdapter.base a) = (TCPOverIPv4OverEthernetAdapter.base a', r).
Proof.
  unfold TCPOverIPv4OverEthernetAdapter.read, TCPOverIPv4OverEthernetAdapter.in_tap, PacketDevice.in_descriptor, zoom, bind at 1.
  destruct (FDWrapper.read _ i _) as [w [l|e]]; [|intros [= <- <-]; by left]. set (a1 := setter _ a).
  change (TCPOverIPv4OverEthernetAdapter.base a) with (TCPOverIPv4OverEthernetAdapter.base a1). clearbody a1.
  destruct (EthernetFrame.parse _ _) as [f r0]. case_bool_decide; [|intros [= <- <-]; by left]. cbn [negb].
  unfold TCPOverIPv4OverEthernetAdapter.in_interface, zoom, bind.
  destruct (NetworkInterface.recv_frame _ f) as [i' [od|e]] eqn:Er; [|intros [= <- <-]; by left]. set (a2 := setter _ a1).
  change (TCPOverIPv4OverEthernetAdapter.base a1) with (TCPOverIPv4OverEthernetAdapter.base a2). clearbody a2.
  pose proof (send_pending_base a2) as Hb.
  destruct (TCPOverIPv4OverEthernetAdapter.send_pending a2) as [a3 [u|e]]; cbn [fst] in Hb; [|intros [= <- <-]; by left].
  rewrite <- Hb. destruct od as [d|]; [|intros [= <- <-]; by left]. unfold TCPOverIPv4OverEthernetAdapter.in_base, zoom.
  intros E. right. exists d. split; [by eapply recv_frame_src|].
  destruct (TCPOverIPv4Adapter.unwrap_tcp_in_ip d _). by injection E as <- <-.
Qed.

#[global, refine] Instance ethernet_law : FdAdapterLaw TCPOverIPv4OverEthernetAdapter.t (answer (list byte)) := {| fd_allows _ := True |}.
Proof.
  - done.
  - intros i a _. cbn [fd_read TCPOverIPv4OverEthernetAdapter.ethernet_adapter fd_base].
    destruct (TCPOverIPv4OverEthernetAdapter.read i a) as [a' r] eqn:E. apply ethernet_read_cases in E.
    destruct E as [[-> Hr]|(d & Hd & Eu)]; [by destruct r as [[seg|]|]; [exfalso; apply (Hr seg)|..]|].
    pose proof (TCPOverIPv4Adapter.unwrap_obeys d (TCPOverIPv4OverEthernetAdapter.base a) _ Hd) as Ho. by rewrite Eu in Ho.
  - intros i a. cbn [fd_read TCPOverIPv4OverEthernetAdapter.ethernet_adapter fd_base].
    destruct (TCPOverIPv4OverEthernetAdapter.read i a) as [a' r] eqn:E. apply ethernet_read_cases in E as [[E _]|(d & _ & Eu)]; [by cbn; rewrite E|].
    pose proof (TCPOverIPv4Adapter.unwrap_rate d (TCPOverIPv4OverEthernetAdapter.base a)) as Hr. by rewrite Eu in Hr.
  - intros seg a. cbn [fd_write TCPOverIPv4OverEthernetAdapter.ethernet_adapter fd_base].
    unfold TCPOverIPv4OverEthernetAdapter.write, TCPOverIPv4OverEthernetAdapter.in_base, TCPOverIPv4OverEthernetAdapter.in_interface, zoom, bind, get.
    pose proof (TCPOverIPv4Adapter.wrap_keeps seg (TCPOverIPv4OverEthernetAdapter.base a)) as E.
    destruct (TCPOverIPv4Adapter.wrap_tcp_in_ip seg _) as [b [x|e]]; cbn in E; subst b; [|done].
    destruct (NetworkInterface.send_datagram _ _ _) as [i' [u|e]]; [|done]. by rewrite send_pending_base.
  - intros ms a. cbn [fd_tick TCPOverIPv4OverEthernetAdapter.ethernet_adapter fd_base].
    unfold TCPOverIPv4OverEthernetAdapter.tick, bind, modify. by rewrite send_pending_base.
Defined.
End Laws.

(** A lossy adapter may listen when it drops nothing of what it reads: it would stop
    listening with the SYN that it drops. *)
#[global, refine] Instance lossy_law {A I} `{FdAdapterLaw A I} : FdAdapterLaw (LossyFdAdapter.t (A := A)) I :=
  {| fd_allows r := r = 0 /\ fd_allows r |}.
Proof.
  - intros b a. cbn. apply law_base.
  - intros i a Ha. cbn [fd_read LossyFdAdapter.lossy_adapter fd_base] in *. pose proof (law_read i (LossyFdAdapter._adapter a)) as Hl.
    pose proof (law_rate i (LossyFdAdapter._adapter a)) as Hr. destruct (lossy_only_loses a i TCPSegment.default) as [Hx _].
    destruct (fd_read i (LossyFdAdapter._adapter a)) as [a1 r], (LossyFdAdapter.read i a) as [a' r']. cbn [fst] in Hr.
    destruct Hx as [-> [->|(-> & Hz & x & ->)]]; [by apply Hl; intros E; apply Ha|].
    assert (El : FdAdapterBase.listening (fd_base (LossyFdAdapter._adapter a)) = false).
    { destruct (FdAdapterBase.listening _); [|done]. destruct (Ha eq_refl) as [E _]. unfold fd_config in Hz.
      unfold FdAdapterBase.rate in Hr, E. congruence. }
    rewrite El in *. specialize (Hl ltac:(done)). cbn. destruct x as [seg|]; [by destruct Hl as (_ & _ & ? & _)|done].
  - intros i a. cbn [fd_read LossyFdAdapter.lossy_adapter fd_base]. destruct (lossy_only_loses a i TCPSegment.default) as [Hx _].
    pose proof (law_rate i (LossyFdAdapter._adapter a)) as Hr.
    destruct (fd_read i (LossyFdAdapter._adapter a)) as [a1 r], (LossyFdAdapter.read i a) as [a' r']. cbn [fst] in *. by destruct Hx as [-> _].
  - intros seg a. cbn [fd_write LossyFdAdapter.lossy_adapter fd_base]. unfold LossyFdAdapter.write.
    destruct (should_drop_spec true a) as (s' & drop & E & Ea & _). rewrite (bind_step _ _ _ _ _ E). destruct drop; cbn [fst ret]; [by rewrite Ea|].
    unfold LossyFdAdapter.in_adapter, zoom. rewrite Ea. pose proof (law_write seg (LossyFdAdapter._adapter a)) as Hw.
    by destruct (fd_write seg (LossyFdAdapter._adapter a)).
  - intros ms a. cbn [fd_tick LossyFdAdapter.lossy_adapter fd_base]. unfold LossyFdAdapter.tick, LossyFdAdapter.in_adapter, zoom.
    pose proof (law_tick ms (LossyFdAdapter._adapter a)) as Hw. by destruct (fd_tick ms (LossyFdAdapter._adapter a)).
Defined.

(** ** Witnesses *)

Import SockaddrIn Endpoint.

Definition sample_seg : TCPSegment.t :=
  TCPSegment.mk (TCPHeader.default <| TCPHeader.syn := true |> <| TCPHeader.seqno := mkWrappingInt32 7 |>) (Buffer.of_string [x61; x62]).

Lemma sample_seg_fits : TCPOverIPv4Adapter.fits sample_seg.
Proof. split; [split; vm_compute; intuition congruence|by vm_compute]. Qed.

Definition sample_tap : PacketDevice.t := PacketDevice.mk (FDWrapper.mk 3 false false 0 0) (fun _ size => Done size) [].

Lemma full_stack_delivers_witness :
  exists A A1 request,
    TCPOverIPv4OverEthernetAdapter.make (endpoint 1 80 2 90) sample_tap (replicate 6 x0a) (Address.of_ip 1) (Address.of_ip 2) = Ok A /\
    TCPOverIPv4OverEthernetAdapter.write sample_seg A = (A1, Ok tt) /\
    TCPOverIPv4OverEthernetAdapter.sent A1 = TCPOverIPv4OverEthernetAdapter.sent A ++ [request].
Proof.
  destruct (full_stack_delivers (replicate 6 x0a) 1 80 (replicate 6 x0b) 2 90 (endpoint 1 80 2 90) (endpoint 2 90 1 80) sample_tap sample_tap sample_seg
    eq_refl eq_refl ltac:(lia) ltac:(lia) ltac:(lia) ltac:(lia)
    (endpoint_connected 1 80 2 90 ltac:(lia) ltac:(lia) ltac:(lia) ltac:(lia))
    (endpoint_connected 2 90 1 80 ltac:(lia) ltac:(lia) ltac:(lia) ltac:(lia)) sample_seg_fits (fun _ _ _ => eq_refl) (fun _ _ _ => eq_refl))
    as (A & _ & A1 & request & _ & _ & _ & _ & _ & _ & H0 & _ & H1 & H2 & _).
  exists A, A1, request. exact (conj H0 (conj H1 H2)).
Defined.

Lemma tcp_over_ip_roundtrip_witness :
  exists seg' d, TCPOverIPv4Adapter.wrap_tcp_in_ip sample_seg (endpoint 1 80 2 90) = (endpoint 1 80 2 90, Ok (seg', d)).
Proof.
  destruct (TCPOverIPv4Adapter.tcp_over_ip_roundtrip 1 80 2 90 (endpoint 1 80 2 90) (endpoint 2 90 1 80) sample_seg
    (endpoint_connected 1 80 2 90 ltac:(lia) ltac:(lia) ltac:(lia) ltac:(lia))
    (endpoint_connected 2 90 1 80 ltac:(lia) ltac:(lia) ltac:(lia) ltac:(lia))
    ltac:(lia) ltac:(lia) ltac:(lia) ltac:(lia) sample_seg_fits) as (seg' & d & _ & _ & _ & H1 & _).
  exists seg', d. exact H1.
Defined.

(** A listening adapter and a datagram with a SYN for it. *)
Definition listener : FdAdapterBase.t := FdAdapterBase.set_listening true (endpoint 2 90 0 0).
Definition syn_dgram : IPv4Datagram.t :=
  match (TCPOverIPv4Adapter.wrap_tcp_in_ip sample_seg (endpoint 1 80 2 90)).2 with
  | Ok (_, d) => d
  | Throw _ => IPv4Datagram.default
  end.
Definition syn_bytes : list byte :=
  match IPv4Datagram.serialize syn_dgram with Ok l => BufferList.concatenate l | Throw _ => [] end.
Definition syn_parsed : IPv4Datagram.t := (IPv4Datagram.parse IPv4Datagram.default (Buffer.of_string syn_bytes)).1.

Lemma unwrap_filters_witness :
  exists s' seg, TCPOverIPv4Adapter.unwrap_tcp_in_ip syn_parsed listener = (s', Ok (Some seg)) /\
    FdAdapterBase.listening s' = false /\ TCPHeader.syn (TCPSegment.header seg) = true.
Proof.
  assert (E : exists s' seg, TCPOverIPv4Adapter.unwrap_tcp_in_ip syn_parsed listener = (s', Ok (Some seg)))
    by (eexists _, _; vm_compute; reflexivity).
  destruct E as (s' & seg & E). exists s', seg. split; [exact E|].
  destruct (TCPOverIPv4Adapter.unwrap_filters syn_parsed listener s' seg E) as (_ & _ & H1 & _ & _ & _ & H2).
  split; [exact H1|]. exact (proj1 (H2 eq_refl)).
Defined.

End Adapters.
