(* ===== verification/typing.v ===== *)
(** A type invariant of the connection: whatever happens to it, every segment it
    ever hands out has header fields of their widths and a payload of at most
    [MAX_PAYLOAD_SIZE] bytes, and so can be serialized and wrapped into an IPv4
    datagram. *)

From S2P Require Import prelude effects wrapping_integers buffer parser ipv4 tcp_segment byte_stream stream_reassembler tcp_receiver tcp_sender tcp_connection connection address fd_adapter.

Module Typing.

(** A segment as the connection makes them. *)
Record typed (seg : TCPSegment.t) : Prop := {
  ty_header : TCPHeader.wf (TCPSegment.header seg);
  ty_doff : TCPHeader.doff (TCPSegment.header seg) = 5;
  ty_payload : zlen (Buffer.str (TCPSegment.payload seg)) <= TCPConfig.MAX_PAYLOAD_SIZE
}.

(** The acknowledgment is not filled in. *)
Definition plain (seg : TCPSegment.t) : Prop := TCPHeader.ack (TCPSegment.header seg) = false.

(** ** The sender *)

Section Sender.
Import TCPSender.

Record sender_typed (s : t) : Prop := {
  sy_isn : wi_ok (_isn s);
  sy_out : Forall (fun seg => typed seg /\ plain seg) (_segments_out s);
  sy_outstanding : Forall (fun seg => typed seg /\ plain seg) (_segments_outstanding s)
}.

(** The members the invariant looks at. *)
Lemma sender_typed_ext s s' :
  sender_typed s -> _isn s' = _isn s -> _segments_out s' = _segments_out s -> _segments_outstanding s' = _segments_outstanding s ->
  sender_typed s'.
Proof. intros [] E1 E2 E3. split; by rewrite ?E1, ?E2, ?E3. Qed.

(** A new segment: only its sequence number and flags are not the default. *)
Ltac new_segment Hseqno Hpayload :=
  split; [|reflexivity];
  split; [split; cbn [TCPSegment.header TCPSegment._header]; first [exact Hseqno | done | cbn; lia]|reflexivity|exact Hpayload].

Lemma no_payload : zlen (Buffer.str Buffer.empty) <= TCPConfig.MAX_PAYLOAD_SIZE.
Proof. done. Qed.

Lemma enqueue_typed s seg : sender_typed s -> typed seg /\ plain seg -> sender_typed (enqueue s seg).
Proof. intros [] Hs. split; [done|..]; apply Forall_app; (split; [done|by constructor]). Qed.

Lemma read_stream_eq s n : exists st, (read_stream s n).1 = s <| _stream := st |> /\ zlen (read_stream s n).2 <= Z.max 0 n.
Proof.
  eexists. split; [reflexivity|]. cbn. unfold ByteStream.peek_output. rewrite length_take. lia.
Qed.

Lemma send_data_typed s : sender_typed s -> sender_typed (send_data s).
Proof.
  intros Hs. unfold send_data. set (n := Z.min _ TCPConfig.MAX_PAYLOAD_SIZE).
  assert (Hn : n <= TCPConfig.MAX_PAYLOAD_SIZE) by lia. clearbody n.
  destruct (read_stream_eq s n) as (st & E & Hl). destruct (read_stream s n) as [s1 str]. cbn [fst snd] in E, Hl. subst s1.
  assert (Hl' : zlen str <= TCPConfig.MAX_PAYLOAD_SIZE) by (unfold TCPConfig.MAX_PAYLOAD_SIZE in *; lia).
  assert (H1 : sender_typed (add_flying (s <| _stream := st |>) n)) by (eapply sender_typed_ext; [exact Hs|done..]).
  set (s1 := add_flying _ n) in *. clearbody s1.
  destruct (ByteStream.eof _ && _ && _).
  - apply (sender_typed_ext (enqueue s1 (TCPSegment.mk (TCPHeader.default <| TCPHeader.seqno := next_seqno s |> <| TCPHeader.fin := true |>) (Buffer.of_string str))));
      [|done..]. apply enqueue_typed; [done|]. new_segment (wrap_ok (_next_seqno s) (_isn s)) Hl'.
  - apply (sender_typed_ext (enqueue s1 (TCPSegment.mk (TCPHeader.default <| TCPHeader.seqno := next_seqno s |>) (Buffer.of_string str)))); [|done..].
    apply enqueue_typed; [done|]. new_segment (wrap_ok (_next_seqno s) (_isn s)) Hl'.
Qed.

Lemma fill_loop_typed n s : sender_typed s -> sender_typed (fill_loop n s).
Proof.
  revert s. induction n as [|n IH]; intros s Hs; [done|]. cbn [fill_loop]. destruct (window_available s); [|done]. by apply IH, send_data_typed.
Qed.

Lemma fill_window_typed s : sender_typed s -> sender_typed (fill_window s).
Proof.
  intros Hs. unfold fill_window. destruct (_ =? 0); [|destruct (_ && _); [|destruct (_ && _)]].
  - eapply sender_typed_ext; [apply enqueue_typed; [exact Hs|]|done..].
    new_segment (sy_isn s Hs) no_payload.
  - eapply sender_typed_ext; [apply enqueue_typed; [exact Hs|]|done..].
    new_segment (wrap_ok (_next_seqno s) (_isn s)) no_payload.
  - unfold send_probe. destruct (read_stream_eq s 1) as (st & E & Hl). destruct (read_stream s 1) as [s1 str]. cbn [fst snd] in E, Hl. subst s1.
    eapply sender_typed_ext; [apply enqueue_typed; [eapply sender_typed_ext; [exact Hs|done..]|]|done..].
    assert (Hl' : zlen str <= TCPConfig.MAX_PAYLOAD_SIZE) by (unfold TCPConfig.MAX_PAYLOAD_SIZE; lia).
    new_segment (wrap_ok (_next_seqno s) (_isn s)) Hl'.
  - by apply fill_loop_typed.
Qed.

Lemma pop_acked_typed Q ack segs seqnos stamps : Forall Q segs -> Forall Q (pop_acked ack segs seqnos stamps).1.1.
Proof.
  revert segs stamps. induction seqnos as [|e seqnos IH]; intros segs stamps Hs; [done|]. cbn [pop_acked].
  destruct (e <=? ack); [|done]. apply IH. by destruct Hs.
Qed.

Lemma ack_received_typed s ackno win : sender_typed s -> sender_typed (ack_received s ackno win).
Proof.
  intros Hs. unfold ack_received. set (s1 := s <| _window_size := win |>).
  assert (H1 : sender_typed s1) by (by eapply sender_typed_ext). clearbody s1. destruct (_ || _ || _); [done|].
  set (s2 := setter _ (setter _ (setter _ (setter _ s1)))).
  assert (H2 : sender_typed s2) by (eapply sender_typed_ext; [exact H1|done..]). clearbody s2.
  pose proof (pop_acked_typed _ (_ack_abs s2) (_segments_outstanding s2) (_seqnos_abs_outstanding s2) (_timestamps_outstanding s2) ltac:(by destruct H2)) as Hp.
  destruct (pop_acked _ _ _ _) as [[segs seqnos] stamps]. cbn [fst] in Hp.
  set (s3 := setter _ (setter _ (setter _ s2))). assert (H3 : sender_typed s3) by (destruct H2; by split). clearbody s3.
  destruct (_ || _); [|done]. destruct (negb _); [by apply fill_window_typed|done].
Qed.

Lemma tick_typed s ms : sender_typed s -> sender_typed (tick s ms).
Proof.
  intros Hs. unfold tick. destruct (_timestamps_outstanding s) as [|t0 ts]; [done|]. cbv zeta.
  destruct (_ <=? _); [|by eapply sender_typed_ext]. set (s1 := setter _ (setter _ (setter _ s))).
  assert (H1 : sender_typed s1).
  { destruct Hs. split; [done| |done]. apply Forall_app. split; [done|]. by apply Forall_take. }
  clearbody s1. destruct (negb _); [by eapply sender_typed_ext|done].
Qed.

Lemma send_empty_typed s : sender_typed s -> sender_typed (send_empty_segment s).
Proof.
  intros []. split; [done| |done]. apply Forall_app. split; [done|]. constructor; [|constructor].
  new_segment (wrap_ok (_next_seqno s) (_isn s)) no_payload.
Qed.
End Sender.

(** ** The connection *)

Section Connection.
Import TCPConnection.

Record connection_typed (c : t) : Prop := {
  cy_sender : sender_typed (_sender c);
  cy_ack : wi_ok (TCPReceiver._ack (_receiver c));
  cy_out : Forall typed (_segments_out c);
  cy_plain : TCPReceiver._syn (_receiver c) = false -> Forall plain (_segments_out c)
}.

Lemma fill_in_typed c seg : connection_typed c -> typed seg -> typed (fill_in c seg).
Proof.
  intros [_ Ha _ _] [Hh Hd Hp]. pose proof (u16_range (Z.min (TCPReceiver.window_size (_receiver c)) (2 ^ 16 - 1))) as Hw.
  unfold fill_in, TCPReceiver.ackno. destruct seg as [h p].
  destruct (TCPReceiver._syn (_receiver c)), (_rst_to_send c); (split; [|exact Hd|exact Hp]); destruct Hh; by split.
Qed.

Lemma send_segments_typed c : connection_typed c -> connection_typed (send_segments c).
Proof.
  intros Hc. rewrite send_segments_eq. pose proof Hc as [[Hi Ho Hs] Ha Hout Hpl]. split; [by split|done|..]; cbn.
  - apply Forall_app. split; [done|]. apply Forall_map. eapply Forall_impl; [exact Ho|]. intros seg [Ht _]. by apply fill_in_typed.
  - intros Hsyn. apply Forall_app. split; [by apply Hpl|]. apply Forall_map. eapply Forall_impl; [exact Ho|]. intros seg [_ Hp].
    unfold plain, fill_in, TCPReceiver.ackno. rewrite Hsyn. by destruct (_rst_to_send c).
Qed.

Lemma with_sender_typed c s : connection_typed c -> sender_typed s -> connection_typed (c <| _sender := s |>).
Proof. intros [] Hs. by split. Qed.

Lemma connection_typed_ext c c' :
  connection_typed c -> _sender c' = _sender c -> _receiver c' = _receiver c -> _segments_out c' = _segments_out c -> connection_typed c'.
Proof. intros [] E1 E2 E3. split; by rewrite ?E1, ?E2, ?E3. Qed.

Lemma connect_typed c : connection_typed c -> connection_typed (connect c).
Proof.
  intros Hc. unfold connect. apply send_segments_typed, with_sender_typed; [by eapply connection_typed_ext|]. cbn. apply fill_window_typed. by destruct Hc.
Qed.

Lemma set_errors_typed c : connection_typed c -> connection_typed (set_errors c).
Proof. intros [Hs ? ? ?]. split; [by eapply sender_typed_ext|done|done|done]. Qed.

Lemma segment_ack_ok r seg : wi_ok (TCPReceiver._ack r) -> wi_ok (TCPReceiver._ack (TCPReceiver.segment_received r seg)).
Proof.
  intros Ha. unfold TCPReceiver.segment_received. destruct (_ && _); [done|]. destruct (TCPReceiver.locate r _) as [s st]. cbv zeta.
  set (s1 := if TCPHeader.fin _ && _ then _ else s). clearbody s1. set (s2 := if TCPHeader.fin _ then _ else s1). clearbody s2.
  set (s3 := setter _ s2). clearbody s3. set (s4 := setter _ s3). clearbody s4.
  assert (Hf : forall x f, TCPReceiver._ack (TCPReceiver.with_stream_out x f) = TCPReceiver._ack x) by done.
  destruct (_ =? _); destruct (_ && _); rewrite ?Hf; apply wrap_ok.
Qed.

Lemma segment_syn r seg : TCPReceiver._syn (TCPReceiver.segment_received r seg) = false -> TCPReceiver._syn r = false.
Proof.
  unfold TCPReceiver.segment_received. destruct (_ && _); [done|]. destruct (TCPReceiver.locate r _) as [s st] eqn:El.
  assert (Hl : TCPReceiver._syn s = false -> TCPReceiver._syn r = false)
    by (unfold TCPReceiver.locate in El; destruct (TCPHeader.syn _); by injection El as <- _).
  cbv zeta. intros H. apply Hl. rewrite <- H. clear. symmetry.
  set (s1 := if TCPHeader.fin _ && _ then _ else s). transitivity (TCPReceiver._syn s1); [|unfold s1; by destruct (_ && _)]. clearbody s1.
  set (s2 := if TCPHeader.fin _ then _ else s1). transitivity (TCPReceiver._syn s2); [|unfold s2; by destruct (TCPHeader.fin _)]. clearbody s2.
  set (s3 := setter _ s2). transitivity (TCPReceiver._syn s3); [|done]. clearbody s3.
  set (s4 := setter _ s3). transitivity (TCPReceiver._syn s4); [|done]. clearbody s4.
  destruct (_ =? _); by destruct (_ && _).
Qed.

Lemma segment_typed c seg : connection_typed c -> connection_typed (segment_received c seg).
Proof.
  intros Hc. unfold segment_received. set (h := TCPSegment.header seg).
  set (c1 := if TCPHeader.ack h then _ else c).
  assert (H1 : connection_typed c1).
  { unfold c1. destruct (TCPHeader.ack h); [|done]. apply with_sender_typed; [done|]. apply ack_received_typed. by destruct Hc. }
  clearbody c1. set (c2 := if negb (_ =? 0) then _ else c1).
  assert (H2 : connection_typed c2).
  { unfold c2. destruct (negb _); [|done]. destruct H1 as [? ? ? Hp]. split; [done|by apply segment_ack_ok|done|]. intros Hsyn. apply Hp. exact (segment_syn _ _ Hsyn). }
  clearbody c2. destruct (_ && _ && _); [by apply connect_typed|]. set (c3 := if _ && _ && _ then _ else c2).
  assert (H3 : connection_typed c3).
  { unfold c3. destruct (_ && _); [|done]. apply set_errors_typed. by eapply connection_typed_ext. }
  clearbody c3. apply send_segments_typed. set (c4 := c3 <| _time_last_segment_received := _ |>).
  assert (H4 : connection_typed c4) by (by eapply connection_typed_ext). clearbody c4.
  set (c5 := if wants_ack c4 seg then _ else c4).
  assert (H5 : connection_typed c5).
  { unfold c5. destruct (wants_ack _ _); [|done]. apply with_sender_typed; [done|]. apply send_empty_typed. by destruct H4. }
  clearbody c5. destruct (_ && _); [|done]. by eapply connection_typed_ext.
Qed.

Lemma step_typed c ev : connection_typed c -> connection_typed (Connection.step c ev).
Proof.
  intros Hc. pose proof Hc as [Hs Ha Ho Hp]. destruct ev as [|data| |ms|seg|n| |]; cbn [Connection.step].
  - by apply connect_typed.
  - unfold write. destruct (ByteStream.write _ _) as [st ans]. cbn [fst]. apply send_segments_typed, with_sender_typed; [by apply with_sender_typed; [|eapply sender_typed_ext]|].
    apply fill_window_typed. by eapply sender_typed_ext.
  - apply send_segments_typed, with_sender_typed; [by apply with_sender_typed; [|eapply sender_typed_ext]|]. apply fill_window_typed. by eapply sender_typed_ext.
  - unfold tick. apply send_segments_typed. set (c1 := setter _ (setter _ c)).
    assert (H1 : connection_typed c1) by (split; [by apply tick_typed|done|done|done]). clearbody c1.
    destruct (_ <? _); [|done]. apply set_errors_typed. by eapply connection_typed_ext.
  - by apply segment_typed.
  - by split.
  - split; [done|done|by destruct Ho|]. intros Hsyn. specialize (Hp Hsyn). by destruct Hp.
  - unfold destroy. destruct (active c); [|done]. apply send_segments_typed.
    assert (H1 : connection_typed (set_errors (c <| _rst_to_send := true |>))) by (apply set_errors_typed; by eapply connection_typed_ext).
    apply with_sender_typed; [done|]. apply send_empty_typed. by destruct H1.
Qed.

Lemma run_typed c evs : connection_typed c -> connection_typed (Connection.run c evs).
Proof. revert c. induction evs as [|ev evs IH]; intros c Hc; [done|]. cbn. by apply IH, step_typed. Qed.

Lemma make_typed cfg isn : wi_ok isn -> connection_typed (make cfg isn).
Proof. intros Hi. split; [split; [exact Hi|apply Forall_nil_2..]|cbn; lia|apply Forall_nil_2|intros _; apply Forall_nil_2]. Qed.

(** Such a segment fits an IPv4 datagram. *)
Lemma typed_fits seg : typed seg -> TCPOverIPv4Adapter.fits seg.
Proof. intros [Hh Hd Hp]. split; [done|]. rewrite Hd. unfold TCPConfig.MAX_PAYLOAD_SIZE in Hp. lia. Qed.

(** C34. Segments are well typed: after any sequence of calls, with any segments
    received from anyone, every segment in the connection's outgoing queue has
    header fields of their widths and at most [MAX_PAYLOAD_SIZE] bytes of payload.
    So an adapter that is connected can always wrap it into a datagram, and the
    datagram can always be serialized: no exception comes from there. *)
Theorem segments_well_typed `{AddressText} cfg isn evs seg ip1 p1 ip2 p2 s :
  wi_ok isn -> In seg (_segments_out (Connection.run (make cfg isn) evs)) ->
  TCPOverIPv4Adapter.connected ip1 p1 ip2 p2 s -> is_u32 ip1 -> is_u32 ip2 -> is_u16 p1 -> is_u16 p2 ->
  typed seg /\
  exists seg' d bytes, TCPOverIPv4Adapter.wrap_tcp_in_ip seg s = (s, Ok (seg', d)) /\ IPv4Datagram.serialize d = Ok bytes.
Proof.
  intros Hi Hin Hc H1 H2 H3 H4. assert (Ht : typed seg).
  { pose proof (run_typed _ evs (make_typed cfg isn Hi)) as [_ _ Ho]. rewrite Forall_forall in Ho. apply Ho. by apply list_elem_of_In. }
  split; [done|].
  destruct (TCPOverIPv4Adapter.wrap_tcp_eq ip1 p1 ip2 p2 s seg Hc H1 H2 H3 H4 (typed_fits seg Ht)) as (l & _ & E & Hw & _).
  destruct (IPv4Datagram.ipv4_datagram_serialize_eq _ Hw) as (x & _ & Es). by eexists _, _, _.
Qed.
End Connection.

Import SockaddrIn.

Lemma syn_queued :
  In (Connection.syn_of Connection.isn5)
    (TCPConnection._segments_out (Connection.run (TCPConnection.make Connection.cfg8 Connection.isn5) [Connection.Connect; Connection.Write [x61]])).
Proof. vm_compute. by left. Qed.

Lemma segments_well_typed_witness :
  typed (Connection.syn_of Connection.isn5) /\
  exists seg' d bytes, TCPOverIPv4Adapter.wrap_tcp_in_ip (Connection.syn_of Connection.isn5) (Endpoint.endpoint 1 80 2 90) =
    (Endpoint.endpoint 1 80 2 90, Ok (seg', d)) /\ IPv4Datagram.serialize d = Ok bytes.
Proof.
  apply (segments_well_typed Connection.cfg8 Connection.isn5 [Connection.Connect; Connection.Write [x61]] _ 1 80 2 90);
    [cbn; lia|exact syn_queued|apply Endpoint.endpoint_connected; lia|lia..].
Defined.

End Typing.
