(* ===== verification/bidirectional_stream_copy.v ===== *)
(** The copying loop of the applications ([apps/bidirectional_stream_copy.cc]):
    standard input to a socket and the socket to standard output, through two
    byte streams and an event loop. *)

From S2P Require Import prelude effects buffer byte_stream file_descriptor eventloop.

Module BidirectionalStreamCopy.
Import EventLoop.

Definition max_copy_length : Z := 65536.
Definition buffer_size : Z := 1048576.

(** The objects the rules share. *)
Record t := mk {
  socket : FileDescriptor.t;
  _input : FileDescriptor.t;
  _output : FileDescriptor.t;
  _outbound : ByteStream.t;
  _inbound : ByteStream.t;
  _outbound_shutdown : bool;
  _inbound_shutdown : bool
}.
#[global] Instance set_socket : Setter socket := fun f s =>
  mk (f (socket s)) (_input s) (_output s) (_outbound s) (_inbound s) (_outbound_shutdown s) (_inbound_shutdown s).
#[global] Instance set_input : Setter _input := fun f s =>
  mk (socket s) (f (_input s)) (_output s) (_outbound s) (_inbound s) (_outbound_shutdown s) (_inbound_shutdown s).
#[global] Instance set_output : Setter _output := fun f s =>
  mk (socket s) (_input s) (f (_output s)) (_outbound s) (_inbound s) (_outbound_shutdown s) (_inbound_shutdown s).
#[global] Instance set_outbound : Setter _outbound := fun f s =>
  mk (socket s) (_input s) (_output s) (f (_outbound s)) (_inbound s) (_outbound_shutdown s) (_inbound_shutdown s).
#[global] Instance set_inbound : Setter _inbound := fun f s =>
  mk (socket s) (_input s) (_output s) (_outbound s) (f (_inbound s)) (_outbound_shutdown s) (_inbound_shutdown s).
#[global] Instance set_outbound_shutdown : Setter _outbound_shutdown := fun f s =>
  mk (socket s) (_input s) (_output s) (_outbound s) (_inbound s) (f (_outbound_shutdown s)) (_inbound_shutdown s).
#[global] Instance set_inbound_shutdown : Setter _inbound_shutdown := fun f s =>
  mk (socket s) (_input s) (_output s) (_outbound s) (_inbound s) (_outbound_shutdown s) (f (_inbound_shutdown s)).

Definition on_socket {A} (m : M FileDescriptor.t A) : M t A := zoom socket (fun d s => s <| socket := d |>) m.
Definition on_input {A} (m : M FileDescriptor.t A) : M t A := zoom _input (fun d s => s <| _input := d |>) m.
Definition on_output {A} (m : M FileDescriptor.t A) : M t A := zoom _output (fun d s => s <| _output := d |>) m.

Definition end_outbound : M t unit := modify (fun s => s <| _outbound := ByteStream.end_input (_outbound s) |>).
Definition end_inbound : M t unit := modify (fun s => s <| _inbound := ByteStream.end_input (_inbound s) |>).

(** Rule 1: from the input to the outbound stream. *)
Definition read_input : M t unit :=
  s <- get;;
  data <- on_input (FileDescriptor.read (ByteStream.remaining_capacity (_outbound s)));;
  modify (fun s => s <| _outbound := (ByteStream.write (_outbound s) data).1 |>);;
  s <- get;;
  if FileDescriptor.eof (_input s) then end_outbound else ret tt.

(** Rule 2: from the outbound stream to the socket. *)
Definition write_socket : M t unit :=
  s <- get;;
  let bytes_to_write := Z.min max_copy_length (ByteStream.buffer_size (_outbound s)) in
  bytes_written <- on_socket (FileDescriptor.write
    (BufferViewList.of_string (ByteStream.peek_output (_outbound s) bytes_to_write)) false);;
  modify (fun s => s <| _outbound := ByteStream.pop_output (_outbound s) bytes_written |>);;
  s <- get;;
  if ByteStream.eof (_outbound s) then
    on_socket (FileDescriptor.shutdown FDWrapper.SHUT_WR);;
    modify (fun s => s <| _outbound_shutdown := true |>)
  else ret tt.

(** Rule 3: from the socket to the inbound stream. *)
Definition read_socket : M t unit :=
  s <- get;;
  data <- on_socket (FileDescriptor.read (ByteStream.remaining_capacity (_inbound s)));;
  modify (fun s => s <| _inbound := (ByteStream.write (_inbound s) data).1 |>);;
  s <- get;;
  if FileDescriptor.eof (socket s) then end_inbound else ret tt.

(** Rule 4: from the inbound stream to the output. *)
Definition write_output : M t unit :=
  s <- get;;
  let bytes_to_write := Z.min max_copy_length (ByteStream.buffer_size (_inbound s)) in
  bytes_written <- on_output (FileDescriptor.write
    (BufferViewList.of_string (ByteStream.peek_output (_inbound s) bytes_to_write)) false);;
  modify (fun s => s <| _inbound := ByteStream.pop_output (_inbound s) bytes_written |>);;
  s <- get;;
  if ByteStream.eof (_inbound s) then
    on_output FileDescriptor.close;;
    modify (fun s => s <| _inbound_shutdown := true |>)
  else ret tt.

Definition fd_of (d : t -> FileDescriptor.t) (s : t) : FDWrapper.t := FileDescriptor._internal_fd (d s).

Definition room (out other : ByteStream.t) : bool :=
  negb (ByteStream.error out) && (0 <? ByteStream.remaining_capacity out) && negb (ByteStream.error other).
Definition work (out : ByteStream.t) (shutdown : bool) : bool :=
  negb (ByteStream.buffer_empty out) || (ByteStream.eof out && negb shutdown).

Definition rules : list (Rule t) :=
  let r := [] in
  let r := add_rule r (fd_of _input) Direction.In read_input (fun s => room (_outbound s) (_inbound s)) end_outbound in
  let r := add_rule r (fd_of socket) Direction.Out write_socket (fun s => work (_outbound s) (_outbound_shutdown s)) end_outbound in
  let r := add_rule r (fd_of socket) Direction.In read_socket (fun s => room (_inbound s) (_outbound s)) end_inbound in
  add_rule r (fd_of _output) Direction.Out write_output (fun s => work (_inbound s) (_inbound_shutdown s)) end_inbound.

(** The loop, for as many rounds as there are answers of [poll(2)]; the result
    says whether it has returned. *)
Fixpoint loop (polls : list (list (Z * Z) -> Z -> answer (Z * list Z))) : M (list (Rule t) * t) bool :=
  match polls with
  | [] => ret false
  | poll :: polls =>
      r <- wait_next_event poll (-1);;
      match r with Exit => ret true | _ => loop polls end
  end.

(** The function; [input] and [output] are the new descriptors for the standard
    input and output. *)
Definition bidirectional_stream_copy (polls : list (list (Z * Z) -> Z -> answer (Z * list Z)))
  (sock input output : FileDescriptor.t) : (list (Rule t) * t) * result bool :=
  let s := mk sock input output (ByteStream.make buffer_size) (ByteStream.make buffer_size) false false in
  (zoom snd (fun s x => (x.1, s)) (on_socket (FileDescriptor.set_blocking false));;
   zoom snd (fun s x => (x.1, s)) (on_input (FileDescriptor.set_blocking false));;
   zoom snd (fun s x => (x.1, s)) (on_output (FileDescriptor.set_blocking false));;
   modify (fun x => (rules, x.2));;
   loop polls) ([], s).

(** ** What is copied *)

(** All that was read from [src] was written to [dst] or waits in [st]. *)
Definition piped (src dst : FileDescriptor.t) (st : ByteStream.t) : Prop :=
  ByteStream.wf st /\ FileDescriptor.h_read src = FileDescriptor.h_written dst ++ ByteStream.deq st.

Record copying (s : t) : Prop := {
  c_out : piped (_input s) (socket s) (_outbound s);
  c_in : piped (socket s) (_output s) (_inbound s)
}.

Lemma piped_end src dst st : piped src dst st -> piped src dst (ByteStream.end_input st).
Proof. intros [? ?]. split; [by auto with sponge|done]. Qed.

Lemma piped_history src src' dst dst' st :
  piped src dst st -> FileDescriptor.h_read src' = FileDescriptor.h_read src ->
  FileDescriptor.h_written dst' = FileDescriptor.h_written dst -> piped src' dst' st.
Proof. intros [? Hp] H1 H2. split; [done|]. by rewrite H1, H2. Qed.

(** A read into the free space of the stream. *)
Lemma piped_read src dst st src' r :
  piped src dst st -> FileDescriptor.read (ByteStream.remaining_capacity st) src = (src', r) ->
  FileDescriptor.h_written src' = FileDescriptor.h_written src /\
  match r with Ok data => piped src' dst (ByteStream.write st data).1 | Throw _ => piped src' dst st end.
Proof.
  intros [Hwf Hp] Hr. apply FileDescriptor.read_spec in Hr as (Hw & _ & _ & Hr); [|apply u64_range]. split; [done|].
  destruct r as [data|e]; [|by split; [|congruence]]. destruct Hr as (Eh & Hlen & _).
  split; [by auto with sponge|]. destruct (ByteStream.write_capacity st data Hwf Hlen) as [-> _].
  by rewrite Eh, Hp, app_assoc.
Qed.

(** A write of the first bytes of the stream. *)
Lemma piped_write src dst st k dst' r :
  piped src dst st -> k <= max_copy_length ->
  FileDescriptor.write (BufferViewList.of_string (ByteStream.peek_output st k)) false dst = (dst', r) ->
  FileDescriptor.h_read dst' = FileDescriptor.h_read dst /\
  match r with Ok n => piped src dst' (ByteStream.pop_output st n) | Throw _ => piped src dst' st end.
Proof.
  intros [Hwf Hp] Hk Hr. unfold max_copy_length in Hk. assert (Hlen : zlen (concat [ByteStream.peek_output st k]) < 2 ^ 63).
  { destruct Hwf. unfold ByteStream.peek_output. cbn. rewrite app_nil_r, length_take. lia. }
  apply FileDescriptor.write_handed in Hr as (n & [Hn Hw He _ _ _] & Hr); [|done]. cbn in Hn, Hw. rewrite app_nil_r in Hn, Hw.
  split; [done|]. destruct r as [m|e].
  - destruct Hr as (-> & _). split; [by auto with sponge|]. rewrite Hw, Hp, <- app_assoc. f_equal.
    by apply ByteStream.pop_peeked.
  - rewrite (Hr eq_refl), take_0, app_nil_r in Hw. split; [done|congruence].
Qed.

(** The handlers keep [copying]. *)
Lemma end_outbound_keeps s : copying s -> copying (end_outbound s).1.
Proof. intros []. split; [by apply piped_end|done]. Qed.
Lemma end_inbound_keeps s : copying s -> copying (end_inbound s).1.
Proof. intros []. split; [done|by apply piped_end]. Qed.

Lemma read_input_keeps s : copying s -> copying (read_input s).1.
Proof.
  intros [Ho Hi]. unfold read_input, bind at 1, get at 1. cbn iota beta. unfold on_input, zoom, bind at 1.
  destruct (FileDescriptor.read _ (_input s)) as [d r] eqn:Er. apply (piped_read _ _ _ _ _ Ho) in Er as [Ew Er].
  destruct r as [data|e]; [|by split]. unfold bind, modify, get. cbn iota beta.
  set (s' := setter _ (setter _ s)). assert (Hs : copying s') by (by split). clearbody s'.
  destruct (FileDescriptor.eof _); [by apply end_outbound_keeps|done].
Qed.

Lemma read_socket_keeps s : copying s -> copying (read_socket s).1.
Proof.
  intros [Ho Hi]. unfold read_socket, bind at 1, get at 1. cbn iota beta. unfold on_socket, zoom, bind at 1.
  destruct (FileDescriptor.read _ (socket s)) as [d r] eqn:Er. apply (piped_read _ _ _ _ _ Hi) in Er as [Ew Er].
  assert (Ho' : piped (_input s) d (_outbound s)) by (by eapply piped_history).
  destruct r as [data|e]; [|by split]. unfold bind, modify, get. cbn iota beta.
  set (s' := setter _ (setter _ s)). assert (Hs : copying s') by (by split). clearbody s'.
  destruct (FileDescriptor.eof _); [by apply end_inbound_keeps|done].
Qed.

Lemma write_socket_keeps s : copying s -> copying (write_socket s).1.
Proof.
  intros [Ho Hi]. unfold write_socket, bind at 1, get at 1. cbn iota beta. unfold on_socket, zoom, bind at 1.
  destruct (FileDescriptor.write _ _ (socket s)) as [d r] eqn:Er. apply (piped_write _ _ _ _ _ _ Ho) in Er as [Ew Er]; [|lia].
  assert (Hi' : piped d (_output s) (_inbound s)) by (by eapply piped_history).
  destruct r as [n|e]; [|by split]. unfold bind at 1, modify at 1. unfold bind at 1, get. cbn iota beta.
  set (s' := setter _ (setter _ s)). assert (Hs : copying s') by (by split). clearbody s'.
  destruct (ByteStream.eof _); [|done]. destruct (FileDescriptor.shutdown_history FDWrapper.SHUT_WR (socket s')) as [H1 H2].
  unfold bind, modify. destruct (FileDescriptor.shutdown _ (socket s')) as [d' [u|e]]; cbn in H1, H2; destruct Hs;
    split; by eapply piped_history.
Qed.

Lemma write_output_keeps s : copying s -> copying (write_output s).1.
Proof.
  intros [Ho Hi]. unfold write_output, bind at 1, get at 1. cbn iota beta. unfold on_output, zoom, bind at 1.
  destruct (FileDescriptor.write _ _ (_output s)) as [d r] eqn:Er. apply (piped_write _ _ _ _ _ _ Hi) in Er as [Ew Er]; [|lia].
  destruct r as [n|e]; [|by split]. unfold bind at 1, modify at 1. unfold bind at 1, get. cbn iota beta.
  set (s' := setter _ (setter _ s)). assert (Hs : copying s') by (by split). clearbody s'.
  destruct (ByteStream.eof _); [|done]. destruct (FileDescriptor.close_history (_output s')) as [H1 H2].
  unfold bind, modify. destruct (FileDescriptor.close (_output s')) as [d' [u|e]]; cbn in H1, H2; destruct Hs;
    split; by try eapply piped_history.
Qed.

Definition guarded_rules : list (Rule t * (t -> Prop)) := map (fun r => (r, fun _ => True)) rules.

Lemma rules_compatible : compatible copying guarded_rules.
Proof.
  split.
  - unfold guarded_rules, rules, add_rule. cbn [app map]. repeat apply Forall_cons_2; [..|apply Forall_nil_2];
      (split; [done|intros s Hs _|intros s Hs]; cbn [callback cancel fst]);
      auto using read_input_keeps, read_socket_keeps, write_socket_keeps, write_output_keeps, end_outbound_keeps, end_inbound_keeps.
  - unfold guarded_rules. generalize rules. induction l as [|r l IH]; constructor; [|done].
    apply Forall_fmap, Forall_true. by intros x; split.
Qed.

Lemma loop_keeps polls gs s :
  gs `sublist_of` guarded_rules -> copying s -> copying (loop polls (map fst gs, s)).1.2.
Proof.
  revert gs s. induction polls as [|poll polls IH]; intros gs s Hg Hs; cbn [loop]; [done|].
  destruct (wait_next_event_keeps copying poll (-1) gs s (compatible_sublist _ _ _ Hg rules_compatible) Hs) as (gs' & H1 & H2 & H3).
  unfold bind at 1. destruct (wait_next_event _ _ _) as [[rs s'] [r|e]]; cbn in H2, H3; [|done]. subst rs.
  destruct r; [|..|done]; apply IH; try done; by etrans.
Qed.

Lemma copy_copying polls sock input output rs s r :
  FileDescriptor.h_read sock = [] -> FileDescriptor.h_written sock = [] ->
  FileDescriptor.h_read input = [] -> FileDescriptor.h_written output = [] ->
  bidirectional_stream_copy polls sock input output = ((rs, s), r) -> copying s.
Proof.
  intros E1 E2 E3 E4 Hrun. revert Hrun. unfold bidirectional_stream_copy. cbv zeta. set (s0 := mk _ _ _ _ _ _ _).
  assert (H0 : copying s0).
  { split; (split; [by apply ByteStream.make_wf|]); cbn; rewrite app_nil_r; congruence. }
  clearbody s0. intros Hrun.
  assert (Hz : forall {A B} (m : M t A) (k : A -> M (list (Rule t) * t) B) rs0 s1,
    copying s1 -> (forall s1, copying s1 -> copying (m s1).1) -> (forall a rs0 s1, copying s1 -> copying (k a (rs0, s1)).1.2) ->
    copying (bind (zoom snd (fun s x => (x.1, s)) m) k (rs0, s1)).1.2).
  { intros A B m k rs0 s1 Hc Hm Hk. unfold bind, zoom. cbn [snd fst]. specialize (Hm s1 Hc).
    destruct (m s1) as [s2 [a|e]]; cbn in *; [by apply Hk|done]. }
  assert (Hfin : copying ((rs, s), r).1.2); [|done]. rewrite <- Hrun.
  apply Hz; [done| |intros _ rsA sA HA; apply Hz; [done| |intros _ rsB sB HB; apply Hz; [done| |]]].
  + intros s1 []. unfold on_socket, zoom. destruct (FileDescriptor.set_blocking_history false (socket s1)) as [H1 H2].
    destruct (FileDescriptor.set_blocking _ (socket s1)) as [d x]. split; by eapply piped_history.
  + intros sy []. unfold on_input, zoom. destruct (FileDescriptor.set_blocking_history false (_input sy)) as [H1 H2].
    destruct (FileDescriptor.set_blocking _ (_input sy)) as [d x]. split; [by eapply piped_history|done].
  + intros sz []. unfold on_output, zoom. destruct (FileDescriptor.set_blocking_history false (_output sz)) as [H1 H2].
    destruct (FileDescriptor.set_blocking _ (_output sz)) as [d x]. split; [done|by eapply piped_history].
  + intros _ rs1 sz Hc. unfold bind at 1, modify. cbn [snd]. exact (loop_keeps polls guarded_rules sz ltac:(done) Hc).
Qed.

(** C18. Copying, whatever the descriptors do (short reads and writes, errors,
    hangups, any readiness and any interleaving of the two directions, at any
    moment, also when an exception ends it): the bytes written to the socket are a
    prefix of those read from the input, and the bytes written to the output a
    prefix of those read from the socket; what is missing is in the two buffers,
    in order. When the rule that empties a buffer has nothing left to do, all
    the bytes read so far were written. *)
Theorem copies_faithfully polls sock input output rs s r :
  FileDescriptor.h_read sock = [] -> FileDescriptor.h_written sock = [] ->
  FileDescriptor.h_read input = [] -> FileDescriptor.h_written output = [] ->
  bidirectional_stream_copy polls sock input output = ((rs, s), r) ->
  FileDescriptor.h_read (_input s) = FileDescriptor.h_written (socket s) ++ ByteStream.deq (_outbound s) /\
  FileDescriptor.h_read (socket s) = FileDescriptor.h_written (_output s) ++ ByteStream.deq (_inbound s) /\
  (work (_outbound s) (_outbound_shutdown s) = false -> FileDescriptor.h_written (socket s) = FileDescriptor.h_read (_input s)) /\
  (work (_inbound s) (_inbound_shutdown s) = false -> FileDescriptor.h_written (_output s) = FileDescriptor.h_read (socket s)).
Proof.
  intros E1 E2 E3 E4 Hrun. destruct (copy_copying _ _ _ _ _ _ _ E1 E2 E3 E4 Hrun) as [[W1 P1] [W2 P2]].
  split_and!; [done|done| |]; unfold work, ByteStream.buffer_empty; rewrite ?P1, ?P2.
  - destruct (ByteStream.deq (_outbound s)); [by rewrite app_nil_r|done].
  - destruct (ByteStream.deq (_inbound s)); [by rewrite app_nil_r|done].
Qed.

(** A descriptor that delivers [data], then the end of the file, and takes one byte
    per write. *)
Definition sample (fd : Z) (data : list byte) : FileDescriptor.t :=
  FileDescriptor.mk (FDWrapper.mk fd false false 0 0) (fun n => Done (if (n =? 0)%nat then data else []))
    (fun _ => Done 1) (fun _ => Done 0) [] [].

(** Everything that is polled for is ready. *)
Definition all_ready (pollfds : list (Z * Z)) (timeout : Z) : answer (Z * list Z) := Done (zlen pollfds, map snd pollfds).

Lemma copies_faithfully_witness :
  exists rs s r,
    bidirectional_stream_copy (replicate 4 all_ready) (sample 3 [x63; x64]) (sample 0 [x61; x62]) (sample 1 []) = ((rs, s), r) /\
    FileDescriptor.h_written (socket s) = [x61; x62] /\
    FileDescriptor.h_read (_input s) = FileDescriptor.h_written (socket s) ++ ByteStream.deq (_outbound s).
Proof.
  destruct (bidirectional_stream_copy (replicate 4 all_ready) (sample 3 [x63; x64]) (sample 0 [x61; x62]) (sample 1 []))
    as [[rs s] r] eqn:E.
  exists rs, s, r. split; [reflexivity|]. split.
  - assert (E1 : FileDescriptor.h_written (socket (bidirectional_stream_copy (replicate 4 all_ready) (sample 3 [x63; x64])
      (sample 0 [x61; x62]) (sample 1 [])).1.2) = [x61; x62]) by (vm_compute; reflexivity).
    rewrite E in E1. exact E1.
  - exact (proj1 (copies_faithfully (replicate 4 all_ready) (sample 3 [x63; x64]) (sample 0 [x61; x62]) (sample 1 []) rs s r
      eq_refl eq_refl eq_refl eq_refl E)).
Defined.
End BidirectionalStreamCopy.
