(* ===== verification/tcp_sponge_socket.v ===== *)
(** The socket that runs a TCP connection over a datagram adapter
    ([libsponge/tcp_helpers/tcp_sponge_socket.{hh,cc}]).

    [TCPSpongeSocket.t] has the members of the class, without the event loop,
    whose rules are kept beside it, and the handle of the thread. What the kernel
    answers when the adapter's device is read, what [poll(2)] answers and the
    times are unconstrained. Two history variables record the segments handed to
    the connection and those taken from it. The debugging output is left out. *)

From S2P Require Import prelude effects wrapping_integers buffer tcp_segment byte_stream tcp_receiver tcp_sender tcp_connection tcp_state ethernet address file_descriptor eventloop fd_adapter.

Module TCPSpongeSocket.
Import EventLoop.

Definition TCP_TICK_MS : Z := 10.

Record t {A I : Type} := mk {
  owner : FileDescriptor.t;
  _thread_data : FileDescriptor.t;
  _datagram_adapter : A;
  _tcp : option TCPConnection.t;
  _abort : bool;
  _inbound_shutdown : bool;
  _outbound_shutdown : bool;
  _fully_acked : bool;
  k_datagrams : nat -> I;
  h_given : list TCPSegment.t;
  h_taken : list TCPSegment.t
}.
Arguments t : clear implicits.

(** What happens in one round of the loop from outside. *)
Record Round := mkRound {
  poll : list (Z * Z) -> Z -> answer (Z * list Z);
  now : Z;
  aborted : bool
}.

Section Socket.
Context {A I : Type} `{FdAdapter A I}.
Abbreviation t := (t A I).

#[global] Instance set_owner : Setter (R := t) owner := fun f s =>
  mk _ _ (f (owner s)) (_thread_data s) (_datagram_adapter s) (_tcp s) (_abort s) (_inbound_shutdown s) (_outbound_shutdown s) (_fully_acked s) (k_datagrams s) (h_given s) (h_taken s).
#[global] Instance set_thread_data : Setter (R := t) _thread_data := fun f s =>
  mk _ _ (owner s) (f (_thread_data s)) (_datagram_adapter s) (_tcp s) (_abort s) (_inbound_shutdown s) (_outbound_shutdown s) (_fully_acked s) (k_datagrams s) (h_given s) (h_taken s).
#[global] Instance set_datagram_adapter : Setter (R := t) _datagram_adapter := fun f s =>
  mk _ _ (owner s) (_thread_data s) (f (_datagram_adapter s)) (_tcp s) (_abort s) (_inbound_shutdown s) (_outbound_shutdown s) (_fully_acked s) (k_datagrams s) (h_given s) (h_taken s).
#[global] Instance set_tcp : Setter (R := t) _tcp := fun f s =>
  mk _ _ (owner s) (_thread_data s) (_datagram_adapter s) (f (_tcp s)) (_abort s) (_inbound_shutdown s) (_outbound_shutdown s) (_fully_acked s) (k_datagrams s) (h_given s) (h_taken s).
#[global] Instance set_abort : Setter (R := t) _abort := fun f s =>
  mk _ _ (owner s) (_thread_data s) (_datagram_adapter s) (_tcp s) (f (_abort s)) (_inbound_shutdown s) (_outbound_shutdown s) (_fully_acked s) (k_datagrams s) (h_given s) (h_taken s).
#[global] Instance set_inbound_shutdown : Setter (R := t) _inbound_shutdown := fun f s =>
  mk _ _ (owner s) (_thread_data s) (_datagram_adapter s) (_tcp s) (_abort s) (f (_inbound_shutdown s)) (_outbound_shutdown s) (_fully_acked s) (k_datagrams s) (h_given s) (h_taken s).
#[global] Instance set_outbound_shutdown : Setter (R := t) _outbound_shutdown := fun f s =>
  mk _ _ (owner s) (_thread_data s) (_datagram_adapter s) (_tcp s) (_abort s) (_inbound_shutdown s) (f (_outbound_shutdown s)) (_fully_acked s) (k_datagrams s) (h_given s) (h_taken s).
#[global] Instance set_fully_acked : Setter (R := t) _fully_acked := fun f s =>
  mk _ _ (owner s) (_thread_data s) (_datagram_adapter s) (_tcp s) (_abort s) (_inbound_shutdown s) (_outbound_shutdown s) (f (_fully_acked s)) (k_datagrams s) (h_given s) (h_taken s).
#[global] Instance set_k_datagrams : Setter (R := t) k_datagrams := fun f s =>
  mk _ _ (owner s) (_thread_data s) (_datagram_adapter s) (_tcp s) (_abort s) (_inbound_shutdown s) (_outbound_shutdown s) (_fully_acked s) (f (k_datagrams s)) (h_given s) (h_taken s).
#[global] Instance set_h_given : Setter (R := t) h_given := fun f s =>
  mk _ _ (owner s) (_thread_data s) (_datagram_adapter s) (_tcp s) (_abort s) (_inbound_shutdown s) (_outbound_shutdown s) (_fully_acked s) (k_datagrams s) (f (h_given s)) (h_taken s).
#[global] Instance set_h_taken : Setter (R := t) h_taken := fun f s =>
  mk _ _ (owner s) (_thread_data s) (_datagram_adapter s) (_tcp s) (_abort s) (_inbound_shutdown s) (_outbound_shutdown s) (_fully_acked s) (k_datagrams s) (h_given s) (f (h_taken s)).

(** The constructor, given the two ends of the socket pair. *)
Definition make (pair : FileDescriptor.t * FileDescriptor.t) (datagram_interface : A) (datagrams : nat -> I) : t * result Z :=
  let s := mk _ _ pair.1 pair.2 datagram_interface None false false false false datagrams [] [] in
  zoom _thread_data (fun d s => s <| _thread_data := d |>) (FileDescriptor.set_blocking false) s.

Definition on_thread_data {B} (m : M FileDescriptor.t B) : M t B := zoom _thread_data (fun d s => s <| _thread_data := d |>) m.
Definition on_adapter {B} (m : M A B) : M t B := zoom _datagram_adapter (fun a s => s <| _datagram_adapter := a |>) m.

(** [_tcp.value()] and [*_tcp]. *)
Definition tcp : M t TCPConnection.t :=
  s <- get;; match _tcp s with Some c => ret c | None => throw bad_optional_access end.
Definition put_tcp (c : TCPConnection.t) : M t unit := modify (fun s => s <| _tcp := Some c |>).
(** A test of the connection in the interest of a rule. *)
Definition test (p : TCPConnection.t -> bool) (s : t) : bool := match _tcp s with Some c => p c | None => false end.

(** [_datagram_adapter.read()] *)
Definition read_datagram : M t (option TCPSegment.t) :=
  s <- get;;
  modify (fun s => s <| k_datagrams := fun n => k_datagrams s (S n) |>);;
  on_adapter (fd_read (k_datagrams s 0%nat)).

(** Rule 1: from the adapter to the connection. *)
Definition receive_segment : M t unit :=
  seg <- read_datagram;;
  (match seg with
   | Some seg =>
       c <- tcp;;
       put_tcp (TCPConnection.segment_received c seg);;
       modify (fun s => s <| h_given := h_given s ++ [seg] |>)
   | None => ret tt
   end);;
  s <- get;;
  c <- tcp;;
  if FileDescriptor.eof (_thread_data s) && (TCPConnection.bytes_in_flight c =? 0) && negb (_fully_acked s)
  then modify (fun s => s <| _fully_acked := true |>) else ret tt.

(** The cancellation of rule 2. *)
Definition end_outbound : M t unit :=
  c <- tcp;;
  put_tcp (TCPConnection.end_input_stream c);;
  modify (fun s => s <| _outbound_shutdown := true |>).

(** Rule 2: from the pipe to the connection. *)
Definition read_outbound : M t unit :=
  c <- tcp;;
  data <- on_thread_data (FileDescriptor.read (TCPConnection.remaining_outbound_capacity c));;
  let '(c, amount_written) := TCPConnection.write c data in
  put_tcp c;;
  if negb (amount_written =? zlen data) then throw runtime_error else
  s <- get;;
  if FileDescriptor.eof (_thread_data s) then end_outbound else ret tt.

Definition outbound_interest (s : t) : bool :=
  test TCPConnection.active s && negb (_outbound_shutdown s) && test (fun c => 0 <? TCPConnection.remaining_outbound_capacity c) s.

(** Rule 3: from the connection to the pipe. *)
Definition write_inbound : M t unit :=
  c <- tcp;;
  let inbound := TCPConnection.inbound_stream c in
  let amount_to_write := Z.min 65536 (ByteStream.buffer_size inbound) in
  bytes_written <- on_thread_data (FileDescriptor.write
    (BufferViewList.of_string (ByteStream.peek_output inbound amount_to_write)) false);;
  let c := c <| TCPConnection._receiver := TCPReceiver.with_stream_out (TCPConnection._receiver c)
                                             (fun o => ByteStream.pop_output o bytes_written) |> in
  put_tcp c;;
  if ByteStream.eof (TCPConnection.inbound_stream c) || ByteStream.error (TCPConnection.inbound_stream c) then
    on_thread_data (FileDescriptor.shutdown FDWrapper.SHUT_WR);;
    modify (fun s => s <| _inbound_shutdown := true |>)
  else ret tt.

Definition inbound_interest (s : t) : bool :=
  test (fun c => negb (ByteStream.buffer_empty (TCPConnection.inbound_stream c))) s ||
  test (fun c => ByteStream.eof (TCPConnection.inbound_stream c) || ByteStream.error (TCPConnection.inbound_stream c)) s &&
    negb (_inbound_shutdown s).

(** Rule 4: from the connection to the adapter; a turn of the loop per segment. *)
Fixpoint send_loop (queue : list TCPSegment.t) : M t unit :=
  match queue with
  | [] => ret tt
  | seg :: queue =>
      on_adapter (fd_write seg);;
      c <- tcp;;
      put_tcp (c <| TCPConnection._segments_out := queue |>);;
      modify (fun s => s <| h_taken := h_taken s ++ [seg] |>);;
      send_loop queue
  end.
Definition send_segments : M t unit := c <- tcp;; send_loop (TCPConnection._segments_out c).

Definition adapter_fd (s : t) : FDWrapper.t := fd_descriptor (_datagram_adapter s).
Definition thread_fd (s : t) : FDWrapper.t := FileDescriptor._internal_fd (_thread_data s).

Definition rules : list (Rule t) :=
  let r := [] in
  let r := add_rule r adapter_fd Direction.In receive_segment (test TCPConnection.active) (ret tt) in
  let r := add_rule r thread_fd Direction.In read_outbound outbound_interest end_outbound in
  let r := add_rule r thread_fd Direction.Out write_inbound inbound_interest (ret tt) in
  add_rule r adapter_fd Direction.Out send_segments
    (test (fun c => negb (bool_decide (TCPConnection._segments_out c = [])))) (ret tt).

(** The socket with its event loop. *)
Abbreviation sock := (list (Rule t) * t)%type.
Definition in_socket {B} (m : M t B) : M sock B := zoom snd (fun s x => (x.1, s)) m.

Definition _initialize_TCP (config : TCPConfig.t) (isn : WrappingInt32) : M sock unit :=
  in_socket (put_tcp (TCPConnection.make config isn));;
  modify (fun x => (x.1 ++ rules, x.2)).

(** [_tcp_loop], for as many rounds as there are: the result says whether the loop
    has ended. *)
Fixpoint _tcp_loop (condition : t -> bool) (base_time : Z) (rounds : list Round) : M sock bool :=
  x <- get;;
  if negb (condition x.2) then ret true else
  match rounds with
  | [] => ret false
  | round :: rounds =>
      r <- wait_next_event (poll round) TCP_TICK_MS;;
      in_socket (modify (fun s => s <| _abort := _abort s || aborted round |>));;
      x <- get;;
      if match r with Exit => true | _ => false end || _abort x.2 then ret true else
      c <- in_socket tcp;;
      if TCPConnection.active c then
        let ms := u64 (now round - base_time) in
        in_socket (put_tcp (TCPConnection.tick c ms));;
        in_socket (on_adapter (fd_tick ms));;
        _tcp_loop condition (now round) rounds
      else _tcp_loop condition base_time rounds
  end.

(** Is the connection in the official state [st]? *)
Definition is_state (st : TCPState.State) (s : t) : bool := test (fun c => TCPState.eqb (TCPState.state c) (TCPState.of_state st)) s.

(** Lines 207-213 and 235-241. *)
Definition start (c_tcp : TCPConfig.t) (isn : WrappingInt32) (c_ad : FdAdapterConfig.t) : M sock unit :=
  x <- get;;
  if match _tcp x.2 with Some _ => true | None => false end then throw runtime_error else
  _initialize_TCP c_tcp isn;;
  in_socket (modify (fun s => s <| _datagram_adapter := fd_config_mut c_ad (_datagram_adapter s) |>)).

(** [isn] is the initial sequence number the connection draws, [base_time] the time. *)
Definition connect (c_tcp : TCPConfig.t) (isn : WrappingInt32) (c_ad : FdAdapterConfig.t) (base_time : Z) (rounds : list Round) : M sock bool :=
  start c_tcp isn c_ad;;
  c <- in_socket tcp;;
  in_socket (put_tcp (TCPConnection.connect c));;
  x <- get;;
  if negb (is_state TCPState.SYN_SENT x.2) then throw runtime_error else
  _tcp_loop (is_state TCPState.SYN_SENT) base_time rounds.

Definition listen_and_accept (c_tcp : TCPConfig.t) (isn : WrappingInt32) (c_ad : FdAdapterConfig.t) (base_time : Z) (rounds : list Round) : M sock bool :=
  start c_tcp isn c_ad;;
  in_socket (modify (fun s => s <| _datagram_adapter := fd_set_listening true (_datagram_adapter s) |>));;
  _tcp_loop (fun s => is_state TCPState.LISTEN s || is_state TCPState.SYN_RCVD s || is_state TCPState.SYN_SENT s) base_time rounds.

(** The thread; the connection is destroyed at the end. *)
Definition _tcp_main (base_time : Z) (rounds : list Round) : M sock bool :=
  x <- get;;
  if match _tcp x.2 with Some _ => false | None => true end then throw runtime_error else
  ended <- _tcp_loop (fun _ => true) base_time rounds;;
  if negb ended then ret false else
  in_socket (zoom owner (fun d s => s <| owner := d |>) (FileDescriptor.shutdown FDWrapper.SHUT_RDWR));;
  in_socket (modify (fun s => s <| _tcp := None |>));;
  ret true.

(** The whole life of a socket: it connects or accepts a connection, and then the
    thread runs. *)
Inductive role := Client | Server.
Definition life (r : role) (c_tcp : TCPConfig.t) (isn : WrappingInt32) (c_ad : FdAdapterConfig.t)
  (time1 : Z) (rounds1 : list Round) (time2 : Z) (rounds2 : list Round) : M sock bool :=
  established <- (match r with
                  | Client => connect c_tcp isn c_ad time1 rounds1
                  | Server => listen_and_accept c_tcp isn c_ad time1 rounds1
                  end);;
  if negb established then ret false else _tcp_main time2 rounds2.

(** What the owner's thread does before it joins the other. *)
Definition wait_until_closed : M t unit := zoom owner (fun d s => s <| owner := d |>) (FileDescriptor.shutdown FDWrapper.SHUT_RDWR).
Definition destroy : M t unit := modify (fun s => s <| _abort := true |>).
End Socket.

(** [random_private_ethernet_address], given what [random_device] returns. *)
Definition random_private_ethernet_address (random : nat -> Z) : EthernetAddress :=
  let addr := map (fun i => byte_of_Z (random i)) (seq 0 6) in
  match addr with
  | b :: rest => byte_of_Z (Z.land (Z.lor (byte_to_Z b) 0x02) 0xfe) :: rest
  | [] => []
  end.

(** [CS144TCPSocket::connect] and [FullStackSocket::connect]; [port] is random. *)
Section Connect.
Context {A I : Type} `{FdAdapter A I} `{AddressText}.
Definition connect_from (local_ip : Z) (port : Z) (address : Address.t) (isn : WrappingInt32) (time : Z) (rounds : list Round)
  : M (list (EventLoop.Rule (t A I)) * t A I) bool :=
  source <- lift (of_ip_port local_ip (u16 port));;
  connect (TCPConfig.mk 100 TCPConfig.DEFAULT_CAPACITY TCPConfig.DEFAULT_CAPACITY None) isn (FdAdapterConfig.mk source address 0 0) time rounds.
End Connect.

Definition CS144_LOCAL_IP : Z := be_combine (map byte_of_Z [169; 254; 144; 9]).
Definition LOCAL_TAP_IP_ADDRESS : Z := be_combine (map byte_of_Z [169; 254; 10; 9]).
Definition LOCAL_TAP_NEXT_HOP_ADDRESS : Z := be_combine (map byte_of_Z [169; 254; 10; 1]).

Section Sockets.
Context `{AddressText}.
(** [CS144TCPSocket::connect] *)
Definition CS144_connect : Z -> Address.t -> WrappingInt32 -> Z -> list Round ->
    M (list (EventLoop.Rule (t TCPOverIPv4OverTunFdAdapter.t (answer (list byte)))) * t TCPOverIPv4OverTunFdAdapter.t (answer (list byte))) bool :=
  connect_from CS144_LOCAL_IP.

(** The adapter of [FullStackSocket] and its [connect]. *)
Definition FullStack_adapter (base : FdAdapterBase.t) (tap : PacketDevice.t) (random : nat -> Z) : result TCPOverIPv4OverEthernetAdapter.t :=
  let* local := of_ip_port LOCAL_TAP_IP_ADDRESS 0 in
  let* next_hop := of_ip_port LOCAL_TAP_NEXT_HOP_ADDRESS 0 in
  TCPOverIPv4OverEthernetAdapter.make base tap (random_private_ethernet_address random) local next_hop.
Definition FullStack_connect : Z -> Address.t -> WrappingInt32 -> Z -> list Round ->
    M (list (EventLoop.Rule (t TCPOverIPv4OverEthernetAdapter.t (answer (list byte)))) * t TCPOverIPv4OverEthernetAdapter.t (answer (list byte))) bool :=
  connect_from LOCAL_TAP_IP_ADDRESS.
End Sockets.
End TCPSpongeSocket.
