(* ===== verification/sockets.v ===== *)
(** What the TCP socket guarantees: its threads and rules use the TCP connection
    the way its theorems allow, whatever the kernel, the adapter's device and the
    clock do, so that two sockets deliver to the reader of one what was written to
    the other. *)

From S2P Require Import prelude effects wrapping_integers buffer parser tcp_segment byte_stream tcp_receiver tcp_sender sending transfer tcp_connection connection tcp_state address file_descriptor eventloop fd_adapter adapters tcp_sponge_socket.

Module Sockets.
Import EventLoop TCPSpongeSocket.

Section Socket.
Context {A I : Type} `{FdAdapterLaw A I}.
Context (cfg : TCPConfig.t) (isn : WrappingInt32).
Context (Hcap : is_u64 (TCPConfig.send_capacity cfg)) (Hisn : wi_ok isn).
Abbreviation sk := (TCPSpongeSocket.t A I).
Abbreviation listens s := (FdAdapterBase.listening (fd_base (_datagram_adapter s))).
Abbreviation rate s := (FdAdapterBase.rate (fd_base (_datagram_adapter s))).

(** An adapter that listens is not sent a SYN that acknowledges something. *)
Definition no_synack (datagrams : nat -> I) : Prop :=
  forall n a, FdAdapterBase.listening (fd_base a) = true ->
    match (fd_read (datagrams n) a).2 with
    | Ok (Some seg) => TCPHeader.ack (TCPSegment.header seg) = false
    | _ => True
    end.

(** The connection of the socket: what it was given and what was taken from it is
    what the socket has recorded. *)
Record good (c : TCPConnection.t) (s : sk) : Prop := {
  g_reach : Connection.reach cfg isn c (FileDescriptor.h_read (_thread_data s)) (h_taken s) (h_given s)
              (FileDescriptor.h_written (_thread_data s));
  g_open : _outbound_shutdown s = false -> Connection.out_ended c = false;
  g_conn : listens s = false -> TCPConnection._connect_called c = true
}.

Definition inv (s : sk) : Prop :=
  (listens s = true -> no_synack (k_datagrams s) /\ fd_allows (rate s)) /\
  exists c, _tcp s = Some c /\ (zlen (FileDescriptor.h_read (_thread_data s)) < 2 ^ 62 -> good c s).

(** Changes that do not concern the connection. *)
Lemma inv_frame (s s' : sk) :
  inv s -> _tcp s' = _tcp s -> FileDescriptor.same_history (_thread_data s) (_thread_data s') ->
  h_taken s' = h_taken s -> h_given s' = h_given s -> _outbound_shutdown s' = _outbound_shutdown s ->
  listens s' = listens s -> rate s' = rate s -> (no_synack (k_datagrams s) -> no_synack (k_datagrams s')) -> inv s'.
Proof using Type.
  intros [Hn (c & Ec & Hg)] E1 [E2 E3] E4 E5 E6 E7 E9 E8. split; [rewrite E7, E9; intros Hl; destruct (Hn Hl); auto|]. exists c. split; [congruence|].
  rewrite E2. intros Hlen. destruct (Hg Hlen). split; [by rewrite E2, E3, E4, E5|by rewrite E6|by rewrite E7].
Qed.

Lemma tcp_eq (s : sk) c : _tcp s = Some c -> tcp s = (s, Ok c).
Proof using Type. intros E. unfold tcp, bind, get. by rewrite E. Qed.

Lemma no_synack_tail datagrams : no_synack datagrams -> no_synack (fun n => datagrams (S n)).
Proof using Type. intros Hn n a Ha. exact (Hn (S n) a Ha). Qed.

Lemma read_datagram_eq (s : sk) a r :
  fd_read (k_datagrams s 0%nat) (_datagram_adapter s) = (a, r) ->
  read_datagram s = (s <| k_datagrams := fun n => k_datagrams s (S n) |> <| _datagram_adapter := a |>, r).
Proof using Type. intros E. unfold read_datagram, on_adapter, zoom, bind, get, modify. cbn. by rewrite E. Qed.

(** A segment may be given to the connection. *)
Lemma sane_segment c s a seg :
  good c s -> zlen (FileDescriptor.h_read (_thread_data s)) < 2 ^ 62 -> (listens s = true -> no_synack (k_datagrams s) /\ fd_allows (rate s)) ->
  fd_read (k_datagrams s 0%nat) (_datagram_adapter s) = (a, Ok (Some seg)) ->
  TCPHeader.ack (TCPSegment.header seg) = true ->
  Sending.ack_sane (TCPConnection._sender c) (TCPHeader.ackno (TCPSegment.header seg)) /\
  is_u16 (TCPHeader.win (TCPSegment.header seg)).
Proof using Hcap Hisn H0.
  intros [Hr _ Hc] Hlen Hn Hread Hack. pose proof (law_read (k_datagrams s 0%nat) (_datagram_adapter s) (fun E => proj2 (Hn E))) as Hl. rewrite Hread in Hl.
  destruct Hl as (Hok & Hwin & _). split; [|done]. split; [done|]. intros Hz. exfalso.
  destruct (listens s) eqn:El.
  - destruct (Hn eq_refl) as [Hn' _]. specialize (Hn' 0%nat _ El). rewrite Hread in Hn'. cbn in Hn'. congruence.
  - exact (Connection.reach_started cfg isn Hcap Hisn _ _ _ _ _ Hr Hlen (Hc eq_refl) Hz).
Qed.

Lemma receive_segment_keeps (s : sk) : inv s -> inv (receive_segment s).1.
Proof using Hcap Hisn H0.
  intros Hs. pose proof Hs as [Hn (c & Ec & Hg)].
  assert (Htail : forall s2 : sk, inv s2 -> inv ((s <- get;; c <- tcp;;
    (if FileDescriptor.eof (_thread_data s) && (TCPConnection.bytes_in_flight c =? 0) && negb (_fully_acked s)
     then modify (fun s => s <| _fully_acked := true |>) else ret tt)) s2).1).
  { clear. intros s2 Hi. pose proof Hi as [_ (c2 & E2 & _)]. unfold bind at 1, get. cbn iota beta.
    rewrite (bind_step _ _ _ _ _ (tcp_eq s2 c2 E2)). destruct (_ && _); [|done]. by apply (inv_frame s2). }
  pose proof (law_read (k_datagrams s 0%nat) (_datagram_adapter s) (fun E => proj2 (Hn E))) as Hl.
  pose proof (law_rate (k_datagrams s 0%nat) (_datagram_adapter s)) as Hrate.
  destruct (fd_read (k_datagrams s 0%nat) (_datagram_adapter s)) as [a r] eqn:Hread.
  pose proof (read_datagram_eq s a r Hread) as E1. set (s1 := setter _ (setter _ s)) in E1.
  assert (Hsame : FdAdapterBase.listening (fd_base a) = listens s -> inv s1).
  { intros E. apply (inv_frame s); try done. apply no_synack_tail. }
  unfold receive_segment. destruct r as [[seg|]|e]; [| |rewrite (bind_throw _ _ _ _ _ E1); apply Hsame, Hl];
    rewrite (bind_step _ _ _ _ _ E1); [|rewrite bind_ret; apply Htail, Hsame, Hl].
  destruct Hl as (_ & _ & Hla & Hsyn).
  rewrite (bind_step _ _ s1 (s1 <| _tcp := Some (TCPConnection.segment_received c seg) |> <| h_given := h_given s1 ++ [seg] |>) tt).
  2: { rewrite (bind_step _ _ _ _ _ (tcp_eq s1 c Ec)). done. }
  apply Htail. split; [by cbn; rewrite Hla|]. eexists. split; [done|]. intros Hlen. specialize (Hg Hlen). split; cbn.
  - apply Connection.c_segment; [exact (g_reach _ _ Hg)|]. intros Hack. by eapply sane_segment.
  - intros Hsd. rewrite Connection.segment_received_ended. by apply (g_open _ _ Hg).
  - intros _. pose proof (Connection.segment_received_cases c seg) as [(_ & _ & _ & c2 & _ & ->)|(Hcc & -> & _)].
    + unfold TCPConnection.connect. by rewrite TCPConnection.send_segments_eq.
    + destruct (listens s) eqn:El; [|by apply (g_conn _ _ Hg)]. apply Hcc; [by apply Hsyn|].
      destruct (Hn eq_refl) as [Hn' _]. specialize (Hn' 0%nat _ El). by rewrite Hread in Hn'.
Qed.

(** The calls do not change whether [connect] was called. *)
Lemma called_send c : TCPConnection._connect_called (TCPConnection.send_segments c) = TCPConnection._connect_called c.
Proof using Type. by rewrite TCPConnection.send_segments_eq. Qed.

Lemma end_outbound_inv (s : sk) : inv s -> inv (end_outbound s).1.
Proof using Type.
  intros [Hn (c & Ec & Hg)]. unfold end_outbound. rewrite (bind_step _ _ _ _ _ (tcp_eq s c Ec)). split; [done|].
  eexists. split; [done|]. intros Hlen. destruct (Hg Hlen) as [Hr _ Hc]. split; [by apply Connection.c_end|done|].
  intros Hl. unfold TCPConnection.end_input_stream. rewrite called_send. by apply Hc.
Qed.

Lemma read_outbound_keeps (s : sk) : inv s -> _outbound_shutdown s = false -> inv (read_outbound s).1.
Proof using Hcap Hisn.
  intros Hs Hsd. pose proof Hs as [Hn (c & Ec & Hg)]. unfold read_outbound. rewrite (bind_step _ _ _ _ _ (tcp_eq s c Ec)).
  unfold on_thread_data, zoom, bind at 1. destruct (FileDescriptor.read _ _) as [d r] eqn:Er.
  apply FileDescriptor.read_spec in Er as (Hw & _ & _ & Er); [|apply u64_range].
  destruct r as [data|e]; [|by apply (inv_frame s)]. destruct Er as (Eh & Hcapd & _).
  pose proof (Connection.write_ended c data) as Hend.
  destruct (TCPConnection.write c data) as [c' n] eqn:Ew. cbn [fst] in Hend.
  set (s1 := (s <| _thread_data := d |>) <| _tcp := Some c' |>).
  assert (H1 : inv s1).
  { split; [exact Hn|]. exists c'. split; [done|]. intros Hlen. cbn in Hlen. rewrite Eh in Hlen.
    destruct Hg as [Hr Ho Hc]; [rewrite length_app in Hlen; lia|].
    assert (Hw0 : zlen (FileDescriptor.h_read (_thread_data s)) < 2 ^ 62) by (rewrite length_app in Hlen; lia).
    pose proof (Connection.sender_inv cfg isn c _ _ _ _ Hcap Hisn Hr Hw0) as Hi.
    destruct (ByteStream.write_capacity _ data (Sending.i_wf _ _ Hi) Hcapd) as [_ En].
    assert (En' : n = zlen data).
    { unfold TCPConnection.write in Ew. unfold TCPSender.stream_in in Ew. destruct (ByteStream.write _ data) as [st m]. cbn in En.
      by injection Ew as _ <-. }
    split; cbn.
    - rewrite Eh, Hw. pose proof (Connection.c_write cfg isn c _ _ _ _ data Hr (Ho Hsd)) as Hr'. rewrite Ew in Hr'. cbn [fst snd] in Hr'.
      by rewrite En', Nat2Z.id, firstn_all in Hr'.
    - intros _. rewrite Hend. by apply Ho.
    - intros Hl. specialize (Hc Hl). unfold TCPConnection.write in Ew. destruct (ByteStream.write _ data) as [st m].
      injection Ew as <- _. by rewrite called_send. }
  unfold bind at 1, put_tcp at 1, modify at 1. fold s1. clearbody s1. destruct (negb _); [done|].
  unfold bind, get. destruct (FileDescriptor.eof _); [by apply end_outbound_inv|done].
Qed.

Lemma write_inbound_keeps (s : sk) : inv s -> inv (write_inbound s).1.
Proof using Type.
  intros Hs. pose proof Hs as [Hn (c & Ec & Hg)]. unfold write_inbound. rewrite (bind_step _ _ _ _ _ (tcp_eq s c Ec)).
  set (o := TCPConnection.inbound_stream c). set (k := Z.min 65536 _).
  unfold on_thread_data at 1, zoom at 1, bind at 1. destruct (FileDescriptor.write _ _ _) as [d r] eqn:Er.
  assert (Hk : zlen (concat [ByteStream.peek_output o k]) < 2 ^ 63).
  { unfold ByteStream.peek_output. cbn [concat]. rewrite app_nil_r, length_take. lia. }
  apply FileDescriptor.write_handed in Er as (n & [Hn1 Hw He _ _ _] & Er); [|done]. cbn in Hn1, Hw. rewrite app_nil_r in Hn1, Hw.
  destruct r as [m|e].
  2: { apply (inv_frame s); try done. split; [done|]. by rewrite (Er eq_refl), take_0, app_nil_r in Hw. }
  destruct Er as (-> & _). set (c' := setter _ c). unfold bind at 1, put_tcp at 1, modify at 1.
  set (s1 := setter _ (setter _ s)). assert (H1 : inv s1).
  { split; [exact Hn|]. exists c'. split; [done|]. intros Hlen. cbn in Hlen. rewrite He in Hlen. destruct (Hg Hlen) as [Hr Ho Hc].
    split; [|exact Ho|exact Hc]. cbn. rewrite He, Hw, ByteStream.peek_peeked by done. exact (Connection.c_read cfg isn c _ _ _ _ n Hr). }
  clearbody s1. destruct (_ || _); [|done].
  destruct (FileDescriptor.shutdown_history FDWrapper.SHUT_WR (_thread_data s1)) as [E1 E2].
  unfold on_thread_data, zoom, bind, modify. destruct (FileDescriptor.shutdown _ _) as [d' [u|e]]; by apply (inv_frame s1).
Qed.

Lemma send_segments_keeps (s : sk) : inv s -> inv (send_segments s).1.
Proof using H0.
  intros Hs. unfold send_segments. pose proof Hs as [_ (c & Ec & _)]. rewrite (bind_step _ _ _ _ _ (tcp_eq s c Ec)).
  remember (TCPConnection._segments_out c) as queue eqn:Eq. revert s c Hs Ec Eq.
  induction queue as [|seg queue IH]; intros s c Hs Ec Eq; cbn [send_loop]; [done|].
  unfold on_adapter at 1, zoom at 1, bind at 1. pose proof (law_write seg (_datagram_adapter s)) as Hl.
  destruct (fd_write seg (_datagram_adapter s)) as [a [u|e]]; cbn [fst] in Hl; [|apply (inv_frame s); cbn; by rewrite ?Hl].
  set (s1 := setter _ s). assert (H1 : inv s1) by (apply (inv_frame s); cbn; by rewrite ?Hl). assert (E1 : _tcp s1 = Some c) by exact Ec.
  clearbody s1. rewrite (bind_step _ _ _ _ _ (tcp_eq s1 c E1)). unfold bind at 1, put_tcp at 1, modify at 1. unfold bind at 1, modify at 1.
  eapply IH; [|done|done]. destruct H1 as [Hn (c1 & Ec1 & Hg)]. assert (c1 = c) as -> by congruence.
  split; [exact Hn|]. eexists. split; [done|]. intros Hlen. destruct (Hg Hlen) as [Hr Ho Hc]. split; [|exact Ho|exact Hc].
  cbn. by apply (Connection.c_dequeue cfg isn c).
Qed.

(** ** The rules together *)

(** Handlers that leave a part of the socket alone: whether the outbound direction
    is shut down, or the owner's end of the pair. *)
Definition stays {X B} (f : sk -> X) (m : M sk B) : Prop := forall s, f (m s).1 = f s.

Section Stays.
Context {X : Type} (f : sk -> X).
Lemma stays_bind {B C} (m : M sk B) (k : B -> M sk C) : stays f m -> (forall b, stays f (k b)) -> stays f (bind m k).
Proof using Type. intros Hm Hk s. unfold bind. specialize (Hm s). destruct (m s) as [s1 [b|e]]; cbn in Hm |- *; [|done]. by rewrite Hk. Qed.
Lemma stays_tcp : stays f tcp.
Proof using Type. intros s. unfold tcp, bind, get. by destruct (_tcp s). Qed.
Lemma stays_adapter {B} (m : M A B) : (forall s a, f (s <| _datagram_adapter := a |>) = f s) -> stays f (on_adapter m).
Proof using Type. intros Hf s. unfold on_adapter, zoom. destruct (m _). apply Hf. Qed.
Lemma stays_thread {B} (m : M FileDescriptor.t B) : (forall s d, f (s <| _thread_data := d |>) = f s) -> stays f (on_thread_data m).
Proof using Type. intros Hf s. unfold on_thread_data, zoom. destruct (m _). apply Hf. Qed.
End Stays.

Ltac solve_stays := repeat first
  [ apply stays_tcp | apply stays_adapter; done | apply stays_thread; done | apply stays_bind; [|intros ?]
  | done | match goal with |- stays _ (if ?b then _ else _) => destruct b end
  | match goal with |- stays _ (match ?o with _ => _ end) => destruct o end ].

Lemma receive_segment_stays : stays _outbound_shutdown receive_segment /\ stays owner receive_segment.
Proof using Type. unfold receive_segment, read_datagram. split; solve_stays. Qed.
Lemma write_inbound_stays : stays _outbound_shutdown write_inbound /\ stays owner write_inbound.
Proof using Type. unfold write_inbound. split; solve_stays. Qed.
Lemma send_segments_stays : stays _outbound_shutdown send_segments /\ stays owner send_segments.
Proof using Type.
  assert (H1 : forall queue, stays _outbound_shutdown (send_loop queue) /\ stays owner (send_loop queue)).
  { induction queue as [|seg queue [IH1 IH2]]; cbn [send_loop]; split; solve_stays. }
  unfold send_segments. split; (apply stays_bind; [apply stays_tcp|]); intros c; apply H1.
Qed.
Lemma end_outbound_stays : stays owner end_outbound.
Proof using Type. unfold end_outbound. solve_stays. Qed.
Lemma read_outbound_stays : stays owner read_outbound.
Proof using Type. unfold read_outbound. solve_stays. Qed.

Definition guards : list (sk -> Prop) := [fun _ => True; fun s => _outbound_shutdown s = false; fun _ => True; fun _ => True].
Definition guarded_rules : list (Rule sk * (sk -> Prop)) := zip rules guards.

Lemma outbound_interest_open (s : sk) : outbound_interest s = true -> _outbound_shutdown s = false.
Proof using Type. unfold outbound_interest. destruct (_outbound_shutdown s); [|done]. by rewrite andb_false_r. Qed.

Lemma guarded_compatible : compatible inv guarded_rules.
Proof using Hcap Hisn H0.
  split.
  - repeat apply Forall_cons_2; [..|apply Forall_nil_2]; (split; cbn [fst snd callback cancel interest]; [|intros s Hs Hpre|intros s Hs]);
      try done; auto using receive_segment_keeps, write_inbound_keeps, send_segments_keeps, read_outbound_keeps, end_outbound_inv.
    intros s _. apply outbound_interest_open.
  - assert (Ht : forall g (r : Rule sk), leaves inv g (r, fun _ => True)) by done.
    assert (H1 : forall (r h : Rule sk) P, stays _outbound_shutdown (callback r) -> cancel r = ret tt -> leaves inv (r, P) (h, fun s => _outbound_shutdown s = false)).
    { intros r h P Hr Er s _ Hp. cbn in *. rewrite Er. split; [|done]. intros _. by rewrite Hr. }
    repeat (apply FOP_cons || apply FOP_nil); repeat apply Forall_cons_2; try apply Forall_nil_2; (split; [|]); try (by apply Ht);
      apply H1; try done; [apply receive_segment_stays|apply write_inbound_stays|apply send_segments_stays].
Qed.

Lemma wait_keeps poll timeout gs (s : sk) :
  gs `sublist_of` guarded_rules -> inv s ->
  exists gs', gs' `sublist_of` guarded_rules /\ (wait_next_event poll timeout (map fst gs, s)).1.1 = map fst gs' /\
    inv (wait_next_event poll timeout (map fst gs, s)).1.2.
Proof using Hcap Hisn H0.
  intros Hg Hs. destruct (wait_next_event_keeps inv poll timeout gs s (compatible_sublist _ _ _ Hg guarded_compatible) Hs)
    as (gs' & H1 & H2 & H3). exists gs'. split; [by etrans|done].
Qed.

(** The rules left are some of the four, and the socket is fine. *)
Definition kept {B} (x : (list (Rule sk) * sk) * result B) : Prop :=
  exists gs', gs' `sublist_of` guarded_rules /\ x.1.1 = map fst gs' /\ inv x.1.2.

Lemma kept_same {B} gs (s : sk) (r : result B) : gs `sublist_of` guarded_rules -> inv s -> kept ((map fst gs, s), r).
Proof using Type. intros. by exists gs. Qed.

(** A tick of the connection and of the adapter. *)
Lemma tick_keeps (s : sk) c ms : inv s -> _tcp s = Some c -> 0 <= ms -> inv (s <| _tcp := Some (TCPConnection.tick c ms) |>).
Proof using Type.
  intros [Hn (c1 & Ec1 & Hg)] Ec Hms. assert (c1 = c) as -> by congruence. split; [exact Hn|]. eexists. split; [done|].
  intros Hlen. destruct (Hg Hlen) as [Hr Ho Hc]. split; [by apply Connection.c_tick|intros Hsd; rewrite Connection.tick_out_ended; by apply Ho|].
  intros Hl. specialize (Hc Hl). unfold TCPConnection.tick. rewrite called_send. by destruct (_ <? _).
Qed.

Lemma tcp_loop_keeps condition base_time rounds gs (s : sk) :
  gs `sublist_of` guarded_rules -> inv s ->
  kept (_tcp_loop condition base_time rounds (map fst gs, s)).
Proof using Hcap Hisn H0.
  revert base_time gs s. induction rounds as [|round rounds IH]; intros base_time gs s Hg Hs; cbn [_tcp_loop].
  - unfold bind, get. destruct (negb _); by apply kept_same.
  - unfold bind at 1, get at 1. cbn iota beta. destruct (negb _); [by apply kept_same|].
    destruct (wait_keeps (poll round) TCP_TICK_MS gs s Hg Hs) as (gs1 & Hg1 & E1 & H1). unfold bind at 1.
    destruct (wait_next_event _ _ _) as [[rs s1] [r|e]]; cbn in E1, H1; subst rs; [|by apply kept_same].
    unfold bind at 1, in_socket at 1, zoom at 1, modify at 1. cbn iota beta. cbn [fst snd].
    set (s2 := setter _ s1). assert (H2 : inv s2) by (by apply (inv_frame s1)). clearbody s2. clear H1 s1.
    unfold bind at 1, get at 1. cbn iota beta. destruct (_ || _); [by apply kept_same|].
    pose proof H2 as [_ (c & Ec & _)]. unfold bind at 1, in_socket at 1, zoom at 1. cbn [snd fst]. rewrite (tcp_eq s2 c Ec).
    destruct (TCPConnection.active c); [|by apply IH].
    unfold bind at 1, in_socket at 1, zoom at 1, put_tcp, modify at 1. cbn iota beta. cbn [fst snd].
    set (ms := u64 _). pose proof (tick_keeps s2 c ms H2 Ec ltac:(apply u64_range)) as H3.
    set (s3 := setter _ s2) in *. clearbody s3. unfold bind at 1, in_socket at 1, zoom at 1, on_adapter, zoom at 1. cbn [fst snd].
    pose proof (law_tick ms (_datagram_adapter s3)) as Hl. destruct (fd_tick ms (_datagram_adapter s3)) as [a [u|e]]; cbn [fst] in Hl.
    + apply IH; [done|]. apply (inv_frame s3); cbn; by rewrite ?Hl.
    + apply kept_same; [done|]. apply (inv_frame s3); cbn; by rewrite ?Hl.
Qed.

(** The owner's end of the pair is not touched before the thread ends. *)
Definition unguarded : list (Rule sk * (sk -> Prop)) := map (fun r => (r, fun _ => True)) rules.

Lemma owner_compatible o : compatible (fun s : sk => owner s = o) unguarded.
Proof using Type.
  split.
  - unfold unguarded, rules, add_rule. cbn [app map]. repeat apply Forall_cons_2; [..|apply Forall_nil_2];
      (split; [done|intros s <- _|intros s <-]; cbn [callback cancel fst]);
      first [apply receive_segment_stays|apply write_inbound_stays|apply send_segments_stays|apply read_outbound_stays|apply end_outbound_stays|done].
  - unfold unguarded. generalize (rules (A := A) (I := I)). induction l as [|r l IH]; constructor; [|done]. apply Forall_fmap, Forall_true. by intros x; split.
Qed.

Lemma tcp_loop_owner condition base_time rounds gs (s : sk) :
  gs `sublist_of` unguarded ->
  owner (_tcp_loop condition base_time rounds (map fst gs, s)).1.2 = owner s.
Proof using Type.
  revert base_time gs s. induction rounds as [|round rounds IH]; intros base_time gs s Hg; cbn [_tcp_loop].
  - unfold bind, get. by destruct (negb _).
  - unfold bind at 1, get at 1. cbn iota beta. destruct (negb _); [done|].
    destruct (wait_next_event_keeps (fun s0 : sk => owner s0 = owner s) (poll round) TCP_TICK_MS gs s
      (compatible_sublist _ _ _ Hg (owner_compatible _)) eq_refl) as (gs1 & Hg1 & E1 & H1). unfold bind at 1.
    destruct (wait_next_event _ _ _) as [[rs s1] [r|e]]; cbn in E1, H1; subst rs; [|done].
    unfold bind at 1, in_socket at 1, zoom at 1, modify at 1. cbn iota beta. cbn [fst snd]. rewrite <- H1.
    set (s2 := setter _ s1). change (owner s1) with (owner s2). clearbody s2. clear H1 s1.
    unfold bind at 1, get at 1. cbn iota beta. destruct (_ || _); [done|].
    unfold bind at 1, in_socket at 1, zoom at 1. cbn [snd fst]. pose proof (stays_tcp owner s2) as Ht.
    destruct (tcp s2) as [s3 [c|e]]; cbn [fst] in Ht; rewrite <- Ht; [|done].
    destruct (TCPConnection.active c); [|by apply IH; etrans].
    unfold bind at 1, in_socket at 1, zoom at 1, put_tcp, modify at 1. cbn iota beta. cbn [fst snd].
    unfold bind at 1, in_socket at 1, zoom at 1, on_adapter, zoom at 1. cbn [fst snd].
    destruct (fd_tick _ _) as [a [u|e]]; [|done]. etrans; [apply IH; by etrans|done].
Qed.

(** ** The life of a socket *)

(** A socket that was just constructed. *)
Record fresh (s : sk) : Prop := {
  f_tcp : _tcp s = None;
  f_open : _outbound_shutdown s = false;
  f_read : FileDescriptor.h_read (_thread_data s) = [];
  f_written : FileDescriptor.h_written (_thread_data s) = [];
  f_given : h_given s = [];
  f_taken : h_taken s = []
}.

(** What a socket may rely on: the adapter of a client does not listen, and that of
    a server is not sent acknowledgments while it listens, and does not drop what
    it reads. *)
Definition ready (r : role) (c_ad : FdAdapterConfig.t) (s : sk) : Prop :=
  match r with
  | Client => listens s = false
  | Server => no_synack (k_datagrams s) /\ fd_allows (FdAdapterConfig.loss_rate_dn c_ad)
  end.

Lemma in_socket_eq {B} (m : M sk B) rs (s s' : sk) r : m s = (s', r) -> in_socket m (rs, s) = ((rs, s'), r).
Proof using Type. intros E. unfold in_socket, zoom. cbn [snd]. by rewrite E. Qed.

(** The socket after [start]. *)
Definition started (c_ad : FdAdapterConfig.t) (s : sk) : sk :=
  s <| _tcp := Some (TCPConnection.make cfg isn) |> <| _datagram_adapter := fd_config_mut c_ad (_datagram_adapter s) |>.

Lemma start_eq c_ad (s : sk) : _tcp s = None -> start cfg isn c_ad ([], s) = ((rules, started c_ad s), Ok tt).
Proof using Type. intros E. unfold start, bind at 1, get. cbn [snd]. by rewrite E. Qed.

Lemma started_listens c_ad (s : sk) : listens (started c_ad s) = listens s.
Proof using H0. unfold started. cbn. unfold fd_config_mut. by rewrite law_base. Qed.

(** [TCPConnection::connect] on a new connection. *)
Lemma connected_eq :
  exists c, TCPConnection.connect (TCPConnection.make cfg isn) = c /\ Connection.reach cfg isn c [] [] [] [] /\
    Connection.out_ended c = false /\ TCPConnection._connect_called c = true.
Proof using Type.
  eexists. split; [done|]. split; [apply Connection.c_connect, Connection.c_init|].
  split; [by rewrite Connection.connect_ended|exact (called_send _)].
Qed.

Lemma inv_start c c_ad (s : sk) :
  fresh s -> listens s = false -> Connection.reach cfg isn c [] [] [] [] -> Connection.out_ended c = false ->
  TCPConnection._connect_called c = true -> inv ((started c_ad s) <| _tcp := Some c |>).
Proof using H0.
  intros [] Hl Hr He Hc. assert (El : listens ((started c_ad s) <| _tcp := Some c |>) = false).
  { etrans; [|exact Hl]. apply started_listens. }
  split; [by rewrite El|]. exists c. split; [done|]. intros _. split; cbn; [|by intros _|by intros _].
  by rewrite f_read0, f_written0, f_given0, f_taken0.
Qed.

Lemma rules_guarded : rules = map fst guarded_rules.
Proof using Type. done. Qed.

Lemma connect_keeps c_ad time rounds (s : sk) :
  fresh s -> ready Client c_ad s -> kept (connect cfg isn c_ad time rounds ([], s)).
Proof using Hcap Hisn H0.
  intros Hf Hl. unfold connect. rewrite (bind_step _ _ _ _ _ (start_eq c_ad s (f_tcp s Hf))).
  rewrite (bind_step _ _ _ _ _ (in_socket_eq tcp rules _ _ _ (tcp_eq (started c_ad s) (TCPConnection.make cfg isn) eq_refl))).
  destruct connected_eq as (c & -> & Hr & He & Hc). pose proof (inv_start c c_ad s Hf Hl Hr He Hc) as H1.
  rewrite (bind_step _ _ _ _ _ (in_socket_eq (put_tcp c) rules (started c_ad s) ((started c_ad s) <| _tcp := Some c |>) (Ok tt) eq_refl)).
  revert H1. generalize ((started c_ad s) <| _tcp := Some c |>). intros s1 H1.
  rewrite (bind_step get _ (rules, s1) (rules, s1) (rules, s1) eq_refl). rewrite rules_guarded.
  destruct (negb _); [by apply kept_same|by apply tcp_loop_keeps].
Qed.

Lemma listen_keeps c_ad time rounds (s : sk) :
  fresh s -> ready Server c_ad s -> kept (listen_and_accept cfg isn c_ad time rounds ([], s)).
Proof using Hcap Hisn H0.
  intros Hf [Hn Ha]. unfold listen_and_accept. rewrite (bind_step _ _ _ _ _ (start_eq c_ad s (f_tcp s Hf))).
  set (s1 := (started c_ad s) <| _datagram_adapter := fd_set_listening true (_datagram_adapter (started c_ad s)) |>).
  assert (H1 : inv s1).
  { split; [intros _; split; [done|]; cbn; unfold fd_set_listening, fd_config_mut; by rewrite !law_base|]. exists (TCPConnection.make cfg isn). split; [done|]. intros _. destruct Hf. split; cbn.
    - rewrite f_read0, f_written0, f_given0, f_taken0. apply Connection.c_init.
    - done.
    - unfold fd_set_listening. by rewrite law_base. }
  rewrite (bind_step _ _ _ _ _ (in_socket_eq _ rules (started c_ad s) s1 (Ok tt) eq_refl)).
  clearbody s1. rewrite rules_guarded. by apply tcp_loop_keeps.
Qed.

(** The socket before the first round of its loop. *)
Definition opened (r : role) (c_ad : FdAdapterConfig.t) (s : sk) : sk :=
  match r with
  | Client => (started c_ad s) <| _tcp := Some (TCPConnection.connect (TCPConnection.make cfg isn)) |>
  | Server => (started c_ad s) <| _datagram_adapter := fd_set_listening true (_datagram_adapter (started c_ad s)) |>
  end.

Lemma establish_opened r c_ad time (s : sk) : _tcp s = None ->
  (match r with Client => connect cfg isn c_ad time [] | Server => listen_and_accept cfg isn c_ad time [] end ([], s)).1.2 = opened r c_ad s.
Proof using Type.
  intros E. assert (Hl : forall condition (s1 : sk), (_tcp_loop condition time [] (rules, s1)).1.2 = s1).
  { intros condition s1. cbn [_tcp_loop]. unfold bind, get. by destruct (negb _). }
  unfold opened. destruct r; unfold connect, listen_and_accept; rewrite (bind_step _ _ _ _ _ (start_eq c_ad s E)).
  - rewrite (bind_step _ _ _ _ _ (in_socket_eq tcp rules _ _ _ (tcp_eq (started c_ad s) (TCPConnection.make cfg isn) eq_refl))).
    generalize (TCPConnection.connect (TCPConnection.make cfg isn)). intros c.
    rewrite (bind_step _ _ _ _ _ (in_socket_eq (put_tcp c) rules (started c_ad s) ((started c_ad s) <| _tcp := Some c |>) (Ok tt) eq_refl)).
    generalize ((started c_ad s) <| _tcp := Some c |>). intros s1. unfold bind at 1, get at 1. cbn [snd]. destruct (negb _); [done|by apply Hl].
  - set (s1 := (started c_ad s) <| _datagram_adapter := fd_set_listening true (_datagram_adapter (started c_ad s)) |>).
    rewrite (bind_step _ _ _ _ _ (in_socket_eq _ rules (started c_ad s) s1 (Ok tt) eq_refl)). clearbody s1. by apply Hl.
Qed.

Lemma establish_owner r c_ad time rounds (s : sk) : _tcp s = None ->
  owner (match r with Client => connect cfg isn c_ad time rounds | Server => listen_and_accept cfg isn c_ad time rounds end ([], s)).1.2 = owner s.
Proof using Type.
  intros E. assert (Er : rules = map fst unguarded) by done.
  assert (Hl : forall condition s1, owner s1 = owner s -> owner (_tcp_loop condition time rounds (rules, s1)).1.2 = owner s).
  { intros condition s1 <-. rewrite Er. by apply tcp_loop_owner. }
  destruct r; unfold connect, listen_and_accept; rewrite (bind_step _ _ _ _ _ (start_eq c_ad s E)).
  - rewrite (bind_step _ _ _ _ _ (in_socket_eq tcp rules _ _ _ (tcp_eq (started c_ad s) (TCPConnection.make cfg isn) eq_refl))).
    generalize (TCPConnection.connect (TCPConnection.make cfg isn)). intros c.
    rewrite (bind_step _ _ _ _ _ (in_socket_eq (put_tcp c) rules (started c_ad s) ((started c_ad s) <| _tcp := Some c |>) (Ok tt) eq_refl)).
    assert (E1 : owner ((started c_ad s) <| _tcp := Some c |>) = owner s) by done.
    revert E1. generalize ((started c_ad s) <| _tcp := Some c |>). intros s1 E1. unfold bind at 1, get at 1. cbn [snd].
    destruct (negb _); [exact E1|by apply Hl].
  - set (s1 := (started c_ad s) <| _datagram_adapter := fd_set_listening true (_datagram_adapter (started c_ad s)) |>).
    assert (E1 : owner s1 = owner s) by done.
    rewrite (bind_step _ _ _ _ _ (in_socket_eq _ rules (started c_ad s) s1 (Ok tt) eq_refl)). clearbody s1. by apply Hl.
Qed.

(** What the socket has recorded belongs to a use of its connection. *)
Definition sound (s : sk) : Prop :=
  zlen (FileDescriptor.h_read (_thread_data s)) < 2 ^ 62 ->
  exists c, Connection.reach cfg isn c (FileDescriptor.h_read (_thread_data s)) (h_taken s) (h_given s)
              (FileDescriptor.h_written (_thread_data s)).

Lemma inv_sound (s : sk) : inv s -> sound s.
Proof using Type. intros [_ (c & _ & Hg)] Hlen. exists c. by destruct (Hg Hlen). Qed.

Lemma main_sound time rounds gs (s : sk) :
  gs `sublist_of` guarded_rules -> inv s -> sound (_tcp_main time rounds (map fst gs, s)).1.2.
Proof using Hcap Hisn H0.
  intros Hg Hs. pose proof Hs as [_ (c & Ec & _)]. unfold _tcp_main, bind at 1, get. cbn [snd]. rewrite Ec.
  destruct (tcp_loop_keeps (fun _ => true) time rounds gs s Hg Hs) as (gs' & _ & _ & Hs'%inv_sound).
  unfold bind at 1. destruct (_tcp_loop _ _ _ _) as [[rs s'] [b|e]]; [|done]. cbn [fst snd] in Hs'. destruct (negb b); [done|].
  unfold bind, in_socket, zoom, modify, ret. cbn [fst snd]. by destruct (FileDescriptor.shutdown _ _) as [d [u|e]].
Qed.

Lemma life_sound r c_ad time1 rounds1 time2 rounds2 (s : sk) :
  fresh s -> ready r c_ad s -> sound (life r cfg isn c_ad time1 rounds1 time2 rounds2 ([], s)).1.2.
Proof using Hcap Hisn H0.
  intros Hf Hr. unfold life. set (m := match r with Client => _ | Server => _ end).
  assert (Hk : kept (m ([], s))) by (unfold m; destruct r; [by apply connect_keeps|by apply listen_keeps]).
  clearbody m. unfold bind. destruct (m ([], s)) as [[rs s1] [b|e]]; destruct Hk as (gs & Hg & Eg & Hs); cbn in Eg, Hs; subst rs.
  - destruct (negb b); [by apply inv_sound|by apply main_sound].
  - by apply inv_sound.
Qed.
End Socket.

(** C3. Two sockets, end to end. Each runs a TCP connection over an adapter of
    its own (UDP, TUN or TAP, also with random loss), as a client or as a server, from its creation to any moment of
    its life; the kernels answer anything (short reads and writes, errors,
    hangups, any readiness), the clocks show anything, and the network loses,
    duplicates, delays and reorders datagrams, but a segment that B's adapter
    accepts is one that A handed to its adapter. Then the bytes that B's socket
    has passed on to its application are a prefix of the bytes that A's
    application has written to its socket. (The stream fits B's receive
    capacity, and a server is not sent an acknowledgment before its SYN and does
    not drop what it receives at random.) *)
Theorem sockets_deliver_prefix {A1 I1 A2 I2 : Type} `{FdAdapterLaw A1 I1} `{FdAdapterLaw A2 I2}
  roleA cfgA isnA adA tA1 rA1 tA2 rA2 sA0 rsA (sA : TCPSpongeSocket.t A1 I1) resA
  roleB cfgB isnB adB tB1 rB1 tB2 rB2 sB0 rsB (sB : TCPSpongeSocket.t A2 I2) resB :
  fresh sA0 -> ready roleA adA sA0 -> life roleA cfgA isnA adA tA1 rA1 tA2 rA2 ([], sA0) = ((rsA, sA), resA) ->
  fresh sB0 -> ready roleB adB sB0 -> life roleB cfgB isnB adB tB1 rB1 tB2 rB2 ([], sB0) = ((rsB, sB), resB) ->
  is_u64 (TCPConfig.send_capacity cfgA) -> wi_ok isnA -> is_u64 (TCPConfig.send_capacity cfgB) -> wi_ok isnB ->
  0 < TCPConfig.recv_capacity cfgB < 2 ^ 31 ->
  zlen (FileDescriptor.h_read (_thread_data sA)) <= TCPConfig.recv_capacity cfgB ->
  zlen (FileDescriptor.h_read (_thread_data sB)) < 2 ^ 62 ->
  (forall seg, In seg (h_given sB) -> exists seg0, In seg0 (h_taken sA) /\ Transfer.same_wire seg seg0) ->
  exists n, FileDescriptor.h_written (_thread_data sB) = take n (FileDescriptor.h_read (_thread_data sA)).
Proof.
  intros FA RA EA FB RB EB HcA HiA HcB HiB Hrc HlenA HlenB Hnet.
  pose proof (life_sound cfgA isnA HcA HiA roleA adA tA1 rA1 tA2 rA2 sA0 FA RA) as HA. rewrite EA in HA.
  pose proof (life_sound cfgB isnB HcB HiB roleB adB tB1 rB1 tB2 rB2 sB0 FB RB) as HB. rewrite EB in HB.
  destruct HA as (cA & HrA); [cbn; lia|]. destruct HB as (cB & HrB); [done|]. cbn [fst snd] in *.
  destruct (Connection.endpoints_prefix _ _ _ _ _ _ _ _ _ _ _ _ _ _ HrA HrB HcA HiA Hrc HlenA Hnet) as (n & E & _).
  exists (length (FileDescriptor.h_written (_thread_data sB)) `min` n)%nat. by rewrite <- take_take, <- E, take_app_length.
Qed.

(** *** Witness: a client sends two bytes to a server over UDP *)

Import SockaddrIn Endpoint.
Abbreviation udp := (TCPSpongeSocket.t TCPOverUDPSocketAdapter.t (answer (Address.t * list byte))).

Definition sample_fd (n : Z) : FDWrapper.t := FDWrapper.mk n false false 0 0.

(** A socket whose application writes [data] and whose device receives [incoming]. *)
Definition sample_socket (data : list byte) (incoming : list (Address.t * list byte)) : udp :=
  mk _ _ (FileDescriptor.mk (sample_fd 3) (fun _ => Failed 11) (fun _ => Failed 11) (fun _ => Done 0) [] [])
     (FileDescriptor.mk (sample_fd 4) (fun n => if (n =? 0)%nat then Done data else Failed 11) (fun _ => Done 2) (fun _ => Done 0) [] [])
     (TCPOverUDPSocketAdapter.mk (FdAdapterBase.mk (FdAdapterConfig.mk (sockaddr_of 0 0) (sockaddr_of 0 0) 0 0) false) (sample_fd 5) (fun _ size => Done size) [])
     None false false false false
     (fun n => match incoming !! n with Some d => Done d | None => Failed 11 end) [] [].

(** Rounds in which one of the four rules is ready. *)
Definition round (revents : list Z) : Round := mkRound (fun _ _ => Done (1, revents)) 0 false.
Definition receive : Round := round [1; 0; 0; 0].
Definition read_app : Round := round [0; 1; 0; 0].
Definition write_app : Round := round [0; 0; 4; 0].
Definition send : Round := round [0; 0; 0; 4].

Definition addrA : Address.t := sockaddr_of 1 80.
Definition addrB : Address.t := sockaddr_of 2 90.

Definition runA (incoming : list (list byte)) (main : list Round) :=
  life Client TCPConfig.default (mkWrappingInt32 7) (FdAdapterConfig.mk addrA addrB 0 0) 0 (send :: map (fun _ => receive) incoming) 0 main
    ([], sample_socket [x68; x69] (map (fun p => (addrB, p)) incoming)).
Definition runB (incoming : list (list byte)) (rounds main : list Round) :=
  life Server TCPConfig.default (mkWrappingInt32 9) (FdAdapterConfig.mk addrB (sockaddr_of 0 0) 0 0) 0 rounds 0 main
    ([], sample_socket [] (map (fun p => (addrA, p)) incoming)).
Definition wires (x : (list (Rule udp) * udp) * result bool) : list (list byte) :=
  map snd (TCPOverUDPSocketAdapter.sent (_datagram_adapter x.1.2)).

(** The client's SYN, the server's answer and all that the client sends then. *)
Definition from_a : list (list byte) := Eval vm_compute in
  wires (runA (wires (runB (wires (runA [] [])) [receive; send] [])) [send; read_app; send]).
Definition from_b : list (list byte) := Eval vm_compute in wires (runB (wires (runA [] [])) [receive; send] []).
Definition demoA := runA from_b [send; read_app; send].
Definition demoB := runB from_a [receive; send; receive] [receive; write_app].

Definition parsed (l : list byte) : TCPSegment.t := (TCPSegment.parse TCPSegment.default (Buffer.of_string l) 0).1.

Lemma udp_no_synack `{AddressText} incoming :
  Forall (fun d : Address.t * list byte => zlen d.2 <= UDPSocket.MTU /\
    TCPHeader.syn (TCPSegment.header (parsed d.2)) && TCPHeader.ack (TCPSegment.header (parsed d.2)) = false) incoming ->
  no_synack (A := TCPOverUDPSocketAdapter.t) (fun n => match incoming !! n with Some d => Done d | None => Failed 11 end).
Proof.
  intros Hd n a Ha. cbn [fd_read TCPOverUDPSocketAdapter.udp_adapter fd_base] in *. unfold TCPOverUDPSocketAdapter.read.
  destruct (incoming !! n) as [[src l]|] eqn:E; [|done]. apply (Forall_lookup_1 _ _ _ _ Hd) in E as [Hl Hs]. cbn [snd] in Hl, Hs.
  unfold TCPOverUDPSocketAdapter.in_sock, zoom, bind at 1. rewrite UDPSocket.recv_done by done. unfold bind at 1, get. cbn iota beta.
  change (TCPOverUDPSocketAdapter.base (setter _ a)) with (TCPOverUDPSocketAdapter.base a). rewrite Ha. cbn [negb andb].
  unfold parsed in Hs. destruct (TCPSegment.parse _ _ _) as [seg r]. cbn [fst] in Hs. destruct (negb _); [done|].
  destruct (TCPHeader.syn (TCPSegment.header seg)); [|done]. cbn [andb] in Hs. by destruct (TCPHeader.rst (TCPSegment.header seg)).
Qed.

Definition same_wireb (a b : TCPSegment.t) : bool :=
  (raw_value (TCPHeader.seqno (TCPSegment.header a)) =? raw_value (TCPHeader.seqno (TCPSegment.header b))) &&
  Bool.eqb (TCPHeader.syn (TCPSegment.header a)) (TCPHeader.syn (TCPSegment.header b)) &&
  Bool.eqb (TCPHeader.fin (TCPSegment.header a)) (TCPHeader.fin (TCPSegment.header b)) &&
  bool_decide (Buffer.copy (TCPSegment.payload a) = Buffer.copy (TCPSegment.payload b)).

Lemma same_wireb_sound l k :
  forallb (fun a => existsb (same_wireb a) k) l = true ->
  forall seg, In seg l -> exists seg0, In seg0 k /\ Transfer.same_wire seg seg0.
Proof.
  intros Hl seg Hin. apply (proj1 (forallb_forall _ _) Hl) in Hin. apply existsb_exists in Hin as (b & Hb & Hw). exists b. split; [done|].
  unfold same_wireb in Hw. rewrite !andb_true_iff in Hw. destruct Hw as [[[E1 E2] E3] E4]. apply Z.eqb_eq in E1.
  apply eqb_prop in E2, E3. apply bool_decide_eq_true in E4. repeat split; try done.
  destruct (TCPHeader.seqno (TCPSegment.header seg)), (TCPHeader.seqno (TCPSegment.header b)). cbn in E1. congruence.
Qed.

Lemma triple_eq {X Y Z} (x : (X * Y) * Z) : x = ((x.1.1, x.1.2), x.2).
Proof. by destruct x as [[? ?] ?]. Qed.

Lemma sockets_deliver_prefix_witness :
  FileDescriptor.h_written (_thread_data demoB.1.2) = [x68; x69] /\
  exists n, FileDescriptor.h_written (_thread_data demoB.1.2) = take n (FileDescriptor.h_read (_thread_data demoA.1.2)).
Proof.
  split; [vm_compute; reflexivity|].
  eapply (sockets_deliver_prefix Client TCPConfig.default (mkWrappingInt32 7) (FdAdapterConfig.mk addrA addrB 0 0) 0 (send :: map (fun _ => receive) from_b) 0
    [send; read_app; send] (sample_socket [x68; x69] (map (fun p => (addrB, p)) from_b)) demoA.1.1 demoA.1.2 demoA.2
    Server TCPConfig.default (mkWrappingInt32 9) (FdAdapterConfig.mk addrB (sockaddr_of 0 0) 0 0) 0 [receive; send; receive] 0 [receive; write_app]
    (sample_socket [] (map (fun p => (addrA, p)) from_a)) demoB.1.1 demoB.1.2 demoB.2).
  - split; reflexivity.
  - reflexivity.
  - unfold demoA, runA. apply triple_eq.
  - split; reflexivity.
  - split; [|exact I]. apply udp_no_synack. repeat apply Forall_cons_2; [..|apply Forall_nil_2]; (split; [vm_compute; discriminate|vm_compute; reflexivity]).
  - unfold demoB, runB. apply triple_eq.
  - split; vm_compute; [discriminate|reflexivity].
  - split; vm_compute; [discriminate|reflexivity].
  - split; vm_compute; [discriminate|reflexivity].
  - split; vm_compute; [discriminate|reflexivity].
  - split; vm_compute; reflexivity.
  - vm_compute. discriminate.
  - vm_compute. reflexivity.
  - apply same_wireb_sound. vm_compute. reflexivity.
Defined.

End Sockets.
