(* ===== verification/command_line.v ===== *)
(** The command lines of the TCP programs ([get_config] of [apps/tcp_udp.cc],
    [apps/tcp_ipv4.cc] and [apps/tcp_ip_ethernet.cc]).

    [strtof] is an argument; the loss rates computed from its result are those of
    binary32 arithmetic.

    What is shown: the options may come in any number and order and a later one
    overrides an earlier one, the last two arguments are host and port, no
    argument beyond the last is looked at, and the usage text lists the options
    that are understood. *)

From Stdlib Require Import SpecFloat.
From S2P Require Import prelude std_strings wrapping_integers tcp_sender address fd_adapter text.

Module CommandLine.

(** How reading the command line can end: with a result, with [exit(code)] after
    a text was printed, with an exception, by looking at an argument that does not exist, or with a
    conversion whose result is undefined. *)
Inductive outcome (A : Type) :=
  | Done (a : A)
  | Exit (code : Z) (cout : string)
  | Exception (e : exn)
  | OutOfBounds
  | Undefined.
Arguments Done {A} _.
Arguments Exit {A} _ _.
Arguments Exception {A} _.
Arguments OutOfBounds {A}.
Arguments Undefined {A}.

Definition obind {A B} (o : outcome A) (k : A -> outcome B) : outcome B :=
  match o with
  | Done a => k a
  | Exit code cout => Exit code cout
  | Exception e => Exception e
  | OutOfBounds => OutOfBounds
  | Undefined => Undefined
  end.
Definition attempt {A} (r : result A) : outcome A := match r with Ok a => Done a | Throw e => Exception e end.
Notation "x <~ o ;; k" := (obind o (fun x => k)) (at level 100, o at next level, right associativity).

Definition argument (argv : list string) (i : nat) : outcome string :=
  match argv !! i with Some s => Done s | None => OutOfBounds end.

(** The local variables of [get_config]; no program has all of them. *)
Record options := mk {
  c_fsm : TCPConfig.t;
  loss_rate_dn : Z;
  loss_rate_up : Z;
  dev : option string;
  listen : bool;
  source_address : string;
  source_port : string;
  next_hop_address : string
}.
#[global] Instance set_c_fsm : Setter c_fsm := fun f o =>
  mk (f (c_fsm o)) (loss_rate_dn o) (loss_rate_up o) (dev o) (listen o) (source_address o) (source_port o) (next_hop_address o).
#[global] Instance set_loss_rate_dn : Setter loss_rate_dn := fun f o =>
  mk (c_fsm o) (f (loss_rate_dn o)) (loss_rate_up o) (dev o) (listen o) (source_address o) (source_port o) (next_hop_address o).
#[global] Instance set_loss_rate_up : Setter loss_rate_up := fun f o =>
  mk (c_fsm o) (loss_rate_dn o) (f (loss_rate_up o)) (dev o) (listen o) (source_address o) (source_port o) (next_hop_address o).
#[global] Instance set_dev : Setter dev := fun f o =>
  mk (c_fsm o) (loss_rate_dn o) (loss_rate_up o) (f (dev o)) (listen o) (source_address o) (source_port o) (next_hop_address o).
#[global] Instance set_listen : Setter listen := fun f o =>
  mk (c_fsm o) (loss_rate_dn o) (loss_rate_up o) (dev o) (f (listen o)) (source_address o) (source_port o) (next_hop_address o).
#[global] Instance set_source_address : Setter source_address := fun f o =>
  mk (c_fsm o) (loss_rate_dn o) (loss_rate_up o) (dev o) (listen o) (f (source_address o)) (source_port o) (next_hop_address o).
#[global] Instance set_source_port : Setter source_port := fun f o =>
  mk (c_fsm o) (loss_rate_dn o) (loss_rate_up o) (dev o) (listen o) (source_address o) (f (source_port o)) (next_hop_address o).
#[global] Instance set_next_hop_address : Setter next_hop_address := fun f o =>
  mk (c_fsm o) (loss_rate_dn o) (loss_rate_up o) (dev o) (listen o) (source_address o) (source_port o) (f (next_hop_address o)).

(** ** The usage texts *)

Definition unlines (l : list string) : string := String.concat "" (map (fun s => s +:+ Text.newline) l).

(** [show_usage]; [lines] are those of the program. *)
Definition show_usage (lines : list string) (argv0 : string) (msg : option string) : string :=
  "Usage: " +:+ argv0 +:+ unlines (" [options] <host> <port>" :: "" ::
    "   Option                                                          Default" ::
    "   --                                                              --" :: "" :: lines) +:+
  default "" msg +:+ Text.newline.

Definition TUN_DFLT : string := "tun144".
Definition TAP_DFLT : string := "tap10".
Definition ipv4_LOCAL_ADDRESS_DFLT : string := "169.254.144.9".
Definition ethernet_LOCAL_ADDRESS_DFLT : string := "169.254.10.9".
Definition GATEWAY_DFLT : string := "169.254.10.1".

Definition udp_lines : list string :=
  ["   -l              Server (listen) mode.                           (client mode)";
   "                   In server mode, <host>:<port> is the address to bind."; "";
   "   -w <winsz>      Use a window of <winsz> bytes                   " +:+ to_string TCPConfig.MAX_PAYLOAD_SIZE; "";
   "   -t <tmout>      Set rt_timeout to tmout                         " +:+ to_string TCPConfig.TIMEOUT_DFLT; "";
   "   -Lu <loss>      Set uplink loss to <rate> (float in 0..1)       (no loss)";
   "   -Ld <loss>      Set downlink loss to <rate> (float in 0..1)     (no loss)"; "";
   "   -h              Show this message and quit."; ""].

Definition ipv4_lines : list string :=
  ["   -l              Server (listen) mode.                           (client mode)";
   "                   In server mode, <host>:<port> is the address to bind."; "";
   "   -a <addr>       Set source address (client mode only)           " +:+ ipv4_LOCAL_ADDRESS_DFLT;
   "   -s <port>       Set source port (client mode only)              (random)"; "";
   "   -w <winsz>      Use a window of <winsz> bytes                   " +:+ to_string TCPConfig.MAX_PAYLOAD_SIZE; "";
   "   -t <tmout>      Set rt_timeout to tmout                         " +:+ to_string TCPConfig.TIMEOUT_DFLT; "";
   "   -d <tundev>     Connect to tun <tundev>                         " +:+ TUN_DFLT; "";
   "   -Lu <loss>      Set uplink loss to <rate> (float in 0..1)       (no loss)";
   "   -Ld <loss>      Set downlink loss to <rate> (float in 0..1)     (no loss)"; "";
   "   -h              Show this message."; ""].

Definition ethernet_lines : list string :=
  ["   -a <addr>       Set IP source address (client mode only)        " +:+ ethernet_LOCAL_ADDRESS_DFLT;
   "   -s <port>       Set TCP source port (client mode only)          (random)"; "";
   "   -n <addr>       Set IP next-hop address                         " +:+ GATEWAY_DFLT;
   "   -w <winsz>      Use a window of <winsz> bytes                   " +:+ to_string TCPConfig.MAX_PAYLOAD_SIZE; "";
   "   -t <tmout>      Set rt_timeout to tmout                         " +:+ to_string TCPConfig.TIMEOUT_DFLT; "";
   "   -d <tapdev>     Connect to tap <tapdev>                         " +:+ TAP_DFLT; "";
   "   -h              Show this message."; ""].

(** ** The options *)

(** What the branch of an option does; [err] is the complaint when its argument is
    missing. *)
Inductive branch :=
  | Flag (f : options -> options)
  | Argument (err : string) (f : string -> options -> outcome options)
  | Help.

(** [check_argc] *)
Definition check_argc (lines argv : list string) (curr : nat) (err : string) : outcome unit :=
  if (length argv <=? curr + 3)%nat then Exit 1 (show_usage lines (hd "" argv) (Some err)) else Done tt.

(** The loop over the options. [table]: the options in the order in which the code
    compares them, with their branches; [lines]: those of the usage text. Every turn moves on, so that as many turns
    as there are arguments are enough. *)
Fixpoint read_options (fuel : nat) (lines : list string) (table : list (string * branch)) (argv : list string) (curr : nat) (o : options)
    : outcome (nat * options) :=
  match fuel with
  | O => Done (curr, o)
  | S fuel =>
      if (length argv - curr <=? 2)%nat then Done (curr, o) else
      arg <~ argument argv curr;;
      match find (fun entry => strncmp_eq entry.1 arg 3) table with
      | Some (_, Flag f) => read_options fuel lines table argv (curr + 1) (f o)
      | Some (_, Argument err f) =>
          u <~ check_argc lines argv curr err;;
          value <~ argument argv (curr + 1);;
          o <~ f value o;;
          read_options fuel lines table argv (curr + 2) o
      | Some (_, Help) => Exit 0 (show_usage lines (hd "" argv) None)
      | None => Exit 1 (show_usage lines (hd "" argv) (Some ("ERROR: unrecognized option " +:+ arg)))
      end
  end.

(** ** The branches *)

Section Branches.
Context (strtof : string -> spec_float).

(** [float(numeric_limits<uint16_t>::max())] *)
Definition MAX_U16 : spec_float := S754_finite false (65535 * 2 ^ 8) (-8).
(** [static_cast<uint16_t>] of a [float]: defined when the number without its
    fraction fits. *)
Definition to_u16 (x : spec_float) : outcome Z :=
  match x with
  | S754_zero _ => Done 0
  | S754_finite s m e =>
      let n := Z.shiftl (Zpos m) e in
      if s then (if n =? 0 then Done 0 else Undefined) else if n <? 2 ^ 16 then Done n else Undefined
  | _ => Undefined
  end.
Definition loss_rate (s : string) : outcome Z := to_u16 (SFmul 24 128 MAX_U16 (strtof s)).

Definition set_listen_mode (o : options) : options := o <| listen := true |>.
Definition set_address (s : string) (o : options) : outcome options := Done (o <| source_address := s |>).
Definition set_port (s : string) (o : options) : outcome options := Done (o <| source_port := s |>).
Definition set_next_hop (s : string) (o : options) : outcome options := Done (o <| next_hop_address := s |>).
Definition set_window (s : string) (o : options) : outcome options :=
  let c := c_fsm o in
  Done (o <| c_fsm := TCPConfig.mk (TCPConfig.rt_timeout c) (u64 (strtol s 0)) (TCPConfig.send_capacity c) (TCPConfig.fixed_isn c) |>).
Definition set_timeout (s : string) (o : options) : outcome options :=
  let c := c_fsm o in
  Done (o <| c_fsm := TCPConfig.mk (u16 (strtol s 0)) (TCPConfig.recv_capacity c) (TCPConfig.send_capacity c) (TCPConfig.fixed_isn c) |>).
Definition set_device (s : string) (o : options) : outcome options := Done (o <| dev := Some s |>).
Definition set_loss_up (s : string) (o : options) : outcome options := n <~ loss_rate s;; Done (o <| loss_rate_up := n |>).
Definition set_loss_down (s : string) (o : options) : outcome options := n <~ loss_rate s;; Done (o <| loss_rate_dn := n |>).

(** The complaints of the source: that of [-d] names [-t], that of [-Ld] names [-Lu]. *)
Definition requires (name : string) : string := "ERROR: " +:+ name +:+ " requires one argument.".

Definition udp_table : list (string * branch) :=
  [("-l", Flag set_listen_mode); ("-w", Argument (requires "-w") set_window); ("-t", Argument (requires "-t") set_timeout);
   ("-Lu", Argument (requires "-Lu") set_loss_up); ("-Ld", Argument (requires "-Lu") set_loss_down); ("-h", Help)].
Definition ipv4_table : list (string * branch) :=
  [("-l", Flag set_listen_mode); ("-a", Argument (requires "-a") set_address); ("-s", Argument (requires "-s") set_port);
   ("-w", Argument (requires "-w") set_window); ("-t", Argument (requires "-t") set_timeout); ("-d", Argument (requires "-t") set_device);
   ("-Lu", Argument (requires "-Lu") set_loss_up); ("-Ld", Argument (requires "-Lu") set_loss_down); ("-h", Help)].
Definition ethernet_table : list (string * branch) :=
  [("-a", Argument (requires "-a") set_address); ("-s", Argument (requires "-s") set_port); ("-n", Argument (requires "-n") set_next_hop);
   ("-w", Argument (requires "-w") set_window); ("-t", Argument (requires "-t") set_timeout); ("-d", Argument (requires "-t") set_device);
   ("-h", Help)].

(** ** [get_config] of the three programs *)

Context {R : Address.Resolver}.

(** A default [FdAdapterConfig]. *)
Definition default_filt : outcome FdAdapterConfig.t :=
  source <~ attempt (Address.of_numeric "0" 0);;
  destination <~ attempt (Address.of_numeric "0" 0);;
  Done (FdAdapterConfig.mk source destination 0 0).

Definition initial (local_address : string) (random : Z) (next_hop : string) : options :=
  mk TCPConfig.default 0 0 None false local_address (to_string (u16 random)) next_hop.

(** [tcp_udp] *)
Definition udp_config (argv : list string) : outcome (TCPConfig.t * FdAdapterConfig.t * bool) :=
  c <~ default_filt;;
  r <~ read_options (length argv) udp_lines udp_table argv 1 (initial "" 0 "");;
  let o := r.2 in
  port <~ argument argv (length argv - 1);;
  if listen o then
    source <~ attempt (Address.of_host "0" port);;
    Done (c_fsm o, FdAdapterConfig.mk source (FdAdapterConfig.destination c) (loss_rate_dn o) (loss_rate_up o), listen o)
  else
    host <~ argument argv (length argv - 2);;
    destination <~ attempt (Address.of_host host port);;
    Done (c_fsm o, FdAdapterConfig.mk (FdAdapterConfig.source c) destination (loss_rate_dn o) (loss_rate_up o), listen o).

(** [tcp_ipv4]; [random] is what [random_device] returns. *)
Definition ipv4_config (random : Z) (argv : list string) : outcome (TCPConfig.t * FdAdapterConfig.t * bool * option string) :=
  c <~ default_filt;;
  r <~ read_options (length argv) ipv4_lines ipv4_table argv 1 (initial ipv4_LOCAL_ADDRESS_DFLT random "");;
  let '(curr, o) := r in
  if listen o then
    port <~ argument argv (curr + 1);;
    source <~ attempt (Address.of_host "0" port);;
    n <~ attempt (Address.port source);;
    if n =? 0 then Exit 1 (show_usage ipv4_lines (hd "" argv) (Some "ERROR: listen port cannot be zero in server mode.")) else
    Done (c_fsm o, FdAdapterConfig.mk source (FdAdapterConfig.destination c) (loss_rate_dn o) (loss_rate_up o), listen o, dev o)
  else
    host <~ argument argv curr;;
    port <~ argument argv (curr + 1);;
    destination <~ attempt (Address.of_host host port);;
    source <~ attempt (Address.of_host (source_address o) (source_port o));;
    Done (c_fsm o, FdAdapterConfig.mk source destination (loss_rate_dn o) (loss_rate_up o), listen o, dev o).

(** [tcp_ip_ethernet] *)
Definition ethernet_config (random : Z) (argv : list string) : outcome (TCPConfig.t * FdAdapterConfig.t * Address.t * string) :=
  c <~ default_filt;;
  r <~ read_options (length argv) ethernet_lines ethernet_table argv 1 (initial ethernet_LOCAL_ADDRESS_DFLT random GATEWAY_DFLT);;
  let '(curr, o) := r in
  host <~ argument argv curr;;
  port <~ argument argv (curr + 1);;
  destination <~ attempt (Address.of_host host port);;
  source <~ attempt (Address.of_host (source_address o) (source_port o));;
  next_hop <~ attempt (Address.of_host (next_hop_address o) "0");;
  Done (c_fsm o, FdAdapterConfig.mk source destination 0 0, next_hop, default TAP_DFLT (dev o)).
End Branches.

(** ** The usage texts list the options *)

(** The option that a line of the usage text explains. *)
Definition option_name (line : string) : option string :=
  if String.prefix "   -" line then option_map (fun n => String.substring 3 (n - 3) line) (String.index 3 " " line) else None.

(** The usage text of each program lists exactly the options that its table
    understands, in the order in which they are compared, so that the first entry
    whose first three characters agree is the option meant. *)
Theorem usage_lists_options strtof :
  omap option_name udp_lines = map fst (udp_table strtof) /\
  omap option_name ipv4_lines = map fst (ipv4_table strtof) /\
  omap option_name ethernet_lines = map fst ethernet_table /\
  forall table, In table [udp_table strtof; ipv4_table strtof; ethernet_table] ->
  forall entry, In entry table -> find (fun e => strncmp_eq e.1 entry.1 3) table = Some entry.
Proof.
  split_and!; [vm_compute; reflexivity..|]. intros table Ht entry He. cbn in Ht.
  repeat (destruct Ht as [<-|Ht]; [cbn in He; repeat (destruct He as [<-|He]; [reflexivity|]); done|]). done.
Qed.

(** ** No argument beyond the last *)

Lemma obind_bounds {A B} (o : outcome A) (k : A -> outcome B) :
  o <> OutOfBounds -> (forall a, o = Done a -> k a <> OutOfBounds) -> obind o k <> OutOfBounds.
Proof. destruct o; cbn; intros H1 H2; try done. by apply H2. Qed.

Lemma attempt_bounds {A} (r : result A) : attempt r <> OutOfBounds.
Proof. by destruct r. Qed.

Lemma argument_bounds argv i : (i < length argv)%nat -> argument argv i <> OutOfBounds.
Proof. intros H. unfold argument. destruct (lookup_lt_is_Some_2 argv i H) as [x ->]. done. Qed.

(** Branches that only convert their argument. *)
Definition harmless (b : branch) : Prop :=
  match b with Argument _ f => forall s o, f s o <> OutOfBounds | _ => True end.

Lemma read_options_bounds fuel lines table argv curr o :
  Forall (fun entry => harmless entry.2) table -> (curr + 2 <= length argv)%nat -> (length argv <= curr + fuel + 2)%nat ->
  read_options fuel lines table argv curr o <> OutOfBounds /\
  forall curr' o', read_options fuel lines table argv curr o = Done (curr', o') -> (curr' + 2)%nat = length argv.
Proof.
  intros Ht. revert curr o. induction fuel as [|fuel IH]; intros curr o Hc Hf; cbn [read_options].
  { split; [done|]. intros ? ? [= <- _]. lia. }
  destruct (Nat.leb_spec (length argv - curr) 2). { split; [done|]. intros ? ? [= <- _]. lia. }
  unfold argument at 1 3. destruct (lookup_lt_is_Some_2 argv curr ltac:(lia)) as [arg ->]. cbn [obind].
  destruct (find _ table) as [[name b]|] eqn:Ef; [|done]. apply find_some in Ef as [Hin _].
  assert (Hb : harmless b) by (rewrite List.Forall_forall in Ht; exact (Ht _ Hin)). destruct b as [f|err f|]; [apply IH; lia| |done].
  unfold check_argc. destruct (Nat.leb_spec (length argv) (curr + 3)); [done|]. cbn [obind].
  unfold argument. destruct (lookup_lt_is_Some_2 argv (curr + 1) ltac:(lia)) as [v ->]. cbn [obind].
  specialize (Hb v o). destruct (f v o) as [o'| | | |]; cbn [obind]; try done. apply IH; lia.
Qed.

Section Bounds.
Context (strtof : string -> spec_float) {R : Address.Resolver}.

Lemma loss_bounds s : loss_rate strtof s <> OutOfBounds.
Proof using Type. unfold loss_rate, to_u16. by repeat case_match. Qed.

Lemma tables_harmless :
  Forall (fun entry : string * branch => harmless entry.2) (udp_table strtof) /\
  Forall (fun entry : string * branch => harmless entry.2) (ipv4_table strtof) /\
  Forall (fun entry : string * branch => harmless entry.2) ethernet_table.
Proof using Type.
  split_and!; repeat constructor; try done; intros s o; (apply obind_bounds; [apply loss_bounds|done]).
Qed.

Lemma filt_bounds : default_filt <> OutOfBounds.
Proof using Type. do 2 (apply obind_bounds; [apply attempt_bounds|intros ? _]). done. Qed.
End Bounds.

(** None of the three programs looks at an argument that does not exist,
    whatever the options, as long as there are two arguments beside the name of
    the program (which [main] checks first). *)
Theorem get_config_in_bounds (strtof : string -> spec_float) `{Address.Resolver} random argv :
  (3 <= length argv)%nat ->
  udp_config strtof argv <> OutOfBounds /\ ipv4_config strtof random argv <> OutOfBounds /\ ethernet_config random argv <> OutOfBounds.
Proof.
  intros Ha. destruct (tables_harmless strtof) as (Hu & Hi & He). split_and!; (apply obind_bounds; [apply filt_bounds|intros c _]).
  - destruct (read_options_bounds (length argv) udp_lines _ argv 1 (initial "" 0 "") Hu ltac:(lia) ltac:(lia)) as [H1 H2].
    apply obind_bounds; [done|]. intros [curr o] _. apply obind_bounds; [apply argument_bounds; lia|]. intros port _.
    destruct (listen _); repeat (apply obind_bounds; [apply attempt_bounds || (apply argument_bounds; lia)|intros ? _]); done.
  - destruct (read_options_bounds (length argv) ipv4_lines _ argv 1 (initial ipv4_LOCAL_ADDRESS_DFLT random "") Hi ltac:(lia) ltac:(lia)) as [H1 H2].
    apply obind_bounds; [done|]. intros [curr o] E. specialize (H2 _ _ E).
    destruct (listen _); repeat (apply obind_bounds; [apply attempt_bounds || (apply argument_bounds; lia)|intros ? _]); [by case_match|done].
  - destruct (read_options_bounds (length argv) ethernet_lines _ argv 1 (initial ethernet_LOCAL_ADDRESS_DFLT random GATEWAY_DFLT) He ltac:(lia) ltac:(lia)) as [H1 H2].
    apply obind_bounds; [done|]. intros [curr o] E. specialize (H2 _ _ E).
    repeat (apply obind_bounds; [apply attempt_bounds || (apply argument_bounds; lia)|intros ? _]); done.
Qed.

Lemma get_config_in_bounds_witness : let argv := ["tcp_ipv4"; "-w"; "80"; "host"] in
  ipv4_config (fun _ => S754_nan) (R := NumericResolver.numeric_resolver) 7 argv = Exit 1 (show_usage ipv4_lines "tcp_ipv4" (Some (requires "-w"))) /\
  ipv4_config (fun _ => S754_nan) (R := NumericResolver.numeric_resolver) 7 argv <> OutOfBounds.
Proof.
  split; [by vm_compute|]. apply (get_config_in_bounds (fun _ => S754_nan) (H := NumericResolver.numeric_resolver) 7 _). cbn. lia.
Defined.

(** ** What no option changes *)

(** Branches that leave the send capacity alone. *)
Definition keeps_capacity (b : branch) : Prop :=
  match b with
  | Flag f => forall o, TCPConfig.send_capacity (c_fsm (f o)) = TCPConfig.send_capacity (c_fsm o)
  | Argument _ f => forall s o o', f s o = Done o' -> TCPConfig.send_capacity (c_fsm o') = TCPConfig.send_capacity (c_fsm o)
  | Help => True
  end.

Lemma read_options_capacity fuel lines table argv curr o r :
  Forall (fun entry => keeps_capacity entry.2) table -> read_options fuel lines table argv curr o = Done r ->
  TCPConfig.send_capacity (c_fsm r.2) = TCPConfig.send_capacity (c_fsm o).
Proof.
  intros Ht. revert curr o. induction fuel as [|fuel IH]; intros curr o; cbn [read_options]; [by intros [= <-]|].
  destruct (_ <=? _)%nat; [by intros [= <-]|]. destruct (argument argv curr) as [arg| | | |]; try done. cbn [obind].
  destruct (find _ table) as [[name b]|] eqn:Ef; [|done]. apply find_some in Ef as [Hin _].
  assert (Hb : keeps_capacity b) by (rewrite List.Forall_forall in Ht; exact (Ht _ Hin)). destruct b as [f|err f|]; [| |done].
  - intros E%IH. by rewrite E, Hb.
  - destruct (check_argc _ _ _ _); try done. cbn [obind]. destruct (argument argv (curr + 1)) as [v| | | |]; try done. cbn [obind].
    destruct (f v o) as [o'| | | |] eqn:Ev; try done. cbn [obind]. intros E%IH. rewrite E. by eapply Hb.
Qed.

Lemma obind_done {A B} (o : outcome A) (k : A -> outcome B) b : obind o k = Done b -> exists a, o = Done a /\ k a = Done b.
Proof. destruct o; try done. by eexists. Qed.

Lemma tables_keep_capacity strtof :
  Forall (fun entry : string * branch => keeps_capacity entry.2) (udp_table strtof) /\
  Forall (fun entry : string * branch => keeps_capacity entry.2) (ipv4_table strtof) /\
  Forall (fun entry : string * branch => keeps_capacity entry.2) ethernet_table.
Proof.
  split_and!; repeat constructor; try done; intros s o o'; unfold set_loss_up, set_loss_down; try by intros [= <-].
  all: intros (n & _ & E)%obind_done; by injection E as <-.
Qed.

Lemma config_capacity strtof `{Address.Resolver} random argv :
  (forall c f l, udp_config strtof argv = Done (c, f, l) -> TCPConfig.send_capacity c = TCPConfig.DEFAULT_CAPACITY) /\
  (forall c f l d, ipv4_config strtof random argv = Done (c, f, l, d) -> TCPConfig.send_capacity c = TCPConfig.DEFAULT_CAPACITY) /\
  (forall c f n d, ethernet_config random argv = Done (c, f, n, d) -> TCPConfig.send_capacity c = TCPConfig.DEFAULT_CAPACITY).
Proof.
  destruct (tables_keep_capacity strtof) as (Hu & Hi & He).
  split_and!; intros c f x; [|intros d..]; intros ([? ?] & _ & (r & Er & E)%obind_done)%obind_done.
  - apply (read_options_capacity _ _ _ _ _ _ _ Hu) in Er. apply obind_done in E as (port & _ & E). etrans; [|exact Er].
    destruct (listen _); repeat (apply obind_done in E as (? & _ & E)); by injection E as <- _ _.
  - apply (read_options_capacity _ _ _ _ _ _ _ Hi) in Er. destruct r as [curr o]. etrans; [|exact Er].
    destruct (listen _); repeat (apply obind_done in E as (? & _ & E)); [destruct (_ =? 0); [done|]|]; by injection E as <- _ _ _.
  - apply (read_options_capacity _ _ _ _ _ _ _ He) in Er. destruct r as [curr o]. etrans; [|exact Er].
    repeat (apply obind_done in E as (? & _ & E)). by injection E as <- _ _ _.
Qed.

(** ** Reading back a command line *)

(** Options and their values, as a user means them. *)
Inductive opt :=
  | Listen
  | Window (n : Z)
  | Timeout (n : Z)
  | SourceAddress (s : string)
  | SourcePort (s : string)
  | NextHop (s : string)
  | Device (s : string).

Definition print (o : opt) : list string :=
  match o with
  | Listen => ["-l"]
  | Window n => ["-w"; to_string n]
  | Timeout n => ["-t"; to_string n]
  | SourceAddress s => ["-a"; s]
  | SourcePort s => ["-s"; s]
  | NextHop s => ["-n"; s]
  | Device s => ["-d"; s]
  end.

Definition opt_ok (o : opt) : Prop := match o with Window n | Timeout n => 0 <= n < 2 ^ 63 | _ => True end.

(** What an option asks for. *)
Definition apply (x : options) (o : opt) : options :=
  let c := c_fsm x in
  match o with
  | Listen => x <| listen := true |>
  | Window n => x <| c_fsm := TCPConfig.mk (TCPConfig.rt_timeout c) n (TCPConfig.send_capacity c) (TCPConfig.fixed_isn c) |>
  | Timeout n => x <| c_fsm := TCPConfig.mk (u16 n) (TCPConfig.recv_capacity c) (TCPConfig.send_capacity c) (TCPConfig.fixed_isn c) |>
  | SourceAddress s => x <| source_address := s |>
  | SourcePort s => x <| source_port := s |>
  | NextHop s => x <| next_hop_address := s |>
  | Device s => x <| dev := Some s |>
  end.

(** A table whose branches do what the option asks for. *)
Definition understands (table : list (string * branch)) (o : opt) : Prop :=
  match print o with
  | [flag] => exists name f, find (fun entry => strncmp_eq entry.1 flag 3) table = Some (name, Flag f) /\ forall x, f x = apply x o
  | [flag; v] => exists name err f, find (fun entry => strncmp_eq entry.1 flag 3) table = Some (name, Argument err f) /\ forall x, f v x = Done (apply x o)
  | _ => False
  end.

Lemma drop_cons_lookup {A} (l : list A) n x k : drop n l = x :: k -> l !! n = Some x /\ drop (n + 1) l = k /\ (length l = n + S (length k))%nat.
Proof.
  intros E. split_and!.
  - rewrite <- (Nat.add_0_r n), <- lookup_drop. by rewrite E.
  - by rewrite <- drop_drop, E.
  - pose proof (f_equal length E) as H. rewrite length_drop in H. cbn in H. lia.
Qed.

(** The loop applies the options one after the other and stops before the last two
    arguments. *)
Lemma read_options_print fuel lines table argv curr opts host port x :
  Forall (understands table) opts -> drop curr argv = concat (map print opts) ++ [host; port] -> (length opts < fuel)%nat ->
  read_options fuel lines table argv curr x = Done ((length argv - 2)%nat, fold_left apply opts x).
Proof.
  intros Hu. revert fuel curr x. induction Hu as [|o opts Ho Hu IH]; intros fuel curr x Hd Hf;
    (destruct fuel as [|fuel]; [lia|]); cbn [read_options fold_left map concat app] in *.
  - pose proof (f_equal length Hd) as Hl. rewrite length_drop in Hl. cbn in Hl. destruct (Nat.leb_spec (length argv - curr) 2); [|lia].
    do 2 f_equal. lia.
  - rewrite <- app_assoc in Hd. unfold understands in Ho. cbn [length] in Hf. pose proof (f_equal length Hd) as Hl.
    rewrite length_drop, !length_app in Hl. cbn [length] in Hl.
    destruct (print o) as [|flag [|v [|? ?]]]; try done; cbn [app length] in Hd, Hl; apply drop_cons_lookup in Hd as (E1 & Hd & _);
      (destruct (Nat.leb_spec (length argv - curr) 2); [lia|]); unfold argument; rewrite E1; cbn [obind].
    + destruct Ho as (name & f & -> & Hf'). rewrite Hf'. apply IH; [done|lia].
    + destruct Ho as (name & err & f & -> & Hf'). unfold check_argc. destruct (Nat.leb_spec (length argv) (curr + 3)); [lia|]. cbn [obind].
      apply drop_cons_lookup in Hd as (E2 & Hd & _). rewrite E2. cbn [obind]. rewrite Hf'. cbn [obind].
      apply IH; [|lia]. by rewrite <- Hd, <- Nat.add_assoc.
Qed.

(** The last value that some options give, or a default. *)
Definition last_value {A} (f : opt -> option A) (opts : list opt) (d : A) : A := default d (last (omap f opts)).
Definition window_of (o : opt) : option Z := match o with Window n => Some n | _ => None end.
Definition timeout_of (o : opt) : option Z := match o with Timeout n => Some (u16 n) | _ => None end.
Definition address_of (o : opt) : option string := match o with SourceAddress s => Some s | _ => None end.
Definition port_of (o : opt) : option string := match o with SourcePort s => Some s | _ => None end.
Definition hop_of (o : opt) : option string := match o with NextHop s => Some s | _ => None end.
Definition device_of (o : opt) : option (option string) := match o with Device s => Some (Some s) | _ => None end.
Definition listen_of (o : opt) : option bool := match o with Listen => Some true | _ => None end.

Lemma last_value_snoc {A} (f : opt -> option A) opts o d :
  last_value f (opts ++ [o]) d = match f o with Some a => a | None => last_value f opts d end.
Proof. unfold last_value. rewrite omap_app. cbn. destruct (f o) as [a|]; [by rewrite last_snoc|by rewrite app_nil_r]. Qed.

Lemma apply_all opts x :
  fold_left apply opts x =
  mk (TCPConfig.mk (last_value timeout_of opts (TCPConfig.rt_timeout (c_fsm x))) (last_value window_of opts (TCPConfig.recv_capacity (c_fsm x)))
        (TCPConfig.send_capacity (c_fsm x)) (TCPConfig.fixed_isn (c_fsm x)))
     (loss_rate_dn x) (loss_rate_up x) (last_value device_of opts (dev x)) (last_value listen_of opts (listen x))
     (last_value address_of opts (source_address x)) (last_value port_of opts (source_port x)) (last_value hop_of opts (next_hop_address x)).
Proof.
  induction opts as [|o opts IH] using rev_ind; [by destruct x as [[]]|].
  rewrite fold_left_app. cbn [fold_left]. rewrite IH, !last_value_snoc. by destruct o.
Qed.

Definition ipv4_opt (o : opt) : Prop := match o with NextHop _ => False | _ => opt_ok o end.

Lemma ipv4_understands strtof o : ipv4_opt o -> understands (ipv4_table strtof) o.
Proof.
  destruct o; intros Ho; unfold understands; cbn [print]; try done; cbn [ipv4_opt opt_ok] in Ho.
  all: repeat eexists; intros x; cbn beta; try reflexivity.
  - unfold set_window. rewrite strtol_to_string by done. by rewrite u64_id by lia.
  - unfold set_timeout. by rewrite strtol_to_string by done.
Qed.

Lemma print_length opts : (length opts <= length (concat (map print opts)))%nat.
Proof. induction opts as [|o opts IH]; [done|]. cbn [map concat]. rewrite length_app. destruct o; cbn in *; lia. Qed.

(** The last two arguments. *)
Lemma last_arguments (l : list string) host port :
  argument (l ++ [host; port]) (length (l ++ [host; port]) - 2) = Done host /\
  argument (l ++ [host; port]) (length (l ++ [host; port]) - 2 + 1) = Done port.
Proof.
  rewrite length_app. cbn [length]. replace (length l + 2 - 2)%nat with (length l) by lia. unfold argument. split.
  - by rewrite list_lookup_middle.
  - rewrite lookup_app_r by lia. by replace (length l + 1 - length l)%nat with 1%nat by lia.
Qed.

(** C37. The command line of [tcp_ipv4]: print any list of options with their values
    and then host and port, and [get_config] reads back the configuration that was
    meant. Of several options of one kind the last one counts, and what is
    missing has its default; the timeout is kept modulo 2^16. A client connects
    to host and port from the given source; a server listens on the port, and
    whatever the host, on every address. (The options for loss rates are left
    out; numbers are below 2^63.) *)
Theorem command_line_roundtrip (strtof : string -> spec_float) `{Address.Resolver} random program opts host port :
  Forall ipv4_opt opts ->
  let config := TCPConfig.mk (last_value timeout_of opts TCPConfig.TIMEOUT_DFLT) (last_value window_of opts TCPConfig.DEFAULT_CAPACITY)
                  TCPConfig.DEFAULT_CAPACITY None in
  let device := last_value device_of opts None in
  ipv4_config strtof random (program :: concat (map print opts) ++ [host; port]) =
  (c <~ default_filt;;
   if last_value listen_of opts false then
     source <~ attempt (Address.of_host "0" port);;
     n <~ attempt (Address.port source);;
     if n =? 0 then Exit 1 (show_usage ipv4_lines program (Some "ERROR: listen port cannot be zero in server mode.")) else
     Done (config, FdAdapterConfig.mk source (FdAdapterConfig.destination c) 0 0, true, device)
   else
     destination <~ attempt (Address.of_host host port);;
     source <~ attempt (Address.of_host (last_value address_of opts ipv4_LOCAL_ADDRESS_DFLT) (last_value port_of opts (to_string (u16 random))));;
     Done (config, FdAdapterConfig.mk source destination 0 0, false, device)).
Proof.
  intros Ho config device. unfold ipv4_config. set (argv := program :: _).
  assert (Er : forall x, read_options (length argv) ipv4_lines (ipv4_table strtof) argv 1 x = Done ((length argv - 2)%nat, fold_left apply opts x)).
  { intros x. apply (read_options_print _ _ _ _ _ _ host port); [|done|].
    - eapply Forall_impl; [exact Ho|]. intros o. apply ipv4_understands.
    - unfold argv. cbn [length]. rewrite length_app. pose proof (print_length opts). lia. }
  destruct (last_arguments (program :: concat (map print opts)) host port) as [E1 E2]. rewrite <- app_comm_cons in E1, E2.
  fold argv in E1, E2. destruct default_filt as [c| | | |]; try done. cbn [obind]. rewrite Er, apply_all. cbn [obind listen]. cbv zeta.
  destruct (last_value listen_of opts _); [by rewrite E2|by rewrite E1, E2].
Qed.

Lemma command_line_roundtrip_witness :
  let opts := [Window 80; Timeout 70000; Device "tun1"; Window 90] in
  exists source destination,
  ipv4_config (fun _ => S754_nan) (R := NumericResolver.numeric_resolver) 7 ("tcp_ipv4" :: concat (map print opts) ++ ["1.2.3.4"; "80"]) =
  Done (TCPConfig.mk 4464 90 64000 None, FdAdapterConfig.mk source destination 0 0, false, Some "tun1").
Proof.
  intros opts. eexists _, _.
  rewrite (command_line_roundtrip (fun _ => S754_nan) (H := NumericResolver.numeric_resolver) 7 "tcp_ipv4" opts "1.2.3.4" "80");
    [vm_compute; reflexivity|]. repeat constructor; lia.
Defined.
End CommandLine.
