(* ===== verification/programs.v ===== *)
(** The small programs: [apps/webget.cc] and [apps/tcp_native.cc].

    What is shown: [webget] sends the request it should and prints what the server
    sends, but never ends successfully; [tcp_native] leaves no descriptor open
    behind it, whichever call fails. *)

From Stdlib Require Import Ascii.
From S2P Require Import prelude effects std_strings wrapping_integers buffer tcp_sender address file_descriptor socket eventloop fd_adapter tcp_sponge_socket.

(** ** webget *)

Module WebGet.

(** The owner's end of the socket pair, and what was printed. *)
Record t := mk {
  socket : FileDescriptor.t;
  cout : list byte
}.
#[global] Instance set_socket : Setter socket := fun f s => mk (f (socket s)) (cout s).
#[global] Instance set_cout : Setter cout := fun f s => mk (socket s) (f (cout s)).

Definition on_socket {A} (m : M FileDescriptor.t A) : M t A := zoom socket (fun d s => s <| socket := d |>) m.

Definition crlf : string := String "013"%char (String "010"%char "").
Definition request (host path : string) : string :=
  "GET " +:+ path +:+ " HTTP/1.1" +:+ crlf +:+ "Host: " +:+ host +:+ crlf +:+ "Connection: close" +:+ crlf +:+ crlf.

(** The loop; the result says whether it has ended, for at most [turns] turns. *)
Fixpoint read_all (turns : nat) : M t bool :=
  s <- get;;
  if FileDescriptor.eof (socket s) then ret true else
  match turns with
  | O => ret false
  | S turns =>
      data <- on_socket (FileDescriptor.read FDWrapper.SIZE_MAX);;
      modify (fun s => s <| cout := cout s ++ data |>);;
      read_all turns
  end.

(** After the end of the stream. *)
Definition close_socket : M t unit :=
  on_socket (FileDescriptor.shutdown FDWrapper.SHUT_RD);;
  on_socket FileDescriptor.close;;
  on_socket (FileDescriptor.shutdown FDWrapper.SHUT_RDWR).

(** [get_URL] once the socket is connected. *)
Definition exchange (host path : string) (turns : nat) : M t bool :=
  n <- on_socket (FileDescriptor.write [String.list_byte_of_string (request host path)] true);;
  on_socket (FileDescriptor.shutdown FDWrapper.SHUT_WR);;
  ended <- read_all turns;;
  if negb ended then ret false else
  close_socket;;
  ret true.

Abbreviation inner := (list (EventLoop.Rule (TCPSpongeSocket.t TCPOverIPv4OverEthernetAdapter.t (answer (list byte)))) *
  TCPSpongeSocket.t TCPOverIPv4OverEthernetAdapter.t (answer (list byte)))%type.

(** [get_URL]; [port] is random. *)
Section GetURL.
Context {R : Address.Resolver}.
#[local] Existing Instance resolver_text.
Definition get_URL (host path : string) (port : Z) (isn : WrappingInt32) (time : Z) (rounds : list TCPSpongeSocket.Round) (turns : nat)
    : M (inner * list byte) bool :=
  addr <- lift (Address.of_host host "http");;
  connected <- zoom fst (fun x s => (x, s.2)) (TCPSpongeSocket.FullStack_connect port addr isn time rounds);;
  if negb connected then ret false else
  zoom (fun s => mk (TCPSpongeSocket.owner s.1.2) s.2) (fun w s => ((s.1.1, s.1.2 <| TCPSpongeSocket.owner := socket w |>), cout w))
    (exchange host path turns).
End GetURL.

(** *** What it sends and prints *)

Abbreviation wire host path := (String.list_byte_of_string (request host path)).

(** [s'] is [s] after [l] was read and printed, and nothing was sent. *)
Record printed (l : list byte) (s s' : t) : Prop := {
  p_cout : cout s' = cout s ++ l;
  p_read : FileDescriptor.h_read (socket s') = FileDescriptor.h_read (socket s) ++ l;
  p_written : FileDescriptor.h_written (socket s') = FileDescriptor.h_written (socket s)
}.

Lemma printed_nothing s s' :
  cout s' = cout s -> FileDescriptor.same_history (socket s) (socket s') -> printed [] s s'.
Proof. intros E [H1 H2]. split; by rewrite ?app_nil_r. Qed.

Lemma printed_trans l k s1 s2 s3 : printed l s1 s2 -> printed k s2 s3 -> printed (l ++ k) s1 s3.
Proof. intros [H1 H2 H3] [H4 H5 H6]. split; [by rewrite H4, H1, app_assoc|by rewrite H5, H2, app_assoc|congruence]. Qed.

Lemma read_all_spec turns s s' r : read_all turns s = (s', r) ->
  exists l, printed l s s' /\ (r = Ok true -> FileDescriptor.eof (socket s') = true).
Proof.
  revert s. induction turns as [|turns IH]; intros s; cbn [read_all]; unfold bind at 1, get.
  all: destruct (FileDescriptor.eof (socket s)) eqn:Ee; [intros [= <- <-]; exists []; split; [by apply printed_nothing|done]|].
  - intros [= <- <-]. exists []. split; [by apply printed_nothing|done].
  - unfold bind at 1, on_socket, zoom. destruct (FileDescriptor.read FDWrapper.SIZE_MAX (socket s)) as [d [data|e]] eqn:Er;
      apply FileDescriptor.read_spec in Er as (H1 & _ & _ & H2); try (unfold FDWrapper.SIZE_MAX; lia).
    + destruct H2 as (H2 & _ & _ & _). unfold bind, modify. intros H. apply IH in H as (l & Hl & Hr). exists (data ++ l). split; [|done].
      eapply printed_trans; [|exact Hl]. by split.
    + intros [= <- <-]. exists []. split; [|done]. by apply printed_nothing.
Qed.

(** An operation that neither reads nor writes. *)
Definition silent {A} (m : M t A) : Prop := forall s, printed [] s (m s).1.

Lemma silent_bind {A B} (m : M t A) (k : A -> M t B) : silent m -> (forall a, silent (k a)) -> silent (bind m k).
Proof.
  intros Hm Hk s. unfold bind. specialize (Hm s). destruct (m s) as [s1 [a|e]]; [|done]. exact (printed_trans _ _ _ _ _ Hm (Hk a s1)).
Qed.

Lemma on_socket_silent {A} (m : M FileDescriptor.t A) :
  (forall d, FileDescriptor.same_history d (m d).1) -> silent (on_socket m).
Proof. intros H s. unfold on_socket, zoom. specialize (H (socket s)). destruct (m (socket s)). by apply printed_nothing. Qed.

Lemma close_socket_silent : silent close_socket.
Proof.
  repeat (apply silent_bind; [|intros _]); apply on_socket_silent; intros d;
    (apply FileDescriptor.shutdown_history || apply FileDescriptor.close_history).
Qed.

(** What follows the request. *)
Lemma after_request turns s s' r :
  (on_socket (FileDescriptor.shutdown FDWrapper.SHUT_WR);;
   ended <- read_all turns;; if negb ended then ret false else close_socket;; ret true) s = (s', r) -> exists l, printed l s s'.
Proof.
  unfold bind at 1. pose proof (on_socket_silent (FileDescriptor.shutdown FDWrapper.SHUT_WR) (FileDescriptor.shutdown_history _) s) as P1.
  destruct (on_socket _ s) as [s1 [u|e]]; [|intros [= <- <-]; by exists []]. cbn [fst] in P1.
  unfold bind at 1. destruct (read_all turns s1) as [s2 r2] eqn:E2. apply read_all_spec in E2 as (l & P2 & _).
  pose proof (printed_trans _ _ _ _ _ P1 P2) as P. destruct r2 as [ended|e]; [|intros [= <- <-]; by exists l].
  destruct ended; cbn [negb]; [|intros [= <- <-]; by exists l]. intros E.
  assert (H : silent (close_socket;; ret true)) by (apply silent_bind; [apply close_socket_silent|by intros [] s0; apply printed_nothing]).
  specialize (H s2). rewrite E in H. exists ([] ++ l ++ []). exact (printed_trans _ _ _ _ _ P H).
Qed.

(** C38. [webget], once connected: whatever the kernel answers, what it has sent is
    a beginning of the request for the page, all of it unless an exception ends
    the program before, and what it has printed is what it has read from the
    socket, byte for byte. *)
Theorem webget_prints_answer host path turns s s' r :
  zlen (wire host path) < 2 ^ 63 -> exchange host path turns s = (s', r) ->
  exists n l, FileDescriptor.h_written (socket s') = FileDescriptor.h_written (socket s) ++ take n (wire host path) /\
    FileDescriptor.h_read (socket s') = FileDescriptor.h_read (socket s) ++ l /\ cout s' = cout s ++ l /\
    (forall b, r = Ok b -> n = length (wire host path)).
Proof.
  intros Hl. unfold exchange. unfold bind at 1, on_socket at 1, zoom at 1.
  destruct (FileDescriptor.write _ true (socket s)) as [d x] eqn:Ew.
  apply FileDescriptor.write_handed in Ew as (n & [_ Hw Hr _ _ _] & Hx); [|cbn [concat]; by rewrite app_nil_r].
  cbn [concat] in Hw, Hx. rewrite app_nil_r in Hw, Hx.
  destruct x as [m|e]; [|intros [= <- <-]; exists n, []; by rewrite !app_nil_r].
  destruct Hx as (_ & Hx & _). intros H. apply after_request in H as (l & [P1 P2 P3]). exists n, l. split_and!; try done.
  - by rewrite P3.
  - by rewrite P2, <- Hr.
  - intros _ _. by apply Hx.
Qed.

(** *** How it ends *)

(** Reading and writing leave the answers to the other calls alone. *)
Lemma write_loop_calls fuel all b n d : FileDescriptor.k_calls (FileDescriptor.write_loop fuel all b n d).1 = FileDescriptor.k_calls d.
Proof.
  revert b n d. induction fuel as [|fuel IH]; intros b n d; [done|]. cbn [FileDescriptor.write_loop].
  unfold FileDescriptor.sys_writev, bind at 1. cbn iota beta. rewrite bind_lift. destruct (system_call _) as [m|]; [|done].
  case_match; [done|]. case_match; [done|]. unfold FileDescriptor.register_write, bind at 1, modify. rewrite bind_lift.
  destruct (BufferViewList.remove_prefix _ _); [|done]. unfold bind. case_match; [|done]. by rewrite IH.
Qed.

Lemma read_calls limit d : FileDescriptor.k_calls (FileDescriptor.read limit d).1 = FileDescriptor.k_calls d.
Proof. unfold FileDescriptor.read, FileDescriptor.sys_read, zoom, bind at 1. cbn iota beta. unfold bind, modify, ret. by destruct (FDWrapper.read _ _ _) as [w [l|e]]. Qed.

Lemma read_all_calls turns s s' r : read_all turns s = (s', r) -> FileDescriptor.k_calls (socket s') = FileDescriptor.k_calls (socket s).
Proof.
  revert s. induction turns as [|turns IH]; intros s; cbn [read_all]; unfold bind at 1, get; (destruct (FileDescriptor.eof (socket s)); [by intros [= <- _]|]);
    [by intros [= <- _]|].
  unfold bind at 1, on_socket, zoom. pose proof (read_calls FDWrapper.SIZE_MAX (socket s)) as H.
  destruct (FileDescriptor.read _ (socket s)) as [d [data|e]]; [|by intros [= <- _]]. unfold bind, modify. intros E. apply IH in E. by rewrite E.
Qed.

(** A call that succeeds takes one answer. *)
Lemma shutdown_calls how d d' : FileDescriptor.shutdown how d = (d', Ok tt) ->
  (exists n, system_call (FileDescriptor.k_calls d 0%nat) = Ok n) /\ FileDescriptor.k_calls d' = fun n => FileDescriptor.k_calls d (S n).
Proof.
  unfold FileDescriptor.shutdown, FileDescriptor.sys_call, bind, zoom, FDWrapper.shutdown, lift, modify, throw. cbn iota beta.
  destruct (system_call _) as [n|]; [|done]. intros H. split; [by exists n|]. by repeat case_match; injection H as <-.
Qed.

Lemma close_calls d d' : FileDescriptor.close d = (d', Ok tt) -> FileDescriptor.k_calls d' = fun n => FileDescriptor.k_calls d (S n).
Proof.
  unfold FileDescriptor.close, FileDescriptor.sys_call, bind, zoom, FDWrapper.close, lift, modify. cbn iota beta.
  destruct (system_call _) as [n|]; [|done]. by intros [= <-].
Qed.

Lemma on_socket_ok {A} (m : M FileDescriptor.t A) s s' a : on_socket m s = (s', Ok a) -> m (socket s) = (socket s', Ok a).
Proof. unfold on_socket, zoom. destruct (m (socket s)) as [d r]. by intros [= <- <-]. Qed.

Definition EBADF : Z := 9.

(** [webget] does not end successfully: after the page it shuts down and closes
    the socket and then calls [wait_until_closed], which shuts the closed socket
    down once more. This fourth call beside [read(2)] and [writev(2)] is made on
    a closed descriptor, for which the kernel reports EBADF. *)
Theorem webget_never_succeeds host path turns s s' r :
  FileDescriptor.k_calls (socket s) 3%nat = Failed EBADF -> exchange host path turns s = (s', r) -> r <> Ok true.
Proof.
  intros Hk E ->. unfold exchange in E. apply bind_ok in E as (n & s1 & E1 & E). apply on_socket_ok in E1.
  pose proof (write_loop_calls (S (length (concat [wire host path]))) true [wire host path] 0 (socket s)) as C1.
  unfold FileDescriptor.write in E1. rewrite E1 in C1. cbn [fst] in C1.
  apply bind_ok in E as ([] & s2 & E2 & E). apply on_socket_ok, shutdown_calls in E2 as [_ C2].
  apply bind_ok in E as (ended & s3 & E3 & E). apply read_all_calls in E3. destruct ended; cbn [negb] in E; [|done].
  apply bind_ok in E as ([] & s4 & E4 & _). apply bind_ok in E4 as ([] & s5 & E5 & E). apply on_socket_ok, shutdown_calls in E5 as [_ C5].
  apply bind_ok in E as ([] & s6 & E6 & E). apply on_socket_ok, close_calls in E6. apply on_socket_ok, shutdown_calls in E as [[m Hm] _].
  rewrite E6, C5, E3, C2, C1 in Hm. cbv beta in Hm. rewrite Hk in Hm. done.
Qed.

(** A server that sends two bytes, and a kernel that takes everything. *)
Definition sample : t :=
  mk (FileDescriptor.mk (FDWrapper.mk 3 false false 0 0) (fun n => if (n =? 0)%nat then Done [x68; x69] else Done [])
        (fun _ => Done (zlen (wire "host" "/"))) (fun n => if (n =? 3)%nat then Failed EBADF else Done 0) [] []) [].

Lemma webget_prints_answer_witness : exists s', exchange "host" "/" 5 sample = (s', Throw (unix_error EBADF)) /\ cout s' = [x68; x69] /\
  exists n l, FileDescriptor.h_written (socket s') = [] ++ take n (wire "host" "/") /\
    FileDescriptor.h_read (socket s') = [] ++ l /\ cout s' = [] ++ l /\
    (forall b, Throw (A := bool) (unix_error EBADF) = Ok b -> n = length (wire "host" "/")).
Proof.
  assert (E : exchange "host" "/" 5 sample = ((exchange "host" "/" 5 sample).1, Throw (unix_error EBADF))) by (by vm_compute).
  eexists. split; [exact E|]. split; [by vm_compute|].
  exact (webget_prints_answer "host" "/" 5 sample _ _ ltac:(vm_compute; congruence) E).
Defined.

Lemma webget_never_succeeds_witness : (exchange "host" "/" 5 sample).2 = Throw (unix_error EBADF) /\ (exchange "host" "/" 5 sample).2 <> Ok true.
Proof.
  split; [by vm_compute|].
  exact (webget_never_succeeds "host" "/" 5 sample _ _ ltac:(by vm_compute) (surjective_pairing _)).
Defined.
End WebGet.

(** ** tcp_native *)

Module TcpNative.
Import Kernel.

(** What the command line asks for. *)
Inductive mode := Usage | Client (host port : string) | Server (host port : string).
Definition command_line (argv : list string) : mode :=
  if (length argv <? 3)%nat then Usage else
  let server_mode := match argv !! 1%nat with Some s => strncmp_eq "-l" s 3 | None => false end in
  match argv with
  | _ :: a :: b :: rest => if server_mode then match rest with c :: _ => Server b c | [] => Usage end else Client a b
  | _ => Usage
  end.

(** A local object is destroyed at the end of its scope, also by an exception. *)
Definition finally {S A} (m : M S A) (cleanup : M S unit) : M S A := fun s => let '(s, r) := m s in ((cleanup s).1, r).

Definition BACKLOG : Z := 16.

Section Open.
Context {R : Address.Resolver}.

Definition accept_one (host port : string) : M Kernel.t FDWrapper.t :=
  listening_socket <- Socket.make_tcp;;
  finally
    (Socket.set_reuseaddr listening_socket;;
     address <- lift (Address.of_host host port);;
     Socket.bind listening_socket address;;
     Socket.listen listening_socket BACKLOG;;
     fun k => let '((k, _), r) := Socket.accept (k, listening_socket) in (k, r))
    (destroy_fd listening_socket).

Definition connect_to (host port : string) : M Kernel.t FDWrapper.t :=
  connecting_socket <- Socket.make_tcp;;
  or_cleanup
    (address <- lift (Address.of_host host port);;
     Socket.connect connecting_socket address;;
     ret connecting_socket)
    (destroy_fd connecting_socket).
End Open.

(** *** No descriptor is lost *)

(** The descriptors that a sequence of calls has opened, given the replies, and
    those it has closed. *)
Definition opens (c : call) (a : answer reply) : list Z :=
  match c, a with
  | (socket _ _ _ | accept _), Done r => if 0 <=? i32 (value r) then [i32 (value r)] else []
  | socketpair _ _ _, Done r => [(out_fds r).1; (out_fds r).2]
  | _, _ => []
  end.
Fixpoint opened (calls : list call) (replies : nat -> answer reply) : list Z :=
  match calls with [] => [] | c :: calls => opens c (replies 0%nat) ++ opened calls (fun n => replies (S n)) end.
Definition closes (c : call) : list Z := match c with close fd => [fd] | _ => [] end.

Definition closed (calls : list call) : list Z := concat (map closes calls).

(** A specification in the style of a Hoare triple whose assertions are the
    descriptors that are open and have to be closed: before, after a normal
    return and after an exception. *)
Definition triple {A} (pre : list Z) (m : M Kernel.t A) (post : A -> list Z) (Q : A -> Prop) (exc : list Z) : Prop :=
  forall k, exists new, h_calls (m k).1 = h_calls k ++ new /\ (forall n, k_replies (m k).1 n = k_replies k (length new + n)%nat) /\
    match (m k).2 with
    | Ok a => Q a /\ pre ++ opened new (k_replies k) ≡ₚ closed new ++ post a
    | Throw _ => pre ++ opened new (k_replies k) ≡ₚ closed new ++ exc
    end.

Lemma opened_ext calls r1 r2 : (forall n, r1 n = r2 n) -> opened calls r1 = opened calls r2.
Proof.
  revert r1 r2. induction calls as [|c calls IH]; intros r1 r2 H; [done|]. cbn. rewrite (H 0%nat). f_equal. apply IH. intros n. apply H.
Qed.

Lemma opened_app calls calls' r : opened (calls ++ calls') r = opened calls r ++ opened calls' (fun n => r (length calls + n)%nat).
Proof. revert r. induction calls as [|c calls IH]; intros r; [done|]. cbn. by rewrite IH, app_assoc. Qed.

Lemma closed_app calls calls' : closed (calls ++ calls') = closed calls ++ closed calls'.
Proof. unfold closed. by rewrite map_app, concat_app. Qed.

Lemma triple_bind {A B} pre (m : M Kernel.t A) mid (Q : A -> Prop) (f : A -> M Kernel.t B) post (Q' : B -> Prop) exc :
  triple pre m mid Q exc -> (forall a, Q a -> triple (mid a) (f a) post Q' exc) -> triple pre (effects.bind m f) post Q' exc.
Proof.
  intros Hm Hf k. destruct (Hm k) as (new & E1 & E2 & H). unfold effects.bind. destruct (m k) as [k1 [a|e]]; cbn [fst snd] in *.
  2: { exists new. by split. }
  destruct H as [HQ H]. destruct (Hf a HQ k1) as (new' & E3 & E4 & H'). exists (new ++ new'). split_and!.
  - by rewrite E3, E1, app_assoc.
  - intros n. rewrite E4, E2, length_app. f_equal. lia.
  - rewrite opened_app, closed_app, <- (opened_ext new' _ _ E2). destruct (f a k1) as [k2 [b|e]]; cbn [fst snd] in *.
    + destruct H' as [HQ' H']. split; [done|]. by rewrite app_assoc, H, <- app_assoc, H', app_assoc.
    + by rewrite app_assoc, H, <- app_assoc, H', app_assoc.
Qed.

Lemma triple_ret {A} pre (a : A) post (Q : A -> Prop) exc : Q a -> post a = pre -> triple pre (ret a) post Q exc.
Proof. intros HQ <- k. exists []. cbn. by rewrite !app_nil_r. Qed.

Lemma triple_lift {A} pre (r : result A) : triple pre (lift r) (fun _ => pre) (fun _ => True) pre.
Proof. intros k. exists []. cbn. rewrite !app_nil_r. by destruct r. Qed.

(** A call that neither opens nor closes. *)
Definition neutral (c : call) : bool := match c with socket _ _ _ | socketpair _ _ _ | accept _ | close _ => false | _ => true end.

Lemma triple_call pre c : neutral c = true -> triple pre (Kernel.system_call c) (fun _ => pre) (fun _ => True) pre.
Proof.
  intros Hc k. exists [c]. assert (Ec : closed [c] = []) by (by destruct c). assert (Eo : opened [c] (k_replies k) = []) by (by destruct c).
  rewrite Ec, Eo, app_nil_r. unfold Kernel.system_call, sys, effects.bind. cbn iota beta. destruct (file_descriptor.system_call _); cbn; split_and!; done.
Qed.

Lemma triple_step pre c : neutral c = true ->
  triple pre (r <- Kernel.system_call c;; ret tt) (fun _ => pre) (fun _ => True) pre.
Proof. intros Hc. eapply triple_bind; [by apply triple_call|]. intros a _. by apply triple_ret. Qed.

(** A call that opens a descriptor, and the object made of it. *)
Definition open_ok (w : FDWrapper.t) : Prop := FDWrapper._closed w = false.
Lemma triple_open pre c : match c with socket _ _ _ | accept _ => True | _ => False end ->
  triple pre (r <- Kernel.system_call c;; lift (FDWrapper.make r.1)) (fun w => FDWrapper._fd w :: pre) open_ok pre.
Proof.
  intros Hc k. exists [c]. assert (Ec : closed [c] = []) by (by destruct c). rewrite Ec.
  unfold Kernel.system_call, sys, effects.bind, lift. cbn iota beta.
  assert (Eo : opened [c] (k_replies k) = match k_replies k 0%nat with Done r => if 0 <=? i32 (value r) then [i32 (value r)] else [] | Failed _ => [] end).
  { destruct c; try done; cbn; by destruct (k_replies k 0%nat); [destruct (_ <=? _)|]. }
  rewrite Eo. destruct (k_replies k 0%nat) as [r|e]; cbn.
  - unfold SystemCall. cbn [Z.eqb orb]. rewrite orb_true_r. cbn. unfold FDWrapper.make. destruct (Z.ltb_spec (i32 (value r)) 0); cbn.
    + destruct (Z.leb_spec 0 (i32 (value r))); [lia|]. by rewrite app_nil_r.
    + destruct (Z.leb_spec 0 (i32 (value r))); [|lia]. split_and!; try done. by rewrite Permutation_app_comm.
  - unfold SystemCall. cbn [Z.leb orb Z.compare]. destruct (e =? 0); cbn; by rewrite app_nil_r.
Qed.

Lemma triple_destroy pre w : open_ok w -> triple (FDWrapper._fd w :: pre) (destroy_fd w) (fun _ => pre) (fun _ => True) pre.
Proof.
  intros Hw k. exists [close (FDWrapper._fd w)]. unfold destroy_fd. rewrite Hw. cbn. by rewrite app_nil_r.
Qed.

Lemma triple_cleanup {A} pre (m : M Kernel.t A) post (Q : A -> Prop) owned cleanup exc :
  triple pre m post Q owned -> triple owned cleanup (fun _ => exc) (fun _ => True) exc -> triple pre (or_cleanup m cleanup) post Q exc.
Proof.
  intros Hm Hc k. destruct (Hm k) as (new & E1 & E2 & H). unfold or_cleanup. destruct (m k) as [k1 [a|e]]; cbn [fst snd] in *; [by exists new|].
  destruct (Hc k1) as (new' & E3 & E4 & H'). exists (new ++ new'). split_and!.
  - by rewrite E3, E1, app_assoc.
  - intros n. rewrite E4, E2, length_app. f_equal. lia.
  - rewrite opened_app, closed_app, <- (opened_ext new' _ _ E2), app_assoc, H, <- app_assoc.
    destruct (cleanup k1).2; [destruct H' as [_ H']|]; by rewrite H', app_assoc.
Qed.

Lemma triple_finally {A} pre (m : M Kernel.t A) fd post (Q : A -> Prop) cleanup exc :
  triple pre m (fun a => fd :: post a) Q (fd :: exc) ->
  (forall rest, triple (fd :: rest) cleanup (fun _ => rest) (fun _ => True) rest) -> triple pre (finally m cleanup) post Q exc.
Proof.
  intros Hm Hc k. destruct (Hm k) as (new & E1 & E2 & H). unfold finally. destruct (m k) as [k1 r]. cbn [fst snd] in *.
  destruct (Hc (match r with Ok a => post a | Throw _ => exc end) k1) as (new' & E3 & E4 & H'). exists (new ++ new'). split_and!.
  - by rewrite E3, E1, app_assoc.
  - intros n. rewrite E4, E2, length_app. f_equal. lia.
  - rewrite opened_app, closed_app, <- (opened_ext new' _ _ E2).
    destruct r as [a|e]; [destruct H as [HQ H]; split; [done|]|];
      (rewrite app_assoc, H, <- app_assoc; destruct (cleanup k1).2; [destruct H' as [_ H']|]; by rewrite H', app_assoc).
Qed.

Lemma triple_ext {A} pre (m m' : M Kernel.t A) post Q exc : (forall k, m k = m' k) -> triple pre m post Q exc -> triple pre m' post Q exc.
Proof. intros E H k. rewrite <- E. apply H. Qed.

(** The operations of sockets. *)

Lemma triple_make_tcp pre : triple pre Socket.make_tcp (fun w => FDWrapper._fd w :: pre) open_ok pre.
Proof. by apply triple_open. Qed.

Lemma triple_verify pre fd option expected : triple pre (Socket.verify fd option expected) (fun _ => pre) (fun _ => True) pre.
Proof.
  eapply triple_bind; [by apply triple_call|]. intros [n r] _. destruct (_ || _); [|by apply triple_ret].
  intros k. exists []. cbn. rewrite !app_nil_r. split_and!; done.
Qed.

(** The constructor from a descriptor owns it, and closes it when it throws. *)
Lemma triple_tcp_of_fd pre w : open_ok w ->
  triple (FDWrapper._fd w :: pre) (Socket.tcp_of_fd w) (fun w => FDWrapper._fd w :: pre) open_ok pre.
Proof.
  intros Hw. eapply triple_cleanup; [|by apply triple_destroy].
  eapply triple_bind; [apply triple_verify|]. intros [] _. eapply triple_bind; [apply triple_verify|]. intros [] _. by apply triple_ret.
Qed.

Lemma accept_eq w k :
  (w' <- (r <- Kernel.system_call (accept (FDWrapper._fd w));; lift (FDWrapper.make r.1));; Socket.tcp_of_fd w') k =
  (let '((k, _), r) := Socket.accept (k, w) in (k, r)).
Proof.
  unfold Socket.accept, effects.bind at 3 4 5 6, modify, get, zoom, lift. cbn iota beta zeta. cbn [fst snd FDWrapper.register_read].
  change (FDWrapper._fd (FDWrapper.register_read w)) with (FDWrapper._fd w).
  unfold effects.bind. destruct (Kernel.system_call _ k) as [k1 [[n r]|e]]; [|done]. cbn [fst snd].
  destruct (FDWrapper.make n) as [w'|]; [|done]. cbn [fst snd]. by destruct (Socket.tcp_of_fd w' k1).
Qed.

Section NoLeak.
Context {R : Address.Resolver}.

Lemma triple_accept pre w :
  triple pre (fun k => let '((k, _), r) := Socket.accept (k, w) in (k, r)) (fun w => FDWrapper._fd w :: pre) open_ok pre.
Proof using Type.
  eapply triple_ext; [apply accept_eq|]. eapply triple_bind; [by apply triple_open|]. intros w' Hw. by apply triple_tcp_of_fd.
Qed.

Lemma triple_accept_one host port : triple [] (accept_one host port) (fun w => [FDWrapper._fd w]) open_ok [].
Proof using Type.
  eapply triple_bind; [apply triple_make_tcp|]. intros l Hl.
  eapply (triple_finally _ _ (FDWrapper._fd l)); [|intros rest; by apply triple_destroy].
  eapply triple_bind; [by apply triple_step|]. intros [] _. eapply triple_bind; [apply triple_lift|]. intros a _.
  eapply triple_bind; [by apply triple_step|]. intros [] _. eapply triple_bind; [by apply triple_step|]. intros [] _.
  intros k. destruct (triple_accept [FDWrapper._fd l] l k) as (new & E1 & E2 & H). exists new. split; [done|]. split; [done|].
  destruct (_.2) as [w|e]; [|done]. destruct H as [HQ H]. split; [done|]. rewrite H. f_equiv. by apply Permutation_swap.
Qed.

Lemma triple_connect_to host port : triple [] (connect_to host port) (fun w => [FDWrapper._fd w]) open_ok [].
Proof using Type.
  eapply triple_bind; [apply triple_make_tcp|]. intros w Hw. eapply triple_cleanup; [|by apply triple_destroy].
  eapply triple_bind; [apply triple_lift|]. intros a _. eapply triple_bind; [by apply triple_step|]. intros [] _. by apply triple_ret.
Qed.
End NoLeak.

(** What is still open when a socket has been opened, or could not be. *)
Definition held (r : result FDWrapper.t) : list Z := match r with Ok w => [FDWrapper._fd w] | Throw _ => [] end.

(** C36. [tcp_native] loses no descriptor, whatever the kernel answers, the name
    service included, and whichever step fails: every descriptor that was opened
    for a connection is either the one of the socket that is returned or has been
    closed, exactly once. A server has closed the listening socket also when it
    has accepted a connection. *)
Theorem tcp_native_no_leak `{Address.Resolver} (server : bool) host port replies k r :
  (if server then accept_one host port else connect_to host port) (Kernel.mk replies []) = (k, r) ->
  opened (h_calls k) replies ≡ₚ closed (h_calls k) ++ held r.
Proof.
  assert (Ht : triple [] (if server then accept_one host port else connect_to host port) (fun w => [FDWrapper._fd w]) open_ok [])
    by (destruct server; [apply triple_accept_one|apply triple_connect_to]).
  intros E. destruct (Ht (Kernel.mk replies [])) as (new & E1 & _ & H1). rewrite E in E1, H1. cbn in E1. subst new.
  destruct r as [w|e]; [by destruct H1 as [_ H1]|done].
Qed.

(** A connection is accepted, but its socket is not of the right type. *)
Definition sample_replies (n : nat) : answer reply :=
  match n with
  | 0%nat => Done (mk_reply 3 0 0 [] 0 (0, 0))
  | 4%nat => Done (mk_reply 4 0 0 [] 0 (0, 0))
  | 5%nat => Done (mk_reply 0 2 0 [] 4 (0, 0))
  | _ => Done (mk_reply 0 0 0 [] 4 (0, 0))
  end.
Definition sample_accept : Kernel.t * result FDWrapper.t :=
  accept_one (R := NumericResolver.numeric_resolver) "1.2.3.4" "80" (Kernel.mk sample_replies []).

Lemma tcp_native_no_leak_witness :
  sample_accept.2 = Throw runtime_error /\ opened (h_calls sample_accept.1) sample_replies = [3; 4] /\ closed (h_calls sample_accept.1) = [4; 3] /\
  opened (h_calls sample_accept.1) sample_replies ≡ₚ closed (h_calls sample_accept.1) ++ held sample_accept.2.
Proof.
  split; [by vm_compute|]. split; [by vm_compute|]. split; [by vm_compute|].
  exact (tcp_native_no_leak (H := NumericResolver.numeric_resolver) true "1.2.3.4" "80" sample_replies _ _ (surjective_pairing _)).
Defined.
End TcpNative.
