(* ===== verification/packet_dump.v ===== *)
(** The programs that show packets: [apps/udp_tcpdump.cc] and [apps/tun.cc].

    The capture library is outside: what its functions return is an argument, and
    the calls are recorded. [inet_ntop] for IPv6 addresses is an argument. What
    goes to [cerr] is left out.

    What is shown: the walk over the headers stays inside the packet, except for
    IPv4 headers that claim to be shorter than an IPv4 header is; the program
    prints the packets one after the other; after an error it asks the capture
    library about a handle that it has closed. *)

From S2P Require Import prelude std_strings wrapping_integers buffer parser checksum ipv4 tcp_segment text command_line.

Module UdpTcpdump.
Import CommandLine Text.

(** ** The command line *)

Definition show_usage (arg0 : string) (errmsg : option string) : string :=
  "Usage: " +:+ arg0 +:+ unlines
    [" [-i <intf>] [-F <file>] [-h|--help] <expression>"; "";
     "  -i <intf>    only capture packets from <intf> (default: all)"; "";
     "  -F <file>    reads in a filter expression from <file>";
     "               <expression> is ignored if -F is supplied."; "";
     "  -h, --help   show this message"; "";
     "  <expression> a filter expression in pcap-filter(7) syntax"] +:+
  match errmsg with Some m => newline +:+ m | None => "" end +:+ newline.

(** [check_arg] *)
Definition check_arg (argv : list string) (curr : nat) (errmsg : string) : outcome unit :=
  if (length argv <=? curr + 1)%nat then Exit 1 (show_usage (hd "" argv) (Some errmsg)) else Done tt.

(** [parse_arguments]: the device and where the filter begins. *)
Fixpoint parse_arguments (fuel : nat) (argv : list string) (curr : nat) (dev : option string) : outcome (nat * option string) :=
  match fuel with
  | O => Done (curr, dev)
  | S fuel =>
      if (length argv <=? curr)%nat then Done (curr, dev) else
      arg <~ argument argv curr;;
      if strncmp_eq "-i" arg 3 then
        u <~ check_arg argv curr "ERROR: -i requires an argument";;
        d <~ argument argv (curr + 1);;
        parse_arguments fuel argv (curr + 2) (Some d)
      else if strncmp_eq "-h" arg 3 || strncmp_eq "--help" arg 7 then Exit 0 (show_usage (hd "" argv) None)
      else Done (curr, dev)
  end.

(** The filter expression. *)
Definition filter_expression (argv : list string) (exp_start : nat) : string :=
  fold_left (fun s arg => s +:+ arg +:+ " ") (drop exp_start argv) "".

(** ** The headers *)

(** [data[i]], and four or sixteen bytes at [data + i]. *)
Definition byte_at (data : list byte) (i : Z) : outcome Z :=
  match data !! Z.to_nat i with Some b => Done (byte_to_Z b) | None => OutOfBounds end.
Definition bytes_at (data : list byte) (i n : Z) : outcome (list byte) :=
  if i + n <=? zlen data then Done (take (Z.to_nat n) (drop (Z.to_nat i) data)) else OutOfBounds.

Section Packet.
Context (inet6_ntop : list byte -> string).

Definition inet4_addr (data : list byte) (i : Z) : outcome string :=
  b <~ bytes_at data i 4;; Done (inet_ntoa (be_combine b)).
Definition inet6_addr (data : list byte) (i : Z) : outcome string :=
  b <~ bytes_at data i 16;; Done (inet6_ntop b).

(** The extension headers of IPv6: where the UDP header is, or nothing. A turn moves
    on by 8 bytes at least, so that one more turn than there are bytes is enough. *)
Fixpoint skip_headers (fuel : nat) (data : list byte) (nxt data_offset : Z) : outcome (option Z) :=
  if nxt =? 0x11 then Done (Some data_offset) else
  match fuel with
  | O => Done None
  | S fuel =>
      if negb (nxt =? 0) && negb (nxt =? 43) && negb (nxt =? 60) then Done None else
      nxt <~ byte_at data data_offset;;
      length <~ byte_at data (data_offset + 1);;
      let data_offset := data_offset + 8 * (1 + length) in
      if zlen data <? data_offset + 2 then Done None else skip_headers fuel data nxt data_offset
  end.

(** [process_ipv4_ipv6]: the offset of the UDP payload and the addresses, or nothing
    where the code returns -1. *)
Definition process_ipv4_ipv6 (data : list byte) : outcome (option (Z * string * string)) :=
  if zlen data <? 1 then Done None else
  first <~ byte_at data 0;;
  let pt := Z.land first 0xf0 in
  if pt =? 0x40 then
    let data_offset := Z.land first 0x0f * 4 in
    if zlen data <? data_offset then Done None else
    proto <~ byte_at data 9;;
    if negb (proto =? 0x11) then Done None else
    src <~ inet4_addr data 12;;
    dst <~ inet4_addr data 16;;
    Done (Some (data_offset + 8, src, dst))
  else if pt =? 0x60 then
    if zlen data <? 42 then Done None else
    nxt <~ byte_at data 6;;
    r <~ skip_headers (S (length data)) data nxt 40;;
    match r with
    | None => Done None
    | Some data_offset =>
        src <~ inet6_addr data 8;;
        dst <~ inet6_addr data 24;;
        Done (Some (data_offset + 8, src, dst))
    end
  else Done None.

(** ** A packet *)

Definition DLT_NULL : Z := 0.
Definition DLT_EN10MB : Z := 1.
Definition DLT_RAW : Z := 12.
Definition DLT_LINUX_SLL : Z := 113.
Definition DLT_LINUX_SLL2 : Z := 276.

Definition u16_at (data : list byte) (i : Z) : outcome Z :=
  a <~ byte_at data i;;
  b <~ byte_at data (i + 1);;
  Done (Z.lor (Z.shiftl a 8) b).

(** A link header of [hdr_off] bytes with the type of the payload at [i]. *)
Definition link_header (data : list byte) (hdr_off i : Z) : outcome (option Z) :=
  if zlen data <? hdr_off then Done None else
  pt <~ u16_at data i;;
  if negb (pt =? 0x0800) && negb (pt =? 0x86dd) then Done None else Done (Some hdr_off).

(** Where the IP packet begins, or nothing for a packet that is skipped. *)
Definition link_offset (dl_type : Z) (data : list byte) : outcome (option Z) :=
  if dl_type =? DLT_NULL then
    if zlen data <? 4 then Done None else
    pt <~ byte_at data 3;;
    if negb (pt =? 2) && negb (pt =? 24) && negb (pt =? 28) && negb (pt =? 30) then Done None else Done (Some 4)
  else if dl_type =? DLT_EN10MB then link_header data 14 12
  else if dl_type =? DLT_LINUX_SLL then link_header data 16 14
  else if dl_type =? DLT_LINUX_SLL2 then link_header data 20 0
  else if negb (dl_type =? DLT_RAW) then Exit 1 ""
  else Done (Some 0).

(** The line for a TCP segment in the UDP payload. *)
Definition flags (h : TCPHeader.t) : string :=
  (if TCPHeader.urg h then "U" else "") +:+ (if TCPHeader.psh h then "P" else "") +:+ (if TCPHeader.rst h then "R" else "") +:+
  (if TCPHeader.syn h then "S" else "") +:+ (if TCPHeader.fin h then "F" else "") +:+ (if TCPHeader.ack h then "." else "").

Definition segment_line (src dst : string) (seg : TCPSegment.t) (res : ParseResult) (payload_len : Z) : string :=
  let h := TCPSegment.header seg in
  let seqlen := u32 (TCPSegment.length_in_sequence_space seg) in
  src +:+ ":" +:+ to_string (TCPHeader.sport h) +:+ " > " +:+ dst +:+ ":" +:+ to_string (TCPHeader.dport h) +:+ newline +:+
  "    Flags [" +:+ flags h +:+ "] cksum 0x" +:+ hex 4 (TCPHeader.cksum h) +:+
  (if bool_decide (res = NoError) then " (correct)" else " (incorrect!)") +:+ " seq " +:+ to_string (raw_value (TCPHeader.seqno h)) +:+
  (if 0 <? seqlen then ":" +:+ to_string (raw_value (wi_add (TCPHeader.seqno h) seqlen)) else "") +:+
  " ack " +:+ to_string (raw_value (TCPHeader.ackno h)) +:+ " win " +:+ to_string (TCPHeader.win h) +:+
  " length " +:+ to_string payload_len +:+ newline.

(** [res > ParseResult::BadChecksum] *)
Definition unrecognised (res : ParseResult) : bool := match res with NoError | BadChecksum => false | _ => true end.

(** What is printed for a packet. A length that has wrapped around is too long for a
    [string]. *)
Definition dump_packet (dl_type : Z) (data : list byte) : outcome string :=
  off <~ link_offset dl_type data;;
  match off with
  | None => Done ""
  | Some hdr_off =>
      r <~ process_ipv4_ipv6 (drop (Z.to_nat hdr_off) data);;
      match r with
      | None => Done ""
      | Some (start_off, src, dst) =>
          let payload_off := hdr_off + start_off in
          let payload_len := u64 (zlen data - payload_off) in
          if zlen data <? payload_len then Exception length_error else
          let payload := drop (Z.to_nat payload_off) data in
          let '(seg, res) := TCPSegment.parse TCPSegment.default (Buffer.of_string payload) 0 in
          let line := if unrecognised res
                      then "(did not recognize TCP header) src: " +:+ src +:+ " dst: " +:+ dst +:+ newline
                      else segment_line src dst seg res payload_len in
          Done (line +:+ hexdump payload 8)
      end
  end.

(** ** The program *)

(** The calls of the capture library. *)
Inductive call := open_live (dev : option string) | datalink | compile (filter : string) | setfilter | freecode | next_ex | geterr | close.

Record world := mk_world { cout : string; h_calls : list call }.

(** What the library answers: the link type of a handle or why there is none, the
    names of link types, and the errors of [pcap_compile], [pcap_setfilter] and
    [pcap_next_ex]. *)
Record library := mk_library {
  k_open : option string -> string + Z;
  k_description : Z -> string;
  k_compile : string -> option string;
  k_setfilter : option string;
  k_next_error : string
}.

(** A run of the program: printing, calls and how it ends. *)
Definition Run (A : Type) : Type := world -> world * outcome A.
Definition rret {A} (a : A) : Run A := fun w => (w, Done a).
Definition rbind {A B} (m : Run A) (k : A -> Run B) : Run B := fun w =>
  let '(w, o) := m w in
  match o with
  | Done a => k a w
  | Exit code text => (w, Exit code text)
  | Exception e => (w, Exception e)
  | OutOfBounds => (w, OutOfBounds)
  | Undefined => (w, Undefined)
  end.
Notation "x <-- m ;; k" := (rbind m (fun x => k)) (at level 100, m at next level, right associativity).
Definition rlift {A} (o : outcome A) : Run A := fun w => (w, o).
Definition print (text : string) : Run unit := fun w => (mk_world (cout w +:+ text) (h_calls w), Done tt).
Definition calls (c : call) : Run unit := fun w => (mk_world (cout w) (h_calls w ++ [c]), Done tt).

(** [exit(code)] or [return code] in [main], after a message. *)
Definition fail {A} (message : string) : Run A := u <-- print message;; rlift (Exit 1 "").

Section Main.
Context (lib : library).

Definition supported (dlt : Z) : bool :=
  (dlt =? DLT_RAW) || (dlt =? DLT_NULL) || (dlt =? DLT_EN10MB) || (dlt =? DLT_LINUX_SLL) || (dlt =? DLT_LINUX_SLL2).

(** The handle and its link type. *)
Definition open_handle (dev : option string) : Run Z :=
  u <-- calls (open_live dev);;
  match k_open lib dev with
  | inl errbuf => fail (newline +:+ "Error initiating capture: " +:+ errbuf +:+ newline)
  | inr dlt =>
      u <-- calls datalink;;
      if negb (supported dlt) then fail (newline +:+ "Error: unsupported datalink type " +:+ k_description lib dlt +:+ newline) else
      u <-- print (" (type: " +:+ k_description lib dlt +:+ ")" +:+ newline);;
      rret dlt
  end.

Definition set_filter (expression : string) : Run unit :=
  u <-- print ("Using filter expression: " +:+ expression +:+ newline);;
  u <-- calls (compile expression);;
  match k_compile lib expression with
  | Some e => u <-- calls geterr;; fail ("Error compiling filter expression: " +:+ e +:+ newline)
  | None =>
      u <-- calls setfilter;;
      match k_setfilter lib with
      | Some e => u <-- calls geterr;; fail ("Error configuring packet filter: " +:+ e +:+ newline)
      | None => calls freecode
      end
  end.

(** The loop over the packets, for as many results of [pcap_next_ex] as there are:
    the last result, unless there is none below zero. *)
Fixpoint capture (dl_type : Z) (results : list (Z * list byte)) : Run (option Z) :=
  match results with
  | [] => rret None
  | (next_ret, pkt_data) :: results =>
      u <-- calls next_ex;;
      if next_ret <? 0 then rret (Some next_ret) else
      if next_ret =? 0 then capture dl_type results else
      text <-- rlift (dump_packet dl_type pkt_data);;
      u <-- print text;;
      capture dl_type results
  end.

(** After the loop. *)
Definition finish (next_ret : Z) : Run Z :=
  u <-- calls close;;
  if next_ret =? -1 then u <-- calls geterr;; fail ("Error listening for packet: " +:+ k_next_error lib +:+ newline) else rret 0.

(** [main]; the result is the status, or nothing while the loop goes on. *)
Definition main (argv : list string) (results : list (Z * list byte)) : Run (option Z) :=
  r <-- rlift (parse_arguments (length argv) argv 1 None);;
  let '(exp_start, dev) := r in
  u <-- print (match dev with Some d => "Capturing on interface " +:+ d | None => "Capturing on all interfaces" end);;
  dl_type <-- open_handle dev;;
  u <-- set_filter (filter_expression argv exp_start);;
  next_ret <-- capture dl_type results;;
  match next_ret with
  | None => rret None
  | Some n => code <-- finish n;; rret (Some code)
  end.
End Main.
End Packet.

(** ** Staying inside the packet *)

Lemma byte_at_bounds data i : 0 <= i < zlen data -> byte_at data i <> OutOfBounds.
Proof. intros H. unfold byte_at. destruct (lookup_lt_is_Some_2 data (Z.to_nat i) ltac:(lia)) as [b ->]. done. Qed.

Lemma byte_at_range data i b : byte_at data i = Done b -> 0 <= b < 256.
Proof. unfold byte_at. destruct (data !! _) as [x|]; [|done]. intros [= <-]. apply byte_to_Z_range. Qed.

Lemma bytes_at_bounds data i n : i + n <= zlen data -> bytes_at data i n <> OutOfBounds.
Proof. intros H. unfold bytes_at. by destruct (Z.leb_spec (i + n) (zlen data)); [|lia]. Qed.

Lemma skip_headers_bounds fuel data nxt off :
  0 <= off -> off + 2 <= zlen data -> skip_headers fuel data nxt off <> OutOfBounds /\
  forall off', skip_headers fuel data nxt off = Done (Some off') -> off <= off' /\ off' + 2 <= zlen data.
Proof.
  revert nxt off. induction fuel as [|fuel IH]; intros nxt off H0 Hl; cbn [skip_headers].
  all: destruct (nxt =? 0x11); [split; [done|by intros off' [= <-]]|]; try done.
  destruct (_ && _); [done|]. pose proof (byte_at_bounds data off ltac:(lia)) as H1. pose proof (byte_at_bounds data (off + 1) ltac:(lia)) as H2.
  destruct (byte_at data off) as [nxt'| | | |]; try done. cbn [obind].
  destruct (byte_at data (off + 1)) as [n| | | |] eqn:E2; try done. apply byte_at_range in E2. cbn [obind]. cbv zeta.
  destruct (Z.ltb_spec (zlen data) (off + 8 * (1 + n) + 2)); [done|]. destruct (IH nxt' (off + 8 * (1 + n)) ltac:(lia) ltac:(lia)) as [H3 H4].
  split; [done|]. intros off' E. apply H4 in E. lia.
Qed.

Lemma skip_headers_S fuel data nxt data_offset :
  skip_headers (S fuel) data nxt data_offset =
  if nxt =? 0x11 then Done (Some data_offset) else
  if negb (nxt =? 0) && negb (nxt =? 43) && negb (nxt =? 60) then Done None else
  nxt <~ byte_at data data_offset;;
  length <~ byte_at data (data_offset + 1);;
  if zlen data <? data_offset + 8 * (1 + length) + 2 then Done None else skip_headers fuel data nxt (data_offset + 8 * (1 + length)).
Proof. done. Qed.

(** More turns make no difference. *)
Lemma skip_headers_more fuel data nxt off :
  0 <= off -> zlen data <= off + Z.of_nat fuel -> off + 2 <= zlen data ->
  skip_headers (S fuel) data nxt off = skip_headers fuel data nxt off.
Proof.
  revert nxt off. induction fuel as [|fuel IH]; intros nxt off H0 Hf Hl; [lia|]. rewrite (skip_headers_S (S fuel)), (skip_headers_S fuel). destruct (nxt =? 0x11); [done|]. destruct (_ && _); [done|].
  destruct (byte_at data off) as [nxt'| | | |]; try done. cbn [obind].
  destruct (byte_at data (off + 1)) as [k| | | |] eqn:E2; try done. apply byte_at_range in E2. cbn [obind].
  destruct (Z.ltb_spec (zlen data) (off + 8 * (1 + k) + 2)); [done|]. apply IH; lia.
Qed.

(** An IPv4 header is not shorter than it can be. *)
Definition long_header (data : list byte) : Prop :=
  forall b, byte_at data 0 = Done b -> Z.land b 0xf0 = 0x40 -> 5 <= Z.land b 0x0f.

Section InBounds.
Context (inet6_ntop : list byte -> string).

Lemma process_bounds data : long_header data -> process_ipv4_ipv6 inet6_ntop data <> OutOfBounds.
Proof using Type.
  intros Hh. unfold process_ipv4_ipv6. destruct (Z.ltb_spec (zlen data) 1); [done|].
  apply obind_bounds; [apply byte_at_bounds; lia|]. intros b Hb. destruct (Z.eqb_spec (Z.land b 0xf0) 0x40) as [E|E].
  - specialize (Hh b Hb E). cbv zeta. destruct (Z.ltb_spec (zlen data) (Z.land b 0x0f * 4)); [done|].
    apply obind_bounds; [apply byte_at_bounds; lia|]. intros proto _. destruct (negb _); [done|].
    apply obind_bounds; [apply obind_bounds; [apply bytes_at_bounds; lia|done]|]. intros src _.
    apply obind_bounds; [apply obind_bounds; [apply bytes_at_bounds; lia|done]|done].
  - destruct (_ =? 0x60); [|done]. destruct (Z.ltb_spec (zlen data) 42); [done|].
    apply obind_bounds; [apply byte_at_bounds; lia|]. intros nxt _.
    apply obind_bounds; [apply skip_headers_bounds; lia|]. intros [off|] _; [|done].
    apply obind_bounds; [apply obind_bounds; [apply bytes_at_bounds; lia|done]|]. intros src _.
    apply obind_bounds; [apply obind_bounds; [apply bytes_at_bounds; lia|done]|done].
Qed.

Lemma link_header_bounds data hdr_off i : 0 <= i -> i + 2 <= hdr_off -> link_header data hdr_off i <> OutOfBounds.
Proof using Type.
  intros H0 Hi. unfold link_header. destruct (Z.ltb_spec (zlen data) hdr_off); [done|].
  apply obind_bounds; [|by intros pt _; destruct (_ && _)].
  apply obind_bounds; [apply byte_at_bounds; lia|]. intros a _. apply obind_bounds; [apply byte_at_bounds; lia|done].
Qed.

Lemma link_offset_bounds dl_type data : link_offset dl_type data <> OutOfBounds.
Proof using Type.
  unfold link_offset. destruct (dl_type =? DLT_NULL).
  - destruct (Z.ltb_spec (zlen data) 4); [done|]. apply obind_bounds; [apply byte_at_bounds; lia|]. intros pt _. by destruct (_ && _).
  - do 3 (case_match; [apply link_header_bounds; lia|]). by case_match.
Qed.
End InBounds.

(** C39. The packet dump reads nothing outside the captured packet and the walk over
    IPv6 extension headers ends, for every link type and packet, provided an IPv4
    header gives a length of at least 20 bytes. *)
Theorem dump_in_bounds inet6_ntop dl_type data :
  (forall off, link_offset dl_type data = Done (Some off) -> long_header (drop (Z.to_nat off) data)) ->
  dump_packet inet6_ntop dl_type data <> OutOfBounds /\
  forall packet nxt fuel, 42 <= zlen packet -> (length packet < fuel)%nat ->
    skip_headers fuel packet nxt 40 = skip_headers (S (length packet)) packet nxt 40.
Proof.
  intros Hh. split.
  - apply obind_bounds; [apply link_offset_bounds|]. intros [off|] Eo; [|done].
    apply obind_bounds; [by apply process_bounds, Hh|]. intros [[[start src] dst]|] _; [|done]. cbv zeta.
    destruct (_ <? _); [done|]. by destruct (TCPSegment.parse _ _ _).
  - intros packet nxt fuel Hl. induction fuel as [|fuel IH]; [lia|]. intros Hf. destruct (decide (fuel = length packet)) as [->|]; [done|].
    rewrite skip_headers_more by lia. apply IH. lia.
Qed.

(** An IPv4 header that claims to be empty: the protocol is read beyond the end of
    the packet. *)
Theorem short_header_out_of_bounds inet6_ntop : dump_packet inet6_ntop DLT_RAW [x40] = OutOfBounds.
Proof. by vm_compute. Qed.

(** A packet that ends after the IPv4 header: the length of the payload wraps around
    and an exception that nobody catches ends the program. *)
Definition bare_ipv4 : list byte :=
  [x45; x00; x00; x14; x00; x00; x00; x00; x40; x11; x00; x00; x01; x02; x03; x04; x05; x06; x07; x08].
Theorem bare_header_throws inet6_ntop : dump_packet inet6_ntop DLT_RAW bare_ipv4 = Exception length_error.
Proof. by vm_compute. Qed.

(** A segment with a wrong checksum: the line says so, but shows none of its header,
    which has not been parsed. *)
Theorem bad_checksum_shows_nothing src dst payload :
  InternetChecksum.value (InternetChecksum.add (InternetChecksum.make 0) (Buffer.str payload)) <> 0 ->
  let '(seg, res) := TCPSegment.parse TCPSegment.default payload 0 in
  unrecognised res = false /\
  segment_line src dst seg res (Buffer.size payload) =
  src +:+ ":0 > " +:+ dst +:+ ":0" +:+ newline +:+ "    Flags [] cksum 0x0000 (incorrect!) seq 0 ack 0 win 0 length " +:+
  to_string (Buffer.size payload) +:+ newline.
Proof. intros H. unfold TCPSegment.parse. cbv zeta. rewrite (proj2 (Z.eqb_neq _ _) H). by split. Qed.

Lemma dump_in_bounds_witness : let packet := bare_ipv4 ++ [x00; x07; x00; x09; x00; x0a; x00; x00; x41; x42] in
  (exists text, dump_packet (fun _ => EmptyString) DLT_RAW packet = Done text) /\ dump_packet (fun _ => EmptyString) DLT_RAW packet <> OutOfBounds.
Proof.
  intros packet. split; [eexists; vm_compute; reflexivity|]. apply (dump_in_bounds (fun _ => EmptyString) DLT_RAW packet).
  intros off [= <-] b [= <-] _. vm_compute. congruence.
Defined.

(** ** The whole run *)

Section Run.
Context (inet6_ntop : list byte -> string) (lib : library).

(** What is to be printed for a result of [pcap_next_ex]. *)
Definition shows (dl_type : Z) (result : Z * list byte) (text : string) : Prop :=
  0 <= result.1 /\ if result.1 =? 0 then text = "" else dump_packet inet6_ntop dl_type result.2 = Done text.

(** The loop prints the packets one after the other, skips timeouts and stops at
    the first result below zero. *)
Lemma capture_prints dl_type results texts n data rest w :
  Forall2 (shows dl_type) results texts -> n < 0 ->
  capture inet6_ntop dl_type (results ++ (n, data) :: rest) w =
  (mk_world (cout w +:+ foldr String.append "" texts) (h_calls w ++ replicate (S (length results)) next_ex), Done (Some n)).
Proof using Type.
  intros H Hn. revert w. induction H as [|[m d] text results texts [H0 H] Hs IH]; intros w; cbn [capture app length foldr];
    unfold rbind at 1, calls at 1; cbn [fst] in *.
  - destruct (Z.ltb_spec n 0); [|lia]. by rewrite string_app_nil_r.
  - destruct (Z.ltb_spec m 0); [lia|]. destruct (m =? 0); cbn [snd] in H.
    + subst text. rewrite IH. cbn. by rewrite <- app_assoc.
    + unfold rbind, rlift, print. rewrite H, IH. cbn [cout h_calls replicate]. by rewrite <- app_assoc, string_app_assoc.
Qed.

(** A capture that ends with an error, from the beginning: the packets before it are
    printed, and the status is 1. The message is asked for with [pcap_geterr] on the
    handle after [pcap_close] has freed it. *)
Theorem error_after_close argv exp_start dev dlt results texts data rest :
  parse_arguments (length argv) argv 1 None = Done (exp_start, dev) -> k_open lib dev = inr dlt -> supported dlt = true ->
  k_compile lib (filter_expression argv exp_start) = None -> k_setfilter lib = None -> Forall2 (shows dlt) results texts ->
  exists before header message, main inet6_ntop lib argv (results ++ (-1, data) :: rest) (mk_world "" []) =
    (mk_world (header +:+ foldr String.append "" texts +:+ message) (before ++ replicate (S (length results)) next_ex ++ [close; geterr]), Exit 1 "").
Proof using Type.
  intros Ha Ho Hd Hc Hf Hs. unfold main, rbind at 1, rlift at 1. rewrite Ha. unfold rbind at 1, print at 1. unfold open_handle, set_filter.
  unfold rbind at 1. unfold rbind at 1, calls at 1. rewrite Ho. unfold rbind at 1, calls at 1. rewrite Hd. cbn [negb].
  unfold rbind at 1, print at 1, rret at 1. unfold rbind at 1. unfold rbind at 1, print at 1. unfold rbind at 1, calls at 1. rewrite Hc.
  unfold rbind at 1, calls at 1. rewrite Hf. unfold calls at 1. unfold rbind at 1.
  match goal with |- context [capture _ _ _ ?w0] => generalize w0; intros w end. rewrite (capture_prints _ _ _ _ _ _ _ Hs) by lia.
  cbn [cout h_calls]. exists (h_calls w), (cout w). eexists. unfold finish, fail, rbind, calls, print, rlift. cbn [cout h_calls Z.eqb].
  f_equal. f_equal; [apply string_app_assoc|]. cbn [h_calls]. by rewrite <- !app_assoc.
Qed.
End Run.

Lemma error_after_close_witness :
  exists before header message, main (fun _ => "") (mk_library (fun _ => inr DLT_RAW) (fun _ => "RAW") (fun _ => None) None "lost")
    ["udp_tcpdump"; "udp"] ([(0, [])] ++ (-1, []) :: []) (mk_world "" []) =
    (mk_world (header +:+ foldr String.append "" [""] +:+ message) (before ++ replicate 2 next_ex ++ [close; geterr]), Exit 1 "").
Proof.
  apply (error_after_close (fun _ => "") (mk_library (fun _ => inr DLT_RAW) (fun _ => "RAW") (fun _ => None) None "lost")
    ["udp_tcpdump"; "udp"] 1 None DLT_RAW [(0, [])] [""] [] []); try reflexivity.
  apply Forall2_cons; split; [by split|]. by apply Forall2_nil.
Defined.

(** The option [-F] of the usage text is not read: it and its argument become part
    of the filter expression. *)
Theorem file_option_not_read program file :
  let argv := [program; "-F"; file] in
  parse_arguments (length argv) argv 1 None = Done (1%nat, None) /\ filter_expression argv 1 = "-F " +:+ file +:+ " ".
Proof. done. Qed.
End UdpTcpdump.

(** ** Packets of a TUN device *)

Module TunDump.
Import Text.

(** What [tun] prints for a packet. *)
Definition dump_packet (buffer : list byte) : result string :=
  let out := newline +:+ newline +:+ "***" +:+ newline +:+ "*** Got packet:" +:+ newline +:+ "***" +:+ newline +:+ hexdump buffer 0 +:+
             "attempting to parse as ipv4 datagram... " in
  let '(ip_dgram, r) := IPv4Datagram.parse IPv4Datagram.default (Buffer.of_string buffer) in
  if negb (bool_decide (r = NoError)) then Ok (out +:+ "failed." +:+ newline) else
  let h := IPv4Datagram._header ip_dgram in
  let out := out +:+ "success! totlen=" +:+ to_string (IPv4Header.len h) +:+ ", IPv4 header contents:" +:+ newline +:+ ipv4_header h in
  if negb (IPv4Header.proto h =? IPv4Header.PROTO_TCP) then Ok (out +:+ newline +:+ "Not TCP, skipping." +:+ newline) else
  let out := out +:+ newline +:+ "Attempting to parse as a TCP segment... " in
  let* b := BufferList.to_buffer (IPv4Datagram._payload ip_dgram) in
  let '(tcp_seg, r) := TCPSegment.parse TCPSegment.default b (IPv4Header.pseudo_cksum h) in
  if negb (bool_decide (r = NoError)) then Ok (out +:+ "failed." +:+ newline) else
  Ok (out +:+ "success! payload len=" +:+ to_string (Buffer.size (TCPSegment.payload tcp_seg)) +:+ ", TCP header contents:" +:+ newline +:+
      tcp_header (TCPSegment.header tcp_seg) +:+ newline).
End TunDump.
