(* ===== verification/tcp_benchmark.v ===== *)
(** The benchmark ([apps/tcp_benchmark.cc]): two connections in one process, whose
    segments are handed from one to the other, in order or in reverse order. The
    string to send is an argument, and so are the initial sequence numbers; the
    measurement is left out. *)

From S2P Require Import prelude effects wrapping_integers buffer tcp_segment byte_stream tcp_receiver tcp_sender sending transfer tcp_connection connection typing.

Module TcpBenchmark.

Record t := mk {
  x : TCPConnection.t;
  y : TCPConnection.t;
  bytes_to_send : Buffer.t;
  x_closed : bool;
  string_received : list byte
}.
#[global] Instance set_x : Setter x := fun f s => mk (f (x s)) (y s) (bytes_to_send s) (x_closed s) (string_received s).
#[global] Instance set_y : Setter y := fun f s => mk (x s) (f (y s)) (bytes_to_send s) (x_closed s) (string_received s).
#[global] Instance set_bytes_to_send : Setter bytes_to_send := fun f s => mk (x s) (y s) (f (bytes_to_send s)) (x_closed s) (string_received s).
#[global] Instance set_x_closed : Setter x_closed := fun f s => mk (x s) (y s) (bytes_to_send s) (f (x_closed s)) (string_received s).
#[global] Instance set_string_received : Setter string_received := fun f s => mk (x s) (y s) (bytes_to_send s) (x_closed s) (f (string_received s)).

(** [move_segments(x, y, segments, reorder)], with no segments left over from before. *)
Definition move_segments (x y : TCPConnection.t) (reorder : bool) : TCPConnection.t * TCPConnection.t :=
  let segments := TCPConnection._segments_out x in
  let x := x <| TCPConnection._segments_out := [] |> in
  (x, fold_left TCPConnection.segment_received (if reorder then rev segments else segments) y).

(** Writing the input into [x]. A turn takes a byte at least, so that as many turns
    as there are bytes are enough. *)
Fixpoint write_input (fuel : nat) : M t unit :=
  s <- get;;
  let size := Buffer.size (bytes_to_send s) in
  let capacity := TCPConnection.remaining_outbound_capacity (x s) in
  if (size =? 0) || (capacity =? 0) then ret tt else
  match fuel with
  | O => ret tt
  | S fuel =>
      let want := Z.min capacity size in
      let '(x', written) := TCPConnection.write (x s) (take (Z.to_nat want) (Buffer.str (bytes_to_send s))) in
      modify (fun s => s <| x := x' |>);;
      if negb (want =? written) then throw runtime_error else
      b <- lift (Buffer.remove_prefix (bytes_to_send s) written);;
      modify (fun s => s <| bytes_to_send := b |>);;
      write_input fuel
  end.

(** The body of the loops. *)
Definition turn (reorder : bool) : M t unit :=
  s <- get;;
  write_input (Z.to_nat (Buffer.size (bytes_to_send s)));;
  modify (fun s =>
    let s := if (Buffer.size (bytes_to_send s) =? 0) && negb (x_closed s)
             then s <| x := TCPConnection.end_input_stream (x s) |> <| x_closed := true |> else s in
    let '(x1, y1) := move_segments (x s) (y s) reorder in
    let '(y1, x1) := move_segments y1 x1 false in
    let available_output := ByteStream.buffer_size (TCPConnection.inbound_stream y1) in
    let '(y1, received) :=
      if 0 <? available_output then
        (y1 <| TCPConnection._receiver := TCPReceiver.with_stream_out (TCPConnection._receiver y1)
                                            (fun o => (ByteStream.read o available_output).1) |>,
         string_received s ++ (ByteStream.read (TCPConnection.inbound_stream y1) available_output).2)
      else (y1, string_received s) in
    s <| x := TCPConnection.tick x1 1000 |> <| y := TCPConnection.tick y1 1000 |> <| string_received := received |>).

(** A loop of at most [n] turns; the result says whether its condition failed. *)
Fixpoint while (n : nat) (go_on : t -> bool) (reorder : bool) : M t bool :=
  s <- get;;
  if negb (go_on s) then ret true else
  match n with O => ret false | S n => turn reorder;; while n go_on reorder end.

Definition start (isn_x isn_y : WrappingInt32) (string_to_send : list byte) : t :=
  mk (TCPConnection.connect (TCPConnection.make TCPConfig.default isn_x)) (TCPConnection.end_input_stream (TCPConnection.make TCPConfig.default isn_y))
     (Buffer.of_string string_to_send) false [].

(** [main_loop] with loops of at most [n] turns. *)
Definition main_loop (n : nat) (reorder : bool) (isn_x isn_y : WrappingInt32) (string_to_send : list byte) : t * result bool :=
  (ended <- while n (fun s => negb (ByteStream.eof (TCPConnection.inbound_stream (y s)))) reorder;;
   s <- get;;
   if negb ended then ret false else
   if negb (bool_decide (string_received s = string_to_send)) then throw runtime_error else
   while n (fun s => TCPConnection.active (x s) || TCPConnection.active (y s)) reorder) (start isn_x isn_y string_to_send).

(** ** One end *)

Abbreviation cfg := TCPConfig.default.
Abbreviation ended c := (ByteStream.input_ended (TCPSender.stream_in (TCPConnection._sender c))).

(** An end that has sent its SYN, with its histories. *)
Record endpoint (isn : WrappingInt32) (c : TCPConnection.t) (w : list byte) (e r : list TCPSegment.t) (d : list byte) : Prop := {
  e_reach : Connection.reach cfg isn c w e r d;
  e_typed : Typing.connection_typed c;
  e_started : TCPSender._next_seqno (TCPConnection._sender c) <> 0
}.

Lemma cfg_capacity : is_u64 (TCPConfig.send_capacity cfg).
Proof. vm_compute. split; congruence. Qed.

Section End.
Context (isn : WrappingInt32) (Hisn : wi_ok isn).
Context (w : list byte) (Hw : zlen w < 2 ^ 62).

Lemma endpoint_write c e r d data :
  endpoint isn c w e r d -> ended c = false -> zlen (w ++ take (Z.to_nat (TCPConnection.write c data).2) data) < 2 ^ 62 ->
  endpoint isn (TCPConnection.write c data).1 (w ++ take (Z.to_nat (TCPConnection.write c data).2) data) e r d.
Proof using Hisn.
  intros [H1 H2 H3] He Hl. split.
  - by apply Connection.c_write.
  - exact (Typing.step_typed c (Connection.Write data) H2).
  - exact (Connection.write_started cfg isn cfg_capacity Hisn c w e r d H1 data He Hl).
Qed.

Lemma endpoint_end c e r d : endpoint isn c w e r d -> endpoint isn (TCPConnection.end_input_stream c) w e r d.
Proof using Hisn Hw.
  intros [H1 H2 H3]. split.
  - by apply Connection.c_end.
  - exact (Typing.step_typed c Connection.EndInput H2).
  - exact (Connection.end_started cfg isn cfg_capacity Hisn c w e r d H1 Hw).
Qed.

Lemma endpoint_tick c e r d ms : 0 <= ms -> endpoint isn c w e r d -> endpoint isn (TCPConnection.tick c ms) w e r d.
Proof using Type.
  intros Hms [H1 H2 H3]. split.
  - by apply Connection.c_tick.
  - exact (Typing.step_typed c (Connection.Tick ms) H2).
  - by rewrite Connection.tick_started.
Qed.

Lemma endpoint_segments c e r d segs :
  Forall Typing.typed segs -> endpoint isn c w e r d -> endpoint isn (fold_left TCPConnection.segment_received segs c) w e (r ++ segs) d.
Proof using Hisn Hw.
  intros Hs. revert c r. induction Hs as [|seg segs Hseg Hs IH]; intros c r Hc; cbn [fold_left]; [by rewrite app_nil_r|].
  replace (r ++ seg :: segs) with ((r ++ [seg]) ++ segs) by (by rewrite <- app_assoc). apply IH. destruct Hc as [H1 H2 H3].
  assert (Ha : TCPHeader.ack (TCPSegment.header seg) = true ->
    Sending.ack_sane (TCPConnection._sender c) (TCPHeader.ackno (TCPSegment.header seg)) /\ is_u16 (TCPHeader.win (TCPSegment.header seg))).
  { intros _. destruct Hseg as [[] _ _]. split; [|done]. by split. }
  split.
  - by apply Connection.c_segment.
  - by apply Typing.segment_typed.
  - exact (Connection.segment_started cfg isn cfg_capacity Hisn c w e r d H1 seg Hw Ha (fun _ => H3)).
Qed.

Lemma endpoint_read c e r d n :
  endpoint isn c w e r d ->
  endpoint isn (c <| TCPConnection._receiver := TCPReceiver.with_stream_out (TCPConnection._receiver c) (fun o => ByteStream.pop_output o (Z.of_nat n)) |>)
    w e r (d ++ ByteStream.peek_output (TCPConnection.inbound_stream c) (Z.of_nat n)).
Proof using Type.
  intros [H1 H2 H3]. split; [by apply Connection.c_read|exact (Typing.step_typed c (Connection.Read (Z.of_nat n)) H2)|done].
Qed.

Lemma endpoint_drain c e r d :
  endpoint isn c w e r d -> endpoint isn (c <| TCPConnection._segments_out := [] |>) w (e ++ TCPConnection._segments_out c) r d.
Proof using Type.
  intros [H1 H2 H3]. split; [|by destruct H2; split|done]. remember (TCPConnection._segments_out c) as q eqn:Eq. revert c e H1 H2 H3 Eq.
  induction q as [|seg q IH]; intros c e H1 H2 H3 Eq.
  - rewrite app_nil_r. by destruct c; cbn in *; subst.
  - pose proof (Connection.c_dequeue _ _ _ _ _ _ _ _ _ H1 (eq_sym Eq)) as H4.
    replace (e ++ seg :: q) with ((e ++ [seg]) ++ q) by (by rewrite <- app_assoc).
    refine (IH (c <| TCPConnection._segments_out := q |>) _ H4 _ H3 eq_refl).
    destruct H2 as [? ? Ho Hp]. rewrite <- Eq in Ho, Hp. split; try done; [by apply Forall_cons_1 in Ho as [_ ?]|].
    intros Hsyn. by apply Hp, Forall_cons_1 in Hsyn as [_ ?].
Qed.
End End.

(** ** Both ends *)

Lemma segments_ended segs c : ended (fold_left TCPConnection.segment_received segs c) = ended c.
Proof. revert c. induction segs as [|seg segs IH]; intros c; [done|]. cbn [fold_left]. by rewrite IH, Connection.segment_received_ended. Qed.

(** Segments of one end are handed to the other. *)
Lemma move_segments_ok isn isn' x w e r d y w' e' r' d' reorder :
  wi_ok isn' -> zlen w' < 2 ^ 62 ->
  endpoint isn x w e r d -> endpoint isn' y w' e' r' d' -> incl r' e ->
  let '(x1, y1) := move_segments x y reorder in
  ended x1 = ended x /\ ended y1 = ended y /\ exists e1 r1, endpoint isn x1 w e1 r d /\ endpoint isn' y1 w' e' r1 d' /\ incl r1 e1 /\ incl e e1.
Proof.
  intros Hi Hw Hx Hy Hin. unfold move_segments. set (segs := TCPConnection._segments_out x). split; [done|]. split; [apply segments_ended|].
  set (moved := if reorder then rev segs else segs).
  assert (Hm : incl moved segs) by (unfold moved; destruct reorder; [intros z; by rewrite <- in_rev|apply incl_refl]).
  assert (Ht : Forall Typing.typed moved).
  { destruct Hx as [_ [_ _ Ho _] _]. rewrite List.Forall_forall in Ho |- *. intros z Hz. by apply Ho, Hm. }
  exists (e ++ segs), (r' ++ moved). split; [by apply endpoint_drain|]. split; [by apply endpoint_segments|]. split; [|by apply incl_appl, incl_refl].
  apply incl_app; [by apply incl_appl|by apply incl_appr].
Qed.

(** [write] takes what fits. *)
Lemma write_takes c data : (TCPConnection.write c data).2 = Z.min (zlen data) (TCPConnection.remaining_outbound_capacity c).
Proof. done. Qed.

(** Writing the input keeps what [write] keeps, and ends. *)
Section WriteInput.
Context (string_to_send : list byte) (Hlen : zlen string_to_send < 2 ^ 62).
Context (I : list byte -> TCPConnection.t -> Prop).
Context (Hwrite : forall w c data, I w c -> ended c = false ->
  let taken := take (Z.to_nat (TCPConnection.write c data).2) data in
  zlen (w ++ taken) < 2 ^ 62 -> I (w ++ taken) (TCPConnection.write c data).1).

Lemma write_input_keeps fuel s w :
  I w (x s) -> Buffer.wf (bytes_to_send s) -> (Buffer.size (bytes_to_send s) <> 0 -> ended (x s) = false) ->
  w ++ Buffer.str (bytes_to_send s) = string_to_send ->
  exists s' w', write_input fuel s = (s', Ok tt) /\ I w' (x s') /\ w' ++ Buffer.str (bytes_to_send s') = string_to_send /\
    Buffer.wf (bytes_to_send s') /\ y s' = y s /\ x_closed s' = x_closed s /\ string_received s' = string_received s /\ ended (x s') = ended (x s) /\
    (Buffer.size (bytes_to_send s) = 0 -> s' = s) /\
    (Buffer.size (bytes_to_send s) <= Z.of_nat fuel ->
     Buffer.size (bytes_to_send s') = 0 \/ TCPConnection.remaining_outbound_capacity (x s') = 0).
Proof using Hlen Hwrite.
  revert s w. induction fuel as [|fuel IH]; intros s w Hi Hb Ho Et; cbn [write_input]; unfold bind at 1, get; cbv zeta.
  all: destruct (Z.eqb_spec (Buffer.size (bytes_to_send s)) 0) as [E0|E0]; [exists s, w; by split_and!; try done; left|].
  all: destruct (Z.eqb_spec (TCPConnection.remaining_outbound_capacity (x s)) 0) as [E1|E1]; [exists s, w; by split_and!; try done; right|].
  { exists s, w. split_and!; try done. unfold Buffer.size in *. lia. }
  cbn [orb]. set (want := Z.min _ _). set (data := take _ _). set (b := bytes_to_send s) in *. specialize (Ho E0).
  assert (Hcap : 0 <= TCPConnection.remaining_outbound_capacity (x s)) by apply u64_range.
  assert (Hd : zlen data = want) by (unfold data; rewrite length_take; unfold Buffer.size in *; lia).
  pose proof (write_takes (x s) data) as Hwr. rewrite Hd in Hwr. replace (Z.min want _) with want in Hwr by lia.
  assert (Et' : (w ++ take (Z.to_nat want) data) ++ drop (Z.to_nat want) (Buffer.str b) = string_to_send).
  { unfold data. rewrite take_take, Nat.min_id, <- app_assoc, take_drop. exact Et. }
  pose proof (Hwrite w (x s) data Hi Ho) as Hstep. pose proof (Connection.write_ended (x s) data) as Hended.
  destruct (TCPConnection.write (x s) data) as [x' n]. cbn [fst snd] in *. subst n.
  specialize (Hstep ltac:(pose proof (f_equal length Et') as Hl; rewrite length_app in Hl; lia)).
  unfold bind at 1, modify. rewrite Z.eqb_refl. cbn [negb]. rewrite bind_lift.
  pose proof (Buffer.remove_prefix_str b want Hb ltac:(unfold Buffer.size in *; lia)) as Hrem.
  destruct (Buffer.remove_prefix b want) as [b'|]; [|destruct Hrem as [_ Hrem]; unfold Buffer.size in *; lia].
  destruct Hrem as (_ & Hb' & Eb). unfold bind at 1.
  destruct (IH (mk x' (y s) b' (x_closed s) (string_received s)) (w ++ take (Z.to_nat want) data)) as (s' & w' & E & Hi' & Et'' & Hwf & Ey & Ec & Er & He & _ & Hfuel);
    cbn [x y bytes_to_send x_closed string_received]; try done.
  { intros _. by rewrite Hended. } { by rewrite Eb. }
  exists s', w'. cbn [x y bytes_to_send x_closed string_received] in *. split_and!; try done; [congruence|].
  intros Hf. apply Hfuel. unfold Buffer.size in *. rewrite Eb, length_drop. lia.
Qed.
End WriteInput.

Section Benchmark.
Context (isn_x isn_y : WrappingInt32) (Hx : wi_ok isn_x) (Hy : wi_ok isn_y).
Context (string_to_send : list byte) (Hlen : zlen string_to_send < 2 ^ 62).

(** What holds between the turns: [x] was given the bytes that are not left. *)
Record sound (s : t) : Prop := {
  so_ends : exists w ex rx ey ry, endpoint isn_x (x s) w ex rx [] /\ endpoint isn_y (y s) [] ey ry (string_received s) /\
    incl ry ex /\ incl rx ey /\ w ++ Buffer.str (bytes_to_send s) = string_to_send;
  so_buffer : Buffer.wf (bytes_to_send s);
  so_open : x_closed s = false -> ended (x s) = false;
  so_closed : x_closed s = true -> Buffer.size (bytes_to_send s) = 0
}.

Lemma start_sound : sound (start isn_x isn_y string_to_send).
Proof using Hx Hy Hlen.
  unfold start. pose proof (Connection.c_init cfg isn_x) as Rx. pose proof (Connection.c_init cfg isn_y) as Ry.
  pose proof (Typing.make_typed cfg isn_x Hx) as Tx. pose proof (Typing.make_typed cfg isn_y Hy) as Ty.
  assert (Ox : ended (TCPConnection.make cfg isn_x) = false) by (by cbn).
  generalize dependent (TCPConnection.make cfg isn_x). intros cx Rx Tx Ox.
  generalize dependent (TCPConnection.make cfg isn_y). intros cy Ry Ty. split; cbn [x y bytes_to_send x_closed string_received].
  - exists [], [], [], [], []. split_and!; try apply incl_refl; [split|split|done].
    + by apply Connection.c_connect.
    + by apply Typing.connect_typed.
    + exact (Connection.connect_started cfg isn_x cfg_capacity Hx _ _ _ _ _ Rx ltac:(cbn; lia)).
    + by apply Connection.c_end.
    + by apply (Typing.step_typed _ Connection.EndInput).
    + exact (Connection.end_started cfg isn_y cfg_capacity Hy _ _ _ _ _ Ry ltac:(cbn; lia)).
  - apply Buffer.of_string_wf. lia.
  - by rewrite Connection.connect_ended.
  - done.
Qed.

Lemma write_input_sound fuel s : sound s -> exists s', write_input fuel s = (s', Ok tt) /\ sound s'.
Proof using Hx Hlen.
  intros [(w & ex & rx & ey & ry & Ex & Ey & I1 & I2 & Et) Hb Ho Hc].
  destruct (write_input_keeps string_to_send Hlen (fun w c => endpoint isn_x c w ex rx [])) with (fuel := fuel) (s := s) (w := w)
    as (s' & w' & E & Ex' & Et' & Hb' & Ey' & Ec & Er & He & Hsame & _); try done.
  - intros w0 c data H0 H1 H2. by apply endpoint_write.
  - intros Hne. apply Ho. destruct (x_closed s); [|done]. by specialize (Hc eq_refl).
  - exists s'. split; [done|]. split; try done.
    + exists w', ex, rx, ey, ry. by rewrite Ey', Er.
    + rewrite Ec, He. done.
    + rewrite Ec. intros H. rewrite Hsame by auto. auto.
Qed.

(** Closing [x] when nothing is left. *)
Lemma close_sound s : sound s ->
  sound (if (Buffer.size (bytes_to_send s) =? 0) && negb (x_closed s)
         then s <| x := TCPConnection.end_input_stream (x s) |> <| x_closed := true |> else s).
Proof using Hx Hlen.
  intros Hs. destruct (Z.eqb_spec (Buffer.size (bytes_to_send s)) 0) as [E|]; [|done]. destruct (x_closed s); [done|]. cbn [andb negb].
  destruct Hs as [(w & ex & rx & ey & ry & Ex & Ey & I1 & I2 & Et) Hb Ho Hc]. split; try done.
  exists w, ex, rx, ey, ry. split_and!; try done. apply endpoint_end; try done.
  pose proof (f_equal length Et) as Hl. rewrite length_app in Hl. lia.
Qed.

Lemma turn_sound reorder s : sound s -> exists s', turn reorder s = (s', Ok tt) /\ sound s'.
Proof using Hx Hy Hlen.
  intros Hs. unfold turn. unfold bind at 1, get. destruct (write_input_sound (Z.to_nat (Buffer.size (bytes_to_send s))) s Hs) as (s1 & E1 & Hs1).
  rewrite (bind_step _ _ _ _ _ E1). eexists. split; [reflexivity|]. apply close_sound in Hs1. cbv zeta. set (s2 := if (_ : bool) then _ else s1) in *.
  clearbody s2. clear s s1 Hs E1. destruct Hs1 as [(w & ex & rx & ey & ry & Ex & Ey & I1 & I2 & Et) Hb Ho Hc].
  assert (Hw : zlen w < 2 ^ 62) by (pose proof (f_equal length Et) as Hl; rewrite length_app in Hl; lia).
  pose proof (move_segments_ok isn_x isn_y (x s2) w ex rx [] (y s2) [] ey ry (string_received s2) reorder Hy ltac:(cbn; lia) Ex Ey I1) as H.
  destruct (move_segments (x s2) (y s2) reorder) as [x1 y1]. destruct H as (O1 & _ & e1 & r1 & Ex1 & Ey1 & I3 & I4).
  pose proof (move_segments_ok isn_y isn_x y1 [] ey r1 (string_received s2) x1 w e1 rx [] false Hx Hw Ey1 Ex1 I2) as H.
  destruct (move_segments y1 x1 false) as [y2 x2]. destruct H as (_ & O2 & e2 & r2 & Ey2 & Ex2 & I5 & I6).
  assert (Hread : exists y3 d3, (if 0 <? ByteStream.buffer_size (TCPConnection.inbound_stream y2) then
      (y2 <| TCPConnection._receiver := TCPReceiver.with_stream_out (TCPConnection._receiver y2)
                                          (fun o => (ByteStream.read o (ByteStream.buffer_size (TCPConnection.inbound_stream y2))).1) |>,
       string_received s2 ++ (ByteStream.read (TCPConnection.inbound_stream y2) (ByteStream.buffer_size (TCPConnection.inbound_stream y2))).2)
    else (y2, string_received s2)) = (y3, d3) /\ endpoint isn_y y3 [] e2 r1 d3).
  { destruct (0 <? _); [|by exists y2, (string_received s2)]. eexists _, _. split; [reflexivity|].
    exact (endpoint_read isn_y [] y2 e2 r1 (string_received s2) (length (ByteStream.deq (TCPConnection.inbound_stream y2))) Ey2). }
  destruct Hread as (y3 & d3 & -> & Ey3). split; cbn [x y bytes_to_send x_closed string_received setter set_x set_y set_string_received]; try done.
  - exists w, e1, r2, e2, r1. split_and!; try done; by apply endpoint_tick.
  - intros E. rewrite Connection.tick_out_ended, O2, O1. by apply Ho.
Qed.

Lemma while_sound n go_on reorder s : sound s -> exists s' b, while n go_on reorder s = (s', Ok b) /\ sound s' /\ (b = true -> go_on s' = false).
Proof using Hx Hy Hlen.
  revert s. induction n as [|n IH]; intros s Hs; cbn [while]; unfold bind at 1, get; (destruct (go_on s) eqn:Eg; cbn [negb]; [|by exists s, true]).
  - by exists s, false.
  - destruct (turn_sound reorder s Hs) as (s1 & E1 & Hs1). rewrite (bind_step _ _ _ _ _ E1). by apply IH.
Qed.

(** What [y]'s owner has read. *)
Lemma sound_prefix s : sound s -> zlen string_to_send <= TCPConfig.recv_capacity cfg ->
  exists n, string_received s ++ ByteStream.deq (TCPConnection.inbound_stream (y s)) = take n string_to_send.
Proof using Hx.
  intros [(w & ex & rx & ey & ry & [Rx _ _] & [Ry _ _] & I1 & _ & Et) _ _ _] Hl.
  assert (Hlw : (length w <= length string_to_send)%nat) by (rewrite <- Et, length_app; lia).
  destruct (Connection.endpoints_prefix _ _ _ _ _ _ _ _ _ _ _ _ _ _ Rx Ry cfg_capacity Hx ltac:(vm_compute; split; congruence) ltac:(lia)) as (n & E & _).
  { intros seg Hin. exists seg. split; [by apply I1|]. by split_and!. }
  exists (Nat.min n (length w)). rewrite E, <- Et. rewrite take_app_le by lia. rewrite <- take_take. by rewrite firstn_all.
Qed.
End Benchmark.

(** The benchmark, for a string that fits the receiver's capacity, with any
    initial sequence numbers, in order or reversed, and however many turns it has
    taken: what it has received so far is a prefix of the string it sends. It never
    throws because a write was not taken whole: the only exception is that of the
    final comparison. When it ends, both connections have ended. *)
Theorem benchmark_receives_prefix n reorder isn_x isn_y string_to_send s r :
  wi_ok isn_x -> wi_ok isn_y -> zlen string_to_send <= TCPConfig.recv_capacity TCPConfig.default ->
  main_loop n reorder isn_x isn_y string_to_send = (s, r) ->
  (exists k, string_received s ++ ByteStream.deq (TCPConnection.inbound_stream (y s)) = take k string_to_send) /\
  match r with
  | Throw e => ByteStream.eof (TCPConnection.inbound_stream (y s)) = true /\ string_received s <> string_to_send
  | Ok ended => ended = true -> TCPConnection.active (x s) = false /\ TCPConnection.active (y s) = false
  end.
Proof.
  intros Hx Hy Hl. change (TCPConfig.recv_capacity TCPConfig.default) with 64000 in Hl.
  assert (Hlen : zlen string_to_send < 2 ^ 62) by lia. unfold main_loop.
  pose proof (start_sound isn_x isn_y Hx Hy string_to_send Hlen) as H0. generalize dependent (start isn_x isn_y string_to_send). intros s0 H0.
  pose proof (fun s H => sound_prefix isn_x isn_y Hx string_to_send s H Hl) as Hp.
  destruct (while_sound isn_x isn_y Hx Hy string_to_send Hlen n (fun s => negb (ByteStream.eof (TCPConnection.inbound_stream (y s)))) reorder s0 H0)
    as (s1 & b & E1 & H1 & Hb). rewrite (bind_step _ _ _ _ _ E1). unfold bind at 1, get.
  destruct b; cbn [negb]; [|intros [= <- <-]; by split; [apply Hp|]]. specialize (Hb eq_refl). apply negb_false_iff in Hb.
  case_bool_decide as Ed; cbn [negb]; [|intros [= <- <-]; by split; [apply Hp|]].
  destruct (while_sound isn_x isn_y Hx Hy string_to_send Hlen n (fun s => TCPConnection.active (x s) || TCPConnection.active (y s)) reorder s1 H1)
    as (s2 & b2 & E2 & H2 & Hb2). rewrite E2. intros [= <- <-]. split; [by apply Hp|]. intros ->. by apply orb_false_iff, Hb2.
Qed.

Definition sample_string : list byte := map (fun i => byte_of_Z (Z.of_nat i)) (seq 0 2500).
Definition sample_run : t * result bool := main_loop 60 true (mkWrappingInt32 7) (mkWrappingInt32 9) sample_string.
Definition ends (r : result bool) : bool := match r with Ok b => b | Throw _ => false end.

Lemma sample_ends : ends sample_run.2 && bool_decide (string_received sample_run.1 = sample_string) = true.
Proof. by vm_compute. Qed.

Lemma benchmark_receives_prefix_witness : exists s, sample_run = (s, Ok true) /\ string_received s = sample_string /\
  (exists k, string_received s ++ ByteStream.deq (TCPConnection.inbound_stream (y s)) = take k sample_string) /\
  TCPConnection.active (x s) = false /\ TCPConnection.active (y s) = false.
Proof.
  pose proof sample_ends as H. apply andb_prop in H as [H1 H2]. apply bool_decide_eq_true_1 in H2.
  assert (Hl : zlen sample_string <= TCPConfig.recv_capacity TCPConfig.default) by (vm_compute; congruence).
  pose proof (benchmark_receives_prefix 60 true (mkWrappingInt32 7) (mkWrappingInt32 9) sample_string sample_run.1 sample_run.2
    ltac:(vm_compute; split; congruence) ltac:(vm_compute; split; congruence) Hl (surjective_pairing _)) as [Hp Hb].
  revert H1 H2 Hp Hb. generalize sample_run sample_string. intros [s r] str. cbn [fst snd]. destruct r as [[]|]; try done.
  intros _ H2 Hp Hb. exists s. destruct (Hb eq_refl). by split_and!.
Defined.
End TcpBenchmark.
