(* ===== verification/benchmark_run.v ===== *)
(** The benchmark in order ([apps/tcp_benchmark.cc], [main_loop(false)]) succeeds: it
    transfers a string of any length, and both connections finish.

    [turned] is what holds between two turns; [ack_x] grows with every turn until
    the whole stream and its FIN are acknowledged. *)

From S2P Require Import prelude effects wrapping_integers buffer tcp_segment byte_stream stream_reassembler tcp_receiver tcp_sender sending in_order transfer tcp_connection connection typing progress tcp_benchmark.

Module BenchmarkRun.
Import InOrder Progress TCPConnection TcpBenchmark.

Abbreviation cap := (TCPConfig.recv_capacity TCPConfig.default).
Abbreviation sn c := (_sender c).
Abbreviation retrans c := (TCPSender._consec_retrans (_sender c)).
Abbreviation queue c := (_segments_out c).

Lemma cap_range : 0 < cap < 2 ^ 31.
Proof. vm_compute. by split. Qed.

(** The clock of a connection after [n] turns. *)
Definition clock (n : Z) (c : TCPConnection.t) : Prop :=
  _cfg c = TCPConfig.default /\ _time c = 1000 * n /\ 0 <= _time_last_segment_received c <= _time c.

(** [y] has nothing but its FIN to send. *)
Lemma little s isn isn' sent fin d : conn_ok cap isn isn' [] s sent fin d -> 1 <= next (sn s) <= 2.
Proof.
  intros [[Hi Hn _ _ _ _ _] _ _ _ _]. split; [done|]. destruct Hi. cbn in i_read. destruct i_next as [(? & _)|E]; [lia|].
  destruct (TCPSender._fin_sent (sn s)); lia.
Qed.

(** All that has arrived is read. *)
Lemma buffer_read c isn isn' data sent fin d :
  conn_ok cap isn isn' data c sent fin d -> sent = d -> TCPReceiver.window_size (_receiver c) = cap.
Proof.
  intros [_ _ _ Hu _] E. destruct (upto_feedback cap isn' cap_range _ _ _ _ Hu) as (_ & -> & _). destruct Hu as [_ _ _ _ _ _ Hb _ _ _ _ _ _ _].
  rewrite E in Hb. apply (f_equal length) in Hb. rewrite length_app in Hb.
  unfold ByteStream.buffer_size, TCPReceiver.stream_out, StreamReassembler.stream_out. lia.
Qed.

Lemma wmax_cap : wmax cap = 64000.
Proof. done. Qed.

Lemma ack_next isn isn' data c sent fin d : conn_ok cap isn isn' data c sent fin d -> ack (sn c) <= next (sn c).
Proof. intros [[[] _ _ _ _ _ _] _ _ _ _]. lia. Qed.

(** Reading what is there. *)
Definition reading (c : TCPConnection.t) (d : list byte) : TCPConnection.t * list byte :=
  let available_output := ByteStream.buffer_size (inbound_stream c) in
  if 0 <? available_output then
    (c <| _receiver := TCPReceiver.with_stream_out (_receiver c) (fun o => (ByteStream.read o available_output).1) |>,
     d ++ (ByteStream.read (inbound_stream c) available_output).2)
  else (c, d).

Lemma reading_ok isn isn' data c sent fin d :
  conn_ok cap isn isn' data c sent fin d ->
  exists rc, reading c d = (c <| _receiver := rc |>, sent) /\ conn_ok cap isn isn' data (c <| _receiver := rc |>) sent fin sent.
Proof.
  intros [Hs Hi Ho Hu Hr]. unfold reading, inbound_stream. set (o := TCPReceiver.stream_out (_receiver c)).
  assert (Hb : sent = d ++ ByteStream.deq o) by (by destruct Hu).
  destruct (Z.ltb_spec 0 (ByteStream.buffer_size o)) as [Hz|Hz]; unfold ByteStream.buffer_size in *.
  - pose proof (upto_read cap isn' _ _ _ _ (zlen (ByteStream.deq o)) Hu) as Hu'. fold o in Hu'.
    assert (Ep : ByteStream.peek_output o (zlen (ByteStream.deq o)) = ByteStream.deq o).
    { unfold ByteStream.peek_output. rewrite Z.min_id, Nat2Z.id. apply firstn_all. }
    cbn [ByteStream.read fst snd]. rewrite Ep, <- Hb in *. eexists. split; [reflexivity|]. by split.
  - assert (Hn : ByteStream.deq o = []) by (apply nil_length_inv; lia). rewrite Hn, app_nil_r in Hb. subst d.
    exists (_receiver c). split; [by destruct c|]. by split.
Qed.

(** The rest of a turn, once the input is written and closed. *)
Definition exchange (s : t) : t :=
  let '(x1, y1) := move_segments (x s) (y s) false in
  let '(y1, x1) := move_segments y1 x1 false in
  let '(y1, received) := reading y1 (string_received s) in
  s <| x := tick x1 1000 |> <| y := tick y1 1000 |> <| string_received := received |>.

Definition closing (s : t) : t :=
  if (Buffer.size (bytes_to_send s) =? 0) && negb (x_closed s) then s <| x := end_input_stream (x s) |> <| x_closed := true |> else s.

Lemma turn_eq s s1 :
  write_input (Z.to_nat (Buffer.size (bytes_to_send s))) s = (s1, Ok tt) -> turn false s = (exchange (closing s1), Ok tt).
Proof. intros E. unfold turn. unfold bind at 1, get. by rewrite (bind_step _ _ _ _ _ E). Qed.

Lemma write_input_done fuel s : Buffer.size (bytes_to_send s) = 0 -> write_input fuel s = (s, Ok tt).
Proof. intros H. destruct fuel; cbn [write_input]; unfold bind at 1, get; cbv zeta; by rewrite H. Qed.

(** A tick at the end of a turn. *)
Lemma clock_tick n c : clock n c -> 0 <= n < 2 ^ 53 -> clock (n + 1) (tick c 1000).
Proof.
  intros (E1 & E2 & E3) Hn. unfold tick. rewrite send_segments_eq. unfold clock.
  destruct (_ <? _); cbn -[u64 Z.mul]; rewrite u64_id by lia; (split_and!; [done|lia|lia|lia]).
Qed.

Lemma clock_answers isn isn' data r r' a new c c' n : answers cap isn isn' data r r' a new c c' -> clock n c -> clock n c'.
Proof. intros [_ _ _ _ _ _ _ _ _ E1 [E2 E3]] (C1 & C2 & C3). unfold clock. rewrite E1, E2. split_and!; try done; destruct E3 as [-> | ->]; lia. Qed.

Section Run.
Context (isn_x isn_y : WrappingInt32) (Hx : wi_ok isn_x) (Hy : wi_ok isn_y).
Context (string_to_send : list byte) (Hlen : zlen string_to_send < 2 ^ 62).

(** After [n] turns: [x] was given [w], [y] has received [sy] of it (and the FIN if
    [fy]) and all of that was read; [x] has received [sx], which is empty, and
    [y]'s FIN if [fx]. The queues lead on from there, and what has arrived is
    acknowledged or in a queue to be. *)
Record turned (n : Z) (s : t) (w sx sy : list byte) (fx fy : bool) : Prop := {
  t_text : w ++ Buffer.str (bytes_to_send s) = string_to_send;
  t_buffer : Buffer.wf (bytes_to_send s);
  t_closed : stream_ended (sn (x s)) = x_closed s /\ (x_closed s = true -> Buffer.size (bytes_to_send s) = 0);
  t_x : conn_ok cap isn_x isn_y w (x s) sx fx [];
  t_y : conn_ok cap isn_y isn_x [] (y s) sy fy (string_received s);
  t_wx : within [] true sx fx;
  t_wy : within w (stream_ended (sn (x s))) sy fy;
  t_ended : stream_ended (sn (y s)) = true;
  t_xy : flow isn_x w (stream_ended (sn (x s))) (pos sy fy) (queue (x s)) (next (sn (x s)));
  t_yx : flow isn_y [] true (pos sx fx) (queue (y s)) (next (sn (y s)));
  t_all : pos sx fx = next (sn (y s));
  t_xacks : Forall (acks_in cap isn_y 1 (pos sx fx)) (queue (x s));
  t_xlast : ack (sn (y s)) < pos sx fx -> Exists (acks cap isn_y (pos sx fx)) (queue (x s));
  t_yacks : Forall (acks cap isn_x (pos sy fy)) (queue (y s));
  t_ylast : ack (sn (x s)) < pos sy fy -> Exists (acks cap isn_x (pos sy fy)) (queue (y s));
  t_pos : ack (sn (x s)) <= pos sy fy;
  t_read : sy = string_received s;
  t_retrans : 0 <= retrans (x s) <= 1 /\ 0 <= retrans (y s) <= 1;
  t_quiet : ack (sn (y s)) = next (sn (y s)) -> queue (y s) = [];
  t_clock : clock n (x s) /\ clock n (y s)
}.

(** *** Giving [x] its input *)

(** [x] becomes [c], having sent [new]; the rest of the input is [b]. *)
Lemma turned_emit n s w sx sy fx fy c w' new b closed :
  turned n s w sx sy fx fy -> conn_ok cap isn_x isn_y w' c sx fx [] -> emits cap isn_x isn_y w' (pos sx fx) new (x s) c ->
  retrans c = retrans (x s) -> _time c = _time (x s) -> w `prefix_of` w' -> (stream_ended (sn (x s)) = true -> w' = w) ->
  (stream_ended (sn (x s)) = true -> stream_ended (sn c) = true) ->
  (forall st seg, Sending.authentic isn_x w (stream_ended (sn (x s))) st seg -> Sending.authentic isn_x w' (stream_ended (sn c)) st seg) ->
  w' ++ Buffer.str b = string_to_send -> Buffer.wf b -> stream_ended (sn c) = closed -> (closed = true -> Buffer.size b = 0) ->
  turned n (mk c (y s) b closed (string_received s)) w' sx sy fx fy.
Proof using Type.
  intros [] Hc [Q F A K R C L G] Hr Ht Hpre Hw He Hau Htext Hb Ecl Hcl. destruct t_wy0 as [Hp1 Hp2].
  split; cbn [x y bytes_to_send x_closed string_received]; try done.
  - split; [by etrans|]. intros E. destruct (Hp2 E) as [-> E']. split; [by rewrite Hw|auto].
  - rewrite Q. eapply flow_app; [|exact F]. by eapply flow_impl.
  - rewrite Q. apply Forall_app. split; [done|]. eapply Forall_impl; [exact A|]. intros seg H. exists (pos sx fx). split; [|done].
    unfold pos, Sending.b2z. destruct fx; lia.
  - intros H. rewrite Q. apply Exists_app. left. auto.
  - by rewrite K.
  - by rewrite K.
  - by rewrite Hr.
  - unfold clock in *. by rewrite C, Ht, L.
Qed.

Lemma write_turned n s w sx sy fx fy :
  turned n s w sx sy fx fy ->
  exists s' w', write_input (Z.to_nat (Buffer.size (bytes_to_send s))) s = (s', Ok tt) /\ turned n s' w' sx sy fx fy /\
    y s' = y s /\ ack (sn (x s')) = ack (sn (x s)) /\
    (Buffer.size (bytes_to_send s') = 0 \/ remaining_outbound_capacity (x s') = 0).
Proof using Hlen.
  intros Ht. pose proof Ht as []. set (fuel := Z.to_nat _).
  destruct (write_input_keeps string_to_send Hlen (fun w' c => exists new, conn_ok cap isn_x isn_y w' c sx fx [] /\
    emits cap isn_x isn_y w' (pos sx fx) new (x s) c /\ retrans c = retrans (x s) /\ _time c = _time (x s) /\ w `prefix_of` w' /\
    (stream_ended (sn (x s)) = true -> w' = w) /\ stream_ended (sn c) = stream_ended (sn (x s)) /\
    (forall st seg, Sending.authentic isn_x w (stream_ended (sn (x s))) st seg -> Sending.authentic isn_x w' (stream_ended (sn c)) st seg)))
    with (fuel := fuel) (s := s) (w := w) as (s' & w' & E & (new & Hc & He & Hr & Hti & Hpre & Hw & Hend & Hau) & Htext & Hb & Ey & Ec & Er & _ & Hsame & Hfuel); try done.
  - intros w0 c data (new & Hc & He & Hr & Hti & Hpre & Hw & Hend & Hau) Hopen taken Hz. unfold ByteStream.input_ended, TCPSender.stream_in in Hopen.
    destruct (write_conn cap cap_range isn_x isn_y w0 c sx fx [] Hc data Hopen Hz) as (new' & Hc' & He' & Hr' & _ & Hend' & Hti'). fold taken in Hc', He'.
    exists (new ++ new'). rewrite Hend', <- Hend, Hopen in *. split_and!; try done; try congruence.
    + eapply emits_trans; [exact He|exact He'|]. rewrite Hend', Hopen. intros st seg. apply Sending.authentic_write.
    + etrans; [exact Hpre|]. by apply prefix_app_r.
    + intros st seg H. by apply Sending.authentic_write, Hau.
  - exists []. split_and!; try done. split; try done. by rewrite app_nil_r.
  - intros Hne. unfold ByteStream.input_ended, TCPSender.stream_in. destruct t_closed0 as [-> Hcl]. destruct (x_closed s); [by specialize (Hcl eq_refl)|done].
  - exists s', w'. destruct s' as [x' y' b' cl' r']. cbn [x y bytes_to_send x_closed string_received] in *. subst y' cl' r'.
    split_and!; try done; [|by destruct He|apply Hfuel; unfold fuel, Buffer.size; lia].
    eapply turned_emit; try done; try (destruct t_closed0; congruence).
    intros E'. destruct t_closed0 as [_ Hcl]. apply (f_equal bytes_to_send) in Hsame; [|by apply Hcl]. cbn in Hsame. rewrite Hsame. by apply Hcl.
Qed.

(** Closing. *)
Lemma close_turned n s w sx sy fx fy :
  turned n s w sx sy fx fy ->
  turned n (closing s) w sx sy fx fy /\ y (closing s) = y s /\ ack (sn (x (closing s))) = ack (sn (x s)) /\
  bytes_to_send (closing s) = bytes_to_send s /\ (Buffer.size (bytes_to_send s) = 0 -> x_closed (closing s) = true) /\
  (x_closed (closing s) = false -> closing s = s).
Proof using Type.
  intros Ht. unfold closing. destruct (Z.eqb_spec (Buffer.size (bytes_to_send s)) 0) as [E|]; [|done].
  destruct (x_closed s) eqn:Ecl; cbn [andb negb]; [by split_and!|]. pose proof Ht as []. destruct t_closed0 as [Hend _]. rewrite Ecl in Hend.
  destruct (end_conn cap cap_range isn_x isn_y w (x s) sx fx [] t_x0) as (new & Hc & He & Hr & _ & Hend' & Hti).
  split_and!; try done; [|by destruct He].
  change (s <| x := _ |> <| x_closed := true |>) with (mk (end_input_stream (x s)) (y s) (bytes_to_send s) true (string_received s)).
  eapply turned_emit; try done. intros st seg H. rewrite Hend'. by eapply Sending.authentic_end.
Qed.

(** Before the segments are moved there is something to move, unless all is done. *)
Lemma something_to_send n s w sx sy fx fy :
  turned n s w sx sy fx fy -> (Buffer.size (bytes_to_send s) = 0 -> x_closed s = true) ->
  Buffer.size (bytes_to_send s) = 0 \/ remaining_outbound_capacity (x s) = 0 ->
  next (sn (x s)) = ack (sn (x s)) -> w = string_to_send /\ next (sn (x s)) = zlen string_to_send + 2.
Proof using Type.
  intros [] Hcl Hrem Heq. destruct t_x0 as [[Hi Hn _ _ _ Hst Hrm] _ _ _ _]. destruct (Hst Heq) as [Hd Hfin].
  assert (Hz : Buffer.size (bytes_to_send s) = 0).
  { destruct Hrem as [|Hrem]; [done|]. exfalso. revert Hrem. unfold remaining_outbound_capacity, TCPSender.stream_in.
    rewrite ByteStream.remaining_capacity_eq by (by destruct Hi). rewrite Hd. cbn. lia. }
  assert (Ew : w = string_to_send).
  { rewrite <- t_text0. unfold Buffer.size in Hz. destruct (Buffer.str (bytes_to_send s)); [by rewrite app_nil_r|]. cbn in Hz. lia. }
  split; [done|]. destruct t_closed0 as [He _]. rewrite (Hcl Hz) in He. specialize (Hfin He). destruct Hi. destruct (i_fin Hfin) as [_ Er].
  rewrite Hfin in i_next. destruct i_next as [(_ & _ & ?)|En]; [done|]. rewrite Er, Ew in En. lia.
Qed.

(** *** Exchanging segments *)

Section Exchange.
Context (n : Z) (s : t) (w sx sy : list byte) (fx fy : bool) (Ht : turned n s w sx sy fx fy).

(** How far [x] is ahead of [y]. *)
Lemma ahead : pos sy fy <= next (sn (x s)) <= pos sy fy + 64000.
Proof using Ht.
  destruct Ht. apply flow_le in t_xy0. destruct t_x0 as [[_ _ Hf _ _ _ _] _ _ _ _]. rewrite wmax_cap in Hf. lia.
Qed.

Lemma sx_nil : sx = [].
Proof using Ht. destruct Ht as [_ _ _ _ _ [[k E] _] _ _ _ _ _ _ _ _ _ _ _ _ _ _]. by destruct sx. Qed.

(** The segments of [x] arrive at [y]. *)
Lemma to_y :
  let y1 := fold_left segment_received (queue (x s)) (y s) in
  exists sy' fy' new, conn_ok cap isn_y isn_x [] y1 sy' fy' (string_received s) /\ within w (stream_ended (sn (x s))) sy' fy' /\
    pos sy' fy' = next (sn (x s)) /\ answers cap isn_y isn_x [] (pos sy fy) (next (sn (x s))) (next (sn (y s))) new (y s) y1.
Proof using Hx Hlen Ht.
  pose proof ahead as Ha. destruct Ht. pose proof (little _ _ _ _ _ _ t_y0) as Hl. pose proof (ack_next _ _ _ _ _ _ _ t_y0). rewrite t_all0 in *.
  assert (Hw : zlen w < 2 ^ 62) by (rewrite <- t_text0, length_app in Hlen; lia).
  destruct (deliver_all cap cap_range isn_y isn_x Hx [] w (stream_ended (sn (x s))) Hw (queue (x s)) (next (sn (x s))) 1 (next (sn (y s))) (y s) sy fy (string_received s))
    as (sy' & fy' & new & H1 & H2 & H3 & H4 & _); try done; try lia.
  - rewrite (buffer_read _ _ _ _ _ _ _ t_y0 t_read0). change cap with 64000. lia.
  - rewrite wmax_cap. unfold recent. lia.
  - by exists sy', fy', new.
Qed.

(** And the answers at [x]. *)
Lemma to_x y1 new :
  (exists sy' fy', conn_ok cap isn_y isn_x [] y1 sy' fy' (string_received s)) ->
  answers cap isn_y isn_x [] (pos sy fy) (next (sn (x s))) (next (sn (y s))) new (y s) y1 ->
  let x1 := fold_left segment_received (queue y1) ((x s) <| _segments_out := [] |>) in
  exists sx' fx' new', conn_ok cap isn_x isn_y w x1 sx' fx' [] /\ within [] true sx' fx' /\ pos sx' fx' = next (sn y1) /\
    answers cap isn_x isn_y w (pos sx fx) (next (sn y1)) (next (sn (x s))) new' ((x s) <| _segments_out := [] |>) x1 /\
    (ack (sn (x s)) = next (sn (x s)) -> ack (sn (y s)) = next (sn (y s)) -> new' = []).
Proof using Hy Ht.
  intros (sy' & fy' & Hy1) Hans. pose proof ahead as Ha. pose proof sx_nil as Esx. destruct Ht. pose proof (little _ _ _ _ _ _ Hy1) as Hl.
  pose proof (little _ _ _ _ _ _ t_y0) as Hl0. pose proof (ack_next _ _ _ _ _ _ _ t_x0). destruct Hans as [L Q F A E K _ S D C T].
  assert (Hx0 : conn_ok cap isn_x isn_y w ((x s) <| _segments_out := [] |>) sx fx []) by (destruct t_x0; by split).
  assert (Hpos : 1 <= pos sy fy) by (unfold pos, Sending.b2z; destruct fy; lia).
  destruct (deliver_all cap cap_range isn_x isn_y Hy w [] true ltac:(cbn; lia) (queue y1) (next (sn y1)) (pos sy fy) (next (sn (x s))) ((x s) <| _segments_out := [] |>) sx fx [])
    as (sx' & fx' & new' & H1 & H2 & H3 & H4 & H5); try done; try lia.
  - rewrite Q. eapply flow_app; [exact t_yx0|]. by rewrite t_ended0 in F.
  - rewrite (buffer_read _ _ _ _ _ _ _ Hx0 Esx). change cap with 64000. unfold pos, Sending.b2z. destruct fx; lia.
  - rewrite Q. apply Forall_app. split; [|done]. eapply Forall_impl; [exact t_yacks0|]. intros seg Hs. exists (pos sy fy). split; [lia|done].
  - intros Hlt. rewrite Q. apply Exists_app. destruct (Z.eq_dec (pos sy fy) (next (sn (x s)))) as [Eq|]; [left|right; apply E; lia].
    rewrite <- Eq. apply t_ylast0. rewrite Eq. done.
  - rewrite wmax_cap. unfold recent. lia.
  - exists sx', fx', new'. split_and!; try done. intros E1 E2. apply H5; [|done]. rewrite Q, t_quiet0 by done. cbn [app].
    destruct S as (_ & _ & S); [lia|]. by rewrite t_all0.
Qed.

Lemma exchange_turned :
  0 <= n < 2 ^ 53 ->
  exists sx' sy' fx' fy', turned (n + 1) (exchange s) w sx' sy' fx' fy' /\
    ack (sn (x (exchange s))) = next (sn (x s)) /\ pos sy' fy' = next (sn (x s)) /\ ack (sn (y (exchange s))) = next (sn (y s)) /\
    bytes_to_send (exchange s) = bytes_to_send s /\ x_closed (exchange s) = x_closed s /\
    (ack (sn (x s)) = next (sn (x s)) -> ack (sn (y s)) = next (sn (y s)) -> queue (x (exchange s)) = []).
Proof using Hx Hy Hlen Ht.
  intros Hn. destruct to_y as (sy' & fy' & ny & Hy1 & Wy & Py & Ay). set (y1 := fold_left segment_received (queue (x s)) (y s)) in *.
  destruct (to_x y1 ny ltac:(by exists sy', fy') Ay) as (sx' & fx' & nx & Hx1 & Wx & Px & Ax & Hdone).
  set (x1 := fold_left segment_received (queue y1) ((x s) <| _segments_out := [] |>)) in *.
  assert (Hy1' : conn_ok cap isn_y isn_x [] (y1 <| _segments_out := [] |>) sy' fy' (string_received s)) by (destruct Hy1; by split).
  destruct (reading_ok _ _ _ _ _ _ _ Hy1') as (rc & Er & Hy2).
  assert (Ee : exchange s = mk (tick x1 1000) (tick (y1 <| _segments_out := [] |> <| _receiver := rc |>) 1000) (bytes_to_send s) (x_closed s) sy').
  { unfold exchange, move_segments. fold y1 x1. by rewrite Er. }
  rewrite Ee. clear Ee Er. cbn [x y bytes_to_send x_closed string_received].
  pose proof (clock_answers _ _ _ _ _ _ _ _ _ n Ay) as Cy. pose proof (clock_answers _ _ _ _ _ _ _ _ _ n Ax) as Cx.
  destruct Ax as [Lx Qx Fx Kx Ex Ax Rx Sx Dx _ _], Ay as [Ly Qy Fy Ky Ey Ay Ry Sy Dy _ _].
  pose proof (ack_next _ _ _ _ _ _ _ (t_x _ _ _ _ _ _ _ Ht)) as Nx. pose proof (ack_next _ _ _ _ _ _ _ (t_y _ _ _ _ _ _ _ Ht)) as Ny.
  clearbody x1 y1. set (y2 := y1 <| _segments_out := [] |> <| _receiver := rc |>) in *.
  assert (R1 : 0 <= retrans x1 <= 1 /\ (next (sn x1) <> ack (sn x1) -> retrans x1 = 0)).
  { destruct (t_retrans _ _ _ _ _ _ _ Ht) as [Hr _]. cbn in Rx, Sx, Ax. destruct (Z_lt_dec (ack (sn (x s))) (next (sn (x s)))); [rewrite Rx by done; lia|].
    destruct Sx as (Sx1 & Sx2 & _); [lia|]. rewrite Sx2. split; [done|lia]. }
  assert (R2 : 0 <= retrans y2 <= 1 /\ (next (sn y2) <> ack (sn y2) -> retrans y2 = 0)).
  { destruct (t_retrans _ _ _ _ _ _ _ Ht) as [_ Hr]. change (sn y2) with (sn y1). destruct (Z_lt_dec (ack (sn (y s))) (next (sn (y s)))); [rewrite Ry by done; lia|].
    destruct Sy as (Sy1 & Sy2 & _); [lia|]. rewrite Sy2. split; [done|lia]. }
  destruct (tick_conn cap cap_range isn_x isn_y w x1 sx' fx' [] Hx1 1000 ltac:(lia)) as (tx & TX1 & TX2 & TX3 & TX4 & TX5 & TX6 & _).
  destruct (tick_conn cap cap_range isn_y isn_x [] y2 sy' fy' sy' Hy2 1000 ltac:(lia)) as (ty & TY1 & TY2 & TY3 & TY4 & TY5 & TY6 & _).
  destruct TX2 as [QX FX AX KX _ _ _ _], TY2 as [QY FY AY KY _ _ _ _]. rewrite TX5 in FX. rewrite TY5 in FY.
  change (queue y2) with (@nil TCPSegment.t) in QY. cbn [app] in QY. cbn in Qx, Dx, Fx, Ax. rewrite Dx in TX6. change (sn y2) with (sn y1) in *. rewrite Dy in TY6.
  rewrite (t_ended _ _ _ _ _ _ _ Ht) in TY6. rewrite TX6 in FX. rewrite TY6 in FY. rewrite Qx in QX. cbn [app] in QX.
  assert (Pos : 1 <= pos sx fx) by (unfold pos, Sending.b2z; destruct fx; lia).
  exists sx', sy', fx', fy'. split; [|cbn; split_and!; try done; [rewrite KX, Ax; lia|rewrite KY, Ay; lia|]].
  2: { intros E1 E2. rewrite QX, (Hdone E1 E2). cbn [app]. apply TX4. cbn in Sx. destruct Sx as (-> & _); lia. }
  pose proof Ht as []. split; cbn [x y bytes_to_send x_closed string_received]; rewrite ?TX5, ?TX6, ?TY5, ?TY6, ?QX, ?QY, ?KX, ?KY; try done.
  - eapply flow_app; [|exact FX]. by rewrite Py.
  - by rewrite Px.
  - rewrite Px. apply Forall_app. split; (eapply Forall_impl; [eassumption|]); intros seg; cbv beta.
    + apply acks_in_weaken; lia.
    + intros H. exists (next (sn y1)). rewrite Px in H. split; [lia|done].
  - rewrite Px, Ay. intros H. apply Exists_app. left. apply Ex. lia.
  - rewrite Ax, Py. intros H. lia.
  - rewrite Ax, Py. lia.
  - split.
    + destruct (Z.eq_dec (next (sn x1)) (ack (sn x1))) as [E|E]; [destruct (TX4 E) as [-> _]|pose proof (proj2 R1 E)]; lia.
    + destruct (Z.eq_dec (next (sn y1)) (ack (sn y1))) as [E|E]; [destruct (TY4 E) as [-> _]|pose proof (proj2 R2 E)]; lia.
  - intros E. by destruct (TY4 (eq_sym E)).
  - destruct t_clock0. split; apply clock_tick; try done; [by apply Cx|]. by apply Cy.
Qed.
End Exchange.

(** *** A whole turn *)

Abbreviation total := (zlen string_to_send + 2).

(** Numbers stay within the stream. *)
Lemma bounded n s w sx sy fx fy :
  turned n s w sx sy fx fy -> ack (sn (x s)) <= next (sn (x s)) <= total /\ ack (sn (y s)) <= next (sn (y s)) <= 2.
Proof using Type.
  intros Ht. pose proof Ht as []. pose proof (little _ _ _ _ _ _ t_y0). pose proof (ack_next _ _ _ _ _ _ _ t_y0). split; [|lia].
  split; [by eapply ack_next|]. destruct t_x0 as [[Hi _ _ _ _ _ _] _ _ _ _]. destruct Hi.
  assert (zlen w <= zlen string_to_send) by (rewrite <- t_text0, length_app; lia).
  destruct i_next as [(-> & _)|E]; [lia|]. destruct (TCPSender._fin_sent _); lia.
Qed.

(** [y] is never idle before its FIN is acknowledged. *)
Lemma y_progress n s w sx sy fx fy :
  turned n s w sx sy fx fy -> ack (sn (y s)) = next (sn (y s)) -> next (sn (y s)) = 2.
Proof using Type.
  intros [] E. destruct t_y0 as [[Hi Hn _ _ _ Hst _] _ _ _ _]. destruct (Hst (eq_sym E)) as [_ Hf]. specialize (Hf t_ended0).
  destruct Hi. destruct (i_fin Hf) as [_ Er]. rewrite Hf, Er in i_next. cbn in i_next. destruct i_next as [(_ & _ & ?)|En]; [done|lia].
Qed.

Lemma turn_turned n s w sx sy fx fy :
  turned n s w sx sy fx fy -> 0 <= n < 2 ^ 53 ->
  exists s' w' sx' sy' fx' fy', turn false s = (s', Ok tt) /\ turned (n + 1) s' w' sx' sy' fx' fy' /\
    Z.min total (ack (sn (x s)) + 1) <= ack (sn (x s')) /\ pos sy' fy' = ack (sn (x s')) /\
    Z.min 2 (ack (sn (y s)) + 1) <= ack (sn (y s')) /\
    (ack (sn (x s)) = total -> ack (sn (y s)) = 2 -> queue (x s') = []).
Proof using Hx Hy Hlen.
  intros Ht Hn. destruct (write_turned n s w sx sy fx fy Ht) as (s1 & w1 & E1 & H1 & Ey1 & Ea1 & Hrem).
  destruct (close_turned n s1 w1 sx sy fx fy H1) as (H2 & Ey2 & Ea2 & Eb2 & Hcl & Hop).
  assert (Hs : next (sn (x (closing s1))) = ack (sn (x (closing s1))) -> next (sn (x (closing s1))) = total).
  { intros E. eapply something_to_send; [exact H2|by rewrite Eb2| |exact E]. rewrite Eb2.
    destruct (x_closed (closing s1)) eqn:Ec; [left|by rewrite Hop]. destruct H2 as [_ _ [_ Hc] _ _ _ _ _ _ _ _ _ _ _ _ _ _ _ _ _]. rewrite <- Eb2. auto. }
  destruct (bounded _ _ _ _ _ _ _ H2) as [Bx By]. pose proof (y_progress _ _ _ _ _ _ _ H2) as Hyp.
  destruct (exchange_turned n (closing s1) w1 sx sy fx fy H2 Hn) as (sx' & sy' & fx' & fy' & H3 & Kx & Py & Ky & _ & _ & Hq).
  exists (exchange (closing s1)), w1, sx', sy', fx', fy'. rewrite Ey2, Ey1 in *. split_and!; try done; try lia; [by apply turn_eq|].
  intros X1 X2. apply Hq; lia.
Qed.

End Run.

(** ** The first turn *)

(** A connection that has sent its SYN and heard nothing. *)
Definition opening (isn : WrappingInt32) (st : ByteStream.t) (called : bool) : TCPConnection.t :=
  TCPConnection.mk TCPConfig.default (TCPReceiver.make cap) ((Connection.syn_sent TCPConfig.default isn []) <| TCPSender._stream := st |>)
    [Connection.syn_of isn] true 0 0 false false called.

Lemma fill_window_full s :
  next s <> 0 -> TCPSender._window_size s <> 0 -> TCPSender._window_size s <= TCPSender._bytes_flying s -> TCPSender.fill_window s = s.
Proof.
  intros H1 H2 H3. unfold TCPSender.fill_window. destruct (Z.eqb_spec (next s) 0); [done|]. destruct (Z.eqb_spec (TCPSender._window_size s) 0); [done|].
  destruct (Z.ltb_spec (TCPSender._bytes_flying s) (TCPSender._window_size s)); [lia|]. cbn [andb orb]. rewrite !andb_false_r. cbn [andb].
  destruct (Z.to_nat _); [done|]. cbn [TCPSender.fill_loop]. unfold TCPSender.window_available.
  destruct (Z.ltb_spec (TCPSender._bytes_flying s) (TCPSender._window_size s)); [lia|]. by rewrite andb_false_r.
Qed.

Lemma opening_fill isn st : TCPSender.fill_window (sn (opening isn st true)) = sn (opening isn st true).
Proof. by apply fill_window_full. Qed.

Lemma opening_write isn st called data :
  write (opening isn st called) data = (opening isn (ByteStream.write st data).1 called, (ByteStream.write st data).2).
Proof.
  unfold write. change (TCPSender.stream_in (sn (opening isn st called))) with st. destruct (ByteStream.write st data) as [st' k]. cbn [fst snd]. f_equal.
  transitivity (send_segments ((opening isn st' called) <| _sender := TCPSender.fill_window (sn (opening isn st' true)) |>)); [done|]. by rewrite opening_fill.
Qed.

Lemma opening_end isn st called : end_input_stream (opening isn st called) = opening isn (ByteStream.end_input st) called.
Proof.
  unfold end_input_stream.
  transitivity (send_segments ((opening isn (ByteStream.end_input st) called) <| _sender := TCPSender.fill_window (sn (opening isn (ByteStream.end_input st) true)) |>)); [done|].
  by rewrite opening_fill.
Qed.

(** The states in which the benchmark starts. *)
Lemma start_opening isn_x isn_y str :
  start isn_x isn_y str =
    mk (opening isn_x (ByteStream.make cap) true) (opening isn_y (ByteStream.end_input (ByteStream.make cap)) false) (Buffer.of_string str) false [].
Proof. done. Qed.

Lemma opening_inv isn st w :
  wi_ok isn -> zlen w < 2 ^ 62 -> ByteStream.wf st -> ByteStream.bytes_readed st = 0 -> ByteStream.deq st = w -> Sending.inv w (sn (opening isn st true)).
Proof.
  intros Hi Hw Hwf Hr Hd. split; cbn; rewrite ?Hr, ?Hd; try done; try lia.
  exists 0. split; [lia|]. split; [|by repeat constructor].
  split; [|by split_and!]. split_and!; try done. by rewrite wrap_0.
Qed.

(** A connection that has sent its SYN and received the peer's. *)
Definition opened (isn isn' : WrappingInt32) (st : ByteStream.t) (q : list TCPSegment.t) : TCPConnection.t :=
  TCPConnection.mk TCPConfig.default (Connection.received_syn TCPConfig.default (Connection.syn_of isn')) (sn (opening isn st true)) q true 0 0 false false true.

Definition first_ack (isn isn' : WrappingInt32) (st : ByteStream.t) : TCPSegment.t :=
  fill_in (opened isn isn' st []) (empty_at (sn (opening isn st true))).

Lemma received_syn_upto isn : upto cap isn (Connection.received_syn TCPConfig.default (Connection.syn_of isn)) [] false [].
Proof. by apply (upto_syn cap isn cap_range). Qed.

#[local] Opaque TCPReceiver.segment_received TCPSender.fill_window TCPReceiver.make.

Lemma open_y isn isn' st : segment_received (opening isn st false) (Connection.syn_of isn') = opened isn isn' st [Connection.syn_of isn].
Proof.
  transitivity (send_segments ((opened isn isn' st [Connection.syn_of isn]) <| _sender := TCPSender.fill_window (sn (opening isn st true)) |>)); [done|].
  by rewrite opening_fill.
Qed.

Lemma opened_drained isn isn' st q : (opened isn isn' st q) <| _segments_out := [] |> = opened isn isn' st [].
Proof. unfold opened. generalize (Connection.received_syn TCPConfig.default (Connection.syn_of isn')). reflexivity. Qed.

Lemma open_x isn isn' st :
  segment_received ((opening isn st true) <| _segments_out := [] |>) (Connection.syn_of isn') = opened isn isn' st [first_ack isn isn' st].
Proof.
  unfold segment_received.
  change (TCPHeader.ack (TCPSegment.header (Connection.syn_of isn'))) with false. change (seg_len (Connection.syn_of isn') =? 0) with false.
  cbn [negb]. change (TCPHeader.rst (TCPSegment.header (Connection.syn_of isn'))) with false. change (TCPHeader.fin (TCPSegment.header (Connection.syn_of isn'))) with false.
  cbn [andb]. unfold wants_ack. change (0 <? seg_len (Connection.syn_of isn')) with true. rewrite orb_true_r. by rewrite send_segments_eq.
Qed.

Lemma opened_ok isn isn' st w q :
  wi_ok isn -> wi_ok isn' -> zlen w < 2 ^ 62 -> ByteStream.wf st -> 0 < ByteStream.cap st -> ByteStream.bytes_readed st = 0 -> ByteStream.deq st = w ->
  conn_ok cap isn isn' w (opened isn isn' st q) [] false [].
Proof.
  intros Hi Hi' Hw Hwf Hc Hr Hd. split; [|done|done| |done].
  - split; [by apply opening_inv|done..| |done|done]. by repeat constructor.
  - apply received_syn_upto.
Qed.

#[local] Opaque Connection.received_syn.

(** The SYN is repeated after a second. *)
Lemma opened_tick c isn st : sn c = sn (opening isn st true) -> queue c = [] -> exists seg, queue (tick c 1000) = [seg].
Proof.
  intros Es Eq.
  assert (Et : TCPSender._segments_out (TCPSender.tick (sn c) 1000) = [Connection.syn_of isn] /\ TCPSender._consec_retrans (TCPSender.tick (sn c) 1000) = 1)
    by (by rewrite Es).
  unfold tick. change (sn (setter _ c)) with (sn c). generalize dependent (TCPSender.tick (sn c) 1000). intros s' [E1 E2].
  unfold TCPSender.consecutive_retransmissions. cbn -[TCPConfig.MAX_RETX_ATTEMPTS send_segments]. rewrite E2. change (TCPConfig.MAX_RETX_ATTEMPTS <? 1) with false.
  rewrite send_segments_eq. cbn. rewrite Eq, E1. by eexists.
Qed.

Section First.
Context (isn_x isn_y : WrappingInt32) (Hx : wi_ok isn_x) (Hy : wi_ok isn_y).
Context (string_to_send : list byte) (Hlen : zlen string_to_send < 2 ^ 62).

(** The stream of [x] while nothing has been taken from it. *)
Definition untouched (st : ByteStream.t) (w : list byte) : Prop :=
  ByteStream.wf st /\ 0 < ByteStream.cap st /\ ByteStream.bytes_readed st = 0 /\ ByteStream.deq st = w.

Lemma first_input :
  exists s1 w st b cl, write_input (Z.to_nat (Buffer.size (bytes_to_send (start isn_x isn_y string_to_send)))) (start isn_x isn_y string_to_send) = (s1, Ok tt) /\
    closing s1 = mk (opening isn_x st true) (opening isn_y (ByteStream.end_input (ByteStream.make cap)) false) b cl [] /\
    untouched st w /\ w ++ Buffer.str b = string_to_send /\ Buffer.wf b /\ ByteStream._end st = cl /\ (cl = true -> Buffer.size b = 0).
Proof using Hlen.
  set (fuel := Z.to_nat _). rewrite start_opening. set (s0 := mk _ _ _ _ _).
  destruct (write_input_keeps string_to_send Hlen (fun w c => exists st, c = opening isn_x st true /\ untouched st w /\ ByteStream._end st = false))
    with (fuel := fuel) (s := s0) (w := @nil byte) as (s1 & w & E & (st & Ex & Hu & He) & Et & Hb & Ey & Ec & Er & _ & _ & _); try done.
  - intros w c data (st & -> & (U1 & U2 & U3 & U4) & He) _. cbv zeta. rewrite opening_write. cbn [fst snd]. intros _.
    pose proof (ByteStream.write_wf st data U1). exists (ByteStream.write st data).1. split_and!; try done. rewrite <- U4.
    rewrite ByteStream.write_eq in * by done. by split_and!.
  - exists (ByteStream.make cap). split_and!; done.
  - apply Buffer.of_string_wf. lia.
  - destruct s1 as [x' y' b cl r]. cbn [x y bytes_to_send x_closed string_received] in *. subst x' y' cl r.
    change (x_closed s0) with false. change (y s0) with (opening isn_y (ByteStream.end_input (ByteStream.make cap)) false). change (string_received s0) with (@nil byte).
    eexists _, w. unfold closing. cbn [x y bytes_to_send x_closed string_received].
    destruct (Z.eqb_spec (Buffer.size b) 0) as [Ez|Ez].
    + exists (ByteStream.end_input st), b, true. split_and!; [exact E| |destruct Hu as (U1 & U2 & U3 & U4)|done..].
      * cbn [x y bytes_to_send x_closed string_received]. by rewrite (proj2 (Z.eqb_eq _ _) Ez), <- opening_end.
      * split_and!; try done; by apply ByteStream.end_input_wf.
    + exists st, b, false. split_and!; [exact E| |done..]. cbn [x y bytes_to_send x_closed string_received]. by rewrite (proj2 (Z.eqb_neq _ _) Ez).
Qed.

Lemma first_turn :
  exists s' w, turn false (start isn_x isn_y string_to_send) = (s', Ok tt) /\
    turned isn_x isn_y string_to_send 1 s' w [] [] false false.
Proof using Hx Hy Hlen.
  destruct first_input as (s1 & w & st & b & cl & E1 & E2 & (U1 & U2 & U3 & U4) & Et & Hb & He & Hcl).
  set (sty := ByteStream.end_input (ByteStream.make cap)) in *.
  assert (Hw : zlen w < 2 ^ 62) by (rewrite <- Et, length_app in Hlen; lia).
  pose proof (opened_ok isn_x isn_y st w [first_ack isn_x isn_y st] Hx Hy Hw U1 U2 U3 U4) as Hx1.
  pose proof (opened_ok isn_y isn_x sty [] [] Hy Hx ltac:(cbn; lia) ltac:(by vm_compute) ltac:(by vm_compute) eq_refl eq_refl) as Hy1.
  destruct (reading_ok _ _ _ _ _ _ _ Hy1) as (rc & Er & Hy2).
  set (x1 := opened isn_x isn_y st [first_ack isn_x isn_y st]) in *. set (y1 := opened isn_y isn_x sty []) in *. set (y2 := y1 <| _receiver := rc |>) in *.
  exists (mk (tick x1 1000) (tick y2 1000) b cl []), w. split.
  { rewrite (turn_eq _ _ E1), E2.
    unfold exchange, move_segments. cbn [x y bytes_to_send x_closed string_received].
    change (queue (opening isn_x st true)) with [Connection.syn_of isn_x]. cbn [fold_left]. rewrite open_y.
    change (queue (opened isn_y isn_x sty [Connection.syn_of isn_y])) with [Connection.syn_of isn_y]. cbn [fold_left]. rewrite open_x.
    rewrite opened_drained. fold y1. rewrite Er. reflexivity. }
  destruct (tick_conn cap cap_range isn_x isn_y w x1 [] false [] Hx1 1000 ltac:(change (retrans x1) with 0; lia)) as (tx & TX1 & [QX FX AX KX _ _ _ _] & TX3 & _ & TX5 & TX6 & _).
  destruct (tick_conn cap cap_range isn_y isn_x [] y2 [] false [] Hy2 1000 ltac:(change (retrans y2) with 0; lia)) as (ty & TY1 & [QY FY AY KY _ _ _ _] & TY3 & _ & TY5 & TY6 & _).
  destruct (opened_tick y2 isn_y sty eq_refl eq_refl) as (seg & Eq). change (queue y2) with (@nil TCPSegment.t) in QY. cbn [app] in QY. rewrite Eq in QY. subst ty.
  change (queue x1) with [first_ack isn_x isn_y st] in QX. cbn [app] in QX.
  assert (Hfa : acks cap isn_y 1 (first_ack isn_x isn_y st)).
  { unfold first_ack. exact (fill_in_acks cap cap_range isn_y (opened isn_x isn_y st []) [] false [] (empty_at (sn (opening isn_x st true))) (received_syn_upto isn_y) eq_refl eq_refl). }
  assert (Hff : flow isn_x w cl 1 [first_ack isn_x isn_y st] 1).
  { apply (flow_map isn_x w cl (fill_in (opened isn_x isn_y st [])) 1 [empty_at (sn (opening isn_x st true))]); [intros; apply fill_in_same_wire|].
    rewrite <- He. by apply (empty_flow w (sn (opening isn_x st true))). }
  assert (C0 : clock 0 x1 /\ clock 0 y2) by (split; by split_and!).
  assert (Er1 : retrans x1 = 0 /\ retrans y2 = 0) by exact (conj eq_refl eq_refl). destruct Er1 as [Er1 Er2]. rewrite Er1 in TX3. rewrite Er2 in TY3.
  assert (Ek : ack (sn x1) = 0 /\ next (sn x1) = 1 /\ ack (sn y2) = 0 /\ next (sn y2) = 1 /\ stream_ended (sn x1) = cl /\ stream_ended (sn y2) = true)
    by exact (conj eq_refl (conj eq_refl (conj eq_refl (conj eq_refl (conj He eq_refl))))).
  destruct Ek as (K1 & K2 & K3 & K4 & K5 & K6). rewrite K1 in KX. rewrite K2 in TX5. rewrite K3 in KY. rewrite K4 in TY5. rewrite K5 in TX6. rewrite K6 in TY6.
  rewrite TX5, TX6, K2 in FX. rewrite TY5, TY6, K4 in FY. clearbody x1 y1 y2.
  split; cbn [x y bytes_to_send x_closed string_received]; rewrite ?QX, ?Eq, ?TX5, ?TX6, ?TY5, ?TY6, ?KX, ?KY; change (pos [] false) with 1 in *; try done; try lia.
  - split; [apply prefix_nil|done].
  - exact (flow_app _ _ _ 1 [first_ack isn_x isn_y st] 1 tx 1 Hff FX).
  - constructor; [by exists 1|]. eapply Forall_impl; [exact AX|]. intros sg H. by exists 1.
  - intros _. by constructor.
  - intros _. constructor. by apply Forall_inv in AY.
  - destruct C0 as [C1 C2]. split; by apply (clock_tick 0).
Qed.
End First.

(** ** The loops *)

Fixpoint turns (k : nat) (s : t) : t := match k with O => s | S k => turns k (turn false s).1 end.

Lemma turns_add j k s : turns (j + k) s = turns j (turns k s).
Proof. revert s. induction k as [|k IH]; intros s; [by rewrite Nat.add_0_r|]. rewrite Nat.add_succ_r. cbn [turns]. apply IH. Qed.

Lemma turns_S k s : turns (S k) s = (turn false (turns k s)).1.
Proof. revert s. induction k as [|k IH]; intros s; [done|]. cbn [turns] in *. by rewrite IH. Qed.

(** A loop whose condition fails after [k] turns ends by then. *)
Lemma while_turns go_on k n s :
  (forall j, (j < k)%nat -> (turn false (turns j s)).2 = Ok tt) -> go_on (turns k s) = false -> (k <= n)%nat ->
  exists j, (j <= k)%nat /\ while n go_on false s = (turns j s, Ok true) /\ go_on (turns j s) = false.
Proof.
  revert k s. induction n as [|n IH]; intros k s Hok Hgo Hk; cbn [while]; unfold bind at 1, get; (destruct (go_on s) eqn:Eg; cbn [negb]; [|by exists 0%nat; split; [lia|]]).
  - assert (k = 0%nat) as -> by lia. cbn in Hgo. congruence.
  - destruct k as [|k]; [cbn in Hgo; congruence|]. pose proof (Hok 0%nat ltac:(lia)) as H0. cbn [turns] in H0.
    destruct (turn false s) as [s1 r] eqn:E1. cbn [snd] in H0. subst r. rewrite (bind_step _ _ _ _ _ E1).
    assert (Hs : forall j, turns (S j) s = turns j s1) by (intros j; cbn [turns]; by rewrite E1).
    destruct (IH k s1) as (j & Hj & Ej & Hg).
    + intros j Hj. rewrite <- Hs. apply Hok. lia.
    + by rewrite <- Hs.
    + lia.
    + exists (S j). rewrite Hs. split; [lia|done].
Qed.

(** A connection that has nothing left to do. *)
Lemma inactive isn isn' data c sent n :
  conn_ok cap isn isn' data c sent true sent -> next (sn c) = ack (sn c) -> stream_ended (sn c) = true -> clock n c -> 0 <= n < 2 ^ 53 ->
  10000 <= _time c - _time_last_segment_received c -> active c = false.
Proof.
  intros [[Hi _ _ _ _ Hst _] _ _ Hu Hr] E He (C1 & C2 & C3) Hn Ht. destruct (Hst E) as [Hd _]. unfold active. unfold Connection.reset in Hr. rewrite Hr.
  assert (E1 : ByteStream.eof (TCPReceiver.stream_out (_receiver c)) = true).
  { apply Sending.eof_spec. destruct Hu. split; [|done]. unfold TCPReceiver.stream_out, StreamReassembler.stream_out.
    apply (f_equal length) in up_bytes0. rewrite length_app in up_bytes0. apply nil_length_inv. lia. }
  assert (E2 : ByteStream.eof (TCPSender.stream_in (sn c)) = true) by (by apply Sending.eof_spec).
  assert (E3 : bytes_in_flight c = 0) by (unfold bytes_in_flight, TCPSender.bytes_in_flight; destruct Hi; lia).
  rewrite E1, E2, E3, C1. cbn [andb Z.eqb]. unfold time_since_last_segment_received. rewrite u64_id by lia.
  destruct (_linger_after_streams_finish c); [|done]. cbn [negb]. change (10 * TCPConfig.rt_timeout TCPConfig.default) with 10000.
  by destruct (Z.leb_spec 10000 (_time c - _time_last_segment_received c)); [|lia].
Qed.

Lemma inactive_eof c : active c = false -> Connection.reset c = false -> ByteStream.eof (inbound_stream c) = true.
Proof. unfold active, Connection.reset, inbound_stream. intros H Hr. rewrite Hr in H. by destruct (ByteStream.eof (TCPReceiver.stream_out (_receiver c))). Qed.

Lemma tick_last c ms : _time_last_segment_received (tick c ms) = _time_last_segment_received c.
Proof. unfold tick. rewrite send_segments_eq. by destruct (_ <? _). Qed.

Section Loops.
Context (isn_x isn_y : WrappingInt32) (Hx : wi_ok isn_x) (Hy : wi_ok isn_y).
Context (string_to_send : list byte) (Hlen : zlen string_to_send < 2 ^ 50).
Abbreviation total := (zlen string_to_send + 2).
Abbreviation turned := (turned isn_x isn_y string_to_send).

Lemma Hlen62 : zlen string_to_send < 2 ^ 62.
Proof using Hlen. lia. Qed.

Lemma turns_turned k n s w sx sy fx fy :
  turned n s w sx sy fx fy -> 0 <= n -> n + Z.of_nat k <= 2 ^ 53 ->
  (forall j, (j < k)%nat -> (turn false (turns j s)).2 = Ok tt) /\
  exists w' sx' sy' fx' fy', turned (n + Z.of_nat k) (turns k s) w' sx' sy' fx' fy' /\
    Z.min total (ack (sn (x s)) + Z.of_nat k) <= ack (sn (x (turns k s))) /\ ((0 < k)%nat -> pos sy' fy' = ack (sn (x (turns k s)))) /\
    Z.min 2 (ack (sn (y s)) + Z.of_nat k) <= ack (sn (y (turns k s))).
Proof using Hx Hy Hlen.
  intros Ht Hn. induction k as [|k IH]; intros Hk.
  { split; [lia|]. exists w, sx, sy, fx, fy. cbn [turns]. rewrite Z.add_0_r. split_and!; try done; lia. }
  destruct IH as (Hok & w1 & sx1 & sy1 & fx1 & fy1 & H1 & Kx & _ & Ky); [lia|].
  destruct (turn_turned isn_x isn_y Hx Hy string_to_send Hlen62 _ _ _ _ _ _ _ H1 ltac:(lia)) as (s' & w' & sx' & sy' & fx' & fy' & E & H2 & Kx' & Py & Ky' & _).
  split.
  - intros j Hj. destruct (decide (j = k)) as [->|]; [by rewrite E|]. apply Hok. lia.
  - rewrite turns_S, E. cbn [fst]. exists w', sx', sy', fx', fy'. replace (n + Z.of_nat (S k)) with (n + Z.of_nat k + 1) by lia. split_and!; try done; lia.
Qed.

(** Everything has arrived. *)
Lemma arrived n s w sx sy fx fy :
  turned n s w sx sy fx fy -> pos sy fy = total -> fy = true.
Proof using Type.
  intros [] Hp. destruct t_wy0 as [Hpre _]. apply prefix_length in Hpre. apply (f_equal length) in t_text0. rewrite length_app in t_text0.
  unfold pos, Sending.b2z in Hp. destruct fy; [done|lia].
Qed.

Lemma eof_all n s w sx sy fx fy :
  turned n s w sx sy fx fy -> (ByteStream.eof (inbound_stream (y s)) = true <-> fy = true) /\ (fy = true -> string_received s = string_to_send).
Proof using Type.
  intros []. destruct t_y0 as [_ _ _ Hu _]. destruct t_wy0 as [_ Hall]. destruct t_closed0 as [Ec Hc]. split.
  - unfold inbound_stream. rewrite Sending.eof_spec. destruct Hu. unfold TCPReceiver.stream_out, StreamReassembler.stream_out. rewrite up_end0.
    split; [by intros [_ ?]|]. intros ->. split; [|done]. rewrite t_read0 in up_bytes0. apply (f_equal length) in up_bytes0. rewrite length_app in up_bytes0.
    apply nil_length_inv. lia.
  - intros E. destruct (Hall E) as [Es Ee]. rewrite Ec in Ee. specialize (Hc Ee). rewrite <- t_read0, Es, <- t_text0. unfold Buffer.size in Hc.
    destruct (Buffer.str (bytes_to_send s)); [by rewrite app_nil_r|]. cbn in Hc. lia.
Qed.

(** Nothing moves any more, and time passes. *)
Definition quiet (n : Z) (s : t) : Prop :=
  exists w sx sy fx fy, turned n s w sx sy fx fy /\ ack (sn (x s)) = total /\ ack (sn (y s)) = 2 /\ queue (x s) = [].

Lemma quiet_turn n s :
  quiet n s -> 0 <= n < 2 ^ 53 ->
  let s' := (turn false s).1 in
  quiet (n + 1) s' /\ _time_last_segment_received (x s') = _time_last_segment_received (x s) /\
  _time_last_segment_received (y s') = _time_last_segment_received (y s).
Proof using Hx Hy Hlen.
  intros (w & sx & sy & fx & fy & Ht & Ax & Ay & Q) Hn.
  destruct (turn_turned isn_x isn_y Hx Hy string_to_send Hlen62 _ _ _ _ _ _ _ Ht Hn) as (s' & w' & sx' & sy' & fx' & fy' & E & H2 & Kx & _ & Ky & Hq).
  destruct (bounded _ _ _ _ _ _ _ _ _ _ Ht) as [Bx By]. destruct (bounded _ _ _ _ _ _ _ _ _ _ H2) as [Bx' By']. rewrite E. cbn [fst]. split.
  { exists w', sx', sy', fx', fy'. split_and!; try done; [lia|lia|by apply Hq]. }
  pose proof Ht as [].
  assert (Hcl : x_closed s = true).
  { destruct t_closed0 as [<- _]. destruct t_x0 as [[Hi _ _ _ _ _ _] _ _ _ _]. destruct Hi. rewrite <- t_text0, length_app in Bx.
    destruct (TCPSender._fin_sent (sn (x s))); [by destruct i_fin|]. destruct i_next as [(? & _)|?]; rewrite <- t_text0, length_app in Ax; lia. }
  destruct t_closed0 as [_ Hz]. specialize (Hz Hcl). rewrite (turn_eq s s (write_input_done _ s Hz)) in E.
  injection E as <-. unfold closing. rewrite Hz, Hcl. cbn [Z.eqb negb andb]. unfold exchange, move_segments. rewrite Q. cbn [fold_left].
  rewrite t_quiet0 by lia. cbn [fold_left]. unfold reading. destruct (0 <? _); cbn [x y setter set_x set_y set_string_received]; by rewrite !tick_last.
Qed.

Lemma quiet_turns k n s :
  quiet n s -> 0 <= n -> n + Z.of_nat k <= 2 ^ 53 ->
  quiet (n + Z.of_nat k) (turns k s) /\ _time_last_segment_received (x (turns k s)) = _time_last_segment_received (x s) /\
  _time_last_segment_received (y (turns k s)) = _time_last_segment_received (y s).
Proof using Hx Hy Hlen.
  intros Hq Hn. induction k as [|k IH]; intros Hk; [by rewrite Z.add_0_r|]. destruct IH as (H1 & E1 & E2); [lia|].
  destruct (quiet_turn _ _ H1 ltac:(lia)) as (H2 & E3 & E4). rewrite turns_S. replace (n + Z.of_nat (S k)) with (n + Z.of_nat k + 1) by lia.
  split_and!; [done|congruence|congruence].
Qed.

(** After ten quiet turns both connections are inactive. *)
Lemma quiet_inactive n s : quiet n s -> 0 <= n -> n + 10 < 2 ^ 53 -> active (x (turns 10 s)) = false /\ active (y (turns 10 s)) = false.
Proof using Hx Hy Hlen.
  intros Hq Hn Hk. destruct (quiet_turns 10 n s Hq Hn ltac:(lia)) as ((w & sx & sy & fx & fy & Ht & Ax & Ay & _) & E1 & E2).
  destruct Hq as (w0 & sx0 & sy0 & fx0 & fy0 & [_ _ _ _ _ _ _ _ _ _ _ _ _ _ _ _ _ _ _ [C1 C2]] & _).
  destruct (bounded _ _ _ _ _ _ _ _ _ _ Ht) as [Bx By]. pose proof (ahead _ _ _ _ _ _ _ _ _ _ Ht) as Ha. pose proof (sx_nil _ _ _ _ _ _ _ _ _ _ Ht) as Esx.
  assert (Efy : fy = true) by (eapply arrived; [exact Ht|]; destruct Ht; lia). change (Z.of_nat 10) with 10 in *.
  remember (turns 10 s) as s' eqn:Es. clear Es. destruct Ht. destruct t_clock0 as [D1 D2].
  assert (Efx : fx = true) by (rewrite Esx in t_all0; unfold pos, Sending.b2z in t_all0; cbn in t_all0; destruct fx; [done|lia]).
  unfold clock in *. subst fx fy sx. destruct t_wy0 as [_ Hall]. destruct (Hall eq_refl) as [_ Hend]. split.
  - eapply (inactive _ _ _ _ _ (n + 10)); [exact t_x0|lia|done|exact D1|lia|lia].
  - rewrite <- t_read0 in t_y0. eapply (inactive _ _ _ _ _ (n + 10)); [exact t_y0|lia|done|exact D2|lia|lia].
Qed.

(** From any state between turns, the stream is received and the connections end. *)
Lemma first_loop n s w sx sy fx fy :
  turned n s w sx sy fx fy -> 0 <= n -> n + total <= 2 ^ 53 -> ByteStream.eof (inbound_stream (y (turns (Z.to_nat total) s))) = true.
Proof using Hx Hy Hlen.
  intros Ht Hn Hk. destruct (turns_turned (Z.to_nat total) n s w sx sy fx fy Ht Hn ltac:(lia)) as (_ & w' & sx' & sy' & fx' & fy' & H1 & Kx & Py & _).
  apply (eof_all _ _ _ _ _ _ _ H1). destruct (bounded _ _ _ _ _ _ _ _ _ _ H1) as [Bx _]. eapply arrived; [exact H1|]. rewrite Py by lia.
  destruct Ht as [_ _ _ [[[] _ _ _ _ _ _] _ _ _ _] _ _ _ _ _ _ _ _ _ _ _ _ _ _ _ _]. lia.
Qed.

Lemma second_loop n s w sx sy fx fy :
  turned n s w sx sy fx fy -> 0 <= n -> n + total + 11 < 2 ^ 53 ->
  let s' := turns (Z.to_nat total + 11) s in active (x s') || active (y s') = false.
Proof using Hx Hy Hlen.
  intros Ht Hn Hk. destruct (turns_turned (Z.to_nat total) n s w sx sy fx fy Ht Hn ltac:(lia)) as (_ & w1 & sx1 & sy1 & fx1 & fy1 & H1 & Kx & _ & Ky).
  destruct (bounded _ _ _ _ _ _ _ _ _ _ H1) as [Bx By].
  assert (K0 : 0 <= ack (sn (x s)) /\ 0 <= ack (sn (y s))).
  { destruct Ht as [_ _ _ [[[] _ _ _ _ _ _] _ _ _ _] [[[] _ _ _ _ _ _] _ _ _ _] _ _ _ _ _ _ _ _ _ _ _ _ _ _ _]. lia. }
  destruct (turn_turned isn_x isn_y Hx Hy string_to_send Hlen62 _ _ _ _ _ _ _ H1 ltac:(lia)) as (s2 & w2 & sx2 & sy2 & fx2 & fy2 & E & H2 & Kx2 & _ & Ky2 & Hq).
  destruct (bounded _ _ _ _ _ _ _ _ _ _ H2) as [Bx2 By2].
  assert (Hquiet : quiet (n + Z.of_nat (Z.to_nat total) + 1) s2).
  { exists w2, sx2, sy2, fx2, fy2. split_and!; try done; [lia|lia|]. apply Hq; lia. }
  destruct (quiet_inactive _ _ Hquiet ltac:(lia) ltac:(lia)) as [I1 I2].
  assert (Ea : turns (Z.to_nat total + 11) s = turns 10 s2).
  { replace (Z.to_nat total + 11)%nat with (10 + S (Z.to_nat total))%nat by lia. by rewrite turns_add, (turns_S (Z.to_nat total)), E. }
  cbv zeta. rewrite Ea. by rewrite I1, I2.
Qed.
End Loops.

(** C5. The benchmark in order succeeds, for every pair of initial sequence numbers
    and every string (of less than 2^50 bytes), however much longer than the
    windows: given as many turns as
    the string has bytes and 14 more, [main_loop] ends without an exception, what was
    received is the string, and both connections have finished. *)
Theorem benchmark_succeeds n isn_x isn_y string_to_send :
  wi_ok isn_x -> wi_ok isn_y -> zlen string_to_send < 2 ^ 50 -> zlen string_to_send + 14 <= Z.of_nat n ->
  exists s, main_loop n false isn_x isn_y string_to_send = (s, Ok true) /\ string_received s = string_to_send /\
    active (x s) = false /\ active (y s) = false.
Proof.
  intros Hx Hy Hlen Hn. set (total := zlen string_to_send + 2). assert (H62 : zlen string_to_send < 2 ^ 62) by lia.
  destruct (first_turn isn_x isn_y Hx Hy string_to_send H62) as (s1 & w1 & E1 & H1). set (s0 := start isn_x isn_y string_to_send) in *.
  assert (Es : forall j, turns (S j) s0 = turns j s1) by (intros j; cbn [turns]; by rewrite E1).
  destruct (turns_turned isn_x isn_y Hx Hy string_to_send Hlen (Z.to_nat total) 1 s1 _ _ _ _ _ H1) as (Hok1 & _); [lia|lia|].
  destruct (while_turns (fun s => negb (ByteStream.eof (inbound_stream (y s)))) (S (Z.to_nat total)) n s0) as (j & Hj & Ej & Hend); [|..|lia|].
  { intros i Hi. destruct i as [|i]; [cbn [turns]; by rewrite E1|]. rewrite Es. apply Hok1. lia. }
  { rewrite Es. apply negb_false_iff. eapply (first_loop isn_x isn_y); try done; lia. }
  apply negb_false_iff in Hend. destruct j as [|j]; [by rewrite (start_opening isn_x isn_y string_to_send : s0 = _) in Hend|]. rewrite Es in Ej, Hend.
  destruct (turns_turned isn_x isn_y Hx Hy string_to_send Hlen j 1 s1 _ _ _ _ _ H1) as (_ & w2 & sx2 & sy2 & fx2 & fy2 & H2 & _); [lia|lia|].
  destruct (eof_all _ _ _ _ _ _ _ _ _ _ H2) as [Heof Hstr]. apply Heof in Hend. specialize (Hstr Hend).
  destruct (turns_turned isn_x isn_y Hx Hy string_to_send Hlen (Z.to_nat total + 11) (1 + Z.of_nat j) (turns j s1) _ _ _ _ _ H2) as (Hok2 & _); [lia|lia|].
  destruct (while_turns (fun s => active (x s) || active (y s)) (Z.to_nat total + 11) n (turns j s1) Hok2) as (k & Hk & Ek & Hdone); [|lia|].
  { eapply (second_loop isn_x isn_y); try done; lia. }
  destruct (turns_turned isn_x isn_y Hx Hy string_to_send Hlen k (1 + Z.of_nat j) (turns j s1) _ _ _ _ _ H2) as (_ & w3 & sx3 & sy3 & fx3 & fy3 & H3 & _); [lia|lia|].
  exists (turns k (turns j s1)). apply orb_false_iff in Hdone as [I1 I2]. split_and!; try done.
  - unfold main_loop. fold s0. rewrite (bind_step _ _ _ _ _ Ej). unfold bind at 1, get. cbn [negb]. rewrite bool_decide_eq_true_2 by done. cbn [negb]. exact Ek.
  - destruct (eof_all _ _ _ _ _ _ _ _ _ _ H3) as [Heof3 Hstr3]. apply Hstr3, Heof3, inactive_eof; [done|].
    by destruct H3 as [_ _ _ _ [_ _ _ _ Hr] _ _ _ _ _ _ _ _ _ _ _ _ _ _ _].
Qed.

Lemma benchmark_succeeds_witness :
  exists s, main_loop 2600 false (mkWrappingInt32 7) (mkWrappingInt32 (2 ^ 32 - 1)) sample_string = (s, Ok true) /\
    string_received s = sample_string /\ active (x s) = false /\ active (y s) = false.
Proof.
  apply (benchmark_succeeds 2600 (mkWrappingInt32 7) (mkWrappingInt32 (2 ^ 32 - 1)) sample_string); vm_compute; split_and?; congruence.
Defined.
End BenchmarkRun.
