(* ===== verification/lab7.v ===== *)
(** The endpoint of the last lab ([apps/lab7.cc]): a TCP socket on a host, a router
    between the host and the Internet, and a thread that moves frames between
    the host, the router and a UDP socket to the Internet.

    The host and the network thread share a pair of connected datagram sockets:
    what the kernel takes of what one end writes is recorded in its list of sent
    frames, and what a read or a write returns is the kernel's answer. Printing
    is left out. *)

From S2P Require Import prelude effects std_strings wrapping_integers buffer parser ethernet ipv4 tcp_segment tcp_sender address network_interface router network_simulator file_descriptor eventloop fd_adapter tcp_sponge_socket.

(** ** The adapter

    [NetworkInterfaceAdapter] has the members and, line for line, the methods of
    [TCPOverIPv4OverEthernetAdapter]; its descriptor [_tap] is the first socket
    of the pair. Only the constructor differs: it sends no frame. *)

Module NetworkInterfaceAdapter.

Abbreviation t := TCPOverIPv4OverEthernetAdapter.t.

Definition make (b : FdAdapterBase.t) (first : PacketDevice.t) (eth : EthernetAddress) (ip_address next_hop : Address.t) : t :=
  TCPOverIPv4OverEthernetAdapter.mk b first (NetworkInterface.make eth ip_address) next_hop.

Definition send_pending : M t unit := TCPOverIPv4OverEthernetAdapter.send_pending.
Section Methods.
Context `{AddressText}.
Definition read : answer (list byte) -> M t (option TCPSegment.t) := TCPOverIPv4OverEthernetAdapter.read.
Definition write : TCPSegment.t -> M t unit := TCPOverIPv4OverEthernetAdapter.write.
Definition tick : Z -> M t unit := TCPOverIPv4OverEthernetAdapter.tick.
End Methods.
End NetworkInterfaceAdapter.

(** ** The socket *)

Module TCPSocketLab7.
Import TCPSpongeSocket.

Abbreviation inner := (list (EventLoop.Rule (TCPSpongeSocket.t NetworkInterfaceAdapter.t (answer (list byte)))) *
  TCPSpongeSocket.t NetworkInterfaceAdapter.t (answer (list byte)))%type.

Record t := mk {
  socket : inner;
  _local_address : Address.t
}.
#[global] Instance set_socket : Setter socket := fun f s => mk (f (socket s)) (_local_address s).
#[global] Instance set_local_address : Setter _local_address := fun f s => mk (socket s) (f (_local_address s)).

Section Socket.
Context {R : Address.Resolver}.
#[local] Existing Instance resolver_text.

Definition in_socket {B} (m : M inner B) : M t B := zoom socket (fun x s => s <| socket := x |>) m.

(** The destination of a new configuration. *)
Definition no_address : result Address.t := Address.of_numeric "0" 0.

(** [port] is random. *)
Definition connect (port : Z) (address : Address.t) (isn : WrappingInt32) (time : Z) (rounds : list Round) : M t bool :=
  s <- get;;
  ip <- lift (Address.ip (_local_address s));;
  local <- lift (Address.of_numeric ip (u16 port));;
  modify (fun s => s <| _local_address := local |>);;
  in_socket (TCPSpongeSocket.connect TCPConfig.default isn (FdAdapterConfig.mk local address 0 0) time rounds).

Definition bind (address : Address.t) : M t unit :=
  s <- get;;
  ip <- lift (Address.ip address);;
  mine <- lift (Address.ip (_local_address s));;
  if negb (String.eqb ip mine) then throw runtime_error else
  ip <- lift (Address.ip (_local_address s));;
  port <- lift (Address.port address);;
  local <- lift (Address.of_numeric ip port);;
  modify (fun s => s <| _local_address := local |>).

Definition listen_and_accept (isn : WrappingInt32) (time : Z) (rounds : list Round) : M t bool :=
  s <- get;;
  nobody <- lift no_address;;
  in_socket (TCPSpongeSocket.listen_and_accept TCPConfig.default isn (FdAdapterConfig.mk (_local_address s) nobody 0 0) time rounds).
End Socket.
End TCPSocketLab7.

(** ** The network thread *)

Module Lab7Network.
Import EventLoop.

(** What the thread works on: its end of the socket pair and the socket to the
    bouncer, each with the frames the kernel has taken; [k_host] and [k_internet]
    are the answers to the coming reads of the two. *)
Record t := mk {
  router : Router.t;
  host_side : Z;
  internet_side : Z;
  frame_fd : PacketDevice.t;
  internet_socket : PacketDevice.t;
  k_host : nat -> answer (list byte);
  k_internet : nat -> answer (list byte)
}.
#[global] Instance set_router : Setter router := fun f s =>
  mk (f (router s)) (host_side s) (internet_side s) (frame_fd s) (internet_socket s) (k_host s) (k_internet s).
#[global] Instance set_frame_fd : Setter frame_fd := fun f s =>
  mk (router s) (host_side s) (internet_side s) (f (frame_fd s)) (internet_socket s) (k_host s) (k_internet s).
#[global] Instance set_internet_socket : Setter internet_socket := fun f s =>
  mk (router s) (host_side s) (internet_side s) (frame_fd s) (f (internet_socket s)) (k_host s) (k_internet s).
#[global] Instance set_k_host : Setter k_host := fun f s =>
  mk (router s) (host_side s) (internet_side s) (frame_fd s) (internet_socket s) (f (k_host s)) (k_internet s).
#[global] Instance set_k_internet : Setter k_internet := fun f s =>
  mk (router s) (host_side s) (internet_side s) (frame_fd s) (internet_socket s) (k_host s) (f (k_internet s)).

(** The frames that have gone to the host and to the Internet. *)
Definition to_host (s : t) : list (list byte) := PacketDevice.sent (frame_fd s).
Definition to_internet (s : t) : list (list byte) := PacketDevice.sent (internet_socket s).

(** *** Setting up the router *)

(** [random_host_ethernet_address] is the function of the full-stack socket. *)
Definition random_host_ethernet_address : (nat -> Z) -> EthernetAddress := TCPSpongeSocket.random_private_ethernet_address.
Definition random_router_ethernet_address (random : nat -> Z) : EthernetAddress :=
  [x02; x00; x00] ++ drop 3 (map (fun i => byte_of_Z (random i)) (seq 0 6)).

Definition quad (a b c d : Z) : Z := be_combine (map byte_of_Z [a; b; c; d]).

Section Setup.
Context `{AddressText}.

Definition address (ip : Z) : result Address.t := of_ip_port ip 0.

(** [router.add_interface({random_router_ethernet_address(), {ip}})] *)
Definition add_interface (r : Router.t) (random : nat -> Z) (ip : Z) : result (Router.t * Z) :=
  let* a := address ip in
  Ok (Router.add_interface r (AsyncNetworkInterface.make (NetworkInterface.make (random_router_ethernet_address random) a))).

(** [router.add_route(Address{ip}.ipv4_numeric(), length, next_hop, id)] *)
Definition add_route (r : Router.t) (ip length : Z) (next_hop : option Address.t) (id : Z) : result Router.t :=
  let* a := address ip in
  let* prefix := Address.ipv4_numeric a in
  Ok (Router.add_route r prefix length next_hop id).

(** The router with its two interfaces. *)
Definition setup_router (is_client : bool) (random1 random2 : nat -> Z) : result (Router.t * Z * Z) :=
  if is_client then
    let* ' (r, host) := add_interface Router.make random1 (quad 192 168 0 1) in
    let* ' (r, internet) := add_interface r random2 (quad 10 0 0 192) in
    let* r := add_route r (quad 192 168 0 0) 16 None host in
    let* r := add_route r (quad 10 0 0 0) 8 None internet in
    let* hop := address (quad 10 0 0 172) in
    let* r := add_route r (quad 172 16 0 0) 12 (Some hop) internet in
    Ok (r, host, internet)
  else
    let* ' (r, host) := add_interface Router.make random1 (quad 172 16 0 1) in
    let* ' (r, internet) := add_interface r random2 (quad 10 0 0 172) in
    let* r := add_route r (quad 172 16 0 0) 12 None host in
    let* r := add_route r (quad 10 0 0 0) 8 None internet in
    let* hop := address (quad 10 0 0 192) in
    let* r := add_route r (quad 192 168 0 0) 16 (Some hop) internet in
    Ok (r, host, internet).

(** The adapter of the socket [TCPSocketLab7]. *)
Definition setup_adapter (is_client : bool) (b : FdAdapterBase.t) (first : PacketDevice.t) (random : nat -> Z) : result NetworkInterfaceAdapter.t :=
  let* ip := address (if is_client then quad 192 168 0 50 else quad 172 16 0 100) in
  let* next_hop := address (if is_client then quad 192 168 0 1 else quad 172 16 0 1) in
  Ok (NetworkInterfaceAdapter.make b first (random_host_ethernet_address random) ip next_hop).
End Setup.

(** *** The rules *)

(** [router.interface(id)] and a method of it. *)
Definition on_interface {A} (side : t -> Z) (m : M AsyncNetworkInterface.t A) : M t A :=
  s <- get;;
  i <- lift (Router.interface (router s) (side s));;
  let '(i, r) := m i in
  modify (fun s => s <| router := Router.set_interface (router s) (side s) i |>);;
  lift r.

Definition route : M t unit := zoom router (fun r s => s <| router := r |>) Router.route.

(** A frame from outside: parsed, given to the interface, and routed. *)
Definition inject (side : t -> Z) (bytes : list byte) : M t unit :=
  let '(frame, r) := EthernetFrame.parse EthernetFrame.empty (Buffer.of_string bytes) in
  if negb (bool_decide (r = NoError)) then ret tt else
  on_interface side (fun i => AsyncNetworkInterface.recv_frame i frame);;
  route.

Definition in_frame_fd {A} (m : M PacketDevice.t A) : M t A := zoom frame_fd (fun w s => s <| frame_fd := w |>) m.
Definition in_internet_socket {A} (m : M PacketDevice.t A) : M t A := zoom internet_socket (fun w s => s <| internet_socket := w |>) m.

(** Frames from the host to the router. *)
Definition host_to_router : M t unit :=
  s <- get;;
  modify (fun s => s <| k_host := fun n => k_host s (S n) |>);;
  bytes <- in_frame_fd (PacketDevice.in_descriptor (FDWrapper.read FDWrapper.SIZE_MAX (k_host s 0%nat)));;
  inject host_side bytes.

(** Frames from the Internet to the router. *)
Definition internet_to_router : M t unit :=
  s <- get;;
  modify (fun s => s <| k_internet := fun n => k_internet s (S n) |>);;
  bytes <- in_internet_socket (PacketDevice.in_descriptor (FDWrapper.read FDWrapper.SIZE_MAX (k_internet s 0%nat)));;
  inject internet_side bytes.

(** [f.front()] and [f.pop()] for the frames of an interface. The rules only run when
    there is one; [front] of an empty queue is undefined. *)
Definition front (side : t -> Z) : M t EthernetFrame.t :=
  on_interface side (fun i => (i, match NetworkSimulator.frames_out i with [] => Throw out_of_range | f :: _ => Ok f end)).
Definition pop (side : t -> Z) : M t unit :=
  on_interface side (modify (fun i => NetworkSimulator.set_frames_out i (tail (NetworkSimulator.frames_out i)))).

(** Frames from the router to the host: a frame leaves the queue when the write has
    returned. *)
Definition router_to_host : M t unit :=
  f <- front host_side;;
  in_frame_fd (PacketDevice.write (BufferViewList.of_buffer_list (EthernetFrame.serialize f)));;
  pop host_side.

(** Frames from the router to the Internet: [internet_socket.sendto(bounce_address, ...)]. *)
Definition router_to_internet : M t unit :=
  f <- front internet_side;;
  in_internet_socket (PacketDevice.sendto (BufferViewList.of_buffer_list (EthernetFrame.serialize f)));;
  pop internet_side.

(** [not router.interface(id).frames_out().empty()] *)
Definition has_frames (side : t -> Z) (s : t) : bool :=
  match Router.interface (router s) (side s) with
  | Ok i => negb (bool_decide (NetworkSimulator.frames_out i = []))
  | Throw _ => false
  end.

Definition rules : list (Rule t) :=
  let frame_fd s := PacketDevice.descriptor (frame_fd s) in
  let internet_socket s := PacketDevice.descriptor (internet_socket s) in
  let r := [] in
  let r := add_rule r frame_fd Direction.In host_to_router (fun _ => true) (ret tt) in
  let r := add_rule r frame_fd Direction.Out router_to_host (has_frames host_side) (ret tt) in
  let r := add_rule r internet_socket Direction.Out router_to_internet (has_frames internet_side) (ret tt) in
  add_rule r internet_socket Direction.In internet_to_router (fun _ => true) (ret tt).

(** [router.interface(id).tick(50)] *)
Definition tick_interface (side : t -> Z) : M t unit :=
  on_interface side (modify (fun i =>
    i <| AsyncNetworkInterface.base := NetworkInterface.tick (AsyncNetworkInterface.base i) 50 |>)).

(** A round of the thread's loop from outside: the answer of [poll(2)] and the flag
    that the other thread sets. *)
Record Round := mkRound { poll : list (Z * Z) -> Z -> answer (Z * list Z); exit_flag : bool }.

(** The loop; the result says whether it has returned. *)
Fixpoint network_loop (rounds : list Round) : M (list (Rule t) * t) bool :=
  match rounds with
  | [] => ret false
  | round :: rounds =>
      r <- wait_next_event (poll round) 50;;
      match r with
      | Exit => ret true
      | _ =>
          zoom snd (fun s x => (x.1, s)) (tick_interface host_side);;
          zoom snd (fun s x => (x.1, s)) (tick_interface internet_side);;
          if exit_flag round then ret true else network_loop rounds
      end
  end.

(** The thread; an exception ends it. *)
Definition network_thread (rounds : list Round) (s : t) : t := (network_loop rounds (rules, s)).1.2.

(** *** The command line *)

(** What [main] does with its arguments, the program's name included. *)
Inductive command := Aborted | Usage | Run (is_client : bool) (host port : string) (debug : bool).
Definition main (argv : list string) : command :=
  match argv with
  | [] => Aborted
  | [_; mode; host; port] => if String.eqb mode "client" || String.eqb mode "server" then Run (String.eqb mode "client") host port false else Usage
  | [_; mode; host; port; _] => if String.eqb mode "client" || String.eqb mode "server" then Run (String.eqb mode "client") host port true else Usage
  | _ => Usage
  end.

End Lab7Network.
