(* ===== verification/lab7_network.v ===== *)
(** What the parts of an endpoint of the last lab guarantee: the network thread
    passes on nothing but what it was given, and so does the adapter of the
    host. *)

From S2P Require Import prelude effects wrapping_integers buffer parser ethernet ipv4 tcp_segment byte_stream tcp_receiver tcp_sender transfer tcp_connection connection address network_interface router ethernet_link provenance network_simulator file_descriptor eventloop fd_adapter adapters typing tcp_sponge_socket lab7.

Module Lab7.
Import Provenance.

(** ** Reading a datagram socket *)

(** The answer to [read(2)]: at most the size of the buffer, and a genuine frame. *)
Definition genuine_answer (P : IPv4Datagram.t -> Prop) (a : answer (list byte)) : Prop :=
  match a with Done l => zlen l <= FDWrapper.BUFFER_SIZE /\ genuine_bytes P l | Failed _ => True end.

Lemma read_answer a w w' bytes :
  FDWrapper.read FDWrapper.SIZE_MAX a w = (w', Ok bytes) ->
  match a with Done l => zlen l <= FDWrapper.BUFFER_SIZE -> bytes = l | Failed _ => False end.
Proof.
  unfold FDWrapper.read. destruct a as [l|e].
  - intros H Hl. rewrite bind_lift in H. unfold file_descriptor.system_call, SystemCall, FDWrapper.BUFFER_SIZE in *.
    assert (E : i32 (zlen l) = zlen l) by dlia. rewrite E, orb_true_r in H.
    apply bind_ok in H as (u & w1 & _ & H). do 2 (destruct (_ <? _); [done|]).
    apply bind_ok in H as (u' & w2 & _ & H). injection H as _ <-. by rewrite Nat2Z.id, firstn_all.
  - rewrite bind_lift. unfold file_descriptor.system_call, SystemCall. destruct (_ || _); [|done].
    intros (u & w1 & _ & H)%bind_ok. by destruct (_ <? _).
Qed.

Lemma read_genuine P a w w' bytes :
  genuine_answer P a -> FDWrapper.read FDWrapper.SIZE_MAX a w = (w', Ok bytes) -> genuine_bytes P bytes.
Proof. intros Ha H%read_answer. destruct a as [l|e]; [|done]. destruct Ha as [Hl Hg]. by rewrite H. Qed.

(** ** The network thread *)

Section Thread.
Import Lab7Network EventLoop.
Context (P : IPv4Datagram.t -> Prop) (C : closed P).

Record net_genuine (s : Lab7Network.t) : Prop := {
  n_router : genuine_router P (router s);
  n_host : Forall (genuine_bytes P) (to_host s);
  n_internet : Forall (genuine_bytes P) (to_internet s);
  n_from_host : forall n, genuine_answer P (k_host s n);
  n_from_internet : forall n, genuine_answer P (k_internet s n);
  n_host_whole : PacketDevice.whole (PacketDevice.k_writes (frame_fd s));
  n_internet_whole : PacketDevice.whole (PacketDevice.k_writes (internet_socket s))
}.

(** Handlers that keep the invariant and whose result has a property. *)
Definition sound {A} (m : M Lab7Network.t A) (Q : A -> Prop) : Prop :=
  forall s, net_genuine s -> net_genuine (m s).1 /\ forall a, (m s).2 = Ok a -> Q a.

Lemma sound_bind {A B} (m : M Lab7Network.t A) (k : A -> M Lab7Network.t B) Q R :
  sound m Q -> (forall a, Q a -> sound (k a) R) -> sound (bind m k) R.
Proof using Type.
  intros Hm Hk s Hs. unfold bind. destruct (Hm s Hs) as [H1 H2]. destruct (m s) as [s1 [a|e]]; cbn [fst snd] in *; [|done].
  by apply (Hk a (H2 a eq_refl)).
Qed.

Lemma on_interface_eq {A} (side : Lab7Network.t -> Z) (m : M AsyncNetworkInterface.t A) s :
  on_interface side m s =
    match Router.interface (router s) (side s) with
    | Ok i => (s <| router := Router.set_interface (router s) (side s) (m i).1 |>, (m i).2)
    | Throw e => (s, Throw e)
    end.
Proof using Type.
  unfold on_interface, bind, get, lift, modify. destruct (Router.interface _ _) as [i|e]; [|done]. by destruct (m i).
Qed.

Lemma on_interface_sound {A} (side : Lab7Network.t -> Z) (m : M AsyncNetworkInterface.t A) (Q : A -> Prop) :
  (forall i, genuine_async P i -> genuine_async P (m i).1 /\ forall a, (m i).2 = Ok a -> Q a) -> sound (on_interface side m) Q.
Proof using Type.
  intros Hm s Hs. rewrite on_interface_eq. destruct (Router.interface (router s) (side s)) as [i|e] eqn:E; [|by split].
  destruct (Hm i (interface_genuine P _ _ _ (n_router s Hs) E)) as [H1 H2]. split; [|done]. destruct Hs. split; cbn; try done. by apply set_interface_genuine.
Qed.

Lemma route_sound : sound Lab7Network.route (fun _ => True).
Proof using C.
  intros s Hs. unfold Lab7Network.route, zoom. pose proof (route_genuine P C _ (n_router s Hs)) as H.
  destruct (Router.route (router s)) as [r x]. cbn [fst snd] in *. split; [|done]. destruct Hs. by split.
Qed.

Lemma inject_sound side bytes : genuine_bytes P bytes -> sound (inject side bytes) (fun _ => True).
Proof using C.
  intros Hb. unfold inject. destruct (EthernetFrame.parse _ _) as [f r] eqn:Ef. case_bool_decide as Hr; [|done]. subst r. cbn [negb].
  eapply sound_bind; [|intros _ _; apply route_sound]. apply (on_interface_sound _ _ (fun _ => True)). intros i Hi.
  split; [|done]. apply async_recv_genuine; [done|done|by apply Hb].
Qed.

Lemma sound_get : sound get net_genuine.
Proof using Type. intros s Hs. split; [done|]. by intros a [= <-]. Qed.

Lemma host_to_router_sound : sound host_to_router (fun _ => True).
Proof using C.
  eapply sound_bind; [apply sound_get|]. intros s Hs. eapply (sound_bind _ _ (fun _ => True)).
  { intros s1 []. split; [|done]. split; try done. intros n. by apply n_from_host0. }
  intros _ _. eapply (sound_bind _ _ (genuine_bytes P)); [|intros bytes Hb; by apply inject_sound].
  intros s1 H1. unfold in_frame_fd, in_internet_socket, PacketDevice.in_descriptor, zoom. destruct (FDWrapper.read _ _ _) as [w r] eqn:Er. split; [by destruct H1|].
  cbn [snd]. intros bytes ->. eapply read_genuine; [|exact Er]. apply Hs.
Qed.

Lemma internet_to_router_sound : sound internet_to_router (fun _ => True).
Proof using C.
  eapply sound_bind; [apply sound_get|]. intros s Hs. eapply (sound_bind _ _ (fun _ => True)).
  { intros s1 []. split; [|done]. split; try done. intros n. by apply n_from_internet0. }
  intros _ _. eapply (sound_bind _ _ (genuine_bytes P)); [|intros bytes Hb; by apply inject_sound].
  intros s1 H1. unfold in_frame_fd, in_internet_socket, PacketDevice.in_descriptor, zoom. destruct (FDWrapper.read _ _ _) as [w r] eqn:Er. split; [by destruct H1|].
  cbn [snd]. intros bytes ->. eapply read_genuine; [|exact Er]. apply Hs.
Qed.

Lemma front_sound side : sound (front side) (fun f => genuine_bytes P (concat (BufferViewList.of_buffer_list (EthernetFrame.serialize f)))).
Proof using Type.
  apply on_interface_sound. intros i [Hb Hq]. split; [done|]. cbn [snd]. unfold NetworkSimulator.frames_out.
  pose proof (g_frames P _ Hb) as Hf. destruct (NetworkInterface._frames_out _) as [|f q]; [done|].
  intros a [= <-]. apply Forall_cons_1 in Hf as [Hf _]. rewrite BufferViewList.concat_views. by apply serialize_genuine.
Qed.

Lemma pop_sound side : sound (pop side) (fun _ => True).
Proof using Type.
  apply on_interface_sound. intros i [Hb Hq]. split; [|done]. split; [|done]. apply set_frames_genuine; [done|].
  unfold NetworkSimulator.frames_out. pose proof (g_frames P _ Hb) as Hf.
  destruct (NetworkInterface._frames_out _) as [|f q]; [done|]. by apply Forall_cons_1 in Hf as [_ Hf].
Qed.

(** What a device has been given after a write. *)
Lemma wrote_genuine data d x :
  genuine_bytes P data -> Forall (genuine_bytes P) (PacketDevice.sent d) -> PacketDevice.wrote data d x ->
  Forall (genuine_bytes P) (PacketDevice.sent x.1) /\ PacketDevice.whole (PacketDevice.k_writes x.1).
Proof using Type.
  intros Hb Hd [Hw Hs]. split; [|done]. destruct x as [d' [u|e]]; cbn [fst snd] in *; rewrite Hs; [|done].
  apply Forall_app. split; [done|by constructor].
Qed.

Lemma router_to_host_sound : sound router_to_host (fun _ => True).
Proof using Type.
  eapply sound_bind; [apply front_sound|]. intros f Hf. eapply (sound_bind _ _ (fun _ => True)); [|intros _ _; apply pop_sound].
  intros s Hs. unfold in_frame_fd, zoom. destruct (PacketDevice.writes_wrote (BufferViewList.of_buffer_list (EthernetFrame.serialize f)) (frame_fd s) (n_host_whole s Hs)) as [Hw _].
  apply wrote_genuine in Hw as [H1 H2]; [|exact Hf|apply Hs].
  destruct (PacketDevice.write _ (frame_fd s)) as [w x]. split; [|done]. destruct Hs. by split.
Qed.

Lemma router_to_internet_sound : sound router_to_internet (fun _ => True).
Proof using Type.
  eapply sound_bind; [apply front_sound|]. intros f Hf. eapply (sound_bind _ _ (fun _ => True)); [|intros _ _; apply pop_sound].
  intros s Hs. unfold in_internet_socket, zoom. destruct (PacketDevice.writes_wrote (BufferViewList.of_buffer_list (EthernetFrame.serialize f)) (internet_socket s) (n_internet_whole s Hs)) as [_ Hw].
  apply wrote_genuine in Hw as [H1 H2]; [|exact Hf|apply Hs].
  destruct (PacketDevice.sendto _ (internet_socket s)) as [w x]. split; [|done]. destruct Hs. by split.
Qed.

Lemma tick_interface_sound side : sound (tick_interface side) (fun _ => True).
Proof using Type.
  apply on_interface_sound. intros i [Hb Hq]. split; [|done]. split; [by apply tick_genuine|done].
Qed.

Definition guarded_rules := map (fun r => (r, fun _ : Lab7Network.t => True)) rules.

Lemma network_rules_compatible : compatible net_genuine guarded_rules.
Proof using C.
  assert (K : forall (h : M Lab7Network.t unit) fd d i, sound h (fun _ => True) ->
    keeps net_genuine (mkRule fd d h i (ret tt), fun _ => True)).
  { intros h fd d i Hh. split; try done. intros s Hs _. by apply Hh. }
  split; [|repeat constructor].
  apply Forall_cons_2; [apply K, host_to_router_sound|]. apply Forall_cons_2; [apply K, router_to_host_sound|].
  apply Forall_cons_2; [apply K, router_to_internet_sound|]. apply Forall_cons_2; [apply K, internet_to_router_sound|constructor].
Qed.

Lemma network_loop_sound rounds gs s :
  gs `sublist_of` guarded_rules -> net_genuine s -> net_genuine (network_loop rounds (map fst gs, s)).1.2.
Proof using C.
  revert gs s. induction rounds as [|round rounds IH]; intros gs s Hg Hs; cbn [network_loop]; [done|].
  destruct (wait_next_event_keeps net_genuine (poll round) 50 gs s (compatible_sublist _ _ _ Hg network_rules_compatible) Hs) as (gs' & H1 & H2 & H3).
  unfold bind at 1. destruct (wait_next_event _ _ _) as [[rules1 s1] [res|e]]; cbn [fst snd] in *; [|done]. subst rules1.
  assert (Hrest : net_genuine ((zoom snd (fun s x => (x.1, s)) (tick_interface host_side);; zoom snd (fun s x => (x.1, s)) (tick_interface internet_side);;
    (if exit_flag round then ret true else network_loop rounds)) (map fst gs', s1)).1.2).
  { unfold bind at 1, zoom at 1. cbn [snd fst]. destruct (tick_interface_sound host_side s1 H3) as [Ht _].
    destruct (tick_interface host_side s1) as [s2 [u|e]]; cbn [fst snd] in *; [|done].
    unfold bind at 1, zoom at 1. cbn [snd fst]. destruct (tick_interface_sound internet_side s2 Ht) as [Ht2 _].
    destruct (tick_interface internet_side s2) as [s3 [u2|e]]; cbn [fst snd] in *; [|done].
    destruct (exit_flag round); [done|]. apply IH; [by etrans|done]. }
  by destruct res.
Qed.
End Thread.

(** The routers that the endpoints set up hold no datagram. *)
Section Setup.
Context {Text : AddressText}.

Lemma router_address_ok random : eth_ok (Lab7Network.random_router_ethernet_address random).
Proof using Type. done. Qed.
Lemma add_interface_genuine P r random a r' n :
  genuine_router P r -> Lab7Network.add_interface r random a = Ok (r', n) -> genuine_router P r'.
Proof using Type.
  intros Hr. unfold Lab7Network.add_interface. destruct (Lab7Network.address a) as [x|]; [|done]. intros [= <- _].
  apply Forall_app. split; [done|]. constructor; [|constructor]. split; [by apply make_genuine, router_address_ok|constructor].
Qed.

Lemma add_route_genuine P r a len hop id r' : genuine_router P r -> Lab7Network.add_route r a len hop id = Ok r' -> genuine_router P r'.
Proof using Type.
  intros Hr. unfold Lab7Network.add_route. destruct (Lab7Network.address a) as [x|]; [|done]. cbn [result_bind].
  destruct (Address.ipv4_numeric x) as [y|]; [|done]. by intros [= <-].
Qed.

Lemma setup_router_genuine P is_client random1 random2 r host internet :
  Lab7Network.setup_router is_client random1 random2 = Ok (r, host, internet) -> genuine_router P r.
Proof using Type.
  assert (H0 : genuine_router P Router.make) by constructor.
  unfold Lab7Network.setup_router. destruct is_client.
  all: match goal with |- context [Lab7Network.add_interface ?r ?x ?ip] =>
         destruct (Lab7Network.add_interface r x ip) as [[r1 n1]|] eqn:E1; [|done] end; cbn [result_bind];
       apply (add_interface_genuine P _ _ _ _ _ H0) in E1.
  all: match goal with |- context [Lab7Network.add_interface ?r ?x ?ip] =>
         destruct (Lab7Network.add_interface r x ip) as [[r2 n2]|] eqn:E2; [|done] end; cbn [result_bind];
       apply (add_interface_genuine P _ _ _ _ _ E1) in E2.
  all: do 2 (match goal with |- context [Lab7Network.add_route ?r ?a ?l ?h ?i] =>
         let E := fresh "E" in destruct (Lab7Network.add_route r a l h i) eqn:E; [|done]; cbn [result_bind];
         eapply add_route_genuine in E; [|eassumption] end).
  all: destruct (Lab7Network.address _) as [hop|]; [|done]; cbn [result_bind].
  all: match goal with |- context [Lab7Network.add_route ?r ?a ?l ?h ?i] =>
         let E := fresh "E" in destruct (Lab7Network.add_route r a l h i) eqn:E; [|done]; cbn [result_bind];
         eapply add_route_genuine in E; [|eassumption] end.
  all: by intros [= <- _ _].
Qed.
End Setup.

(** C8. The network thread invents nothing: let every frame that it reads, from the
    host and from the Internet, and every frame and datagram inside its router
    hold a datagram of the list [sent], unchanged but for its time to live and
    checksum (or no datagram at all). Then, for every sequence of answers of
    [poll(2)] and however often the thread runs, the same is true of every frame
    it has written to the host and sent to the Internet. (A write to the two
    datagram sockets may fail, but a frame is taken whole or not at all.) *)
Theorem network_thread_forwards (sent : list IPv4Datagram.t) rounds s :
  net_genuine (echo (fun d => In d sent)) s ->
  net_genuine (echo (fun d => In d sent)) (Lab7Network.network_thread rounds s).
Proof.
  intros Hs. exact (network_loop_sound _ (echo_closed _) rounds (guarded_rules) s ltac:(done) Hs).
Qed.

(** *** Witness: a datagram of the host leaves for the Internet *)

Module Sample.
Import SockaddrIn.

Definition datagram : IPv4Datagram.t :=
  IPv4Datagram.mk (IPv4Header.mk 4 5 0 24 0 true false 0 64 6 0 (Lab7Network.quad 192 168 0 50) (Lab7Network.quad 172 16 0 100))
    (BufferList.of_string [x01; x02; x03; x04]).
Definition host : NetworkInterface.t := NetworkInterface.make [x02; x00; x00; x00; x00; x09] (sockaddr_of (Lab7Network.quad 192 168 0 50) 0).
Definition peer : NetworkInterface.t := NetworkInterface.make [x02; x00; x00; x00; x00; x08] (sockaddr_of (Lab7Network.quad 10 0 0 172) 0).
Definition host_random (n : nat) : Z := 3.
Definition internet_random (n : nat) : Z := 4.

(** The datagram from the host, and the answer to the ARP request for the next hop. *)
Definition data_frame (l : BufferList.t) : EthernetFrame.t :=
  NetworkInterface.ipv4_frame host (Lab7Network.random_router_ethernet_address host_random) l.
Definition arp : NetworkInterface.t :=
  (NetworkInterface.send_arp peer ARPMessage.OPCODE_REPLY (Lab7Network.quad 10 0 0 192) (Lab7Network.random_router_ethernet_address internet_random)).1.
Definition once (l : list byte) (n : nat) : answer (list byte) := if (n =? 0)%nat then Done l else Failed 11.

Definition device (fd : Z) : PacketDevice.t := PacketDevice.mk (FDWrapper.mk fd false false 0 0) (fun _ size => if size <? 2 ^ 31 then Done size else Failed 90) [].

Lemma device_whole fd : PacketDevice.whole (PacketDevice.k_writes (device fd)).
Proof. intros n size. cbn -[Z.pow]. by destruct (Z.ltb_spec size (2 ^ 31)). Qed.

Definition net : option Lab7Network.t :=
  match Lab7Network.setup_router true host_random internet_random, IPv4Datagram.serialize datagram, NetworkInterface._frames_out arp with
  | Ok (r, h, i), Ok l, f :: _ =>
      Some (Lab7Network.mk r h i (device 4) (device 5)
              (once (BufferList.concatenate (EthernetFrame.serialize (data_frame l)))) (once (BufferList.concatenate (EthernetFrame.serialize f))))
  | _, _, _ => None
  end.
Definition round (revents : list Z) : Lab7Network.Round := Lab7Network.mkRound (fun _ _ => Done (1, revents)) false.
Definition rounds : list Lab7Network.Round := [round [1; 0; 0; 0]; round [0; 0; 4; 0]; round [0; 0; 0; 1]; round [0; 0; 4; 0]].

Lemma datagram_wf : IPv4Datagram.wf datagram.
Proof. split; [split; by vm_compute|by vm_compute]. Qed.

Lemma once_genuine P l n : zlen l <= FDWrapper.BUFFER_SIZE -> genuine_bytes P l -> genuine_answer P (once l n).
Proof. intros H1 H2. unfold once. by destruct (n =? 0)%nat. Qed.

Lemma net_ok s : net = Some s -> net_genuine (echo (fun d => In d [datagram])) s.
Proof.
  assert (E : match IPv4Datagram.serialize datagram, NetworkInterface._frames_out arp with
              | Ok l, f :: _ => zlen (BufferList.concatenate (EthernetFrame.serialize (data_frame l))) <= FDWrapper.BUFFER_SIZE /\
                                zlen (BufferList.concatenate (EthernetFrame.serialize f)) <= FDWrapper.BUFFER_SIZE
              | _, _ => False end) by (vm_compute; split; congruence).
  unfold net. destruct (Lab7Network.setup_router _ _ _) as [[[r h] i]|] eqn:Er; [|done].
  destruct (IPv4Datagram.serialize datagram) as [l|] eqn:El; [|done].
  set (P := echo _). assert (Ga : genuine P arp) by (by apply send_arp_genuine; [apply make_genuine|]). apply g_frames in Ga.
  destruct (NetworkInterface._frames_out arp) as [|f q]; [done|]. destruct E as [E1 E2]. intros [= <-]. split; try constructor.
  - exact (setup_router_genuine P _ _ _ _ _ _ Er).
  - intros n. apply once_genuine; [done|]. apply serialize_genuine, (frame_of_datagram P (echo_closed _) host _ datagram); try done.
    apply echo_origin; [apply datagram_wf|by left].
  - intros n. apply once_genuine; [done|]. apply serialize_genuine. by apply Forall_cons_1 in Ga as [? _].
  - exact (device_whole 4).
  - exact (device_whole 5).
Qed.
End Sample.

Lemma network_thread_forwards_witness : exists s, Sample.net = Some s /\
  length (Lab7Network.to_internet (Lab7Network.network_thread Sample.rounds s)) = 2%nat /\
  net_genuine (echo (fun d => In d [Sample.datagram])) (Lab7Network.network_thread Sample.rounds s).
Proof.
  assert (H : option_map (fun s => length (Lab7Network.to_internet (Lab7Network.network_thread Sample.rounds s))) Sample.net = Some 2%nat) by (by vm_compute).
  pose proof Sample.net_ok as Hn. destruct Sample.net as [s|]; [|done]. exists s. split; [done|]. split; [by injection H|].
  exact (network_thread_forwards [Sample.datagram] Sample.rounds s (Hn s eq_refl)).
Defined.

(** ** The adapter of the host *)

Module Ad := TCPOverIPv4OverEthernetAdapter.

Record adapter_genuine (P : IPv4Datagram.t -> Prop) (a : Ad.t) : Prop := {
  ag_interface : genuine P (Ad._interface a);
  ag_whole : PacketDevice.whole (PacketDevice.k_writes (Ad._tap a));
  ag_sent : Forall (genuine_bytes P) (Ad.sent a)
}.

Section Adapter.
Context {Text : AddressText} {Law : AddressTextLaw Text}.
Context (P : IPv4Datagram.t -> Prop) (C : closed P).

Lemma send_frames_genuine fs a :
  adapter_genuine P a -> NetworkInterface._frames_out (Ad._interface a) = fs -> adapter_genuine P (Ad.send_frames fs a).1.
Proof using Type.
  revert a. induction fs as [|f fs IH]; intros a Ha Eq; cbn [Ad.send_frames]; [done|]. destruct Ha as [Hi Hw Hs].
  pose proof (g_frames P _ Hi) as Hf. rewrite Eq in Hf. apply Forall_cons_1 in Hf as [Hf Hfs].
  destruct (PacketDevice.writes_wrote (BufferViewList.of_buffer_list (EthernetFrame.serialize f)) (Ad._tap a) Hw) as [H _].
  apply (wrote_genuine P) in H as [H1 H2]; [|rewrite BufferViewList.concat_views; by apply serialize_genuine|exact Hs].
  unfold bind, modify, Ad.tap_write, Ad.in_tap, zoom. destruct (PacketDevice.write _ (Ad._tap a)) as [w [u|e]]; [|by split].
  apply IH; [|done]. split; try done. by apply set_frames_genuine.
Qed.

Lemma send_pending_genuine a : adapter_genuine P a -> adapter_genuine P (Ad.send_pending a).1.
Proof using Type. intros Ha. by apply send_frames_genuine. Qed.

Lemma adapter_tick_genuine ms a :
  adapter_genuine P a -> adapter_genuine P (NetworkInterfaceAdapter.tick ms a).1 /\ Ad.base (NetworkInterfaceAdapter.tick ms a).1 = Ad.base a.
Proof using Type.
  intros [Hi Hw Hs]. unfold NetworkInterfaceAdapter.tick, Ad.tick, bind, modify. rewrite Adapters.send_pending_base. split; [|done].
  apply send_pending_genuine. split; [by apply tick_genuine|done|done].
Qed.

Lemma adapter_write_genuine seg a a' r :
  adapter_genuine P a -> (forall seg' d, TCPOverIPv4Adapter.wrap_tcp_in_ip seg (Ad.base a) = (Ad.base a, Ok (seg', d)) -> P d) ->
  NetworkInterfaceAdapter.write seg a = (a', r) -> adapter_genuine P a' /\ Ad.base a' = Ad.base a.
Proof using C.
  intros Ha Hd. unfold NetworkInterfaceAdapter.write, Ad.write, Ad.in_base, zoom. unfold bind at 1.
  pose proof (TCPOverIPv4Adapter.wrap_keeps seg (Ad.base a)) as Hw.
  destruct (TCPOverIPv4Adapter.wrap_tcp_in_ip seg (Ad.base a)) as [b [[seg' d]|e]]; cbn [fst] in Hw; subst b;
    replace (a <| Ad.base := Ad.base a |>) with a by (by destruct a); [|by intros [= <- <-]].
  specialize (Hd seg' d eq_refl). unfold bind at 1, get, Ad.in_interface, zoom, bind at 1. cbn [snd].
  pose proof (send_datagram_genuine P C (Ad._interface a) d (Ad._next_hop a) (ag_interface P a Ha) Hd) as H1.
  destruct (NetworkInterface.send_datagram _ d _) as [i x]. cbn [fst] in H1. set (a2 := a <| Ad._interface := i |>).
  assert (G2 : adapter_genuine P a2) by (destruct Ha; by split). destruct x as [u|e]; [|by intros [= <- <-]].
  pose proof (send_pending_genuine a2 G2) as G3. pose proof (Adapters.send_pending_base a2) as B3. intros E. by rewrite E in G3, B3.
Qed.

Lemma adapter_read_genuine ans a a' r :
  adapter_genuine P a -> genuine_answer P ans -> NetworkInterfaceAdapter.read ans a = (a', r) ->
  adapter_genuine P a' /\
  (((forall seg, r <> Ok (Some seg)) /\ Ad.base a' = Ad.base a) \/
   exists d, P d /\ BufferList.wf (IPv4Datagram._payload d) /\ TCPOverIPv4Adapter.unwrap_tcp_in_ip d (Ad.base a) = (Ad.base a', r)).
Proof using C.
  intros [Hi Hw Hs] Ha. unfold NetworkInterfaceAdapter.read, Ad.read, Ad.in_tap, PacketDevice.in_descriptor, zoom, bind at 1.
  destruct (FDWrapper.read _ ans _) as [w x] eqn:Er. set (a1 := setter _ a).
  assert (G1 : adapter_genuine P a1) by (by split). change (Ad.base a) with (Ad.base a1). clearbody a1. clear Hi Hw Hs.
  destruct x as [bytes|e]; [|intros [= <- <-]; split; [done|by left]]. apply (read_genuine P) in Er; [|done].
  destruct (EthernetFrame.parse _ _) as [f r1] eqn:Ef. case_bool_decide as Hr; [|intros [= <- <-]; split; [done|by left]]. cbn [negb].
  subst r1. specialize (Er f Ef). destruct (recv_frame_genuine P C (Ad._interface a1) f (ag_interface P a1 G1) Er) as [H2 H3].
  unfold Ad.in_interface, zoom, bind. destruct (NetworkInterface.recv_frame _ f) as [i x]. cbn [fst snd] in *. set (a2 := setter _ a1).
  assert (G2 : adapter_genuine P a2) by (destruct G1; by split). change (Ad.base a1) with (Ad.base a2). clearbody a2.
  destruct x as [od|e]; [|intros [= <- <-]; split; [done|by left]].
  pose proof (send_pending_genuine a2 G2) as G3. pose proof (Adapters.send_pending_base a2) as B3.
  destruct (Ad.send_pending a2) as [a3 [u|e]]; cbn [fst] in G3, B3; [|intros [= <- <-]; split; [done|by left]]. rewrite <- B3.
  destruct od as [d|]; [|intros [= <- <-]; split; [done|by left]]. destruct (H3 d eq_refl) as [Hp Hb]. unfold Ad.in_base, zoom.
  destruct (TCPOverIPv4Adapter.unwrap_tcp_in_ip d (Ad.base a3)) as [b x] eqn:Eu. intros [= <- <-].
  split; [destruct G3; by split|]. right. by exists d.
Qed.

Lemma bind_keeps {S A B} (m : M S A) (k : A -> M S B) s x :
  (m s).1 = s -> bind m k s = x -> (exists a, m s = (s, Ok a) /\ k a s = x) \/ exists e, x = (s, Throw e).
Proof using Type.
  unfold bind. destruct (m s) as [s1 [a|e]]; cbn; intros -> E; [left; by exists a|right; by exists e].
Qed.

Lemma addressed_keeps ip a s : (TCPOverIPv4Adapter.addressed ip a s).1 = s.
Proof using Type.
  unfold TCPOverIPv4Adapter.addressed, bind, get. destruct (FdAdapterBase.listening s); [done|]. by destruct (Address.ipv4_numeric _).
Qed.

(** An adapter that throws has not changed its configuration. *)
Lemma unwrap_throws d b b' e :
  is_u32 (IPv4Header.src (IPv4Datagram._header d)) -> TCPOverIPv4Adapter.unwrap_tcp_in_ip d b = (b', Throw e) -> b' = b.
Proof using Law.
  intros Hsrc E. unfold TCPOverIPv4Adapter.unwrap_tcp_in_ip in E.
  apply bind_keeps in E as [([] & _ & E)|(e1 & [= -> _])]; [|done|done|apply addressed_keeps]. cbn [negb] in E.
  apply bind_keeps in E as [([] & _ & E)|(e1 & [= -> _])]; [|done|done|apply addressed_keeps]. cbn [negb] in E.
  destruct (negb _); [done|]. apply bind_keeps in E as [(pl & _ & E)|(e1 & [= -> _])]; [|done|done].
  destruct (TCPSegment.parse _ _ _) as [seg r] eqn:Ep. case_bool_decide as Hr; [|done]. subst r. cbn [negb] in E.
  apply TCPSegment.parse_in_range in Ep as (Hsp & _). apply bind_keeps in E as [(? & [= <-] & E)|(e1 & [= -> _])]; [|done|done].
  apply bind_keeps in E as [(mp & [= Emp] & E)|(e1 & [= -> _])]; [|done|done]. destruct (negb _); [done|].
  unfold TCPOverIPv4Adapter.adopt_peer in E. unfold bind at 1, bind at 1, get at 1 in E. destruct (FdAdapterBase.listening b).
  - destruct (_ && _); [|done]. rewrite Emp in E. unfold lift, bind at 1, bind at 1 in E.
    destruct (of_ip_port _ mp) as [src|]; [|by injection E]. unfold bind at 1, modify at 1, bind at 1 in E.
    destruct (of_ip_port_spec (IPv4Header.src (IPv4Datagram._header d)) (TCPHeader.sport (TCPSegment.header seg)) Hsrc Hsp)
      as (dst & Edst & _ & Eport). rewrite Edst in E. unfold bind, modify, ret, get, lift in E. cbn iota beta in E. cbn [negb] in E.
    cbn [FdAdapterBase.config FdAdapterBase.set_listening setter FdAdapterBase.set_listen FdAdapterBase.set_cfg FdAdapterBase._cfg
      FdAdapterConfig.destination FdAdapterConfig.set_destination] in E. rewrite Eport in E. by destruct (negb _).
  - unfold ret at 1 in E. cbn [negb] in E. unfold bind, get, lift in E. destruct (port (FdAdapterConfig.destination _)); [|by injection E]. by destruct (negb _).
Qed.

(** One that returns no segment has not either, or it has stopped listening. *)
Lemma unwrap_none d b b' :
  TCPOverIPv4Adapter.unwrap_tcp_in_ip d b = (b', Ok None) -> b' = b \/ (FdAdapterBase.listening b = true /\ FdAdapterBase.listening b' = false).
Proof using Type.
  unfold TCPOverIPv4Adapter.unwrap_tcp_in_ip.
  intros (a1 & s1 & [-> _]%TCPOverIPv4Adapter.addressed_inv & H1)%bind_ok. destruct a1; [|left; by injection H1]. cbn [negb] in H1.
  apply bind_ok in H1 as (a2 & s2 & [-> _]%TCPOverIPv4Adapter.addressed_inv & H1). destruct a2; [|left; by injection H1]. cbn [negb] in H1.
  destruct (negb _); [left; by injection H1|]. rewrite bind_lift in H1. destruct (BufferList.to_buffer _) as [pl|]; [|done].
  destruct (TCPSegment.parse _ _ _) as [seg r]. destruct (negb _); [left; by injection H1|].
  apply bind_ok in H1 as (? & ? & [= <- <-] & H1). rewrite bind_lift in H1. destruct (port _) as [mp|]; [|done].
  destruct (negb _); [left; by injection H1|]. apply bind_ok in H1 as (ad & s3 & Had & H1).
  assert (Hs : s3 = b \/ (FdAdapterBase.listening b = true /\ FdAdapterBase.listening s3 = false)).
  { clear H1. unfold TCPOverIPv4Adapter.adopt_peer in Had. apply bind_ok in Had as (? & ? & [= <- <-] & Had).
    destruct (FdAdapterBase.listening b) eqn:El; [|injection Had as <- _; by left].
    destruct (_ && _); [|injection Had as <- _; by left]. right. split; [done|]. rewrite bind_lift in Had.
    destruct (port _) as [p|]; [|done]. rewrite bind_lift in Had. destruct (of_ip_port _ p) as [src|]; [|done].
    apply bind_ok in Had as (? & ? & [= <- <-] & Had). rewrite bind_lift in Had. destruct (of_ip_port _ _) as [dst|]; [|done].
    apply bind_ok in Had as (? & ? & [= <- <-] & Had). apply bind_ok in Had as (? & ? & [= <- <-] & Had). by injection Had as <- _. }
  destruct (negb ad); [injection H1 as <-; done|].
  apply bind_ok in H1 as (? & ? & [= <- <-] & H1). rewrite bind_lift in H1. destruct (port _) as [pp|]; [|done].
  destruct (negb _); by injection H1 as <-.
Qed.
End Adapter.
End Lab7.
