(* ===== verification/lab7_world.v ===== *)
(** Two endpoints of the last lab with the Internet between them, as a state
    machine: each side has a host, with its TCP connection and adapter, and a
    network thread with its router. The threads of a side and the two sides
    interleave in any way. The socket pair between host and network thread, and
    the Internet between the routers, may lose, repeat, delay and reorder frames;
    a write to them may fail, but does not cut a frame.

    What is shown: the reader on one host gets a prefix of what was written on the
    other. *)

From S2P Require Import prelude effects wrapping_integers buffer parser ethernet ipv4 tcp_segment byte_stream tcp_receiver tcp_sender sending transfer tcp_connection connection address network_interface router ethernet_link provenance file_descriptor fd_adapter typing tcp_sponge_socket lab7 lab7_network.

Module Lab7World.
Import Provenance Lab7.

(** ** One side *)

(** The histories are those of [Connection.reach]: bytes written by the owner,
    segments handed to the adapter, segments received from it, bytes read by the
    owner. *)
Record side := mk {
  conn : TCPConnection.t;
  adapter : Ad.t;
  net : Lab7Network.t;
  written : list byte;
  emitted : list TCPSegment.t;
  received : list TCPSegment.t;
  given : list byte
}.
#[global] Instance set_conn : Setter conn := fun f s => mk (f (conn s)) (adapter s) (net s) (written s) (emitted s) (received s) (given s).
#[global] Instance set_adapter : Setter adapter := fun f s => mk (conn s) (f (adapter s)) (net s) (written s) (emitted s) (received s) (given s).
#[global] Instance set_net : Setter net := fun f s => mk (conn s) (adapter s) (f (net s)) (written s) (emitted s) (received s) (given s).
#[global] Instance set_written : Setter written := fun f s => mk (conn s) (adapter s) (net s) (f (written s)) (emitted s) (received s) (given s).
#[global] Instance set_emitted : Setter emitted := fun f s => mk (conn s) (adapter s) (net s) (written s) (f (emitted s)) (received s) (given s).
#[global] Instance set_received : Setter received := fun f s => mk (conn s) (adapter s) (net s) (written s) (emitted s) (f (received s)) (given s).
#[global] Instance set_given : Setter given := fun f s => mk (conn s) (adapter s) (net s) (written s) (emitted s) (received s) (f (given s)).

Definition listening (s : side) : bool := FdAdapterBase.listening (Ad.base (adapter s)).

(** What a read of a datagram socket can answer: a failure, or one of the frames
    that were written to it, which fits the buffer. *)
Definition one_of (frames : list (list byte)) (a : answer (list byte)) : Prop :=
  match a with Done l => In l frames /\ zlen l <= FDWrapper.BUFFER_SIZE | Failed _ => True end.

Section World.
Context {Text : AddressText}.

(** What one side can do next. [incoming]: the frames the other side has sent to
    the Internet. In the program an exception ends the thread that throws it; here
    the thread may also go on, from the state that the exception left, so that
    there are more runs than the program has. (A segment whose write throws counts
    as emitted: frames may have left before the exception.) *)
Inductive move (incoming : list (list byte)) : side -> side -> Prop :=
  | m_write s data :
      listening s = false -> ByteStream.input_ended (TCPSender.stream_in (TCPConnection._sender (conn s))) = false ->
      zlen (written s ++ take (Z.to_nat (TCPConnection.write (conn s) data).2) data) < 2 ^ 62 ->
      move incoming s (s <| conn := (TCPConnection.write (conn s) data).1 |>
                         <| written := written s ++ take (Z.to_nat (TCPConnection.write (conn s) data).2) data |>)
  | m_end s : listening s = false -> move incoming s (s <| conn := TCPConnection.end_input_stream (conn s) |>)
  | m_read s n :
      move incoming s
        (s <| conn := (conn s) <| TCPConnection._receiver := TCPReceiver.with_stream_out (TCPConnection._receiver (conn s))
                                    (fun o => ByteStream.pop_output o (Z.of_nat n)) |> |>
           <| given := given s ++ ByteStream.peek_output (TCPConnection.inbound_stream (conn s)) (Z.of_nat n) |>)
  | m_tick s ms :
      0 <= ms ->
      move incoming s (s <| conn := TCPConnection.tick (conn s) ms |> <| adapter := (NetworkInterfaceAdapter.tick ms (adapter s)).1 |>)
  | m_send s seg q a r :
      TCPConnection._segments_out (conn s) = seg :: q -> NetworkInterfaceAdapter.write seg (adapter s) = (a, r) ->
      move incoming s (s <| conn := (conn s) <| TCPConnection._segments_out := q |> |> <| adapter := a |> <| emitted := emitted s ++ [seg] |>)
  | m_receive s ans a seg :
      one_of (Lab7Network.to_host (net s)) ans -> NetworkInterfaceAdapter.read ans (adapter s) = (a, Ok (Some seg)) ->
      move incoming s (s <| conn := TCPConnection.segment_received (conn s) seg |> <| adapter := a |> <| received := received s ++ [seg] |>)
  | m_receive_nothing s ans a :
      one_of (Lab7Network.to_host (net s)) ans -> NetworkInterfaceAdapter.read ans (adapter s) = (a, Ok None) ->
      move incoming s (s <| adapter := a |>)
  | m_receive_throws s ans a e :
      one_of (Lab7Network.to_host (net s)) ans -> NetworkInterfaceAdapter.read ans (adapter s) = (a, Throw e) ->
      move incoming s (s <| adapter := a |>)
  | m_from_host s ans :
      one_of (Ad.sent (adapter s)) ans ->
      move incoming s (s <| net := (Lab7Network.host_to_router ((net s) <| Lab7Network.k_host := fun _ => ans |>)).1 |>)
  | m_from_internet s ans :
      one_of incoming ans ->
      move incoming s (s <| net := (Lab7Network.internet_to_router ((net s) <| Lab7Network.k_internet := fun _ => ans |>)).1 |>)
  | m_to_host s : move incoming s (s <| net := (Lab7Network.router_to_host (net s)).1 |>)
  | m_to_internet s : move incoming s (s <| net := (Lab7Network.router_to_internet (net s)).1 |>)
  | m_tick_host_side s : move incoming s (s <| net := (Lab7Network.tick_interface Lab7Network.host_side (net s)).1 |>)
  | m_tick_internet_side s : move incoming s (s <| net := (Lab7Network.tick_interface Lab7Network.internet_side (net s)).1 |>).

(** ** Both sides *)

Definition client_ip : Z := Lab7Network.quad 192 168 0 50.
Definition server_ip : Z := Lab7Network.quad 172 16 0 100.
Definition server_port : Z := 1234.

(** A device that has taken nothing yet, and that takes datagrams whole. *)
Definition fresh (d : PacketDevice.t) : Prop := PacketDevice.whole (PacketDevice.k_writes d) /\ PacketDevice.sent d = [].

(** A side that has been set up: the client's connection has been opened, from
    [port] to the server, and the server listens. *)
Record starts (is_client : bool) (port0 : Z) (isn : WrappingInt32) (s : side) : Prop := {
  s_conn : conn s = if is_client then TCPConnection.connect (TCPConnection.make TCPConfig.default isn)
                    else TCPConnection.make TCPConfig.default isn;
  s_adapter : exists b first random, Lab7Network.setup_adapter is_client b first random = Ok (adapter s) /\ fresh first /\
    if is_client then TCPOverIPv4Adapter.connected client_ip port0 server_ip server_port b
    else FdAdapterBase.listening b = true /\ port (FdAdapterConfig.source (FdAdapterBase.config b)) = Ok server_port;
  s_net : exists random1 random2 router host internet fd1 fd2 errno,
    Lab7Network.setup_router is_client random1 random2 = Ok (router, host, internet) /\ fresh fd1 /\ fresh fd2 /\
    net s = Lab7Network.mk router host internet fd1 fd2 (fun _ => Failed errno) (fun _ => Failed errno);
  s_written : written s = [];
  s_emitted : emitted s = [];
  s_received : received s = [];
  s_given : given s = []
}.

Inductive world (port0 : Z) (isnA isnB : WrappingInt32) : side -> side -> Prop :=
  | w_start a b : starts true port0 isnA a -> starts false port0 isnB b -> world port0 isnA isnB a b
  | w_client a b a' : world port0 isnA isnB a b -> move (Lab7Network.to_internet (net b)) a a' -> world port0 isnA isnB a' b
  | w_server a b b' : world port0 isnA isnB a b -> move (Lab7Network.to_internet (net a)) b b' -> world port0 isnA isnB a b'.
End World.

(** ** The segments inside datagrams *)

(** The datagram that carries one of [segs] from [ip]:[p] to [ip']:[p'], as
    [wrap_tcp_in_ip] makes it. *)
Definition carried (ip p ip' p' : Z) (segs : list TCPSegment.t) (d : IPv4Datagram.t) : Prop :=
  exists seg l, In seg segs /\ TCPOverIPv4Adapter.fits seg /\
    d = IPv4Datagram.mk (TCPOverIPv4Adapter.ip_header ip ip' seg) l /\
    TCPSegment.serialize (TCPOverIPv4Adapter.with_ports seg p p')
      (IPv4Header.pseudo_cksum (TCPOverIPv4Adapter.ip_header ip ip' seg)) = Ok l.

Lemma carried_incl ip p ip' p' segs segs' d : incl segs segs' -> carried ip p ip' p' segs d -> carried ip p ip' p' segs' d.
Proof. intros Hi (seg & l & Hin & H). exists seg, l. split; [by apply Hi|done]. Qed.

(** On its way the parts that matter to TCP do not change. *)
Lemma travels_header d0 d :
  travels d0 d ->
  IPv4Header.src (IPv4Datagram._header d) = IPv4Header.src (IPv4Datagram._header d0) /\
  IPv4Header.dst (IPv4Datagram._header d) = IPv4Header.dst (IPv4Datagram._header d0) /\
  IPv4Header.pseudo_cksum (IPv4Datagram._header d) = IPv4Header.pseudo_cksum (IPv4Datagram._header d0).
Proof.
  intros [E _]. split_and!.
  - exact (f_equal IPv4Header.src E).
  - exact (f_equal IPv4Header.dst E).
  - exact (f_equal IPv4Header.pseudo_cksum E).
Qed.

(** The segment that such a datagram holds. *)
Lemma carried_segment ip p ip' p' segs d0 d b seg :
  is_u32 ip -> is_u32 ip' -> is_u16 p -> is_u16 p' ->
  carried ip p ip' p' segs d0 -> travels d0 d -> BufferList.wf (IPv4Datagram._payload d) ->
  BufferList.to_buffer (IPv4Datagram._payload d) = Ok b ->
  TCPSegment.parse TCPSegment.default b (IPv4Header.pseudo_cksum (IPv4Datagram._header d)) = (seg, NoError) ->
  exists seg0, In seg0 segs /\ Transfer.same_wire seg seg0 /\
    TCPHeader.ack (TCPSegment.header seg) = TCPHeader.ack (TCPSegment.header seg0) /\
    TCPHeader.sport (TCPSegment.header seg) = p /\ TCPHeader.dport (TCPSegment.header seg) = p'.
Proof.
  intros Hi Hi' Hp Hp' (seg0 & l & Hin & [Hwf Hlen] & -> & El) Ht Hb Eb Ep. exists seg0. split; [done|].
  destruct (travels_header _ _ Ht) as (_ & _ & Ec). rewrite Ec in Ep. clear Ec. destruct Ht as [_ Hpl]. cbn [IPv4Datagram._payload] in Hpl.
  set (seg' := TCPOverIPv4Adapter.with_ports seg0 p p') in *. set (h := TCPOverIPv4Adapter.ip_header ip ip' seg0) in *.
  assert (Hwf' : TCPHeader.wf (TCPSegment._header seg')) by (destruct Hwf; by split).
  pose proof (TCPOverIPv4Adapter.pseudo_cksum_small h Hi Hi' ltac:(change (IPv4Header.proto h) with 6; lia)) as Hc.
  destruct (TCPSegment.tcp_segment_parse_serialize seg' (IPv4Header.pseudo_cksum h) Hwf' ltac:(lia)) as (l' & El' & _ & Hpar).
  { change (TCPSegment._payload seg') with (TCPSegment.payload seg0). destruct Hwf. lia. }
  rewrite El in El'. apply Ok_inj in El'. subst l'.
  assert (Hbuf : Buffer.wf b /\ Buffer.str b = BufferList.concatenate l).
  { rewrite <- Hpl. destruct (IPv4Datagram._payload d) as [|b1 [|b2 bs]]; [| |done]; injection Eb as <-.
    - split; [by split|done].
    - apply Forall_cons_1 in Hb as [Hb _]. split; [done|]. by rewrite BufferList.concatenate_cons, app_nil_r. }
  destruct (Hpar TCPSegment.default b (proj1 Hbuf) (proj2 Hbuf)) as (seg2 & E2 & Eh & Es).
  change (IPv4Datagram._header (IPv4Datagram.mk h l)) with h in Ep. rewrite E2 in Ep. injection Ep as <-.
  rewrite Eh. unfold Transfer.same_wire. rewrite Eh. split_and!; try done.
Qed.

(** ** What holds on each side *)

(** A connection that was given nothing has no acknowledgment to send. *)
Lemma reach_silent cfg isn c w e d : Connection.reach cfg isn c w e [] d -> TCPReceiver._syn (TCPConnection._receiver c) = false.
Proof.
  remember [] as r eqn:Er. intros Hr. revert Er.
  induction Hr as [|c w e r d Hr IH|c w e r d data Hr IH He|c w e r d Hr IH|c w e r d ms Hr IH Hm|c w e r d seg Hr IH Hack
    |c w e r d n Hr IH|c w e r d Hr IH|c w e r d seg q Hr IH Eq]; intros Er; try (by apply IH); [done|..].
  - unfold TCPConnection.connect. rewrite TCPConnection.send_segments_eq. by apply IH.
  - unfold TCPConnection.write. destruct (ByteStream.write _ _). cbn [fst]. rewrite TCPConnection.send_segments_eq. by apply IH.
  - unfold TCPConnection.end_input_stream. rewrite TCPConnection.send_segments_eq. by apply IH.
  - unfold TCPConnection.tick. rewrite TCPConnection.send_segments_eq. destruct (_ <? _); by apply IH.
  - by destruct r.
  - unfold TCPConnection.destroy. destruct (TCPConnection.active c); [|by apply IH]. rewrite TCPConnection.send_segments_eq. by apply IH.
Qed.

Section Side.
Context {Text : AddressText} {Law : AddressTextLaw Text}.
Context (isn : WrappingInt32) (ip p ip' p' : Z).
Context (Hisn : wi_ok isn) (Hip : is_u32 ip) (Hip' : is_u32 ip') (Hp : is_u16 p) (Hp' : is_u16 p') (Hne : ip <> ip').
Abbreviation cfg := TCPConfig.default.

(** Every datagram on its way carries a segment that one of the two has emitted. *)
Definition mail (own peer : list TCPSegment.t) : IPv4Datagram.t -> Prop :=
  echo (fun d => carried ip p ip' p' own d \/ carried ip' p' ip p peer d).

(** A server that nobody has called yet. *)
Record idle (s : side) : Prop := {
  i_listens : listening s = true;
  i_port : port (FdAdapterConfig.source (FdAdapterBase.config (Ad.base (adapter s)))) = Ok p;
  i_sender : TCPConnection._sender (conn s) = TCPSender.make (TCPConfig.send_capacity cfg) (TCPConfig.rt_timeout cfg) isn;
  i_out : TCPConnection._segments_out (conn s) = [];
  i_emitted : emitted s = [];
  i_received : received s = []
}.

(** An end of the connection. *)
Record talking (s : side) : Prop := {
  t_ends : TCPOverIPv4Adapter.connected ip p ip' p' (Ad.base (adapter s));
  t_called : TCPConnection._connect_called (conn s) = true
}.

(** The host, given what the peer has emitted. *)
Record host_ok (peer : list TCPSegment.t) (s : side) : Prop := {
  h_reach : Connection.reach cfg isn (conn s) (written s) (emitted s) (received s) (given s);
  h_written : zlen (written s) < 2 ^ 62;
  h_typed : Typing.connection_typed (conn s);
  h_received : forall seg, In seg (received s) -> exists seg0, In seg0 peer /\ Transfer.same_wire seg seg0;
  h_state : idle s \/ talking s;
  h_plain : received s = [] -> Forall Typing.plain (emitted s)
}.

(** The adapter and the network thread. *)
Record wires_ok (P : IPv4Datagram.t -> Prop) (s : side) : Prop := {
  x_adapter : adapter_genuine P (adapter s);
  x_net : net_genuine P (net s)
}.

Lemma wires_mono (P Q : IPv4Datagram.t -> Prop) s : (forall d, P d -> Q d) -> wires_ok P s -> wires_ok Q s.
Proof using Type.
  intros HPQ [[H1 H0 H2] [H3 H4 H5 H6 H7 H8 H9]]. pose proof (genuine_bytes_mono P Q HPQ) as Hb.
  assert (Ha : forall a, genuine_answer P a -> genuine_answer Q a) by (intros [l|e]; [|done]; intros [? ?]; split; [done|by apply Hb]).
  split; split.
  - by eapply interface_genuine_mono.
  - done.
  - by eapply Forall_impl.
  - by eapply genuine_router_mono.
  - by eapply Forall_impl.
  - by eapply Forall_impl.
  - intros n. by apply Ha.
  - intros n. by apply Ha.
  - done.
  - done.
Qed.

Lemma mail_mono own own' peer peer' d : incl own own' -> incl peer peer' -> mail own peer d -> mail own' peer' d.
Proof using Type.
  intros H1 H2 (Hw & d0 & Ho & Ht). split; [done|]. exists d0. split; [|done].
  destruct Ho; [left|right]; by eapply carried_incl.
Qed.

Lemma host_mono peer peer' s : incl peer peer' -> host_ok peer s -> host_ok peer' s.
Proof using Type.
  intros Hi []. split; try done. intros seg Hin. destruct (h_received0 seg Hin) as (seg0 & H & ?). exists seg0. split; [by apply Hi|done].
Qed.

(** *** Steps of the owner and of time *)

(** A step that changes the connection only. *)
Lemma conn_step peer s c w d :
  host_ok peer s ->
  Connection.reach cfg isn c w (emitted s) (received s) d -> zlen w < 2 ^ 62 -> Typing.connection_typed c ->
  (idle s -> TCPConnection._sender c = TCPConnection._sender (conn s) /\ TCPConnection._segments_out c = []) ->
  TCPConnection._connect_called c = TCPConnection._connect_called (conn s) ->
  host_ok peer (s <| conn := c |> <| written := w |> <| given := d |>).
Proof using Type.
  intros [] Hr Hw Ht Hi Hc. split; try done. destruct h_state0 as [Hs|[]].
  - left. destruct (Hi Hs) as [E1 E2]. destruct Hs. split; try done. by rewrite <- i_sender0.
  - right. split; [done|]. by rewrite <- t_called0.
Qed.

(** A step of the adapter that leaves its configuration alone. *)
Lemma host_adapter peer s a : Ad.base a = Ad.base (adapter s) -> host_ok peer s -> host_ok peer (s <| adapter := a |>).
Proof using Type.
  intros Eb [H1 H2 H3 H4 H5 H6]. split; try done. unfold listening in *. destruct H5 as [[]|[]]; [left|right]; split; try done.
  - unfold listening. change (adapter (s <| adapter := a |>)) with a. by rewrite Eb.
  - change (adapter (s <| adapter := a |>)) with a. by rewrite Eb.
  - change (adapter (s <| adapter := a |>)) with a. by rewrite Eb.
Qed.

Lemma connect_called_send c : TCPConnection._connect_called (TCPConnection.send_segments c) = TCPConnection._connect_called c.
Proof using Type. by rewrite TCPConnection.send_segments_eq. Qed.

Lemma idle_tick s ms : idle s ->
  TCPConnection._sender (TCPConnection.tick (conn s) ms) = TCPConnection._sender (conn s) /\
  TCPConnection._segments_out (TCPConnection.tick (conn s) ms) = [].
Proof using Type.
  intros []. unfold TCPConnection.tick. rewrite TCPConnection.send_segments_eq.
  cbn [TCPConnection._sender setter TCPConnection.set_time TCPConnection.set_sender]. rewrite i_sender0.
  change (TCPSender.tick (TCPSender.make _ _ _) ms) with (TCPSender.make (TCPConfig.send_capacity cfg) (TCPConfig.rt_timeout cfg) isn).
  change (TCPConfig.MAX_RETX_ATTEMPTS <? _) with false. cbv iota. split; [done|]. cbn. by rewrite i_out0.
Qed.

(** *** Sending *)

Lemma send_ok peer s seg q a r :
  host_ok peer s -> wires_ok (mail (emitted s) peer) s ->
  TCPConnection._segments_out (conn s) = seg :: q -> NetworkInterfaceAdapter.write seg (adapter s) = (a, r) ->
  let s' := s <| conn := (conn s) <| TCPConnection._segments_out := q |> |> <| adapter := a |> <| emitted := emitted s ++ [seg] |> in
  host_ok peer s' /\ wires_ok (mail (emitted s') peer) s'.
Proof using Hip Hip' Hp Hp'.
  intros Hh Hx Eq Ea s'. pose proof Hh as [Hr Hw Ht Hrec Hst Hpl].
  assert (Hm : forall d, mail (emitted s) peer d -> mail (emitted s') peer d).
  { intros d. apply mail_mono; [|apply incl_refl]. intros x Hin. apply in_or_app. by left. }
  apply (wires_mono _ _ _ Hm) in Hx. destruct Hx as [Ha Hn].
  destruct Hst as [Hi|[Hc Hcalled]]; [by rewrite (i_out s Hi) in Eq|].
  assert (Hseg : Typing.typed seg /\ (TCPReceiver._syn (TCPConnection._receiver (conn s)) = false -> Typing.plain seg)).
  { destruct Ht as [_ _ Ho Hp0]. rewrite Eq in Ho, Hp0. split; [by apply Forall_cons_1 in Ho as [? _]|].
    intros Hs. by apply Hp0, Forall_cons_1 in Hs as [? _]. }
  pose proof (Typing.typed_fits seg (proj1 Hseg)) as Hfit.
  destruct (TCPOverIPv4Adapter.wrap_tcp_eq ip p ip' p' _ seg Hc Hip Hip' Hp Hp' Hfit) as (l & El & Ew & Hwf & _).
  destruct (adapter_write_genuine (mail (emitted s') peer) (echo_closed _) seg (adapter s) a r Ha) as [Ha' Eb]; [|exact Ea|].
  { intros seg' d E. rewrite Ew in E. injection E as _ <-. apply echo_origin; [done|]. left. exists seg, l.
    split; [apply in_or_app; right; by left|]. done. }
  split; [|by split]. split.
  - by apply (Connection.c_dequeue cfg isn (conn s)).
  - done.
  - pose proof (Typing.step_typed (conn s) Connection.Dequeue Ht) as Hd. cbn [Connection.step] in Hd. by rewrite Eq in Hd.
  - done.
  - right. split; [cbn; by rewrite Eb|exact Hcalled].
  - intros E. cbn in E |- *. apply Forall_app. split; [by apply Hpl|]. constructor; [|constructor]. apply (proj2 Hseg).
    rewrite E in Hr. exact (reach_silent _ _ _ _ _ _ Hr).
Qed.

(** *** Receiving *)

(** What a segment that comes out of the adapter is. *)
Lemma unwrap_ok peer s d b seg :
  host_ok peer s -> mail (emitted s) peer d -> BufferList.wf (IPv4Datagram._payload d) ->
  TCPOverIPv4Adapter.unwrap_tcp_in_ip d (Ad.base (adapter s)) = (b, Ok (Some seg)) ->
  TCPOverIPv4Adapter.connected ip p ip' p' b /\
  wi_ok (TCPHeader.ackno (TCPSegment.header seg)) /\ is_u16 (TCPHeader.win (TCPSegment.header seg)) /\
  (listening s = true -> TCPHeader.syn (TCPSegment.header seg) = true) /\
  exists seg0, In seg0 peer /\ Transfer.same_wire seg seg0 /\
    TCPHeader.ack (TCPSegment.header seg) = TCPHeader.ack (TCPSegment.header seg0).
Proof using Law Hip Hip' Hp Hp' Hne.
  intros [_ _ _ _ Hst _] (Hwd & d0 & Ho & Ht) Hb Eu.
  destruct (TCPOverIPv4Adapter.unwrap_spec d _ b seg Eu) as ((pl & Epl & Epar) & Hproto & Hlb & Hsrc & Hdst & Hconn & Hlis).
  destruct (travels_header _ _ Ht) as (Es & Ed & _). pose proof (TCPSegment.parse_in_range _ _ _ _ Epar) as (_ & Hack & Hwin).
  assert (Hpeer : carried ip' p' ip p peer d0).
  { destruct Ho as [Ho|Ho]; [|done]. exfalso. destruct Hst as [Hi|[Hc _]].
    - destruct Ho as (x & l & Hin & _). by rewrite (i_emitted s Hi) in Hin.
    - destruct (Hconn (TCPOverIPv4Adapter.c_listen _ _ _ _ _ Hc)) as (_ & _ & Hs). destruct Ho as (x & l & _ & _ & -> & _). rewrite Es in Hs. cbn in Hs.
      destruct Hc as [_ _ _ Hd _]. rewrite Hd in Hs. by injection Hs. }
  destruct (carried_segment ip' p' ip p peer d0 d pl seg Hip' Hip Hp' Hp Hpeer Ht Hb Epl Epar) as (seg0 & Hin & Hsw & Ha & Esp & Edp).
  destruct Hpeer as (x & l & _ & _ & -> & _). cbn in Es, Ed. split; [|split; [done|split; [done|split; [|by exists seg0]]]].
  - destruct Hst as [Hi|[Hc _]]; [|destruct (Hconn (TCPOverIPv4Adapter.c_listen _ _ _ _ _ Hc)) as (-> & _); exact Hc].
    destruct (Hlis (i_listens s Hi)) as (_ & _ & H1 & H2). rewrite Ed, Edp in H1. rewrite Es, Esp in H2.
    destruct (of_ip_port_spec ip p Hip Hp) as (a1 & E1 & E2 & E3). rewrite E1 in H1. apply Ok_inj in H1. subst a1.
    destruct (of_ip_port_spec ip' p' Hip' Hp') as (a2 & E4 & E5 & E6). rewrite E4 in H2. apply Ok_inj in H2. subst a2. by split.
  - intros Hl. by apply Hlis.
Qed.

Lemma called_segment c seg :
  (TCPConnection._connect_called c = true \/ TCPHeader.syn (TCPSegment.header seg) = true /\ TCPHeader.ack (TCPSegment.header seg) = false) ->
  TCPConnection._connect_called (TCPConnection.segment_received c seg) = true.
Proof using Type.
  intros H. pose proof (Connection.segment_received_cases c seg) as [(_ & _ & _ & c2 & _ & ->)|(Hcc & -> & _)].
  - unfold TCPConnection.connect. by rewrite connect_called_send.
  - destruct H as [H|[H1 H2]]; [done|by apply Hcc].
Qed.

Lemma one_of_genuine P frames ans : Forall (genuine_bytes P) frames -> one_of frames ans -> genuine_answer P ans.
Proof using Type.
  intros Hf. destruct ans as [l|e]; [|done]. intros [Hin Hl]. split; [done|]. rewrite List.Forall_forall in Hf. by apply Hf.
Qed.

Lemma receive_ok peer s ans a seg :
  host_ok peer s -> wires_ok (mail (emitted s) peer) s -> (emitted s = [] -> Forall Typing.plain peer) ->
  one_of (Lab7Network.to_host (net s)) ans -> NetworkInterfaceAdapter.read ans (adapter s) = (a, Ok (Some seg)) ->
  let s' := s <| conn := TCPConnection.segment_received (conn s) seg |> <| adapter := a |> <| received := received s ++ [seg] |> in
  host_ok peer s' /\ wires_ok (mail (emitted s') peer) s'.
Proof using Law Hisn Hip Hip' Hp Hp' Hne.
  intros Hh [Ha Hn] Hplain Hans Er s'. pose proof Hh as [Hr Hw Ht Hrec Hst _].
  apply (one_of_genuine _ _ _ (n_host _ _ Hn)) in Hans.
  destruct (adapter_read_genuine _ (echo_closed _) ans (adapter s) a _ Ha Hans Er) as [Ha' [[Hno _]|(d & Hd & Hb & Eu)]]; [by destruct (Hno seg)|].
  destruct (unwrap_ok peer s d _ seg Hh Hd Hb Eu) as (Hc & Hack & Hwin & Hsyn & seg0 & Hin & Hsw & Ea).
  split; [|by split]. split.
  - apply Connection.c_segment; [done|]. intros E. split; [|done]. split; [done|]. intros Hz. exfalso.
    destruct Hst as [Hi|[_ Hcalled]].
    + specialize (Hplain (i_emitted s Hi)). rewrite List.Forall_forall in Hplain. specialize (Hplain seg0 Hin).
      unfold Typing.plain in Hplain. congruence.
    + exact (Connection.reach_started cfg isn ltac:(vm_compute; split; congruence) Hisn _ _ _ _ _ Hr Hw Hcalled Hz).
  - done.
  - by apply (Typing.step_typed (conn s) (Connection.Segment seg)).
  - intros x [Hx|[<-|[]]]%in_app_or; [by apply Hrec|by exists seg0].
  - right. split; [exact Hc|]. apply called_segment. destruct Hst as [Hi|[_ Hcalled]]; [right|by left].
    split; [by apply Hsyn, (i_listens s Hi)|]. specialize (Hplain (i_emitted s Hi)). rewrite List.Forall_forall in Hplain.
    rewrite Ea. by apply Hplain.
  - intros E. cbn in E. by destruct (received s).
Qed.

Lemma receive_nothing_ok peer s ans a :
  host_ok peer s -> wires_ok (mail (emitted s) peer) s ->
  one_of (Lab7Network.to_host (net s)) ans -> NetworkInterfaceAdapter.read ans (adapter s) = (a, Ok None) ->
  host_ok peer (s <| adapter := a |>) /\ wires_ok (mail (emitted s) peer) (s <| adapter := a |>).
Proof using Law.
  intros Hh [Ha Hn] Hans Er. apply (one_of_genuine _ _ _ (n_host _ _ Hn)) in Hans.
  destruct (adapter_read_genuine _ (echo_closed _) ans (adapter s) a _ Ha Hans Er) as [Ha' Hcase].
  assert (Eb : Ad.base a = Ad.base (adapter s)).
  { destruct Hcase as [[_ E]|(d & Hd & _ & Eu)]; [done|]. destruct (unwrap_none d _ _ Eu) as [E|[H1 H2]]; [done|].
    pose proof (TCPOverIPv4Adapter.unwrap_obeys d (Ad.base (adapter s)) Law) as Hob. rewrite Eu in Hob.
    destruct (closed_wf _ (echo_closed _) d Hd) as [[] _]. specialize (Hob ltac:(done)). unfold TCPOverIPv4Adapter.obeys in Hob. cbn in Hob. congruence. }
  split; [by apply host_adapter|by split].
Qed.

Lemma receive_throws_ok peer s ans a e :
  host_ok peer s -> wires_ok (mail (emitted s) peer) s ->
  one_of (Lab7Network.to_host (net s)) ans -> NetworkInterfaceAdapter.read ans (adapter s) = (a, Throw e) ->
  host_ok peer (s <| adapter := a |>) /\ wires_ok (mail (emitted s) peer) (s <| adapter := a |>).
Proof using Law.
  intros Hh [Ha Hn] Hans Er. apply (one_of_genuine _ _ _ (n_host _ _ Hn)) in Hans.
  destruct (adapter_read_genuine _ (echo_closed _) ans (adapter s) a _ Ha Hans Er) as [Ha' Hcase]. split; [|by split].
  apply host_adapter; [|done]. destruct Hcase as [[_ E]|(d & Hd & _ & Eu)]; [done|].
  destruct (closed_wf _ (echo_closed _) d Hd) as [[] _]. by eapply unwrap_throws.
Qed.

(** *** Every step *)

Lemma net_step P s n : wires_ok P s -> net_genuine P n -> wires_ok P (s <| net := n |>).
Proof using Type. intros []. by split. Qed.

Lemma host_net peer s n : host_ok peer s -> host_ok peer (s <| net := n |>).
Proof using Type. intros [H1 H2 H3 H4 H5 H6]. split; try done. destruct H5 as [[]|[]]; [left|right]; by split. Qed.

Lemma move_ok incoming peer s s' :
  host_ok peer s -> wires_ok (mail (emitted s) peer) s -> (emitted s = [] -> Forall Typing.plain peer) ->
  Forall (genuine_bytes (mail (emitted s) peer)) incoming -> move incoming s s' ->
  host_ok peer s' /\ wires_ok (mail (emitted s') peer) s' /\ incl (emitted s) (emitted s').
Proof using Law Hisn Hip Hip' Hp Hp' Hne.
  intros Hh Hx Hplain Hin Hm. pose proof Hh as [Hr Hw Ht Hrec Hst Hpl]. pose proof (fun own peer => echo_closed (fun d => carried ip p ip' p' own d \/ carried ip' p' ip p peer d)) as C.
  assert (Hnot : listening s = false -> idle s -> False) by (intros E Hi; by rewrite (i_listens s Hi) in E).
  destruct Hm as [s data Hl He Hlen|s Hl|s n|s ms Hms|s seg q a r Eq Ea|s ans a seg Hans Er|s ans a Hans Er|s ans a e Hans Er|s ans Hans|s ans Hans|s|s|s|s].
  - split; [|split; [by destruct Hx|apply incl_refl]].
    apply (conn_step peer s (TCPConnection.write (conn s) data).1 (written s ++ take (Z.to_nat (TCPConnection.write (conn s) data).2) data) (given s) Hh).
    + by apply Connection.c_write.
    + exact Hlen.
    + by apply (Typing.step_typed (conn s) (Connection.Write data)).
    + intros Hi. by destruct (Hnot Hl Hi).
    + unfold TCPConnection.write. destruct (ByteStream.write _ data). exact (connect_called_send _).
  - split; [|split; [by destruct Hx|apply incl_refl]]. apply (conn_step peer s (TCPConnection.end_input_stream (conn s)) (written s) (given s) Hh).
    + by apply Connection.c_end.
    + exact Hw.
    + by apply (Typing.step_typed (conn s) Connection.EndInput).
    + intros Hi. by destruct (Hnot Hl Hi).
    + exact (connect_called_send _).
  - split; [|split; [by destruct Hx|apply incl_refl]]. eapply (conn_step peer s _ (written s) _ Hh).
    + by apply Connection.c_read.
    + exact Hw.
    + by apply (Typing.step_typed (conn s) (Connection.Read (Z.of_nat n))).
    + intros Hi. split; [done|]. exact (i_out s Hi).
    + done.
  - destruct (adapter_tick_genuine _ ms (adapter s) (x_adapter _ _ Hx)) as [Ha Eb].
    split; [|split; [by destruct Hx|apply incl_refl]].
    assert (Hc : host_ok peer (s <| conn := TCPConnection.tick (conn s) ms |>)).
    { apply (conn_step peer s (TCPConnection.tick (conn s) ms) (written s) (given s) Hh).
      - by apply Connection.c_tick.
      - exact Hw.
      - by apply (Typing.step_typed (conn s) (Connection.Tick ms)).
      - apply idle_tick.
      - unfold TCPConnection.tick. rewrite connect_called_send. by destruct (_ <? _). }
    refine (host_adapter peer _ _ _ Hc). exact Eb.
  - destruct (send_ok peer s seg q a r Hh Hx Eq Ea) as [H1 H2]. split; [done|]. split; [done|]. intros x Hx0. apply in_or_app. by left.
  - destruct (receive_ok peer s ans a seg Hh Hx Hplain Hans Er) as [H1 H2]. split; [done|]. split; [done|apply incl_refl].
  - destruct (receive_nothing_ok peer s ans a Hh Hx Hans Er) as [H1 H2]. split; [done|]. split; [done|apply incl_refl].
  - destruct (receive_throws_ok peer s ans a e Hh Hx Hans Er) as [H1 H2]. split; [done|]. split; [done|apply incl_refl].
  - split; [by apply host_net|]. split; [|apply incl_refl]. apply net_step; [done|]. apply (host_to_router_sound _ (C _ _)).
    apply (one_of_genuine _ _ _ (ag_sent _ _ (x_adapter _ _ Hx))) in Hans. destruct Hx as [_ []]. by split.
  - split; [by apply host_net|]. split; [|apply incl_refl]. apply net_step; [done|]. apply (internet_to_router_sound _ (C _ _)).
    apply (one_of_genuine _ _ _ Hin) in Hans. destruct Hx as [_ []]. by split.
  - split; [by apply host_net|]. split; [|apply incl_refl]. apply net_step; [done|]. apply router_to_host_sound. apply Hx.
  - split; [by apply host_net|]. split; [|apply incl_refl]. apply net_step; [done|]. apply router_to_internet_sound. apply Hx.
  - split; [by apply host_net|]. split; [|apply incl_refl]. apply net_step; [done|]. apply tick_interface_sound. apply Hx.
  - split; [by apply host_net|]. split; [|apply incl_refl]. apply net_step; [done|]. apply tick_interface_sound. apply Hx.
Qed.
End Side.

(** ** The start *)

Section Start.
Context {Text : AddressText}.

Lemma host_address_ok random : eth_ok (Lab7Network.random_host_ethernet_address random).
Proof using Type. done. Qed.

Lemma start_wires P is_client port0 isn s : starts is_client port0 isn s -> wires_ok P s.
Proof using Type.
  intros [_ (b & first & random & Ea & [Hw Hs] & _) (r1 & r2 & router & host & internet & fd1 & fd2 & errno & Er & [Hw1 Hs1] & [Hw2 Hs2] & En) _ _ _ _]. split.
  - unfold Lab7Network.setup_adapter in Ea. destruct (Lab7Network.address _) as [x|]; [|done]. cbn [result_bind] in Ea.
    destruct (Lab7Network.address _) as [y|]; [|done]. cbn [result_bind] in Ea. injection Ea as <-.
    split; [by apply make_genuine, host_address_ok|done|]. unfold Ad.sent. cbn. rewrite Hs. constructor.
  - rewrite En. split; unfold Lab7Network.to_host, Lab7Network.to_internet; cbn; rewrite ?Hs1, ?Hs2; try done. by eapply setup_router_genuine.
Qed.

Lemma start_base is_client b first random a : Lab7Network.setup_adapter is_client b first random = Ok a -> Ad.base a = b.
Proof using Type.
  unfold Lab7Network.setup_adapter. destruct (Lab7Network.address _) as [x|]; [|done]. cbn [result_bind].
  destruct (Lab7Network.address _) as [y|]; [|done]. by intros [= <-].
Qed.

Lemma client_start port0 isn s : starts true port0 isn s -> wi_ok isn -> host_ok isn client_ip port0 server_ip server_port [] s.
Proof using Type.
  intros [Ec (b & first & random & Ea & _ & Hb) _ Ew Ee Er Eg] Hi. apply start_base in Ea. split.
  - rewrite Ec, Ew, Ee, Er, Eg. apply Connection.c_connect, Connection.c_init.
  - by rewrite Ew.
  - rewrite Ec. by apply Typing.connect_typed, Typing.make_typed.
  - rewrite Er. done.
  - right. split; [by rewrite Ea|]. rewrite Ec. unfold TCPConnection.connect. by rewrite connect_called_send.
  - intros _. rewrite Ee. constructor.
Qed.

Lemma server_start port0 isn s : starts false port0 isn s -> wi_ok isn -> host_ok isn server_ip server_port client_ip port0 [] s.
Proof using Type.
  intros [Ec (b & first & random & Ea & _ & Hl & Hpt) _ Ew Ee Er Eg] Hi. apply start_base in Ea. split.
  - rewrite Ec, Ew, Ee, Er, Eg. apply Connection.c_init.
  - by rewrite Ew.
  - rewrite Ec. by apply Typing.make_typed.
  - rewrite Er. done.
  - left. split; try done; [unfold listening; by rewrite Ea|by rewrite Ea|by rewrite Ec|by rewrite Ec].
  - intros _. rewrite Ee. constructor.
Qed.
End Start.

(** ** Every reachable state *)

Section Reachable.
Context {Text : AddressText} {Law : AddressTextLaw Text}.

(** The two sides give the same account of what is on its way. *)
Lemma mail_swap ip p ip' p' own peer d : mail ip p ip' p' own peer d -> mail ip' p' ip p peer own d.
Proof using Type. intros (Hw & d0 & Ho & Ht). split; [done|]. exists d0. split; [|done]. by destruct Ho; [right|left]. Qed.

Lemma plain_peer isn ip p ip' p' own peer s :
  host_ok isn ip p ip' p' own s -> emitted s = peer -> own = [] -> Forall Typing.plain peer.
Proof using Type.
  intros [_ _ _ Hr _ Hp] <- ->. apply Hp. destruct (received s) as [|seg r]; [done|].
  destruct (Hr seg ltac:(by left)) as (x & [] & _).
Qed.

(** One side moves, the other does not. *)
Lemma side_step isn isn' ip p ip' p' s s' o :
  wi_ok isn -> is_u32 ip -> is_u32 ip' -> is_u16 p -> is_u16 p' -> ip <> ip' ->
  host_ok isn ip p ip' p' (emitted o) s -> host_ok isn' ip' p' ip p (emitted s) o ->
  wires_ok (mail ip p ip' p' (emitted s) (emitted o)) s -> wires_ok (mail ip' p' ip p (emitted o) (emitted s)) o ->
  move (Lab7Network.to_internet (net o)) s s' ->
  (host_ok isn ip p ip' p' (emitted o) s' /\ host_ok isn' ip' p' ip p (emitted s') o) /\
  wires_ok (mail ip p ip' p' (emitted s') (emitted o)) s' /\ wires_ok (mail ip' p' ip p (emitted o) (emitted s')) o.
Proof using Law.
  intros Hisn Hip Hip' Hp Hp' Hne Hs Ho Xs Xo Hm.
  destruct (move_ok isn ip p ip' p' Hisn Hip Hip' Hp Hp' Hne (Lab7Network.to_internet (net o)) (emitted o) s s' Hs Xs) as (H1 & H2 & Hi); [| |exact Hm|].
  - intros E. by apply (plain_peer isn' ip' p' ip p (emitted s) (emitted o) o Ho).
  - eapply Forall_impl; [exact (n_internet _ _ (x_net _ _ Xo))|]. intros l. apply genuine_bytes_mono. intros d. apply mail_swap.
  - split; [split; [done|by eapply host_mono]|]. split; [done|]. eapply wires_mono; [|exact Xo].
    intros d. apply mail_mono; [apply incl_refl|done].
Qed.

Context (port0 : Z) (isnA isnB : WrappingInt32).
Context (Hport : is_u16 port0) (HA : wi_ok isnA) (HB : wi_ok isnB).

Lemma world_ok a b :
  world port0 isnA isnB a b ->
  (host_ok isnA client_ip port0 server_ip server_port (emitted b) a /\
   host_ok isnB server_ip server_port client_ip port0 (emitted a) b) /\
  wires_ok (mail client_ip port0 server_ip server_port (emitted a) (emitted b)) a /\
  wires_ok (mail server_ip server_port client_ip port0 (emitted b) (emitted a)) b.
Proof using Law Hport HA HB.
  induction 1 as [a b Ha Hb|a b a' Hw ((H1 & H2) & H3 & H4) Hm|a b b' Hw ((H1 & H2) & H3 & H4) Hm].
  - rewrite (s_emitted _ _ _ _ Ha), (s_emitted _ _ _ _ Hb).
    split; [split; [by apply client_start|by eapply server_start]|]. split; by eapply start_wires.
  - apply (side_step isnA isnB client_ip port0 server_ip server_port a a' b); try done; vm_compute; split; congruence.
  - destruct (side_step isnB isnA server_ip server_port client_ip port0 b b' a) as ((? & ?) & ? & ?); try done; vm_compute; split; congruence.
Qed.

End Reachable.

(** C2. Two endpoints of the last lab, a client and a server, with the Internet
    between them. In every state that the owners, the two network threads and the
    clocks can bring about, in any order, and whatever the socket pairs and the
    Internet lose, repeat, delay, reorder and refuse to take: what the reader on the server has
    read, followed by what it can still read, is a prefix of what was written on
    the client, and the other way round. (The stream fits the receiver's capacity.)
    The bytes pass through the TCP connection, TCP and IPv4 serialization, the
    host's network interface with its ARP cache, the Ethernet frames, two routers
    and all of it back. *)
Theorem lab7_delivers_prefix `{Law : AddressTextLaw} port0 isnA isnB a b :
  is_u16 port0 -> wi_ok isnA -> wi_ok isnB -> world port0 isnA isnB a b ->
  (zlen (written a) <= TCPConfig.recv_capacity TCPConfig.default ->
   exists n, given b ++ ByteStream.deq (TCPConnection.inbound_stream (conn b)) = take n (written a)) /\
  (zlen (written b) <= TCPConfig.recv_capacity TCPConfig.default ->
   exists n, given a ++ ByteStream.deq (TCPConnection.inbound_stream (conn a)) = take n (written b)).
Proof.
  intros Hp HA HB Hw. destruct (world_ok port0 isnA isnB Hp HA HB a b Hw) as (([Ra _ _ Na _ _] & [Rb _ _ Nb _ _]) & _).
  assert (Hc : is_u64 (TCPConfig.send_capacity TCPConfig.default)) by (vm_compute; split; congruence).
  assert (Hr : 0 < TCPConfig.recv_capacity TCPConfig.default < 2 ^ 31) by (vm_compute; split; congruence).
  split; intros Hl.
  - destruct (Connection.endpoints_prefix _ _ _ _ _ _ _ _ _ _ _ _ _ _ Ra Rb Hc HA Hr Hl Nb) as (n & E & _). by exists n.
  - destruct (Connection.endpoints_prefix _ _ _ _ _ _ _ _ _ _ _ _ _ _ Rb Ra Hc HB Hr Hl Na) as (n & E & _). by exists n.
Qed.

(** *** Witness: two bytes from the client to the server *)

(** One step, chosen from outside; [None] when it cannot be taken. *)
Inductive action :=
  | Write (data : list byte)
  | Send
  | Receive (i : nat)
  | FromHost (i : nat)
  | FromInternet (i : nat)
  | ToHost
  | ToInternet.

Definition pick (frames : list (list byte)) (i : nat) : answer (list byte) :=
  match frames !! i with
  | Some l => if zlen l <=? FDWrapper.BUFFER_SIZE then Done l else Failed 11
  | None => Failed 11
  end.

Lemma pick_one_of frames i : one_of frames (pick frames i).
Proof.
  unfold pick. destruct (frames !! i) as [l|] eqn:E; [|done]. destruct (Z.leb_spec (zlen l) FDWrapper.BUFFER_SIZE); [|done].
  split; [|done]. apply list_elem_of_In. by eapply list_elem_of_lookup_2.
Qed.

Section Run.
Context {Text : AddressText}.

Definition act (incoming : list (list byte)) (x : action) (s : side) : option side :=
  match x with
  | Write data =>
      let c := TCPConnection.write (conn s) data in
      let w := written s ++ take (Z.to_nat c.2) data in
      if listening s || ByteStream.input_ended (TCPSender.stream_in (TCPConnection._sender (conn s))) || negb (zlen w <? 2 ^ 62) then None
      else Some (s <| conn := c.1 |> <| written := w |>)
  | Send =>
      match TCPConnection._segments_out (conn s) with
      | [] => None
      | seg :: q =>
          match NetworkInterfaceAdapter.write seg (adapter s) with
          | (a, Ok _) => Some (s <| conn := (conn s) <| TCPConnection._segments_out := q |> |> <| adapter := a |> <| emitted := emitted s ++ [seg] |>)
          | (_, Throw _) => None
          end
      end
  | Receive i =>
      match NetworkInterfaceAdapter.read (pick (Lab7Network.to_host (net s)) i) (adapter s) with
      | (a, Ok (Some seg)) => Some (s <| conn := TCPConnection.segment_received (conn s) seg |> <| adapter := a |> <| received := received s ++ [seg] |>)
      | (a, Ok None) => Some (s <| adapter := a |>)
      | (_, Throw _) => None
      end
  | FromHost i =>
      Some (s <| net := (Lab7Network.host_to_router ((net s) <| Lab7Network.k_host := fun _ => pick (Ad.sent (adapter s)) i |>)).1 |>)
  | FromInternet i =>
      Some (s <| net := (Lab7Network.internet_to_router ((net s) <| Lab7Network.k_internet := fun _ => pick incoming i |>)).1 |>)
  | ToHost => Some (s <| net := (Lab7Network.router_to_host (net s)).1 |>)
  | ToInternet => Some (s <| net := (Lab7Network.router_to_internet (net s)).1 |>)
  end.

Lemma act_move incoming x s s' : act incoming x s = Some s' -> move incoming s s'.
Proof using Type.
  destruct x as [data| |i|i|i| |]; cbn [act].
  - destruct (listening s) eqn:E1; [done|]. destruct (ByteStream.input_ended _) eqn:E2; [done|]. cbn [orb].
    destruct (Z.ltb_spec (zlen (written s ++ take (Z.to_nat (TCPConnection.write (conn s) data).2) data)) (2 ^ 62)); [|done].
    intros [= <-]. by apply m_write.
  - destruct (TCPConnection._segments_out (conn s)) as [|seg q] eqn:Eq; [done|].
    destruct (NetworkInterfaceAdapter.write seg (adapter s)) as [a [[]|]] eqn:Ea; [|done]. intros [= <-]. by eapply m_send.
  - destruct (NetworkInterfaceAdapter.read _ (adapter s)) as [a [[seg|]|]] eqn:Ea; [| |done]; intros [= <-].
    + eapply m_receive; [|exact Ea]. apply pick_one_of.
    + eapply m_receive_nothing; [|exact Ea]. apply pick_one_of.
  - intros [= <-]. apply m_from_host, pick_one_of.
  - intros [= <-]. apply m_from_internet, pick_one_of.
  - intros [= <-]. apply m_to_host.
  - intros [= <-]. apply m_to_internet.
Qed.

(** A schedule; [true]: the client. *)
Fixpoint run (l : list (bool * action)) (a b : side) : option (side * side) :=
  match l with
  | [] => Some (a, b)
  | (true, x) :: l => match act (Lab7Network.to_internet (net b)) x a with Some a => run l a b | None => None end
  | (false, x) :: l => match act (Lab7Network.to_internet (net a)) x b with Some b => run l a b | None => None end
  end.

Lemma run_world port0 isnA isnB l a b a' b' :
  world port0 isnA isnB a b -> run l a b = Some (a', b') -> world port0 isnA isnB a' b'.
Proof using Type.
  revert a b. induction l as [|[[] x] l IH]; intros a b Hw; cbn [run]; [by intros [= <- <-]|..].
  - destruct (act _ x a) as [a1|] eqn:E; [|done]. apply IH. eapply w_client; [done|]. by eapply act_move.
  - destruct (act _ x b) as [b1|] eqn:E; [|done]. apply IH. eapply w_server; [done|]. by eapply act_move.
Qed.
End Run.

Import SockaddrIn.
Definition sample_fd (n : Z) : PacketDevice.t := Sample.device n.

Definition sample_side (is_client : bool) : option side :=
  let base := FdAdapterBase.mk (if is_client then FdAdapterConfig.mk (sockaddr_of client_ip 5000) (sockaddr_of server_ip server_port) 0 0
                                else FdAdapterConfig.mk (sockaddr_of 0 server_port) (sockaddr_of 0 0) 0 0) (negb is_client) in
  let c := TCPConnection.make TCPConfig.default (mkWrappingInt32 (if is_client then 7 else 9)) in
  match Lab7Network.setup_adapter is_client base (sample_fd 3) (fun _ => if is_client then 1 else 2),
        Lab7Network.setup_router is_client (fun _ => 3) (fun _ => if is_client then 4 else 5) with
  | Ok a, Ok (router, host, internet) =>
      Some (mk (if is_client then TCPConnection.connect c else c) a
        (Lab7Network.mk router host internet (sample_fd 4) (sample_fd 5) (fun _ => Failed 11) (fun _ => Failed 11)) [] [] [] [])
  | _, _ => None
  end.

Lemma sample_starts is_client s :
  sample_side is_client = Some s -> starts is_client 5000 (mkWrappingInt32 (if is_client then 7 else 9)) s.
Proof.
  unfold sample_side. destruct (Lab7Network.setup_adapter _ _ _ _) as [a|] eqn:Ea; [|done].
  destruct (Lab7Network.setup_router _ _ _) as [[[r h] i]|] eqn:Er; [|done]. intros [= <-]. split; try done.
  - do 3 eexists. split; [exact Ea|]. split; [split; [exact (Sample.device_whole 3)|done]|]. destruct is_client; split; vm_compute; reflexivity.
  - do 8 eexists. split; [exact Er|]. split; [split; [exact (Sample.device_whole 4)|done]|]. split; [split; [exact (Sample.device_whole 5)|done]|done].
Qed.

(** The handshake, with the four address resolutions it needs, and one segment of
    data, which the Internet repeats and delivers before the acknowledgment sent
    earlier. *)
Definition schedule : list (bool * action) :=
  [(true, Send); (true, FromHost 0); (true, ToHost); (true, Receive 0); (true, FromHost 1); (true, ToInternet);
   (false, FromInternet 0); (false, ToInternet); (true, FromInternet 0); (true, ToInternet);
   (false, FromInternet 1); (false, ToHost); (false, Receive 0); (false, FromHost 0); (false, ToHost); (false, Receive 1);
   (false, Send); (false, FromHost 1); (false, ToInternet); (true, FromInternet 1); (true, ToHost); (true, Receive 1);
   (true, Send); (true, Write [x68; x69]); (true, Send); (true, FromHost 2); (true, FromHost 3); (true, ToInternet); (true, ToInternet);
   (false, FromInternet 3); (false, FromInternet 2); (false, FromInternet 3);
   (false, ToHost); (false, ToHost); (false, ToHost); (false, Receive 2); (false, Receive 3); (false, Receive 4)].

Definition demo : option (side * side) :=
  match sample_side true, sample_side false with Some a, Some b => run schedule a b | _, _ => None end.

Lemma demo_world a b : demo = Some (a, b) -> world 5000 (mkWrappingInt32 7) (mkWrappingInt32 9) a b.
Proof.
  pose proof (sample_starts true) as Ha. pose proof (sample_starts false) as Hb. unfold demo. generalize schedule. intros l.
  destruct (sample_side true) as [a0|]; [|done]. destruct (sample_side false) as [b0|]; [|done].
  specialize (Ha a0 eq_refl). specialize (Hb b0 eq_refl). intros Hr. exact (run_world _ _ _ l a0 b0 a b (w_start _ _ _ _ _ Ha Hb) Hr).
Qed.

Lemma lab7_delivers_prefix_witness : exists a b, demo = Some (a, b) /\ written a = [x68; x69] /\
  given b ++ ByteStream.deq (TCPConnection.inbound_stream (conn b)) = [x68; x69] /\
  exists n, given b ++ ByteStream.deq (TCPConnection.inbound_stream (conn b)) = take n (written a).
Proof.
  assert (H : option_map (fun ab : side * side => (written ab.1, given ab.2 ++ ByteStream.deq (TCPConnection.inbound_stream (conn ab.2)))) demo
    = Some ([x68; x69], [x68; x69])) by (by vm_compute).
  pose proof demo_world as Hw. destruct demo as [[a b]|]; [|done]. cbn [option_map fst snd] in H. injection H as Ea Eb.
  exists a, b. split; [done|]. split; [done|]. split; [done|].
  refine (proj1 (lab7_delivers_prefix 5000 (mkWrappingInt32 7) (mkWrappingInt32 9) a b _ _ _ (Hw a b eq_refl)) _);
    [vm_compute; split; congruence..|]. rewrite Ea. by vm_compute.
Defined.

End Lab7World.
