(* ===== verification/tcp_programs.v ===== *)
(** The programs that run the TCP connection of the library between standard input
    and output: [main] of [apps/tcp_udp.cc], [apps/tcp_ipv4.cc] and
    [apps/tcp_ip_ethernet.cc], from the command line to the end.

    A process has two threads once it is connected: the owner copies streams and
    the other one runs the connection. They share the socket pair and nothing
    else that matters, so that the model runs each of them for any number of
    rounds; what the pair does is a hypothesis of the theorems. (At its end the
    second thread also shuts down the owner's end, which counts as a read and a
    write of that object.) What the kernel answers, the times and the random
    numbers come from outside. The destructors that close the descriptors when
    [main] returns are left out.

    What is shown: what one program prints is a prefix of what the other one has
    read. *)

From Stdlib Require Import SpecFloat.
From S2P Require Import prelude effects std_strings wrapping_integers buffer tcp_segment byte_stream tcp_sender transfer tcp_connection connection ethernet address file_descriptor socket eventloop fd_adapter adapters typing bidirectional_stream_copy tcp_sponge_socket sockets command_line.

Module TcpPrograms.
Import EventLoop TCPSpongeSocket.
Module Copy := BidirectionalStreamCopy.

(** ** A process *)

(** What the kernel will answer to the calls on a descriptor. *)
Record answers := mk_answers {
  a_reads : nat -> answer (list byte);
  a_writes : nat -> answer Z;
  a_calls : nat -> answer Z
}.
Definition descriptor (w : FDWrapper.t) (a : answers) : FileDescriptor.t := FileDescriptor.mk w (a_reads a) (a_writes a) (a_calls a) [] [].

(** How a process ends: it goes on, it has returned a status, or an exception has
    left the second thread. *)
Inductive status := Running | Exited (code : Z) | Terminated.

(** What happens outside: the answers for the two ends of the socket pair, the
    standard input and output and the reads and writes of the datagram device
    (which may fail or take less than they are offered), the initial sequence
    number, and the rounds of the loops with their times. *)
Record outside {I : Type} := mk_outside {
  o_owner : answers;
  o_thread : answers;
  o_stdin : answers;
  o_stdout : answers;
  o_datagrams : nat -> I;
  o_sends : nat -> Z -> answer Z;
  o_isn : WrappingInt32;
  o_time1 : Z;
  o_rounds1 : list Round;
  o_time2 : Z;
  o_rounds2 : list Round;
  o_polls : list (list (Z * Z) -> Z -> answer (Z * list Z))
}.
Arguments outside : clear implicits.

Definition STDIN_FILENO : Z := 0.
Definition STDOUT_FILENO : Z := 1.
Definition _input {I} (o : outside I) : FileDescriptor.t := descriptor (FDWrapper.mk STDIN_FILENO false false 0 0) (o_stdin o).
Definition _output {I} (o : outside I) : FileDescriptor.t := descriptor (FDWrapper.mk STDOUT_FILENO false false 0 0) (o_stdout o).

(** A process that has its socket: the configuration, the state of the second
    thread, that of the owner's loop, and the status. *)
Record session {A I : Type} := mk_session {
  s_config : TCPConfig.t;
  s_filt : FdAdapterConfig.t;
  s_role : role;
  s_socket : TCPSpongeSocket.t A I;
  s_copy : Copy.t;
  s_status : status
}.
Arguments session : clear implicits.

Inductive process (A I : Type) :=
  | Printed (code : Z) (cout : string)
  | Failed (e : exn) (k : Kernel.t)
  | Undefined
  | Session (k : Kernel.t) (x : session A I).
Arguments Printed {A I} _ _.
Arguments Failed {A I} _ _.
Arguments Undefined {A I}.
Arguments Session {A I} _ _.

Section Process.
Context {A I : Type} `{FdAdapter A I}.

(** [TCPSpongeSocket(AdaptT &&)] *)
Definition construct (adapter : A) (o : outside I) : M Kernel.t (TCPSpongeSocket.t A I) :=
  pair <- Socket.socket_pair_helper Socket.SOCK_STREAM;;
  let '(first, second) := pair in
  owner <- or_cleanup (Socket.local_of_fd first) (destroy_fd second);;
  thread <- or_cleanup (Socket.local_of_fd second) (destroy_fd owner);;
  let '(s, r) := make (descriptor owner (o_owner o), descriptor thread (o_thread o)) adapter (o_datagrams o) in
  or_cleanup (lift r;; ret s) (destroy_fd thread;; destroy_fd owner).

(** [connect] or [listen_and_accept], as [r] says. *)
Definition establish (r : role) (c_fsm : TCPConfig.t) (c_filt : FdAdapterConfig.t) (o : outside I) : M (list (Rule (TCPSpongeSocket.t A I)) * TCPSpongeSocket.t A I) bool :=
  match r with
  | Client => connect c_fsm (o_isn o) c_filt (o_time1 o) (o_rounds1 o)
  | Server => listen_and_accept c_fsm (o_isn o) c_filt (o_time1 o) (o_rounds1 o)
  end.

(** After the loop of the owner: [wait_until_closed], then the thread is joined; after
    an exception the destructor of the socket joins it. *)
Definition finish (copied : result bool) (c : Copy.t) (thread : result bool) : Copy.t * status :=
  match thread, copied with
  | Throw _, _ => (c, Terminated)
  | Ok ended, Throw _ => (c, if ended then Exited 1 else Running)
  | Ok _, Ok false => (c, Running)
  | Ok ended, Ok true =>
      let '(c, r) := Copy.on_socket (FileDescriptor.shutdown FDWrapper.SHUT_RDWR) c in
      (c, if ended then match r with Throw _ => Exited 1 | Ok _ => Exited 0 end else Running)
  end.

(** The rest of [main]. *)
Definition converse (r : role) (c_fsm : TCPConfig.t) (c_filt : FdAdapterConfig.t) (o : outside I) (s : TCPSpongeSocket.t A I) : session A I :=
  let idle := Copy.mk (owner s) (_input o) (_output o) (ByteStream.make Copy.buffer_size) (ByteStream.make Copy.buffer_size) false false in
  match establish r c_fsm c_filt o ([], s) with
  | ((_, s), Throw _) => mk_session _ _ c_fsm c_filt r s idle (Exited 1)
  | ((_, s), Ok false) => mk_session _ _ c_fsm c_filt r s idle Running
  | (x, Ok true) =>
      let '((_, s), thread) := _tcp_main (o_time2 o) (o_rounds2 o) x in
      let '((_, c), copied) := Copy.bidirectional_stream_copy (o_polls o) (owner x.2) (_input o) (_output o) in
      let '(c, st) := finish copied c thread in
      mk_session _ _ c_fsm c_filt r s c st
  end.

(** [main] after the number of arguments was checked: [config] is the result of
    [get_config], and an exception is caught. *)
Definition run_main {C} (config : CommandLine.outcome C) (body : C -> M Kernel.t (session A I)) (k : Kernel.t) : process A I :=
  match config with
  | CommandLine.Done c => match body c k with (k, Ok x) => Session k x | (k, Throw e) => Failed e k end
  | CommandLine.Exit code cout => Printed code cout
  | CommandLine.Exception e => Failed e k
  | CommandLine.OutOfBounds | CommandLine.Undefined => Undefined
  end.
End Process.

(** ** The three programs *)

Section Programs.
Context {R : Address.Resolver} (strtof : string -> spec_float).
#[local] Existing Instance resolver_text.

Definition role_of (listen : bool) : role := if listen then Server else Client.

(** The first check of [main]. *)
Definition missing (lines argv : list string) : option string :=
  if (length argv <? 3)%nat then Some (CommandLine.show_usage lines (hd "" argv) (Some "ERROR: required arguments are missing.")) else None.

(** A new adapter. *)
Definition new_base : result FdAdapterBase.t :=
  let* source := Address.of_numeric "0" 0 in
  let* destination := Address.of_numeric "0" 0 in
  Ok (FdAdapterBase.mk (FdAdapterConfig.mk source destination 0 0) false).

(** [rand]: the numbers that the generator of the loss rates produces. *)
Definition udp_main (rand : nat -> Z) (argv : list string) (o : outside (answer (Address.t * list byte))) (k : Kernel.t)
    : process LossyFdAdapter.t _ :=
  match missing CommandLine.udp_lines argv with
  | Some text => Printed 1 text
  | None =>
      run_main (CommandLine.udp_config strtof argv) (fun c =>
        let '(c_fsm, c_filt, listen) := c in
        udp_sock <- Socket.make_udp;;
        (when listen do Socket.bind udp_sock (FdAdapterConfig.source c_filt));;
        base <- lift new_base;;
        s <- construct (LossyFdAdapter.mk rand (TCPOverUDPSocketAdapter.mk base udp_sock (o_sends o) [])) o;;
        ret (converse (role_of listen) c_fsm c_filt o s)) k
  end.

(** [random]: what [random_device] returns for the port. *)
Definition ipv4_main (random : Z) (rand : nat -> Z) (argv : list string) (o : outside (answer (list byte))) (k : Kernel.t)
    : process LossyFdAdapter.t _ :=
  match missing CommandLine.ipv4_lines argv with
  | Some text => Printed 1 text
  | None =>
      run_main (CommandLine.ipv4_config strtof random argv) (fun c =>
        let '(c_fsm, c_filt, listen, tun_dev_name) := c in
        tun <- TunTapFD.make_tun (default CommandLine.TUN_DFLT tun_dev_name);;
        base <- lift new_base;;
        s <- construct (LossyFdAdapter.mk rand (TCPOverIPv4OverTunFdAdapter.mk base (PacketDevice.mk tun (o_sends o) []))) o;;
        ret (converse (role_of listen) c_fsm c_filt o s)) k
  end.

(** [random_bytes]: what [random_device] returns for the Ethernet address. *)
Definition ethernet_main (random : Z) (random_bytes : nat -> Z) (argv : list string) (o : outside (answer (list byte))) (k : Kernel.t)
    : process TCPOverIPv4OverEthernetAdapter.t _ :=
  match missing CommandLine.ethernet_lines argv with
  | Some text => Printed 1 text
  | None =>
      let local_ethernet_address := random_private_ethernet_address random_bytes in
      run_main (CommandLine.ethernet_config random argv) (fun c =>
        let '(c_fsm, c_filt, next_hop, tap_dev_name) := c in
        tap <- TunTapFD.make_tap tap_dev_name;;
        base <- lift new_base;;
        adapter <- lift (TCPOverIPv4OverEthernetAdapter.make base (PacketDevice.mk tap (o_sends o) []) local_ethernet_address (FdAdapterConfig.source c_filt) next_hop);;
        s <- construct adapter o;;
        ret (converse Client c_fsm c_filt o s)) k
  end.

(** The constructors of [CS144TCPSocket] and [FullStackSocket]. *)
Definition CS144_make (o : outside (answer (list byte))) : M Kernel.t (TCPSpongeSocket.t TCPOverIPv4OverTunFdAdapter.t (answer (list byte))) :=
  tun <- TunTapFD.make_tun "tun144";;
  base <- lift new_base;;
  construct (TCPOverIPv4OverTunFdAdapter.mk base (PacketDevice.mk tun (o_sends o) [])) o.
Definition FullStack_make (random : nat -> Z) (o : outside (answer (list byte)))
    : M Kernel.t (TCPSpongeSocket.t TCPOverIPv4OverEthernetAdapter.t (answer (list byte))) :=
  tap <- TunTapFD.make_tap "tap10";;
  base <- lift new_base;;
  adapter <- lift (FullStack_adapter base (PacketDevice.mk tap (o_sends o) []) random);;
  construct adapter o.
End Programs.

(** ** One process *)

(** What a process has read from its input and what it has printed. *)
Abbreviation stdin x := (FileDescriptor.h_read (Copy._input (s_copy x))).
Abbreviation stdout x := (FileDescriptor.h_written (Copy._output (s_copy x))).

Section Run.
Context {A I : Type} `{FdAdapterLaw A I}.

(** The constructor makes a new socket on the adapter. *)
Lemma construct_fresh adapter o k k' (s : TCPSpongeSocket.t A I) : construct adapter o k = (k', Ok s) ->
  Sockets.fresh s /\ _datagram_adapter s = adapter /\ k_datagrams s = o_datagrams o /\
  FileDescriptor.h_read (owner s) = [] /\ FileDescriptor.h_written (owner s) = [].
Proof using Type.
  unfold construct. intros ([first second] & k1 & _ & E)%bind_ok. apply bind_ok in E as (w1 & k2 & _ & E).
  apply bind_ok in E as (w2 & k3 & _ & E). unfold make, zoom in E. cbn [_thread_data] in E.
  destruct (FileDescriptor.set_blocking_history false (descriptor w2 (o_thread o))) as [H1 H2].
  destruct (FileDescriptor.set_blocking false _) as [d r]. cbn [fst] in H1, H2.
  unfold or_cleanup, bind, lift, ret in E. destruct r as [n|e]; [|done]. injection E as _ <-.
  split; [|done]. by split.
Qed.

(** What one process has done: its second thread is that of [life], and its owner
    copies. *)
Lemma converse_spec r c_fsm c_filt o (s : TCPSpongeSocket.t A I) :
  _tcp s = None -> FileDescriptor.h_read (owner s) = [] -> FileDescriptor.h_written (owner s) = [] ->
  let x := converse r c_fsm c_filt o s in
  (exists rs res, life r c_fsm (o_isn o) c_filt (o_time1 o) (o_rounds1 o) (o_time2 o) (o_rounds2 o) ([], s) = ((rs, s_socket x), res)) /\
  Copy.copying (s_copy x) /\ s_config x = c_fsm /\ s_filt x = c_filt /\ s_role x = r.
Proof using Type.
  intros Et E1 E2 x.
  assert (Ho : owner (establish r c_fsm c_filt o ([], s)).1.2 = owner s)
    by exact (Sockets.establish_owner c_fsm (o_isn o) r c_filt (o_time1 o) (o_rounds1 o) s Et).
  assert (Hi : Copy.copying (Copy.mk (owner s) (_input o) (_output o) (ByteStream.make Copy.buffer_size) (ByteStream.make Copy.buffer_size) false false)).
  { split; (split; [by apply ByteStream.make_wf|]); cbn; by rewrite ?E1, ?E2. }
  change (life r c_fsm (o_isn o) c_filt (o_time1 o) (o_rounds1 o) (o_time2 o) (o_rounds2 o)) with
    (bind (establish r c_fsm c_filt o) (fun established => if negb established then ret false else _tcp_main (o_time2 o) (o_rounds2 o))).
  subst x. unfold converse, bind at 1. destruct (establish r c_fsm c_filt o ([], s)) as [[rs s1] [[|]|e]];
    cbn [negb fst snd] in *; [|split; [by do 2 eexists|done]|split; [by do 2 eexists|done]].
  destruct (_tcp_main _ _ (rs, s1)) as [[rs2 s2] thread]. rewrite Ho.
  destruct (Copy.bidirectional_stream_copy _ _ _ _) as [[rs3 c] copied] eqn:Ec.
  apply Copy.copy_copying in Ec; [|done..].
  assert (Hf : Copy.copying (finish copied c thread).1).
  { unfold finish. destruct thread as [ended|], copied as [[|]|]; try done. unfold Copy.on_socket, zoom.
    destruct (FileDescriptor.shutdown_history FDWrapper.SHUT_RDWR (Copy.socket c)) as [H1 H2].
    destruct (FileDescriptor.shutdown _ _) as [d [u|e]]; destruct Ec as [P1 P2];
      (split; [by eapply Copy.piped_history; [exact P1| |]|by eapply Copy.piped_history; [exact P2| |]]). }
  destruct (finish copied c thread) as [c' st]. split; [by do 2 eexists|done].
Qed.

(** The socket pair inside the process: each end reads, in order, some of what the
    other one has written. *)
Definition paired (x : session A I) : Prop :=
  FileDescriptor.h_read (_thread_data (s_socket x)) `prefix_of` FileDescriptor.h_written (Copy.socket (s_copy x)) /\
  FileDescriptor.h_read (Copy.socket (s_copy x)) `prefix_of` FileDescriptor.h_written (_thread_data (s_socket x)).

(** A server gets no acknowledgment before its SYN, and drops nothing that it has
    received at random. *)
Definition undisturbed (o : outside I) (x : session A I) : Prop :=
  s_role x = Server -> Sockets.no_synack (o_datagrams o) /\ FdAdapterConfig.loss_rate_dn (s_filt x) = 0.

(** A session of a program: a socket was constructed on an adapter that does not
    listen, and the process runs on it. *)
Record runs (o : outside I) (x : session A I) : Prop := {
  r_made : exists r c_fsm c_filt adapter k1 k2 s,
    construct adapter o k1 = (k2, Ok s) /\ FdAdapterBase.listening (fd_base adapter) = false /\ x = converse r c_fsm c_filt o s;
  r_capacity : TCPConfig.send_capacity (s_config x) = TCPConfig.DEFAULT_CAPACITY;
  r_allows : FdAdapterConfig.loss_rate_dn (s_filt x) = 0 -> fd_allows (FdAdapterConfig.loss_rate_dn (s_filt x))
}.

(** The connection of a session has recorded what its socket has, and the owner
    copies between the pair and the standard input and output. *)
Lemma runs_spec o x : runs o x -> undisturbed o x -> paired x -> wi_ok (o_isn o) -> zlen (stdin x) < 2 ^ 62 ->
  (exists c, Connection.reach (s_config x) (o_isn o) c (FileDescriptor.h_read (_thread_data (s_socket x)))
     (h_taken (s_socket x)) (h_given (s_socket x)) (FileDescriptor.h_written (_thread_data (s_socket x)))) /\
  FileDescriptor.h_read (_thread_data (s_socket x)) `prefix_of` stdin x /\
  stdout x `prefix_of` FileDescriptor.h_written (_thread_data (s_socket x)) /\
  is_u64 (TCPConfig.send_capacity (s_config x)).
Proof using Type.
  intros [(r & c_fsm & c_filt & adapter & k1 & k2 & s & Ec & El & Ex) Hcap Ha] Hu [P1 P2] Hisn Hlen.
  apply construct_fresh in Ec as (Hf & Ead & Edg & E1 & E2).
  destruct (converse_spec r c_fsm c_filt o s (Sockets.f_tcp _ Hf) E1 E2) as ((rs & res & Elife) & [[_ C1] [_ C2]] & E3 & E4 & E5).
  rewrite <- Ex in *. subst c_fsm c_filt r.
  assert (Hin : FileDescriptor.h_read (_thread_data (s_socket x)) `prefix_of` stdin x) by (etrans; [exact P1|rewrite C1; by eexists]).
  assert (Hr : Sockets.ready (s_role x) (s_filt x) s).
  { unfold Sockets.ready. destruct (s_role x) eqn:Er; [by rewrite Ead|]. rewrite Edg. destruct (Hu Er) as [H1 H2]. split; [done|by apply Ha]. }
  assert (Hc : is_u64 (TCPConfig.send_capacity (s_config x))) by (rewrite Hcap; split; vm_compute; congruence).
  pose proof (Sockets.life_sound (s_config x) (o_isn o) Hc Hisn (s_role x) (s_filt x) (o_time1 o) (o_rounds1 o) (o_time2 o) (o_rounds2 o) s Hf Hr) as Hs.
  rewrite Elife in Hs. cbn [fst snd] in Hs. split; [|split; [done|split; [|done]]].
  - apply Hs. apply prefix_length in Hin. lia.
  - etrans; [|exact P2]. rewrite C2. by eexists.
Qed.
End Run.

(** ** Two programs *)

Inductive app := TcpUdp | TcpIpv4 | TcpIpEthernet.

Definition adapter_of (p : app) : Type :=
  match p with
  | TcpUdp => LossyFdAdapter.t (A := TCPOverUDPSocketAdapter.t)
  | TcpIpv4 => LossyFdAdapter.t (A := TCPOverIPv4OverTunFdAdapter.t)
  | TcpIpEthernet => TCPOverIPv4OverEthernetAdapter.t
  end.
Definition answer_of (p : app) : Type := match p with TcpUdp => answer (Address.t * list byte) | _ => answer (list byte) end.

Section Apps.
Context `{Law : Address.ResolverLaw} (strtof : string -> spec_float).
#[local] Existing Instance resolver_text.

Definition app_adapter (p : app) : FdAdapter (adapter_of p) (answer_of p) :=
  match p with
  | TcpUdp => @LossyFdAdapter.lossy_adapter _ _ TCPOverUDPSocketAdapter.udp_adapter
  | TcpIpv4 => @LossyFdAdapter.lossy_adapter _ _ TCPOverIPv4OverTunFdAdapter.tun_adapter
  | TcpIpEthernet => TCPOverIPv4OverEthernetAdapter.ethernet_adapter
  end.
#[local] Existing Instance app_adapter.
Definition app_law (p : app) : FdAdapterLaw (adapter_of p) (answer_of p) :=
  match p with
  | TcpUdp => @Adapters.lossy_law _ _ _ Adapters.udp_law
  | TcpIpv4 => @Adapters.lossy_law _ _ _ Adapters.tun_law
  | TcpIpEthernet => Adapters.ethernet_law
  end.
#[local] Existing Instance app_law.

Definition app_main (p : app) (random : Z) (rand random_bytes : nat -> Z) (argv : list string)
    : outside (answer_of p) -> Kernel.t -> process (adapter_of p) (answer_of p) :=
  match p with
  | TcpUdp => udp_main strtof rand argv
  | TcpIpv4 => ipv4_main strtof random rand argv
  | TcpIpEthernet => ethernet_main random random_bytes argv
  end.

(** What [run_main] says of a session. *)
Lemma run_main_session {A I C} (config : CommandLine.outcome C) (body : C -> M Kernel.t (session A I)) k k' x :
  run_main config body k = Session k' x -> exists c, config = CommandLine.Done c /\ body c k = (k', Ok x).
Proof using Type.
  unfold run_main. destruct config as [c| | | |]; try done. destruct (body c k) as [k1 [x'|e]] eqn:E; [|done]. intros [= <- <-]. by exists c.
Qed.

Lemma new_base_silent b : new_base = Ok b -> FdAdapterBase.listening b = false.
Proof using Type. unfold new_base. destruct (Address.of_numeric "0" 0); [|done]. by intros [= <-]. Qed.

Lemma app_runs p random rand random_bytes argv o k k' x :
  app_main p random rand random_bytes argv o k = Session k' x -> runs o x.
Proof using Law.
  assert (Hx : forall {A I} `{FdAdapter A I} r c f (o : outside I) (s : TCPSpongeSocket.t A I),
    s_config (converse r c f o s) = c /\ s_filt (converse r c f o s) = f).
  { intros A I Had r c f o0 s. unfold converse. destruct (establish _ _ _ _ _) as [[rs s1] [[|]|e]]; [|done|done].
    destruct (_tcp_main _ _ _) as [[rs2 s2] th]. destruct (Copy.bidirectional_stream_copy _ _ _ _) as [[rs3 c3] cp].
    by destruct (finish cp c3 th). }
  assert (Hb : forall {A I} `{FdAdapterLaw A I} r c f (o : outside I) adapter k1 k2 (s : TCPSpongeSocket.t A I) x,
    construct adapter o k1 = (k2, Ok s) -> FdAdapterBase.listening (fd_base adapter) = false -> x = converse r c f o s ->
    TCPConfig.send_capacity c = TCPConfig.DEFAULT_CAPACITY -> (forall z, z = 0 -> fd_allows z) -> runs o x).
  { intros A I Had Hlaw r c f o0 adapter k1 k2 s x0 Ec El -> Hc Ha. destruct (Hx A I Had r c f o0 s) as [E1 E2].
    split; [by eexists r, c, f, adapter, k1, k2, s|by rewrite E1|by apply Ha]. }
  destruct p; cbn [app_main] in *; unfold udp_main, ipv4_main, ethernet_main; (destruct (missing _ _); [done|]); intros E;
    apply run_main_session in E as ([[[c f] l] d] & Ec & E) || apply run_main_session in E as ([[c f] l] & Ec & E).
  - apply bind_ok in E as (w & k1 & _ & E). apply bind_ok in E as (u & k2 & _ & E). apply bind_ok in E as (b & k3 & Eb & E).
    apply bind_ok in E as (s & k4 & Es & [= _ <-]). injection Eb as _ Eb.
    eapply (Hb _ _ (app_adapter TcpUdp) (app_law TcpUdp)); [exact Es|by apply new_base_silent in Eb|done| |done].
    exact (proj1 (CommandLine.config_capacity strtof random argv) _ _ _ Ec).
  - apply bind_ok in E as (w & k1 & _ & E). apply bind_ok in E as (b & k3 & Eb & E).
    apply bind_ok in E as (s & k4 & Es & [= _ <-]). injection Eb as _ Eb.
    eapply (Hb _ _ (app_adapter TcpIpv4) (app_law TcpIpv4)); [exact Es|by apply new_base_silent in Eb|done| |done].
    exact (proj1 (proj2 (CommandLine.config_capacity strtof random argv)) _ _ _ _ Ec).
  - apply bind_ok in E as (w & k1 & _ & E). apply bind_ok in E as (b & k3 & Eb & E).
    apply bind_ok in E as (a & k4 & [= <- Ea] & E). apply bind_ok in E as (s & k5 & Es & [= _ <-]). injection Eb as _ Eb.
    apply Adapters.make_base in Ea. apply new_base_silent in Eb.
    eapply (Hb _ _ (app_adapter TcpIpEthernet) (app_law TcpIpEthernet)); [exact Es|cbn; by rewrite Ea|done| |done].
    exact (proj2 (proj2 (CommandLine.config_capacity strtof random argv)) _ _ _ _ Ec).
Qed.

(** C1. Two programs, from standard input to standard output. Each is one of
    [tcp_udp], [tcp_ipv4] and [tcp_ip_ethernet], started with any command line, as
    a client or as a server, at any moment of its run; the kernels answer
    anything (a call can fail, a device can refuse a datagram or take a part of
    it), the clocks show anything, the two threads of a process are
    scheduled in any way, and the network loses, duplicates, delays and reorders
    datagrams, but a segment that B's connection is given is one that A's has
    emitted (one whose write to the device did not throw). Then what B has printed is a prefix of what A has read from its
    input. (The socket pair of a process is a pipe in both directions; the stream
    fits B's receive capacity, which is positive and less than 2 GiB; [getaddrinfo]
    and [getnameinfo] do what they document for numeric addresses and ports;
    and a server is not sent an acknowledgment before
    its SYN and does not drop what it receives at random.) *)
Theorem programs_deliver_prefix p randomA randA bytesA argvA oA kA kA' xA q randomB randB bytesB argvB oB kB kB' xB :
  app_main p randomA randA bytesA argvA oA kA = Session kA' xA -> app_main q randomB randB bytesB argvB oB kB = Session kB' xB ->
  wi_ok (o_isn oA) -> wi_ok (o_isn oB) -> paired xA -> paired xB -> undisturbed oA xA -> undisturbed oB xB ->
  0 < TCPConfig.recv_capacity (s_config xB) < 2 ^ 31 -> zlen (stdin xA) <= TCPConfig.recv_capacity (s_config xB) -> zlen (stdin xB) < 2 ^ 62 ->
  (forall seg, In seg (h_given (s_socket xB)) -> exists seg0, In seg0 (h_taken (s_socket xA)) /\ Transfer.same_wire seg seg0) ->
  stdout xB `prefix_of` stdin xA.
Proof using Law.
  intros EA EB HiA HiB PA PB UA UB Hrc HlA HlB Hnet.
  destruct (runs_spec oA xA (app_runs _ _ _ _ _ _ _ _ _ EA) UA PA HiA ltac:(lia)) as ((cA & HrA) & InA & _ & HcA).
  destruct (runs_spec oB xB (app_runs _ _ _ _ _ _ _ _ _ EB) UB PB HiB HlB) as ((cB & HrB) & _ & OutB & _).
  pose proof (prefix_length _ _ InA) as Hlen.
  destruct (Connection.endpoints_prefix _ _ _ _ _ _ _ _ _ _ _ _ _ _ HrA HrB HcA HiA Hrc ltac:(lia) Hnet) as (n & E & _).
  etrans; [exact OutB|]. etrans; [|exact InA]. transitivity (take n (FileDescriptor.h_read (_thread_data (s_socket xA)))).
  - rewrite <- E. by eexists.
  - exists (drop n (FileDescriptor.h_read (_thread_data (s_socket xA)))). by rewrite take_drop.
Qed.
End Apps.

(** *** Witness: two processes of [tcp_udp] *)

Module Demo.
Import Sockets.
#[local] Existing Instance NumericResolver.numeric_resolver.
#[local] Existing Instance NumericResolver.numeric_resolver_law.
#[local] Existing Instance resolver_text.

Definition kernel : Kernel.t := Kernel.mk (fun _ => Done (Kernel.mk_reply 5 1 0 [] 4 (3, 4))) [].
Definition again {X} : answer X := file_descriptor.Failed 11.

(** A descriptor from which [data] can be read once, and which takes two bytes. *)
Definition once (data : list byte) : answers :=
  mk_answers (fun n => if (n =? 0)%nat then Done data else again) (fun _ => Done 2) (fun _ => Done 0).

Definition world (input from_pair to_pair : list byte) (incoming : list (Address.t * list byte)) (isn : Z) (rounds main : list Round)
    (polls : list (list Z)) : outside (answer (Address.t * list byte)) :=
  mk_outside _ (once from_pair) (once to_pair) (once input) (once []) (fun n => match incoming !! n with Some d => Done d | None => again end) (fun _ size => Done size)
    (mkWrappingInt32 isn) 0 rounds 0 main (map (fun r _ _ => Done (1, r)) polls).

Definition hi : list byte := [x68; x69].
Definition argvA : list string := ["tcp_udp"; "0.0.0.2"; "90"].
Definition argvB : list string := ["tcp_udp"; "-l"; "0.0.0.2"; "90"].

(** The client reads two bytes and passes them on; the server prints them. *)
Definition worldA (incoming : list (list byte)) : outside (answer (Address.t * list byte)) :=
  world hi [] hi (map (fun p => (Address.of_pair 2 90, p)) incoming) 7 (send :: map (fun _ => receive) incoming) [send; read_app; send]
    [[1; 0; 0; 0]; [0; 4; 0; 0]].
Definition worldB (incoming : list (list byte)) (rounds main : list Round) : outside (answer (Address.t * list byte)) :=
  world [] hi [] (map (fun p => (Address.of_pair 1 80, p)) incoming) 9 rounds main [[0; 0; 1; 0]; [0; 0; 0; 4]].

Abbreviation run argv o := (app_main (fun _ => S754_nan) TcpUdp 0 (fun _ => 0) (fun _ => 0) argv o kernel).
Definition sent {A} (x : process (LossyFdAdapter.t (A := TCPOverUDPSocketAdapter.t)) A) : list (list byte) :=
  match x with Session _ x => map snd (TCPOverUDPSocketAdapter.sent (LossyFdAdapter._adapter (_datagram_adapter (s_socket x)))) | _ => [] end.

Definition from_b : list (list byte) := Eval vm_compute in sent (run argvB (worldB (sent (run argvA (worldA []))) [receive; send] [])).
Definition from_a : list (list byte) := Eval vm_compute in sent (run argvA (worldA from_b)).

Definition demoA := run argvA (worldA from_b).
Definition demoB := run argvB (worldB from_a [receive; send; receive] [receive; write_app]).

Lemma lossy_no_synack {A I} `{FdAdapter A I} datagrams :
  no_synack (A := A) (I := I) datagrams -> no_synack (A := LossyFdAdapter.t (A := A)) datagrams.
Proof.
  intros Hn n a Ha. specialize (Hn n (LossyFdAdapter._adapter a) Ha). cbn [fd_read LossyFdAdapter.lossy_adapter].
  destruct (Adapters.lossy_only_loses a (datagrams n) TCPSegment.default) as [Hx _].
  destruct (fd_read (datagrams n) (LossyFdAdapter._adapter a)) as [a1 r], (LossyFdAdapter.read (datagrams n) a) as [a' r'].
  by destruct Hx as [_ [->|(-> & _)]].
Qed.

Definition is_client (r : role) : bool := match r with Client => true | Server => false end.

(** What the theorem asks of the two sessions, as a test. *)
Definition check {A1 I1 A2 I2} (xA : session A1 I1) (xB : session A2 I2) : bool :=
  let pairedb := fun thread copy => bool_decide (FileDescriptor.h_read thread `prefix_of` FileDescriptor.h_written (Copy.socket copy)) &&
    bool_decide (FileDescriptor.h_read (Copy.socket copy) `prefix_of` FileDescriptor.h_written thread) in
  pairedb (_thread_data (s_socket xA)) (s_copy xA) && pairedb (_thread_data (s_socket xB)) (s_copy xB) && is_client (s_role xA) &&
  (FdAdapterConfig.loss_rate_dn (s_filt xB) =? 0) &&
  (0 <? TCPConfig.recv_capacity (s_config xB)) && (TCPConfig.recv_capacity (s_config xB) <? 2 ^ 31) &&
  (zlen (stdin xA) <=? TCPConfig.recv_capacity (s_config xB)) && (zlen (stdin xB) <? 2 ^ 62) && bool_decide (stdout xB = hi) &&
  forallb (fun a => existsb (same_wireb a) (h_taken (s_socket xA))) (h_given (s_socket xB)).

Lemma programs_deliver_prefix_witness :
  match demoA, demoB with
  | Session _ xA, Session _ xB => stdout xB = hi /\ stdout xB `prefix_of` stdin xA
  | _, _ => False
  end.
Proof.
  assert (Hc : match demoA, demoB with Session _ xA, Session _ xB => check xA xB | _, _ => false end = true) by (vm_compute; reflexivity).
  destruct demoA as [| | |kA xA] eqn:EA; try discriminate Hc. destruct demoB as [| | |kB xB] eqn:EB; try discriminate Hc.
  unfold check in Hc. rewrite !andb_true_iff, !bool_decide_eq_true, !Z.ltb_lt, Z.leb_le, Z.eqb_eq in Hc.
  destruct Hc as [[[[[[[[[[P1 P2] [P3 P4]] Hr] Hl] H1] H2] H3] H4] H5] H6]. split; [exact H5|].
  refine (programs_deliver_prefix (fun _ => S754_nan) TcpUdp 0 (fun _ => 0) (fun _ => 0) argvA (worldA from_b) kernel kA xA
    TcpUdp 0 (fun _ => 0) (fun _ => 0) argvB (worldB from_a [receive; send; receive] [receive; write_app]) kernel kB xB
    EA EB _ _ (conj P1 P2) (conj P3 P4) _ _ (conj H1 H2) H3 H4 (same_wireb_sound _ _ H6)).
  - split; vm_compute; congruence.
  - split; vm_compute; congruence.
  - intros E. rewrite E in Hr. discriminate Hr.
  - intros _. split; [|exact Hl]. apply lossy_no_synack, udp_no_synack.
    repeat apply Forall_cons_2; [..|apply Forall_nil_2]; (split; [vm_compute; discriminate|vm_compute; reflexivity]).
Defined.
End Demo.
End TcpPrograms.
