(* ===== verification/mains.v ===== *)
(** The other programs, from [main] to the end: [apps/lab7.cc], [apps/webget.cc],
    [apps/tcp_native.cc], [apps/tun.cc], [apps/tcp_benchmark.cc] and
    [apps/network_simulator.cc].

    A main function returns a status, or none while a loop goes on; [Printed] is a
    usage text. Exceptions are caught where the source catches them.

    What is shown: [lab7] sets up a side of the state machine of [lab7_world.v]. *)

From S2P Require Import prelude effects std_strings wrapping_integers buffer tcp_segment byte_stream tcp_sender tcp_connection connection ethernet address network_interface router network_simulator file_descriptor socket eventloop fd_adapter bidirectional_stream_copy tcp_sponge_socket sockets text command_line programs packet_dump tcp_benchmark lab7 lab7_network lab7_world tcp_programs.

(** ** lab7 *)

Module Lab7Program.
Import TCPSpongeSocket TcpPrograms.

Section Program.
Context {R : Address.Resolver}.
#[local] Existing Instance resolver_text.

(** What comes from outside: what the process of a TCP program gets, the random
    numbers for the Ethernet addresses and the port, the network thread's reads
    and writes of the socket pair of frames and of the socket to the Internet, and
    its rounds. *)
Record inputs := mk_inputs {
  i_process : outside (answer (list byte));
  i_router1 : nat -> Z;
  i_router2 : nat -> Z;
  i_host : nat -> Z;
  i_port : Z;
  i_frames : nat -> answer (list byte);
  i_internet : nat -> answer (list byte);
  i_to_host : nat -> Z -> answer Z;
  i_to_internet : nat -> Z -> answer Z;
  i_rounds : list Lab7Network.Round
}.

(** The beginning of [program_body], up to the threads. *)
Definition setup (is_client : bool) (bounce_host bounce_port : string) (i : inputs) : M Kernel.t (TCPSocketLab7.t * Lab7Network.t) :=
  internet_socket <- Socket.make_udp;;
  bounce_address <- lift (Address.of_host bounce_host bounce_port);;
  internet_socket <- Socket.sendto bounce_address (BufferViewList.of_string []) internet_socket;;
  internet_socket <- Socket.sendto bounce_address (BufferViewList.of_string []) internet_socket;;
  internet_socket <- Socket.sendto bounce_address (BufferViewList.of_string []) internet_socket;;
  r <- lift (Lab7Network.setup_router is_client (i_router1 i) (i_router2 i));;
  let '(router, host_side, internet_side) := r in
  pair <- Socket.socket_pair_helper Socket.SOCK_DGRAM;;
  base <- lift new_base;;
  adapter <- lift (Lab7Network.setup_adapter is_client base (PacketDevice.mk pair.1 (o_sends (i_process i)) []) (i_host i));;
  sock <- construct adapter (i_process i);;
  local <- lift (Lab7Network.address (if is_client then Lab7Network.quad 192 168 0 50 else Lab7Network.quad 172 16 0 100));;
  ret (TCPSocketLab7.mk ([], sock) local,
       Lab7Network.mk router host_side internet_side (PacketDevice.mk pair.2 (i_to_host i) []) (PacketDevice.mk internet_socket (i_to_internet i) [])
         (i_frames i) (i_internet i)).

(** What the main thread does first inside its [try]. *)
Definition open_socket (is_client : bool) (port : Z) (isn : WrappingInt32) (time : Z) (rounds : list Round) : M TCPSocketLab7.t bool :=
  address <- lift (Address.of_numeric "172.16.0.100" 1234);;
  if is_client then TCPSocketLab7.connect port address isn time rounds
  else TCPSocketLab7.bind address;; TCPSocketLab7.listen_and_accept isn time rounds.

(** The two threads of the socket and the network thread, after a while. *)
Record t := mk {
  socket : TCPSocketLab7.t;
  copy : Copy.t;
  network : Lab7Network.t;
  ended : status
}.

(** The rest of [program_body]: every exception of the main thread is caught, and
    the network thread is joined. *)
Definition threads (is_client : bool) (i : inputs) (sock : TCPSocketLab7.t) (net : Lab7Network.t) : t :=
  let o := i_process i in
  let '((_, net), network_ended) := Lab7Network.network_loop (i_rounds i) (Lab7Network.rules, net) in
  let joined := match network_ended with Ok false => Running | _ => Exited 0 end in
  let idle := Copy.mk (owner (TCPSocketLab7.socket sock).2) (_input o) (_output o)
                (ByteStream.make Copy.buffer_size) (ByteStream.make Copy.buffer_size) false false in
  match open_socket is_client (i_port i) (o_isn o) (o_time1 o) (o_rounds1 o) sock with
  | (sock, Throw _) => mk sock idle net joined
  | (sock, Ok false) => mk sock idle net Running
  | (sock, Ok true) =>
      let '(inner, thread) := _tcp_main (o_time2 o) (o_rounds2 o) (TCPSocketLab7.socket sock) in
      let '((_, c), copied) := Copy.bidirectional_stream_copy (o_polls o) (owner (TCPSocketLab7.socket sock).2) (_input o) (_output o) in
      let '(c, st) := finish copied c thread in
      mk (sock <| TCPSocketLab7.socket := inner |>) c net (match st with Exited _ => joined | st => st end)
  end.

Definition program_body (is_client : bool) (bounce_host bounce_port : string) (i : inputs) : M Kernel.t t :=
  r <- setup is_client bounce_host bounce_port i;;
  let '(sock, net) := r in
  ret (threads is_client i sock net).

Definition print_usage (argv0 : string) : string :=
  "Usage: " +:+ argv0 +:+ " client HOST PORT [debug]" +:+ Text.newline +:+
  "or     " +:+ argv0 +:+ " server HOST PORT [debug]" +:+ Text.newline.

(** How [main] ends, and the state of the program when it runs. *)
Inductive outcome := Aborted | Printed (code : Z) (cerr : string) | Failed (code : Z) | Ran (x : t).
Definition main (argv : list string) (i : inputs) (k : Kernel.t) : outcome :=
  match Lab7Network.main argv with
  | Lab7Network.Aborted => Aborted
  | Lab7Network.Usage => Printed 1 (print_usage (hd "" argv))
  | Lab7Network.Run is_client host port _ =>
      match program_body is_client host port i k with (_, Ok x) => Ran x | (_, Throw _) => Failed 1 end
  end.
End Program.

(** *** The start of the state machine *)

Section Start.
Context `{Law : Address.ResolverLaw}.
#[local] Existing Instance resolver_text.

Lemma address_pair ip : is_u32 ip -> Lab7Network.address ip = Ok (Address.of_pair ip 0).
Proof using Law. intros Hi. exact (Address.resolve_numeric ip 0 _ Hi ltac:(lia) Address.used_flags_numeric). Qed.

Lemma port_pair ip p : is_u32 ip -> is_u16 p -> Address.port (Address.of_pair ip p) = Ok p.
Proof using Law. intros Hi Hp. unfold Address.port. by rewrite Address.ip_port_of_pair. Qed.

Lemma ip_pair ip p : is_u32 ip -> is_u16 p -> Address.ip (Address.of_pair ip p) = Ok (inet_ntoa ip).
Proof using Law. intros Hi Hp. unfold Address.ip. by rewrite Address.ip_port_of_pair. Qed.

(** The adapter that is set up keeps the configuration it is given. *)
Lemma setup_adapter_base is_client b b' first random a :
  Lab7Network.setup_adapter is_client b first random = Ok a ->
  Lab7Network.setup_adapter is_client b' first random = Ok (fd_set_base b' a).
Proof using Type.
  unfold Lab7Network.setup_adapter. destruct (Lab7Network.address _) as [x|]; [|done]. cbn [result_bind].
  destruct (Lab7Network.address _) as [y|]; [|done]. by intros [= <-].
Qed.

Lemma server_pair : Address.of_numeric "172.16.0.100" 1234 = Ok (Address.of_pair Lab7World.server_ip 1234).
Proof using Law. exact (Address.resolve_numeric Lab7World.server_ip 1234 _ ltac:(vm_compute; intuition congruence) ltac:(lia) Address.used_flags_numeric). Qed.

(** Opening the socket, before the first round: its configuration. *)
Lemma open_socket_first (is_client : bool) port isn time (s : TCPSpongeSocket.t NetworkInterfaceAdapter.t (answer (list byte))) nobody : _tcp s = None -> Address.of_numeric "0" 0 = Ok nobody ->
  let host := if is_client then Lab7World.client_ip else Lab7World.server_ip in
  let server := Address.of_pair Lab7World.server_ip 1234 in
  (TCPSocketLab7.socket (open_socket is_client port isn time [] (TCPSocketLab7.mk ([], s) (Address.of_pair host 0))).1).2 =
  if is_client then Sockets.opened TCPConfig.default isn Client (FdAdapterConfig.mk (Address.of_pair Lab7World.client_ip (u16 port)) server 0 0) s
  else Sockets.opened TCPConfig.default isn Server (FdAdapterConfig.mk server nobody 0 0) s.
Proof using Law.
  intros Et En host server. assert (Hc : is_u32 Lab7World.client_ip) by (vm_compute; intuition congruence).
  assert (Hs : is_u32 Lab7World.server_ip) by (vm_compute; intuition congruence).
  unfold open_socket. rewrite bind_lift, server_pair. destruct is_client.
  - unfold TCPSocketLab7.connect, bind at 1, get. cbn [TCPSocketLab7._local_address]. rewrite bind_lift, ip_pair by (done || lia).
    rewrite bind_lift. unfold Address.of_numeric. rewrite Address.resolve_numeric by (done || apply u16_range || apply Address.used_flags_numeric).
    unfold bind at 1, modify. unfold TCPSocketLab7.in_socket, zoom. cbn [TCPSocketLab7.socket setter TCPSocketLab7.set_local_address].
    set (c_ad := FdAdapterConfig.mk _ _ 0 0). pose proof (Sockets.establish_opened TCPConfig.default isn Client c_ad time s Et) as E.
    cbv iota in E. by destruct (connect _ _ _ _ _ _) as [x r].
  - rewrite (bind_step _ _ _ (TCPSocketLab7.mk ([], s) server) tt).
    2: { unfold TCPSocketLab7.bind, bind at 1, get. cbn [TCPSocketLab7._local_address]. rewrite bind_lift, ip_pair by (done || lia).
         rewrite bind_lift, ip_pair by (done || lia). rewrite String.eqb_refl. cbn [negb]. rewrite bind_lift.
         rewrite bind_lift, port_pair by (done || lia). rewrite bind_lift. unfold Address.of_numeric.
         by rewrite Address.resolve_numeric by (done || lia || apply Address.used_flags_numeric). }
    unfold TCPSocketLab7.listen_and_accept, bind at 1, get. unfold TCPSocketLab7.no_address. rewrite bind_lift, En.
    unfold TCPSocketLab7.in_socket, zoom. cbn [TCPSocketLab7.socket TCPSocketLab7._local_address setter TCPSocketLab7.set_local_address].
    set (c_ad := FdAdapterConfig.mk _ _ 0 0). pose proof (Sockets.establish_opened TCPConfig.default isn Server c_ad time s Et) as E.
    cbv iota in E. by destruct (listen_and_accept _ _ _ _ _ _) as [x r].
Qed.

(** The program sets up a side of the state machine of [lab7_world.v]: after the
    calls that [program_body] makes and with its socket opened, the connection,
    the adapter and the network thread's state are a start of a side, the
    client's from the port it has drawn. The answers that the network thread
    gets to its reads come with the moves of the machine; the datagram sockets
    take frames whole or not at all. *)
Theorem lab7_starts is_client bounce_host bounce_port i k k' sock net isn time :
  PacketDevice.whole (o_sends (i_process i)) -> PacketDevice.whole (i_to_host i) -> PacketDevice.whole (i_to_internet i) ->
  setup is_client bounce_host bounce_port i k = (k', Ok (sock, net)) ->
  let sock' := (TCPSocketLab7.socket (open_socket is_client (i_port i) isn time [] sock).1).2 in
  let net' := net <| Lab7Network.k_host := fun _ => file_descriptor.Failed 11 |> <| Lab7Network.k_internet := fun _ => file_descriptor.Failed 11 |> in
  exists c, _tcp sock' = Some c /\ Lab7World.starts is_client (u16 (i_port i)) isn (Lab7World.mk c (_datagram_adapter sock') net' [] [] [] []).
Proof using Law.
  intros W1 W2 W3 E sock' net'. unfold setup in E. do 5 apply bind_ok in E as (? & ? & _ & E).
  apply bind_ok in E as ([[router host_id] internet_id] & ? & [= <- Er] & E). apply bind_ok in E as (pair & ? & _ & E).
  apply bind_ok in E as (b & ? & [= <- Eb] & E). apply bind_ok in E as (a & ? & [= <- Ea] & E).
  apply bind_ok in E as (s & ? & Es & E). apply bind_ok in E as (local & ? & [= <- El] & [= <- <- <-]).
  apply construct_fresh in Es as (Hf & Ead & _). pose proof (Sockets.f_tcp _ Hf) as Et. pose proof (new_base_silent b Eb) as Hb.
  unfold new_base in Eb. destruct (Address.of_numeric "0" 0) as [nobody|] eqn:En; [|done].
  assert (El' : local = Address.of_pair (if is_client then Lab7World.client_ip else Lab7World.server_ip) 0).
  { unfold Address.of_numeric in El. destruct is_client; rewrite Address.resolve_numeric in El by (apply Address.used_flags_numeric || (vm_compute; intuition congruence)); by injection El as <-. }
  subst local sock'. rewrite (open_socket_first is_client (i_port i) isn time s nobody Et En).
  assert (Hnet : exists random1 random2 router0 host internet fd1 fd2 errno, Lab7Network.setup_router is_client random1 random2 = Ok (router0, host, internet) /\
    Lab7World.fresh fd1 /\ Lab7World.fresh fd2 /\
    net' = Lab7Network.mk router0 host internet fd1 fd2 (fun _ => file_descriptor.Failed errno) (fun _ => file_descriptor.Failed errno)).
  { exists (i_router1 i), (i_router2 i), router, host_id, internet_id, (PacketDevice.mk pair.2 (i_to_host i) []), (PacketDevice.mk x7 (i_to_internet i) []), 11.
    split; [exact Er|]. split; [exact (conj W2 eq_refl)|]. split; [exact (conj W3 eq_refl)|done]. }
  assert (Hc : is_u32 Lab7World.client_ip) by (vm_compute; intuition congruence).
  assert (Hs : is_u32 Lab7World.server_ip) by (vm_compute; intuition congruence).
  clearbody net'. destruct is_client; eexists; (split; [reflexivity|split; [done| |done..]]).
  - eexists _, _, (i_host i). split; [cbn; rewrite Ead; exact (setup_adapter_base true b _ _ _ _ Ea)|]. split; [done|].
    apply Lab7World.start_base in Ea. split; [cbn; by rewrite Ea|exact (Address.ipv4_numeric_of_pair _ _ Hc)|exact (port_pair _ _ Hc (u16_range _))|
      exact (Address.ipv4_numeric_of_pair _ _ Hs)|exact (port_pair _ 1234 Hs ltac:(lia))].
  - eexists _, _, (i_host i). split; [cbn; rewrite Ead; exact (setup_adapter_base false b _ _ _ _ Ea)|]. split; [done|].
    split; [done|]. exact (port_pair _ 1234 Hs ltac:(lia)).
Qed.
End Start.
End Lab7Program.

(** ** The small programs *)

Module Mains.
Import TcpPrograms.

(** How a program ends: it goes on, it has returned a status, a usage text before, or
    it has called [abort]. *)
Inductive ending := Goes_on | Returned (code : Z) | Usage (code : Z) (cerr : string) | Abort_called.

(** A body inside [try], where an exception makes the status 1. *)
Definition caught {S} (body : S * result bool) : S * ending :=
  let '(s, r) := body in (s, match r with Ok true => Returned 0 | Ok false => Goes_on | Throw _ => Returned 1 end).

(** [apps/network_simulator.cc] *)
Definition network_simulator_main `{AddressText} (random : nat -> Z) : ending :=
  (caught ((NetworkSimulator.Network.network_simulator;; ret true) (NetworkSimulator.Network.empty random))).2.

(** [apps/tcp_benchmark.cc]; each of the two runs has its random string and initial
    sequence numbers. *)
Definition tcp_benchmark_main (n : nat) (isn_x1 isn_y1 isn_x2 isn_y2 : WrappingInt32) (string1 string2 : list byte) : ending :=
  match (TcpBenchmark.main_loop n false isn_x1 isn_y1 string1).2 with
  | Throw _ => Returned 1
  | Ok false => Goes_on
  | Ok true => (caught (TcpBenchmark.main_loop n true isn_x2 isn_y2 string2)).2
  end.

(** [apps/webget.cc] *)
Section WebGet.
Context {R : Address.Resolver}.
Definition webget_usage (argv0 : string) : string :=
  "Usage: " +:+ argv0 +:+ " HOST PATH" +:+ Text.newline +:+ String (Ascii.ascii_of_nat 9) "" +:+ "Example: " +:+ argv0 +:+ " stanford.edu /class/cs144" +:+ Text.newline.

(** The state of the socket and what was printed; [random] and [port] are random. *)
Definition webget_main (argv : list string) (random : nat -> Z) (port : Z) (o : outside (answer (list byte))) (turns : nat) (k : Kernel.t)
    : option (WebGet.inner * list byte) * ending :=
  match argv with
  | [] => (None, Abort_called)
  | [_; host; path] =>
      match FullStack_make random o k with
      | (_, Throw _) => (None, Returned 1)
      | (_, Ok socket) =>
          let '(s, e) := caught (WebGet.get_URL host path port (o_isn o) (o_time1 o) (o_rounds1 o) turns (([], socket), [])) in (Some s, e)
      end
  | argv0 :: _ => (None, Usage 1 (webget_usage argv0))
  end.
End WebGet.

(** [apps/tcp_native.cc]; [o_owner] holds the answers for the connected socket. *)
Section Native.
Context {R : Address.Resolver}.
Definition native_usage (argv0 : string) : string :=
  "Usage: " +:+ argv0 +:+ " [-l] <host> <port>" +:+ Text.newline +:+ Text.newline +:+
  "  -l specifies listen mode; <host>:<port> is the listening address." +:+ Text.newline.

Definition native_main {I} (argv : list string) (o : outside I) (k : Kernel.t) : Kernel.t * option Copy.t * ending :=
  let opened := match TcpNative.command_line argv with
                | TcpNative.Usage => None
                | TcpNative.Client host port => Some (TcpNative.connect_to host port k)
                | TcpNative.Server host port => Some (TcpNative.accept_one host port k)
                end in
  match opened with
  | None => (k, None, Usage 1 (native_usage (hd "" argv)))
  | Some (k, Throw _) => (k, None, Returned 1)
  | Some (k, Ok w) =>
      let '((_, c), r) := Copy.bidirectional_stream_copy (o_polls o) (descriptor w (o_owner o)) (_input o) (_output o) in
      (k, Some c, (caught (c, r)).2)
  end.
End Native.

(** [apps/tun.cc]: the loop over the packets of the device, for [turns] turns. *)
Fixpoint tun_loop (turns : nat) : M (FileDescriptor.t * string) bool :=
  match turns with
  | O => ret false
  | S turns =>
      buffer <- zoom fst (fun d s => (d, s.2)) (FileDescriptor.read FDWrapper.SIZE_MAX);;
      text <- lift (TunDump.dump_packet buffer);;
      modify (fun s => (s.1, s.2 +:+ text));;
      tun_loop turns
  end.

Definition tun_main (turns : nat) (a : answers) (k : Kernel.t) : Kernel.t * string * ending :=
  match TunTapFD.make_tun "tun144" k with
  | (k, Throw _) => (k, "", Returned 1)
  | (k, Ok w) => let '((_, cout), e) := caught (tun_loop turns (descriptor w a, "")) in (k, cout, e)
  end.

(** *** What the programs print *)

(** The packets of a TUN device are printed in the order in which they are read, each
    in full, and none is left out: whatever the kernel answers, the text printed so
    far is that of the packets read so far. *)
Theorem tun_prints_packets turns d cout d' cout' r :
  tun_loop turns (d, cout) = ((d', cout'), r) ->
  exists packets texts, Forall2 (fun p t => TunDump.dump_packet p = Ok t) packets texts /\ cout' = cout +:+ foldr String.append "" texts /\
    exists last, FileDescriptor.h_read d' = FileDescriptor.h_read d ++ concat packets ++ last /\ (r = Ok false -> last = [] /\ length packets = turns).
Proof.
  revert d cout. induction turns as [|turns IH]; intros d cout; cbn [tun_loop].
  - intros [= <- <- <-]. exists [], []. split; [constructor|]. split; [by rewrite string_app_nil_r|]. exists []. by rewrite app_nil_r.
  - unfold bind at 1, zoom at 1. cbn [fst snd]. destruct (FileDescriptor.read _ d) as [d1 [buffer|e]] eqn:Er;
      apply FileDescriptor.read_spec in Er as (_ & _ & _ & Er); try (unfold FDWrapper.SIZE_MAX; lia).
    2: { intros [= <- <- <-]. exists [], []. split; [constructor|]. split; [by rewrite string_app_nil_r|]. exists [].
         rewrite Er. by rewrite app_nil_r. }
    destruct Er as (Eh & _). rewrite bind_lift. destruct (TunDump.dump_packet buffer) as [text|e] eqn:Ed.
    + unfold bind at 1, modify at 1. cbn [fst snd]. intros E. apply IH in E as (packets & texts & Hp & -> & last & Hr & Hf).
      exists (buffer :: packets), (text :: texts). split; [by constructor|]. split; [by cbn; rewrite string_app_assoc|].
      exists last. rewrite Hr, Eh. cbn [concat length]. rewrite <- !app_assoc. split; [done|]. intros E. by destruct (Hf E) as [-> ->].
    + intros [= <- <- <-]. exists [], []. split; [constructor|]. split; [by rewrite string_app_nil_r|]. exists buffer. by rewrite Eh.
Qed.

(** With too few arguments none of the programs makes a system call, and all of
    them end with status 1. [-h] is looked at only when there are two more
    arguments: alone it counts as missing arguments. *)
Theorem usage_without_calls `{Address.Resolver} strtof random rand argv0 o o' k :
  (exists text, udp_main strtof rand [argv0; "-h"] o k = Printed 1 text) /\
  (exists text, ipv4_main strtof random rand [argv0; "-h"] o' k = Printed 1 text) /\
  (exists text, ethernet_main random rand [argv0; "-h"] o' k = Printed 1 text) /\
  udp_main strtof rand [argv0; "-h"; "host"; "port"] o k =
    match CommandLine.default_filt with
    | CommandLine.Done _ => Printed 0 (CommandLine.show_usage CommandLine.udp_lines argv0 None)
    | CommandLine.Exception e => Failed e k
    | _ => Undefined
    end.
Proof.
  split; [by eexists|]. split; [by eexists|]. split; [by eexists|]. unfold udp_main, run_main, CommandLine.udp_config. cbn [missing length Nat.ltb Nat.leb].
  unfold CommandLine.default_filt. destruct (Address.of_numeric "0" 0) as [a|e]; done.
Qed.
End Mains.
